(** * The order lifecycle engine of the trader daemon

    A shallow embedding of [src/daemon/spruce.h].  That file carries two
    complete copies of the engine: the first one (lines 179-1771) delegates
    the position store to [PositionMan], the second one (lines 1772-4462)
    keeps the store inside [Engine].  The functions that exist in both are
    embedded in [Module EngineA] (first copy) and [Module EngineB] (second
    copy) whenever their texts differ; the store operations exist only in
    the second copy and are embedded from there. *)

From Stdlib Require Import ZArith QArith Qcanon Lia Bool Ascii.
From stdpp Require Import gmap strings list fin_maps pretty sorting.

Local Open Scope Z_scope.

(** ** Amounts *)

(** Modelled from the spec: [Coin] (coinamount.h is not part of the
    sources) is "a value type with exact comparison and ratio operations",
    fixed-point decimal.  A coin is the integer count of satoshis
    (10^-8 units); the default-constructed coin is zero. *)
Definition Coin := Z.

Definition SATOSHI : Coin := 1.
Definition COIN : Coin := 100000000.
Definition Coin_default : Coin := 0.

Definition isZeroOrLess (c : Coin) : bool := c <=? 0.
Definition isGreaterThanZero (c : Coin) : bool := 0 <? c.

(** Modelled from the spec: [Coin::ratio(r)] is "multiplication by a ratio
    (with explicit rounding mode)"; the factor is given as a fraction and
    the product is truncated to a whole satoshi. *)
Definition ratio (c : Coin) (num den : Z) : Coin := (c * num) / den.

(** Modelled from the spec: a [QString] that carries a decimal amount.
    [Canon c] is the canonical eight-decimal rendering of [c] (what the
    conversion [Coin -> QString] produces), [Loose c longer] is any other
    non-empty text that parses to [c] ([longer] tells whether it has more
    characters than the canonical rendering), [Blank] is the empty string.
    Equality of texts is equality of these values. *)
Inductive QAmount : Type :=
  | Blank
  | Canon (c : Coin)
  | Loose (c : Coin) (longer : bool).

#[global] Instance QAmount_eq_dec : EqDecision QAmount.
Proof. solve_decision. Defined.

Definition toCoin (s : QAmount) : Coin :=
  match s with
  | Blank => Coin_default
  | Canon c => c
  | Loose c _ => c
  end.

Definition formatted (s : QAmount) : QAmount := Canon (toCoin s).

Definition isEmpty (s : QAmount) : bool :=
  match s with Blank => true | _ => false end.

(** [s.size() > Coin(s).size()] of the decimals check in [addPosition]. *)
Definition longer_than_formatted (s : QAmount) : bool :=
  match s with Loose _ true => true | _ => false end.

(** ** Positions and markets *)

Inductive Side : Type := SIDE_BUY | SIDE_SELL.

#[global] Instance Side_eq_dec : EqDecision Side.
Proof. solve_decision. Defined.

Inductive CancelReason : Type :=
  | NO_REASON
  | CANCELLING_FOR_DC
  | CANCELLING_FOR_SHORTLONG
  | CANCELLING_FOR_SLIPPAGE_RESET
  | CANCELLING_FOR_MAX_AGE
  | CANCELLING_LOWEST
  | CANCELLING_HIGHEST
  | CANCELLING_FOR_USER.

#[global] Instance CancelReason_eq_dec : EqDecision CancelReason.
Proof. solve_decision. Defined.

(** Modelled from the spec: the fields of [Position] (position.h is not part
    of the sources) as section 3 of the specification lists them and as the
    engine reads and writes them. *)
Record Position : Type := mkPosition {
  market : string;
  side : Side;
  market_indices : list Z;
  strategy_tag : string;
  order_number : string;
  buy_price : Coin;
  sell_price : Coin;
  buy_price_original : Coin;
  sell_price_original : Coin;
  price : QAmount;
  quantity : Coin;
  btc_amount : Coin;
  is_onetime : bool;
  is_taker : bool;
  is_landmark : bool;
  is_slippage : bool;
  is_cancelling : bool;
  is_new_hilo_order : bool;
  order_request_time : Z;
  order_set_time : Z;
  order_cancel_time : Z;
  order_getorder_time : Z;
  max_age_minutes : Z;
  cancel_reason : CancelReason;
  price_reset_count : Z
}.

(** Field updates of [Position] ([pos->field = v]). *)
Definition set_buy_price (v : Coin) (p : Position) : Position :=
  mkPosition (market p) (side p) (market_indices p) (strategy_tag p)
    (order_number p) v (sell_price p) (buy_price_original p)
    (sell_price_original p) (price p) (quantity p) (btc_amount p)
    (is_onetime p) (is_taker p) (is_landmark p) (is_slippage p)
    (is_cancelling p) (is_new_hilo_order p) (order_request_time p)
    (order_set_time p) (order_cancel_time p) (order_getorder_time p)
    (max_age_minutes p) (cancel_reason p) (price_reset_count p).

Definition set_sell_price (v : Coin) (p : Position) : Position :=
  mkPosition (market p) (side p) (market_indices p) (strategy_tag p)
    (order_number p) (buy_price p) v (buy_price_original p)
    (sell_price_original p) (price p) (quantity p) (btc_amount p)
    (is_onetime p) (is_taker p) (is_landmark p) (is_slippage p)
    (is_cancelling p) (is_new_hilo_order p) (order_request_time p)
    (order_set_time p) (order_cancel_time p) (order_getorder_time p)
    (max_age_minutes p) (cancel_reason p) (price_reset_count p).

Definition set_is_slippage (v : bool) (p : Position) : Position :=
  mkPosition (market p) (side p) (market_indices p) (strategy_tag p)
    (order_number p) (buy_price p) (sell_price p) (buy_price_original p)
    (sell_price_original p) (price p) (quantity p) (btc_amount p)
    (is_onetime p) (is_taker p) (is_landmark p) v
    (is_cancelling p) (is_new_hilo_order p) (order_request_time p)
    (order_set_time p) (order_cancel_time p) (order_getorder_time p)
    (max_age_minutes p) (cancel_reason p) (price_reset_count p).

Definition set_side (v : Side) (p : Position) : Position :=
  mkPosition
    (market p) v (market_indices p) (strategy_tag p) (order_number p)
    (buy_price p) (sell_price p) (buy_price_original p)
    (sell_price_original p) (price p) (quantity p) (btc_amount p)
    (is_onetime p) (is_taker p) (is_landmark p) (is_slippage p)
    (is_cancelling p) (is_new_hilo_order p) (order_request_time p)
    (order_set_time p) (order_cancel_time p) (order_getorder_time p)
    (max_age_minutes p) (cancel_reason p) (price_reset_count p).

Definition set_market_indices (v : list Z) (p : Position) : Position :=
  mkPosition
    (market p) (side p) v (strategy_tag p) (order_number p) (buy_price p)
    (sell_price p) (buy_price_original p) (sell_price_original p) (price p)
    (quantity p) (btc_amount p) (is_onetime p) (is_taker p) (is_landmark p)
    (is_slippage p) (is_cancelling p) (is_new_hilo_order p)
    (order_request_time p) (order_set_time p) (order_cancel_time p)
    (order_getorder_time p) (max_age_minutes p) (cancel_reason p)
    (price_reset_count p).

Definition set_order_number (v : string) (p : Position) : Position :=
  mkPosition
    (market p) (side p) (market_indices p) (strategy_tag p) v (buy_price p)
    (sell_price p) (buy_price_original p) (sell_price_original p) (price p)
    (quantity p) (btc_amount p) (is_onetime p) (is_taker p) (is_landmark p)
    (is_slippage p) (is_cancelling p) (is_new_hilo_order p)
    (order_request_time p) (order_set_time p) (order_cancel_time p)
    (order_getorder_time p) (max_age_minutes p) (cancel_reason p)
    (price_reset_count p).

Definition set_price (v : QAmount) (p : Position) : Position :=
  mkPosition
    (market p) (side p) (market_indices p) (strategy_tag p)
    (order_number p) (buy_price p) (sell_price p) (buy_price_original p)
    (sell_price_original p) v (quantity p) (btc_amount p) (is_onetime p)
    (is_taker p) (is_landmark p) (is_slippage p) (is_cancelling p)
    (is_new_hilo_order p) (order_request_time p) (order_set_time p)
    (order_cancel_time p) (order_getorder_time p) (max_age_minutes p)
    (cancel_reason p) (price_reset_count p).

Definition set_is_onetime (v : bool) (p : Position) : Position :=
  mkPosition
    (market p) (side p) (market_indices p) (strategy_tag p)
    (order_number p) (buy_price p) (sell_price p) (buy_price_original p)
    (sell_price_original p) (price p) (quantity p) (btc_amount p) v
    (is_taker p) (is_landmark p) (is_slippage p) (is_cancelling p)
    (is_new_hilo_order p) (order_request_time p) (order_set_time p)
    (order_cancel_time p) (order_getorder_time p) (max_age_minutes p)
    (cancel_reason p) (price_reset_count p).

Definition set_is_taker (v : bool) (p : Position) : Position :=
  mkPosition
    (market p) (side p) (market_indices p) (strategy_tag p)
    (order_number p) (buy_price p) (sell_price p) (buy_price_original p)
    (sell_price_original p) (price p) (quantity p) (btc_amount p)
    (is_onetime p) v (is_landmark p) (is_slippage p) (is_cancelling p)
    (is_new_hilo_order p) (order_request_time p) (order_set_time p)
    (order_cancel_time p) (order_getorder_time p) (max_age_minutes p)
    (cancel_reason p) (price_reset_count p).

Definition set_is_cancelling (v : bool) (p : Position) : Position :=
  mkPosition
    (market p) (side p) (market_indices p) (strategy_tag p)
    (order_number p) (buy_price p) (sell_price p) (buy_price_original p)
    (sell_price_original p) (price p) (quantity p) (btc_amount p)
    (is_onetime p) (is_taker p) (is_landmark p) (is_slippage p) v
    (is_new_hilo_order p) (order_request_time p) (order_set_time p)
    (order_cancel_time p) (order_getorder_time p) (max_age_minutes p)
    (cancel_reason p) (price_reset_count p).

Definition set_is_new_hilo_order (v : bool) (p : Position) : Position :=
  mkPosition
    (market p) (side p) (market_indices p) (strategy_tag p)
    (order_number p) (buy_price p) (sell_price p) (buy_price_original p)
    (sell_price_original p) (price p) (quantity p) (btc_amount p)
    (is_onetime p) (is_taker p) (is_landmark p) (is_slippage p)
    (is_cancelling p) v (order_request_time p) (order_set_time p)
    (order_cancel_time p) (order_getorder_time p) (max_age_minutes p)
    (cancel_reason p) (price_reset_count p).

Definition set_order_request_time (v : Z) (p : Position) : Position :=
  mkPosition
    (market p) (side p) (market_indices p) (strategy_tag p)
    (order_number p) (buy_price p) (sell_price p) (buy_price_original p)
    (sell_price_original p) (price p) (quantity p) (btc_amount p)
    (is_onetime p) (is_taker p) (is_landmark p) (is_slippage p)
    (is_cancelling p) (is_new_hilo_order p) v (order_set_time p)
    (order_cancel_time p) (order_getorder_time p) (max_age_minutes p)
    (cancel_reason p) (price_reset_count p).

Definition set_order_set_time (v : Z) (p : Position) : Position :=
  mkPosition
    (market p) (side p) (market_indices p) (strategy_tag p)
    (order_number p) (buy_price p) (sell_price p) (buy_price_original p)
    (sell_price_original p) (price p) (quantity p) (btc_amount p)
    (is_onetime p) (is_taker p) (is_landmark p) (is_slippage p)
    (is_cancelling p) (is_new_hilo_order p) (order_request_time p) v
    (order_cancel_time p) (order_getorder_time p) (max_age_minutes p)
    (cancel_reason p) (price_reset_count p).

Definition set_order_cancel_time (v : Z) (p : Position) : Position :=
  mkPosition
    (market p) (side p) (market_indices p) (strategy_tag p)
    (order_number p) (buy_price p) (sell_price p) (buy_price_original p)
    (sell_price_original p) (price p) (quantity p) (btc_amount p)
    (is_onetime p) (is_taker p) (is_landmark p) (is_slippage p)
    (is_cancelling p) (is_new_hilo_order p) (order_request_time p)
    (order_set_time p) v (order_getorder_time p) (max_age_minutes p)
    (cancel_reason p) (price_reset_count p).

Definition set_order_getorder_time (v : Z) (p : Position) : Position :=
  mkPosition
    (market p) (side p) (market_indices p) (strategy_tag p)
    (order_number p) (buy_price p) (sell_price p) (buy_price_original p)
    (sell_price_original p) (price p) (quantity p) (btc_amount p)
    (is_onetime p) (is_taker p) (is_landmark p) (is_slippage p)
    (is_cancelling p) (is_new_hilo_order p) (order_request_time p)
    (order_set_time p) (order_cancel_time p) v (max_age_minutes p)
    (cancel_reason p) (price_reset_count p).

Definition set_max_age_minutes (v : Z) (p : Position) : Position :=
  mkPosition
    (market p) (side p) (market_indices p) (strategy_tag p)
    (order_number p) (buy_price p) (sell_price p) (buy_price_original p)
    (sell_price_original p) (price p) (quantity p) (btc_amount p)
    (is_onetime p) (is_taker p) (is_landmark p) (is_slippage p)
    (is_cancelling p) (is_new_hilo_order p) (order_request_time p)
    (order_set_time p) (order_cancel_time p) (order_getorder_time p) v
    (cancel_reason p) (price_reset_count p).

Definition set_cancel_reason (v : CancelReason) (p : Position) : Position :=
  mkPosition
    (market p) (side p) (market_indices p) (strategy_tag p)
    (order_number p) (buy_price p) (sell_price p) (buy_price_original p)
    (sell_price_original p) (price p) (quantity p) (btc_amount p)
    (is_onetime p) (is_taker p) (is_landmark p) (is_slippage p)
    (is_cancelling p) (is_new_hilo_order p) (order_request_time p)
    (order_set_time p) (order_cancel_time p) (order_getorder_time p)
    (max_age_minutes p) v (price_reset_count p).

Definition set_buy_price_original (v : Coin) (p : Position) : Position :=
  mkPosition
    (market p) (side p) (market_indices p) (strategy_tag p)
    (order_number p) (buy_price p) (sell_price p) v (sell_price_original p)
    (price p) (quantity p) (btc_amount p) (is_onetime p) (is_taker p)
    (is_landmark p) (is_slippage p) (is_cancelling p) (is_new_hilo_order p)
    (order_request_time p) (order_set_time p) (order_cancel_time p)
    (order_getorder_time p) (max_age_minutes p) (cancel_reason p)
    (price_reset_count p).

Definition set_sell_price_original (v : Coin) (p : Position) : Position :=
  mkPosition
    (market p) (side p) (market_indices p) (strategy_tag p)
    (order_number p) (buy_price p) (sell_price p) (buy_price_original p) v
    (price p) (quantity p) (btc_amount p) (is_onetime p) (is_taker p)
    (is_landmark p) (is_slippage p) (is_cancelling p) (is_new_hilo_order p)
    (order_request_time p) (order_set_time p) (order_cancel_time p)
    (order_getorder_time p) (max_age_minutes p) (cancel_reason p)
    (price_reset_count p).


(** Modelled from the spec: [PositionData], the slot of the position index
    (declared in position.h): "{buy_price, sell_price, order_size,
    alternate_size, fill_count}"; the four amounts are stored as text. *)
Record PositionData : Type := mkPositionData {
  pd_buy_price : QAmount;
  pd_sell_price : QAmount;
  pd_order_size : QAmount;
  pd_alternate_size : QAmount;
  pd_fill_count : Z
}.

(** What [QVector<PositionData>::value(i)] returns out of range. *)
Definition PositionData_default : PositionData :=
  mkPositionData Blank Blank Blank Blank 0.

(** Modelled from the spec: [MarketInfo] (declared in market.h); the
    fields the engine functions below read or write. *)
Record MarketInfo : Type := mkMarketInfo {
  order_prices : list QAmount;
  position_index : list PositionData;
  highest_buy : Coin;
  lowest_sell : Coin;
  price_ticksize : Coin;
  price_min_mul : Coin;
  price_max_mul : Coin;
  order_dc : Z
}.

Definition MarketInfo_default : MarketInfo :=
  mkMarketInfo [] [] 0 0 0 0 0 0.

(** Field updates of [MarketInfo]. *)
Definition set_order_prices (v : list QAmount) (i : MarketInfo) : MarketInfo :=
  mkMarketInfo
    v (position_index i) (highest_buy i) (lowest_sell i) (price_ticksize i)
    (price_min_mul i) (price_max_mul i) (order_dc i).

Definition set_position_index (v : list PositionData) (i : MarketInfo) : MarketInfo :=
  mkMarketInfo
    (order_prices i) v (highest_buy i) (lowest_sell i) (price_ticksize i)
    (price_min_mul i) (price_max_mul i) (order_dc i).

Definition set_highest_buy (v : Coin) (i : MarketInfo) : MarketInfo :=
  mkMarketInfo
    (order_prices i) (position_index i) v (lowest_sell i)
    (price_ticksize i) (price_min_mul i) (price_max_mul i) (order_dc i).

Definition set_lowest_sell (v : Coin) (i : MarketInfo) : MarketInfo :=
  mkMarketInfo
    (order_prices i) (position_index i) (highest_buy i) v
    (price_ticksize i) (price_min_mul i) (price_max_mul i) (order_dc i).


(** ** The post-only price walk, [Engine::tryMoveOrder] *)

(** The two [while] loops of [tryMoveOrder].  Each recursive call is one
    iteration; [None] means the fuel ran out before the loop condition
    failed. *)
Fixpoint ratchet_buy (fuel : nat) (ticksize lo_sell original new_buy_price : Coin)
  : option Coin :=
  if (ticksize <=? new_buy_price)
     && (new_buy_price <? lo_sell - ticksize)
     && (new_buy_price <? original)
  then match fuel with
       | O => None
       | S fuel' =>
           ratchet_buy fuel' ticksize lo_sell original (new_buy_price + ticksize)
       end
  else Some new_buy_price.

Fixpoint ratchet_sell (fuel : nat) (ticksize hi_buy original new_sell_price : Coin)
  : option Coin :=
  if (ticksize * 2 <? new_sell_price)
     && (hi_buy + ticksize <? new_sell_price)
     && (original <? new_sell_price)
  then match fuel with
       | O => None
       | S fuel' =>
           ratchet_sell fuel' ticksize hi_buy original (new_sell_price - ticksize)
       end
  else Some new_sell_price.

(** [new_price != pos->price]: a coin compared with the price text. *)
Definition coin_neq_text (c : Coin) (s : QAmount) : bool :=
  negb (c =? toCoin s).

(** The tail of the buy branch, after the candidate is known. *)
Definition accept_buy (pos : Position) (lo_sell new_buy_price : Coin)
  : bool * Position :=
  if coin_neq_text new_buy_price (price pos)
     && isGreaterThanZero new_buy_price
     && (new_buy_price <=? buy_price_original pos)
     && negb (new_buy_price =? buy_price pos)
     && (new_buy_price <? lo_sell)
  then (true, set_is_slippage true (set_buy_price new_buy_price pos))
  else (false, pos).

(** The tail of the sell branch. *)
Definition accept_sell (pos : Position) (ticksize hi_buy new_sell_price : Coin)
  : bool * Position :=
  if coin_neq_text new_sell_price (price pos)
     && (ticksize <? new_sell_price)
     && (sell_price_original pos <=? new_sell_price)
     && negb (new_sell_price =? sell_price pos)
     && (hi_buy <? new_sell_price)
  then (true, set_is_slippage true (set_sell_price new_sell_price pos))
  else (false, pos).

(** Modelled from the spec: [PositionData::iterateFillCount] (first copy;
    the second copy calls it [resizeByAlternateSize]; position.h is not part
    of the sources): the fill count advances and, "when [alternate_size] is
    present, each successful fill toggles which of the two sizes is used
    next". *)
Definition iterateFillCount (d : PositionData) : PositionData :=
  if isEmpty (pd_alternate_size d)
  then mkPositionData (pd_buy_price d) (pd_sell_price d) (pd_order_size d)
         (pd_alternate_size d) (pd_fill_count d + 1)
  else mkPositionData (pd_buy_price d) (pd_sell_price d) (pd_alternate_size d)
         (pd_order_size d) (pd_fill_count d + 1).

(** Modelled from the spec: [Position::flip] (position.h): "the side
    reverses". *)
Definition other_side (s : Side) : Side :=
  match s with SIDE_BUY => SIDE_SELL | SIDE_SELL => SIDE_BUY end.

Definition Position_flip (p : Position) : Position :=
  set_side (other_side (side p)) p.

(** Modelled from the spec: the quotient of two coins, as the sort key of
    [processFilledOrders] uses it, is their exact ratio (a zero divisor
    gives zero). *)
Definition coin_div (a b : Coin) : Qc := Q2Qc (inject_Z a / inject_Z b).

Definition Qc_ltb (x y : Qc) : bool := bool_decide (x < y)%Qc.

(** The fill types of [fillNQ]. *)
Definition FILL_GETORDER : Z := 1.
Definition FILL_HISTORY : Z := 2.
Definition FILL_TICKER : Z := 3.
Definition FILL_CANCEL : Z := 4.
Definition FILL_WSS : Z := 5.

(** Modelled from the spec: what the transport delivers (declared outside
    the sources): "ticker(map<Market, {bid, ask}>, request_time_ms)" and
    "OrderInfo{id, side, price, btc_amount}". *)
Record TickerInfo : Type := mkTickerInfo {
  bid_price : Coin;
  ask_price : Coin
}.

Record OrderInfo : Type := mkOrderInfo {
  oi_order_number : string;
  oi_side : Side;
  oi_price : QAmount;
  oi_btc_amount : QAmount
}.

(** ** Containers of the engine *)

(** [QList::removeOne] and [QVector::removeOne]: the first occurrence goes. *)
Fixpoint removeOne {A : Type} `{EqDecision A} (x : A) (l : list A) : list A :=
  match l with
  | [] => []
  | y :: l' => if decide (x = y) then l' else y :: removeOne x l'
  end.

(** [QVector::contains]. *)
Definition contains {A : Type} `{EqDecision A} (l : list A) (x : A) : bool :=
  bool_decide (x ∈ l).

(** [QVector::size] as a [qint32]. *)
Definition qsize {A : Type} (l : list A) : Z := Z.of_nat (length l).

(** [QVector::value(i)]: the element, or a default-constructed one when [i]
    is out of bounds. *)
Definition value {A : Type} (l : list A) (i : Z) (d : A) : A :=
  if 0 <=? i then nth (Z.to_nat i) l d else d.

(** A [QMap<K,V>] is kept as the list of its entries in ascending key order,
    which is the order its iterators follow.  [QMap::insert] replaces the
    value of an equivalent key. *)
Fixpoint qmap_insert {K V : Type} (ltb : K -> K -> bool) (k : K) (v : V)
    (m : list (K * V)) : list (K * V) :=
  match m with
  | [] => [(k, v)]
  | (k', v') :: m' =>
      if ltb k k' then (k, v) :: m
      else if ltb k' k then (k', v') :: qmap_insert ltb k v m'
      else (k', v) :: m'
  end.

(** [QMap::remove]. *)
Definition qmap_remove {K V : Type} `{EqDecision K} (k : K) (m : list (K * V))
  : list (K * V) :=
  filter (fun kv => kv.1 <> k) m.

(** Positions live on the heap and are known by their address.  Addresses
    are handed out in increasing order and never reused. *)
Abbreviation ptr := positive (only parsing).

(** [operator<] of [QVector<Position*>]: lexicographic on the addresses. *)
Fixpoint ptrs_ltb (a b : list ptr) : bool :=
  match a, b with
  | _, [] => false
  | [], _ :: _ => true
  | x :: a', y :: b' =>
      if (x <? y)%positive then true
      else if (y <? x)%positive then false
      else ptrs_ltb a' b'
  end.

(** ** The engine *)

Inductive Exchange : Type :=
  | EXCHANGE_BITTREX
  | EXCHANGE_BINANCE
  | EXCHANGE_POLONIEX.

#[global] Instance Exchange_eq_dec : EqDecision Exchange.
Proof. solve_decision. Defined.

(** Modelled from the spec: the settings the embedded functions read
    (enginesettings.h is not part of the sources); times are milliseconds. *)
Record EngineSettings : Type := mkEngineSettings {
  should_clear_stray_orders : bool;
  should_clear_stray_orders_all : bool;
  should_mitigate_blank_orderbook_flash : bool;
  stray_grace_time_limit : Z;
  safety_delay_time : Z;
  ticker_safety_delay_time : Z;
  cancel_timeout : Z
}.

(** What the engine asks of its collaborators, in the order it asks:
    the transport ([rest->...]) and the statistics ([stats->...]).
    [Dispatch] marks an entry into [fillNQ]. *)
Inductive Effect : Type :=
  | RestSendBuySell (pos : ptr)
  | RestSendCancel (order_id : string) (pos : option ptr)
  | RestGetOrder (order_id : string) (pos : ptr)
  | RestRemoveGetOrder (order_id : string)
  | StatsUpdate (pos : ptr)
  | StatsStrategy (pos : ptr)
  | Dispatch (order_id : string) (fill_type : Z).

#[global] Instance Effect_eq_dec : EqDecision Effect.
Proof. solve_decision. Defined.

(** The state of the engine: the build ([exchange]) and mode flags, the
    heap of positions with the store's indices over it, the market table, the
    two diverge/converge maps, the grace times of stray orders, the cancel-all
    state, the positions bound to requests in flight, and the requests made
    so far.  [wss_1000_state] is the transport's flag for a live websocket
    account feed (read on Poloniex builds). *)
Record Engine : Type := mkEngine {
  exchange : Exchange;
  is_testing : bool;
  wss_1000_state : bool;
  m_settings : EngineSettings;
  heap : gmap ptr Position;
  next_ptr : ptr;
  positions_queued : gset ptr;
  positions_active : gset ptr;
  positions_all : gset ptr;
  positions_by_number : gmap string ptr;
  market_info : gmap string MarketInfo;
  diverge_converge : list (list ptr * (bool * list Z));
  diverging_converging : gmap string (list Z);
  order_grace_times : gmap string Z;
  is_running_cancelall : bool;
  cancel_market_filter : string;
  nam_queue_sent : list (option ptr);
  trace : list Effect
}.

(** Field updates of [Engine]. *)
Definition set_heap (v : gmap ptr Position) (e : Engine) : Engine :=
  mkEngine
    (exchange e) (is_testing e) (wss_1000_state e) (m_settings e) v
    (next_ptr e) (positions_queued e) (positions_active e)
    (positions_all e) (positions_by_number e) (market_info e)
    (diverge_converge e) (diverging_converging e) (order_grace_times e)
    (is_running_cancelall e) (cancel_market_filter e) (nam_queue_sent e)
    (trace e).

Definition set_next_ptr (v : ptr) (e : Engine) : Engine :=
  mkEngine
    (exchange e) (is_testing e) (wss_1000_state e) (m_settings e) (heap e)
    v (positions_queued e) (positions_active e) (positions_all e)
    (positions_by_number e) (market_info e) (diverge_converge e)
    (diverging_converging e) (order_grace_times e) (is_running_cancelall e)
    (cancel_market_filter e) (nam_queue_sent e) (trace e).

Definition set_positions_queued (v : gset ptr) (e : Engine) : Engine :=
  mkEngine
    (exchange e) (is_testing e) (wss_1000_state e) (m_settings e) (heap e)
    (next_ptr e) v (positions_active e) (positions_all e)
    (positions_by_number e) (market_info e) (diverge_converge e)
    (diverging_converging e) (order_grace_times e) (is_running_cancelall e)
    (cancel_market_filter e) (nam_queue_sent e) (trace e).

Definition set_positions_active (v : gset ptr) (e : Engine) : Engine :=
  mkEngine
    (exchange e) (is_testing e) (wss_1000_state e) (m_settings e) (heap e)
    (next_ptr e) (positions_queued e) v (positions_all e)
    (positions_by_number e) (market_info e) (diverge_converge e)
    (diverging_converging e) (order_grace_times e) (is_running_cancelall e)
    (cancel_market_filter e) (nam_queue_sent e) (trace e).

Definition set_positions_all (v : gset ptr) (e : Engine) : Engine :=
  mkEngine
    (exchange e) (is_testing e) (wss_1000_state e) (m_settings e) (heap e)
    (next_ptr e) (positions_queued e) (positions_active e) v
    (positions_by_number e) (market_info e) (diverge_converge e)
    (diverging_converging e) (order_grace_times e) (is_running_cancelall e)
    (cancel_market_filter e) (nam_queue_sent e) (trace e).

Definition set_positions_by_number (v : gmap string ptr) (e : Engine) : Engine :=
  mkEngine
    (exchange e) (is_testing e) (wss_1000_state e) (m_settings e) (heap e)
    (next_ptr e) (positions_queued e) (positions_active e)
    (positions_all e) v (market_info e) (diverge_converge e)
    (diverging_converging e) (order_grace_times e) (is_running_cancelall e)
    (cancel_market_filter e) (nam_queue_sent e) (trace e).

Definition set_market_info (v : gmap string MarketInfo) (e : Engine) : Engine :=
  mkEngine
    (exchange e) (is_testing e) (wss_1000_state e) (m_settings e) (heap e)
    (next_ptr e) (positions_queued e) (positions_active e)
    (positions_all e) (positions_by_number e) v (diverge_converge e)
    (diverging_converging e) (order_grace_times e) (is_running_cancelall e)
    (cancel_market_filter e) (nam_queue_sent e) (trace e).

Definition set_diverge_converge (v : list (list ptr * (bool * list Z))) (e : Engine) : Engine :=
  mkEngine
    (exchange e) (is_testing e) (wss_1000_state e) (m_settings e) (heap e)
    (next_ptr e) (positions_queued e) (positions_active e)
    (positions_all e) (positions_by_number e) (market_info e) v
    (diverging_converging e) (order_grace_times e) (is_running_cancelall e)
    (cancel_market_filter e) (nam_queue_sent e) (trace e).

Definition set_diverging_converging (v : gmap string (list Z)) (e : Engine) : Engine :=
  mkEngine
    (exchange e) (is_testing e) (wss_1000_state e) (m_settings e) (heap e)
    (next_ptr e) (positions_queued e) (positions_active e)
    (positions_all e) (positions_by_number e) (market_info e)
    (diverge_converge e) v (order_grace_times e) (is_running_cancelall e)
    (cancel_market_filter e) (nam_queue_sent e) (trace e).

Definition set_order_grace_times (v : gmap string Z) (e : Engine) : Engine :=
  mkEngine
    (exchange e) (is_testing e) (wss_1000_state e) (m_settings e) (heap e)
    (next_ptr e) (positions_queued e) (positions_active e)
    (positions_all e) (positions_by_number e) (market_info e)
    (diverge_converge e) (diverging_converging e) v
    (is_running_cancelall e) (cancel_market_filter e) (nam_queue_sent e)
    (trace e).

Definition set_is_running_cancelall (v : bool) (e : Engine) : Engine :=
  mkEngine
    (exchange e) (is_testing e) (wss_1000_state e) (m_settings e) (heap e)
    (next_ptr e) (positions_queued e) (positions_active e)
    (positions_all e) (positions_by_number e) (market_info e)
    (diverge_converge e) (diverging_converging e) (order_grace_times e) v
    (cancel_market_filter e) (nam_queue_sent e) (trace e).

Definition set_nam_queue_sent (v : list (option ptr)) (e : Engine) : Engine :=
  mkEngine
    (exchange e) (is_testing e) (wss_1000_state e) (m_settings e) (heap e)
    (next_ptr e) (positions_queued e) (positions_active e)
    (positions_all e) (positions_by_number e) (market_info e)
    (diverge_converge e) (diverging_converging e) (order_grace_times e)
    (is_running_cancelall e) (cancel_market_filter e) v (trace e).

Definition set_trace (v : list Effect) (e : Engine) : Engine :=
  mkEngine
    (exchange e) (is_testing e) (wss_1000_state e) (m_settings e) (heap e)
    (next_ptr e) (positions_queued e) (positions_active e)
    (positions_all e) (positions_by_number e) (market_info e)
    (diverge_converge e) (diverging_converging e) (order_grace_times e)
    (is_running_cancelall e) (cancel_market_filter e) (nam_queue_sent e) v.

(** [QSet::contains]. *)
Definition isActivePosition (e : Engine) (pos : ptr) : bool :=
  bool_decide (pos ∈ positions_active e).

Definition isQueuedPosition (e : Engine) (pos : ptr) : bool :=
  bool_decide (pos ∈ positions_queued e).

Definition isPosition (e : Engine) (pos : ptr) : bool :=
  bool_decide (pos ∈ positions_all e).

Definition isPositionOrderID (e : Engine) (order_id : string) : bool :=
  bool_decide (is_Some (positions_by_number e !! order_id)).

Definition getPositionForOrderID (e : Engine) (order_id : string) : option ptr :=
  positions_by_number e !! order_id.

(** [market_info[ market ]]: a missing market reads as a default-constructed
    [MarketInfo]. *)
Definition info_of (e : Engine) (m : string) : MarketInfo :=
  default MarketInfo_default (market_info e !! m).

Definition update_info (m : string) (f : MarketInfo -> MarketInfo) (e : Engine)
  : Engine :=
  set_market_info (<[m := f (info_of e m)]> (market_info e)) e.

(** [diverging_converging[ market ]]. *)
Definition dc_indices (e : Engine) (m : string) : list Z :=
  default [] (diverging_converging e !! m).

Definition update_dc_indices (m : string) (f : list Z -> list Z) (e : Engine)
  : Engine :=
  set_diverging_converging (<[m := f (dc_indices e m)]> (diverging_converging e)) e.

Definition isIndexDivergingConverging (e : Engine) (m : string) (index : Z) : bool :=
  contains (dc_indices e m) index.

(** A write through a position pointer. *)
Definition update_pos (pos : ptr) (f : Position -> Position) (e : Engine) : Engine :=
  set_heap (alter f pos (heap e)) e.

Definition emit (x : Effect) (e : Engine) : Engine :=
  set_trace (trace e ++ [x]) e.

(** ** The second copy of the engine (spruce.h:1772-4462) *)

Module EngineB.

(** spruce.h:3946-4049: the same text with the two sanity bounds replaced by
    [isGreaterThanZero]. *)
Definition tryMoveOrder (fuel : nat) (pos : Position) (_info : MarketInfo)
  : option (bool * Position) :=
  let hi_buy := highest_buy _info in
  let lo_sell := lowest_sell _info in
  if isZeroOrLess hi_buy || isZeroOrLess lo_sell then Some (false, pos)
  else
    let ticksize := price_ticksize _info in
    match side pos with
    | SIDE_BUY =>
        if (lo_sell <=? buy_price pos) && (ticksize <? lo_sell)
        then Some (true, set_is_slippage true (set_buy_price (lo_sell - ticksize) pos))
        else
          new_buy_price ←
            (if isGreaterThanZero lo_sell
             then ratchet_buy fuel ticksize lo_sell (buy_price_original pos)
                    (buy_price pos)
             else Some Coin_default);
          Some (accept_buy pos lo_sell new_buy_price)
    | SIDE_SELL =>
        if sell_price pos <=? hi_buy
        then Some (true, set_is_slippage true (set_sell_price (hi_buy + ticksize) pos))
        else
          new_sell_price ←
            (if isGreaterThanZero hi_buy
             then ratchet_sell fuel ticksize hi_buy (sell_price_original pos)
                    (sell_price pos)
             else Some Coin_default);
          Some (accept_sell pos ticksize hi_buy new_sell_price)
    end.

(** The tick count that bounds both loops of [tryMoveOrder], and the call
    as the rest of the engine makes it.  With a positive tick the fuel always
    suffices ([tryMoveOrder_returns] below); with a tick of zero or less the
    source may loop forever, and the call is then taken to change nothing. *)
Definition walk_fuel (pos : Position) (_info : MarketInfo) : nat :=
  Z.to_nat (Z.max (lowest_sell _info / price_ticksize _info)
                  (sell_price pos / price_ticksize _info)).

Definition tryMoveOrder_call (pos : Position) (_info : MarketInfo)
  : bool * Position :=
  default (false, pos) (tryMoveOrder (walk_fuel pos _info) pos _info).

(** *** Transport *)

(** Modelled from the spec: [rest->sendBuySell( pos, quiet )] (baserest.h
    is not part of the sources) submits the order; the submission stamps
    [order_request_time]. *)
Definition sendBuySell (pos : ptr) (now : Z) (e : Engine) : Engine :=
  update_pos pos (set_order_request_time now) (emit (RestSendBuySell pos) e).

(** Modelled from the spec: [rest->sendCancel( order_id, pos )] submits the
    cancel; for a position of ours "set is_cancelling, order_cancel_time =
    now ... submit cancel". *)
Definition sendCancel (order_id : string) (pos : option ptr) (now : Z)
    (e : Engine) : Engine :=
  let e := emit (RestSendCancel order_id pos) e in
  match pos with
  | Some p =>
      update_pos p (fun x => set_order_cancel_time now (set_is_cancelling true x)) e
  | None => e
  end.

(** *** The position store *)

(** spruce.h:3783-3803. *)
Definition removeFromDC (pos : ptr) (p : Position) (e : Engine) : Engine :=
  let e :=
    match list_find (fun kv => pos ∈ kv.1) (diverge_converge e) with
    | Some (_, (positions, _)) =>
        set_diverge_converge (qmap_remove positions (diverge_converge e)) e
    | None => e
    end in
  foldl (fun e idx => update_dc_indices (market p) (removeOne idx) e)
        e (market_indices p).

(** spruce.h:4397-4440.  [nam_queue_sent] holds, for every request in
    flight, the position it is bound to. *)
Definition deletePosition (pos : ptr) (e : Engine) : Engine :=
  if negb (isActivePosition e pos) && negb (isQueuedPosition e pos) then e
  else
    match heap e !! pos with
    | None => e
    | Some p =>
        let e := removeFromDC pos p e in
        let e := set_nam_queue_sent
                   (filter (fun r => r <> Some pos) (nam_queue_sent e)) e in
        let e := set_positions_active (positions_active e ∖ {[pos]}) e in
        let e := set_positions_queued (positions_queued e ∖ {[pos]}) e in
        let e := set_positions_all (positions_all e ∖ {[pos]}) e in
        let e := set_positions_by_number
                   (delete (order_number p) (positions_by_number e)) e in
        let e := update_info (market p)
                   (fun i => set_order_prices (removeOne (price p) (order_prices i)) i)
                   e in
        set_heap (delete pos (heap e)) e
    end.

(** spruce.h:2593-2644. *)
Definition cancelOrder (pos : ptr) (quiet : bool) (reason : CancelReason)
    (now : Z) (e : Engine) : Engine :=
  if negb (isPosition e pos) then e
  else if is_testing e then deletePosition pos e
  else
    let e := update_pos pos (set_cancel_reason reason) e in
    if isQueuedPosition e pos
    then update_pos pos
           (fun x => set_order_cancel_time 1 (set_is_cancelling true x)) e
    else
      match heap e !! pos with
      | Some p => sendCancel (order_number p) (Some pos) now e
      | None => e
      end.

(** spruce.h:2763-2810. *)
Definition setOrderMeat (pos : ptr) (order_number' : string) (now : Z)
    (e : Engine) : Engine :=
  if bool_decide (order_number' = "") then e
  else
    let e := update_pos pos
               (fun x => set_is_new_hilo_order false (set_order_set_time now x)) e in
    let e := set_positions_queued (positions_queued e ∖ {[pos]}) e in
    let e := set_positions_active (positions_active e ∪ {[pos]}) e in
    let e := set_positions_by_number
               (<[order_number' := pos]> (positions_by_number e)) e in
    let e := update_pos pos
               (fun x =>
                  if is_testing e then set_order_number order_number' x
                  else match exchange e with
                       | EXCHANGE_BINANCE =>
                           set_order_number (market x +:+ order_number') x
                       | _ => set_order_number order_number' x
                       end) e in
    match heap e !! pos with
    | Some p =>
        if is_cancelling p
           && (order_cancel_time p <? now - cancel_timeout (m_settings e))
        then cancelOrder pos true (cancel_reason p) now e
        else e
    | None => e
    end.

(** *** Creating positions *)

(** [QString::toInt] on the text after [-timeout], in base 10: white space
    around the number is skipped, a sign may come first, at least one
    decimal digit follows and nothing else; the value has to fit the 32-bit
    [int], anything else fails (and [ok] is cleared). *)
Definition is_space (c : Ascii.ascii) : bool :=
  let n := Z.of_nat (Ascii.nat_of_ascii c) in
  ((9 <=? n) && (n <=? 13)) || (n =? 32).

Definition is_digit (c : Ascii.ascii) : bool :=
  let n := Z.of_nat (Ascii.nat_of_ascii c) in
  (48 <=? n) && (n <=? 57).

Fixpoint skip_spaces (s : string) : string :=
  match s with
  | String c s' => if is_space c then skip_spaces s' else s
  | EmptyString => s
  end.

Fixpoint digits_value (acc : Z) (s : string) : option Z :=
  match s with
  | EmptyString => Some acc
  | String c s' =>
      if is_digit c
      then digits_value (acc * 10 + (Z.of_nat (Ascii.nat_of_ascii c) - 48)) s'
      else match skip_spaces s with
           | EmptyString => Some acc
           | _ => None
           end
  end.

(** A run of digits that is not empty. *)
Definition number_value (s : string) : option Z :=
  match s with
  | String c _ => if is_digit c then digits_value 0 s else None
  | EmptyString => None
  end.

Definition INT_MIN : Z := -2147483648.
Definition INT_MAX : Z := 2147483647.

Definition toInt (s : string) : option Z :=
  let signed :=
    match skip_spaces s with
    | String "-"%char s' => Z.opp <$> number_value s'
    | String "+"%char s' => number_value s'
    | s' => number_value s'
    end in
  match signed with
  | Some v => if (INT_MIN <=? v) && (v <=? INT_MAX) then Some v else None
  | None => None
  end.

(** [QString::contains] and [QString::startsWith]. *)
Definition str_contains (s sub : string) : bool :=
  bool_decide (is_Some (String.index 0 sub s)).

Definition startsWith (s pre : string) : bool := String.prefix pre s.

(** The product of two fixed-point coins. *)
Definition coin_mul (a b : Coin) : Coin := (a * b) / COIN.

(** Modelled from the spec: [Position::getLowestMarketIndex] (position.h),
    the least of the spanned slot indices. *)
Definition getLowestMarketIndex (p : Position) : Z :=
  match market_indices p with
  | [] => 0
  | i :: l => foldr Z.min i l
  end.

(** The price of the side the position is on. *)
Definition side_price (p : Position) : Coin :=
  match side p with
  | SIDE_BUY => buy_price p
  | SIDE_SELL => sell_price p
  end.

(** Modelled from the spec: [Position::applyOffset] (position.h) sets
    [price], "the currently active side's price after offset/sentiment is
    applied"; the offset and the sentiment are floating-point settings and
    are taken at their neutral values. *)
Definition applyOffset (p : Position) : Position :=
  set_price (Canon (side_price p)) p.

(** Modelled from the spec: the constructor of [Position] (position.h).
    The identity fields are the arguments; the original prices are
    "captured at construction"; a landmark substitutes "the real prices ...
    when the slot data is consulted" (the prices of its first slot, the sizes
    of all its slots added up) for the placeholders it is given;
    [btc_amount] is the order size, [quantity] what it buys at the price of
    the active side; every flag is off and every time stamp zero. *)
Definition Position_new (market' : string) (side' : Side)
    (buy sell size : QAmount) (tag : string) (indices : list Z)
    (landmark : bool) (info : MarketInfo) : Position :=
  let slot i := value (position_index info) i PositionData_default in
  let first := slot (value indices 0 0) in
  let b := if landmark then toCoin (pd_buy_price first) else toCoin buy in
  let s := if landmark then toCoin (pd_sell_price first) else toCoin sell in
  let sz := if landmark
            then foldr (fun i acc => toCoin (pd_order_size (slot i)) + acc) 0 indices
            else toCoin size in
  let pr := match side' with SIDE_BUY => b | SIDE_SELL => s end in
  mkPosition market' side' indices tag "" b s b s (Canon pr)
    (if 0 <? pr then (sz * COIN) / pr else 0) sz
    false false landmark false false false 0 0 0 0 0 NO_REASON 0.

(** An order size as [addPosition] receives it: the text before the slash
    and, when there is a slash, the text after it. *)
Definition SizeText : Type := QAmount * option QAmount.

(** The [-timeoutN] suffix of a one-time order type. *)
Definition parse_timeout (type : string) : option Z :=
  match String.index 0 "-timeout" type with
  | Some i =>
      let read_from := (i + 8)%nat in
      toInt (String.substring read_from (String.length type - read_from) type)
  | None => None
  end.

(** Binance's PERCENT_PRICE bound, spruce.h:1980-1996. *)
Definition hits_percent_price (pos : Position) (info : MarketInfo) : bool :=
  let buy_limit := coin_mul (highest_buy info) (ratio (price_min_mul info) 12 10) in
  let sell_limit := coin_mul (lowest_sell info) (ratio (price_max_mul info) 8 10) in
  (bool_decide (side pos = SIDE_BUY) && isGreaterThanZero (buy_price pos)
     && isGreaterThanZero buy_limit && (buy_price pos <? buy_limit))
  || (bool_decide (side pos = SIDE_SELL) && isGreaterThanZero (sell_price pos)
     && isGreaterThanZero sell_limit && (sell_limit <? sell_price pos)).

(** [QString::replace( QChar, QChar )]: every occurrence of the character
    is replaced. *)
Fixpoint replace_char (before after : Ascii.ascii) (s : string) : string :=
  match s with
  | EmptyString => EmptyString
  | String c s' =>
      String (if bool_decide (c = before) then after else c)
             (replace_char before after s')
  end.

(** spruce.h:1853-1858: the name of the market is brought to the spelling
    of the exchange the build is for. *)
Definition spell_market (ex : Exchange) (market' : string) : string :=
  match ex with
  | EXCHANGE_BITTREX => replace_char "_"%char "-"%char market'
  | EXCHANGE_POLONIEX => replace_char "-"%char "_"%char market'
  | EXCHANGE_BINANCE => market'
  end.

(** [addPosition] is embedded in the order of its text: the spelling of
    the market (spruce.h:1853-1858), the checks of the arguments
    (1860-1948), the new slot (1950-1962), the
    construction (1968-1996), the flags and the price walk (1998-2018), and
    the registration (2020-2036). *)

(** The checks that reject the arguments before anything is changed. *)
Definition rejects_arguments (market' : string) (side' : Side)
    (buy_price' sell_price' order_size alternate_size : QAmount)
    (type : string) (landmark : bool) (info : MarketInfo) : bool :=
  let is_onetime' := startsWith type "onetime" in
  let is_taker' := str_contains type "-taker" in
  let is_ghost := bool_decide (type = "ghost") in
  let is_active := bool_decide (type = "active") in
  let is_override := str_contains type "-override" in
  (negb is_active && negb is_ghost && negb is_onetime')
  || (bool_decide (market' = "") || isEmpty buy_price' || isEmpty sell_price'
      || isEmpty order_size)
  || (landmark && is_onetime')
  || ((negb is_onetime'
         && ((toCoin sell_price' <=? toCoin buy_price')
             || isZeroOrLess (toCoin buy_price')
             || isZeroOrLess (toCoin sell_price')))
      || (is_onetime' && bool_decide (side' = SIDE_BUY)
            && isZeroOrLess (toCoin buy_price'))
      || (is_onetime' && bool_decide (side' = SIDE_SELL)
            && isZeroOrLess (toCoin sell_price'))
      || (is_onetime' && negb (isEmpty alternate_size)
            && isZeroOrLess (toCoin alternate_size)))
  || (longer_than_formatted buy_price' || longer_than_formatted sell_price'
      || longer_than_formatted order_size)
  || (negb is_override && is_taker'
      && ((bool_decide (side' = SIDE_SELL)
             && (toCoin sell_price' <? ratio (highest_buy info) 9 10))
          || (bool_decide (side' = SIDE_SELL)
                && (ratio (highest_buy info) 11 10 <? toCoin sell_price'))
          || (bool_decide (side' = SIDE_BUY)
                && (ratio (lowest_sell info) 11 10 <? toCoin buy_price'))
          || (bool_decide (side' = SIDE_BUY)
                && (toCoin buy_price' <? ratio (lowest_sell info) 9 10)))).

(** The check of the constructed position and, on a Binance build, the
    PERCENT_PRICE bound. *)
Definition fails_to_initialize (pos : Position) : bool :=
  bool_decide (market pos = "") || isEmpty (price pos)
  || isZeroOrLess (btc_amount pos) || isZeroOrLess (quantity pos).

Definition rejects_position (e : Engine) (pos : Position) : bool :=
  fails_to_initialize pos
  || (bool_decide (exchange e = EXCHANGE_BINANCE)
      && hits_percent_price pos (info_of e (market pos))).

(** The flags, the timeout of a one-time order and the post-only price
    improvement. *)
Definition finish_position (type : string) (pos : Position) (info : MarketInfo)
  : Position :=
  let is_onetime' := startsWith type "onetime" in
  let is_taker' := str_contains type "-taker" in
  let pos := set_is_taker is_taker' (set_is_onetime is_onetime' pos) in
  let pos :=
    if is_onetime' && str_contains type "-timeout"
    then match parse_timeout type with
         | Some timeout =>
             if 0 <? timeout then set_max_age_minutes timeout pos else pos
         | None => pos
         end
    else pos in
  if negb is_taker'
  then let '(moved, pos') := tryMoveOrder_call pos info in
       if moved then applyOffset pos' else pos'
  else pos.

(** The registration: the position is queued under a fresh address and then
    either set at once (tests) or submitted. *)
Definition register_position (pos : Position) (now : Z) (e : Engine)
  : Engine * option ptr :=
  let a := next_ptr e in
  let e := set_next_ptr (Pos.succ a) e in
  let e := set_heap (<[a := pos]> (heap e)) e in
  let e := set_positions_queued (positions_queued e ∪ {[a]}) e in
  let e := set_positions_all (positions_all e ∪ {[a]}) e in
  let e := update_info (market pos)
             (fun i => set_order_prices (order_prices i ++ [price pos]) i) e in
  if is_testing e
  then
    let number := market pos +:+ pretty (getLowestMarketIndex pos) in
    let e := update_pos a (set_order_number number) e in
    (setOrderMeat a number now e, Some a)
  else (sendBuySell a now e, Some a).

(** spruce.h:1849-2037.  The result is the engine after the call and the
    pointer returned ([None] for [nullptr]). *)
Definition addPosition (market' : string) (side' : Side)
    (buy_price' sell_price' : QAmount) (order_size' : SizeText)
    (type tag : string) (indices : list Z) (landmark quiet : bool)
    (now : Z) (e : Engine) : Engine * option ptr :=
  let market' := spell_market (exchange e) market' in
  let alternate_size :=
    match order_size'.2 with Some a => formatted a | None => Blank end in
  let order_size := order_size'.1 in
  let is_onetime' := startsWith type "onetime" in
  let is_active := bool_decide (type = "active") in
  if rejects_arguments market' side' buy_price' sell_price' order_size
       alternate_size type landmark (info_of e market')
  then (e, None)
  else
    let buy_price' := formatted buy_price' in
    let sell_price' := formatted sell_price' in
    let order_size := formatted order_size in
    let '(e, indices) :=
      if negb is_onetime' && bool_decide (indices = [])
      then
        let posdata := mkPositionData buy_price' sell_price' order_size
                         alternate_size 0 in
        (update_info market'
           (fun i => set_position_index (position_index i ++ [posdata]) i) e,
         [qsize (position_index (info_of e market'))])
      else (e, indices) in
    if negb is_onetime' && negb is_active then (e, None)
    else
      let pos := Position_new market' side' buy_price' sell_price' order_size
                   tag indices landmark (info_of e market') in
      if rejects_position e pos then (e, None)
      else register_position (finish_position type pos (info_of e market')) now e.

(** spruce.h:2039-2044: the placeholders "0.00000001", "0.00000002" and
    "0.00000000". *)
Definition addLandmarkPositionFor (p : Position) (now : Z) (e : Engine)
  : Engine * option ptr :=
  addPosition (market p) (side p) (Canon 1) (Canon 2) (Canon 0, None)
    "active" "" (market_indices p) true true now e.

(** *** Fills *)

(** spruce.h:3147-3173. *)
Definition flipPosition (pos : ptr) (now : Z) (e : Engine) : Engine :=
  match heap e !! pos with
  | None => e
  | Some p =>
      if is_onetime p then e
      else
        let e := update_pos pos Position_flip e in
        let p := Position_flip p in
        let e := if bool_decide (cancel_reason p = CANCELLING_FOR_SHORTLONG)
                 then emit (StatsStrategy pos) e else e in
        if is_landmark p then (addLandmarkPositionFor p now e).1
        else
          let new_data :=
            value (position_index (info_of e (market p)))
                  (value (market_indices p) 0 0) PositionData_default in
          (addPosition (market p) (side p) (pd_buy_price new_data)
             (pd_sell_price new_data) (pd_order_size new_data, None)
             "active" "" (market_indices p) false true now e).1
  end.

(** The loop of [fillNQ] over [market_indices]: one slot.  The source
    guards the upper bound only; a negative index is outside the contract
    of [QVector::operator[]] and is taken to change nothing. *)
Definition fill_slot (m : string) (e : Engine) (idx : Z) : Engine :=
  if qsize (position_index (info_of e m)) <=? idx then e
  else if idx <? 0 then e
  else update_info m
         (fun i => set_position_index
                     (alter iterateFillCount (Z.to_nat idx) (position_index i)) i) e.

(** spruce.h:2046-2125. *)
Definition fillNQ (order_id : string) (fill_type extra_data : Z) (now : Z)
    (e : Engine) : Engine :=
  let e := emit (Dispatch order_id fill_type) e in
  if (fill_type <? 1) || (5 <? fill_type) then e
  else if bool_decide (order_id = "") || negb (isPositionOrderID e order_id) then e
  else
    match getPositionForOrderID e order_id with
    | None => e
    | Some pos =>
        match heap e !! pos with
        | None => e
        | Some p =>
            let e := emit (StatsUpdate pos) e in
            let e := foldl (fill_slot (market p)) e (market_indices p) in
            let e := flipPosition pos now e in
            if is_testing e then deletePosition pos e
            else
              let e := if bool_decide (exchange e = EXCHANGE_BITTREX)
                       then emit (RestRemoveGetOrder order_id) e else e in
              deletePosition pos e
        end
    end.

(** The order number a position pointer leads to. *)
Definition order_number_of (e : Engine) (pos : ptr) : string :=
  default "" (order_number <$> heap e !! pos).

(** The first loop of [processFilledOrders]: the [QMap<Coin,Position*>]
    filled by [QMap::insert]. *)
Definition sorted_fills (key : Position -> Qc) (e : Engine)
    (filled_positions : list ptr) : list (Qc * ptr) :=
  foldl (fun sorted pos =>
           match heap e !! pos with
           | Some p => qmap_insert Qc_ltb (key p) pos sorted
           | None => sorted
           end) [] filled_positions.

(** The second loop: every value of the map goes through [fillNQ]. *)
Definition dispatch_fills (fill_type : Z) (now : Z) (sorted : list (Qc * ptr))
    (e : Engine) : Engine :=
  foldl (fun e kv => fillNQ (order_number_of e kv.2) fill_type 0 now e) e sorted.

(** spruce.h:2127-2136. *)
Definition processFilledOrders (filled_positions : list ptr) (fill_type : Z)
    (now : Z) (e : Engine) : Engine :=
  dispatch_fills fill_type now
    (sorted_fills (fun p => coin_div (buy_price p) (sell_price p)) e filled_positions)
    e.

(** *** Cancels *)

(** spruce.h:2684-2761. *)
Definition cancelOrderMeatDCOrder (pos : ptr) (now : Z) (e : Engine) : Engine :=
  match heap e !! pos with
  | None => e
  | Some p =>
      match list_find (fun kv => pos ∈ kv.1) (diverge_converge e) with
      | None => e
      | Some (_, (positions, (new_order_is_landmark, new_indices))) =>
          let e := set_diverge_converge
                     (qmap_remove positions (diverge_converge e)) e in
          let cancelling_positions := removeOne pos positions in
          if bool_decide (cancelling_positions = [])
          then
            if new_order_is_landmark
            then
              let e := foldl (fun e idx =>
                                update_dc_indices (market p) (removeOne idx) e)
                             e new_indices in
              let e := update_pos pos (set_market_indices new_indices) e in
              (addLandmarkPositionFor (set_market_indices new_indices p) now e).1
            else
              foldl (fun e idx =>
                       let e := update_dc_indices (market p) (removeOne idx) e in
                       let info := info_of e (market p) in
                       if bool_decide (position_index info = []) then e
                       else
                         let data := value (position_index info) idx
                                       PositionData_default in
                         (addPosition (market p) (side p) (pd_buy_price data)
                            (pd_sell_price data) (pd_order_size data, None)
                            "active" "" [idx] false true now e).1)
                    e new_indices
          else
            set_diverge_converge
              (qmap_insert ptrs_ltb cancelling_positions
                 (new_order_is_landmark, new_indices) (diverge_converge e)) e
      end
  end.

(** spruce.h:2451-2488. *)
Definition processCancelledOrder (pos : ptr) (now : Z) (e : Engine) : Engine :=
  match heap e !! pos with
  | None => e
  | Some p =>
      if is_slippage p
         && bool_decide (cancel_reason p = CANCELLING_FOR_SLIPPAGE_RESET)
      then
        if is_landmark p
        then deletePosition pos (addLandmarkPositionFor p now e).1
        else
          let new_pos :=
            value (position_index (info_of e (market p)))
                  (value (market_indices p) 0 0) PositionData_default in
          deletePosition pos
            (addPosition (market p) (side p) (pd_buy_price new_pos)
               (pd_sell_price new_pos) (pd_order_size new_pos, None)
               "active" "" (market_indices p) false true now e).1
      else
        let e :=
          if bool_decide (cancel_reason p = CANCELLING_FOR_DC)
          then cancelOrderMeatDCOrder pos now e
          else if bool_decide (cancel_reason p = CANCELLING_FOR_SHORTLONG)
          then flipPosition pos now e
          else e in
        deletePosition pos e
  end.

(** *** The ticker *)

(** The first loop of [processTicker]: the top of book of one market. *)
Definition store_ticker (e : Engine) (kv : string * TickerInfo) : Engine :=
  let ask := ask_price kv.2 in
  let bid := bid_price kv.2 in
  if isZeroOrLess ask || isZeroOrLess bid then e
  else update_info kv.1 (fun i => set_lowest_sell ask (set_highest_buy bid i)) e.

(** The price collision test of [processTicker]. *)
Definition fill_details (p : Position) (bid ask : Coin) : Z :=
  if bool_decide (side p = SIDE_SELL) && (sell_price p <=? bid) then 1
  else if bool_decide (side p = SIDE_BUY) && (ask <=? buy_price p) then 2
  else if bool_decide (side p = SIDE_SELL) && (sell_price p <? ask) then 3
  else if bool_decide (side p = SIDE_BUY) && (bid <? buy_price p) then 4
  else 0.

(** What the second loop of [processTicker] carries from one active
    position to the next. *)
Record TickerScan : Type := mkTickerScan {
  ts_engine : Engine;
  ts_filled_orders : list ptr;
  ts_filled_count : Z;
  ts_found_equal_bid_ask : bool
}.

(** One iteration of the second loop. *)
Definition scan_position (ticker_data : gmap string TickerInfo)
    (request_time_sent_ms now : Z) (s : TickerScan) (pos : ptr) : TickerScan :=
  let e := ts_engine s in
  match heap e !! pos with
  | None => s
  | Some p =>
      match ticker_data !! market p with
      | None => s
      | Some ticker =>
          if bool_decide (market p = "") then s
          else
            let ask := ask_price ticker in
            let bid := bid_price ticker in
            if ask <=? bid
            then mkTickerScan e (ts_filled_orders s) (ts_filled_count s) true
            else if isZeroOrLess ask || isZeroOrLess bid then s
            else if 0 <? fill_details p bid ask
            then
              if (request_time_sent_ms - ticker_safety_delay_time (m_settings e)
                    <? order_set_time p)
                 || (now - ticker_safety_delay_time (m_settings e)
                       <? order_set_time p)
              then
                match exchange e with
                | EXCHANGE_BITTREX =>
                    if now - 30000 <? order_getorder_time p then s
                    else if ts_filled_count s <? 5
                    then mkTickerScan
                           (update_pos pos (set_order_getorder_time now)
                              (emit (RestGetOrder (order_number p) pos) e))
                           (ts_filled_orders s) (ts_filled_count s + 1)
                           (ts_found_equal_bid_ask s)
                    else mkTickerScan e (ts_filled_orders s)
                           (ts_filled_count s + 1) (ts_found_equal_bid_ask s)
                | _ => s
                end
              else if (0 <? order_cancel_time p) || is_cancelling p then s
              else mkTickerScan e (ts_filled_orders s ++ [pos])
                     (ts_filled_count s) (ts_found_equal_bid_ask s)
            else s
      end
  end.

(** The positions the second loop of [processTicker] collects. *)
Definition ticker_scan (ticker_data : gmap string TickerInfo)
    (request_time_sent_ms now : Z) (e : Engine) : TickerScan :=
  foldl (scan_position ticker_data request_time_sent_ms now)
        (mkTickerScan e [] 0 false) (elements (positions_active e)).

(** spruce.h:2331-2449. *)
Definition processTicker (ticker_data : gmap string TickerInfo)
    (request_time_sent_ms now : Z) (e : Engine) : Engine :=
  let e := foldl store_ticker e (map_to_list ticker_data) in
  if request_time_sent_ms <=? 0 then e
  else if bool_decide (exchange e = EXCHANGE_POLONIEX) && wss_1000_state e then e
  else
    let s := ticker_scan ticker_data request_time_sent_ms now e in
    processFilledOrders (ts_filled_orders s) FILL_TICKER now (ts_engine s).

(** *** Open orders *)

(** The test of the matching loop of [processOpenOrders]
    (spruce.h:2205-2210): a coin is compared with a text by the coin the text
    parses to. *)
Definition matches_order (p : Position) (market' : string) (o : OrderInfo) : bool :=
  let btc_amount_d := toCoin (oi_btc_amount o) in
  bool_decide (market p = market')
  && bool_decide (side p = oi_side o)
  && bool_decide (price p = oi_price o)
  && (btc_amount p =? toCoin (oi_btc_amount o))
  && (ratio (btc_amount p) 999 1000 <=? btc_amount_d)
  && (btc_amount_d <=? ratio (btc_amount p) 1001 1000).

(** A test on the position a pointer leads to. *)
Definition holds_at (e : Engine) (f : Position -> bool) (pos : ptr) : bool :=
  match heap e !! pos with
  | Some p => f p
  | None => false
  end.

(** The matching loop: the first queued position that passes the test. *)
Definition find_matching_pos (e : Engine) (market' : string) (o : OrderInfo)
  : option ptr :=
  snd <$> list_find
            (fun pos => holds_at e (fun p => matches_order p market' o) pos = true)
            (elements (positions_queued e)).

(** One iteration of the loop over the reported orders; [stray_orders] is
    the queue of ids to cancel. *)
Definition scan_order (now : Z) (acc : Engine * list string)
    (kv : string * OrderInfo) : Engine * list string :=
  let '(e, stray_orders) := acc in
  let market' := kv.1 in
  let order_number' := oi_order_number kv.2 in
  let '(e, continue) :=
    if is_running_cancelall e
    then
      if negb (bool_decide (cancel_market_filter e = "all"))
         && negb (bool_decide (cancel_market_filter e = market'))
      then (e, true)
      else if negb (isPositionOrderID e order_number')
      then (sendCancel order_number' None now e, true)
      else
        match getPositionForOrderID e order_number' with
        | Some pos => (cancelOrder pos false CANCELLING_FOR_USER now e, false)
        | None => (e, false)
        end
    else (e, false) in
  if continue then (e, stray_orders)
  else if should_clear_stray_orders (m_settings e)
          && negb (isPositionOrderID e order_number')
  then
    if negb (should_clear_stray_orders_all (m_settings e))
       && negb (contains (order_prices (info_of e market')) (oi_price kv.2))
    then (e, stray_orders)
    else
      match order_grace_times e !! order_number' with
      | None =>
          match find_matching_pos e market' kv.2 with
          | Some matching_pos =>
              if negb (isPositionOrderID e order_number')
                 && (default 0 (order_request_time <$> heap e !! matching_pos)
                       <? now - 10000)
              then (setOrderMeat matching_pos order_number' now e, stray_orders)
              else (set_order_grace_times
                      (<[order_number' := now]> (order_grace_times e)) e,
                    stray_orders)
          | None =>
              (set_order_grace_times
                 (<[order_number' := now]> (order_grace_times e)) e,
               stray_orders)
          end
      | Some seen =>
          if stray_grace_time_limit (m_settings e) <? now - seen
          then (e, stray_orders ++ [order_number'])
          else (e, stray_orders)
      end
  else (e, stray_orders).

(** The loop that empties the queue of stray ids (spruce.h:2255-2261). *)
Definition cancel_stray (now : Z) (e : Engine) (order_number' : string) : Engine :=
  let e := sendCancel order_number' None now e in
  set_order_grace_times
    (<[order_number' := now + stray_grace_time_limit (m_settings e)]>
       (order_grace_times e)) e.

(** The selection of the last loop: an active position that is set, not
    being cancelled, out of the safety delay, missing from the reported ids
    and set before the request was sent. *)
Definition presumed_filled (order_numbers : list string)
    (request_time_sent_ms now : Z) (e : Engine) (p : Position) : bool :=
  negb (order_set_time p =? 0)
  && negb ((0 <? order_cancel_time p) || is_cancelling p)
  && negb (now - safety_delay_time (m_settings e) <? order_set_time p)
  && negb (contains order_numbers (order_number p))
  && negb (request_time_sent_ms <=? order_set_time p).

(** The last loop on a Bittrex build: at most six [getorder] requests. *)
Definition probe_position (order_numbers : list string)
    (request_time_sent_ms now : Z) (acc : Engine * Z * bool) (pos : ptr)
  : Engine * Z * bool :=
  let '(e, filled_count, stop) := acc in
  if stop then acc
  else
    match heap e !! pos with
    | None => acc
    | Some p =>
        if negb (presumed_filled order_numbers request_time_sent_ms now e p)
        then acc
        else if now - 30000 <? order_getorder_time p then acc
        else
          (update_pos pos (set_order_getorder_time now)
             (emit (RestGetOrder (order_number p) pos) e),
           filled_count + 1, 5 <=? filled_count)
    end.

(** spruce.h:2138-2329. *)
Definition processOpenOrders (order_numbers : list string)
    (orders : list (string * OrderInfo)) (request_time_sent_ms now : Z)
    (e : Engine) : Engine :=
  let '(e, stray_orders) := foldl (scan_order now) (e, []) orders in
  if is_running_cancelall e then set_is_running_cancelall false e
  else
    let e := if 50 <? qsize stray_orders then e
             else foldl (cancel_stray now) e stray_orders in
    if should_mitigate_blank_orderbook_flash (m_settings e)
       && bool_decide (order_numbers = [])
       && (50 <? Z.of_nat (size (positions_active e)))
    then e
    else
      match exchange e with
      | EXCHANGE_BITTREX =>
          (foldl (probe_position order_numbers request_time_sent_ms now)
                 (e, 0, false) (elements (positions_active e))).1.1
      | _ =>
          let filled_orders :=
            filter (fun pos =>
                      holds_at e (presumed_filled order_numbers
                                    request_time_sent_ms now e) pos = true)
                   (elements (positions_active e)) in
          processFilledOrders filled_orders FILL_GETORDER now e
      end.

(** *** Cancelling in bulk *)

Definition set_cancel_market_filter (v : string) (e : Engine) : Engine :=
  mkEngine
    (exchange e) (is_testing e) (wss_1000_state e) (m_settings e) (heap e)
    (next_ptr e) (positions_queued e) (positions_active e) (positions_all e)
    (positions_by_number e) (market_info e) (diverge_converge e)
    (diverging_converging e) (order_grace_times e) (is_running_cancelall e)
    v (nam_queue_sent e) (trace e).

(** spruce.h:1814-1822. *)
Definition hasActivePositions (e : Engine) : bool :=
  negb (Z.of_nat (size (positions_active e)) =? 0).

Definition hasQueuedPositions (e : Engine) : bool :=
  negb (Z.of_nat (size (positions_queued e)) =? 0).

(** [order_prices.clear(); position_index.clear()]. *)
Definition clear_index (i : MarketInfo) : MarketInfo :=
  set_position_index [] (set_order_prices [] i).

(** The argument as the two functions read it: an empty market stands for
    "all". *)
Definition market_or_all (market' : string) : string :=
  if bool_decide (market' = "") then "all" else market'.

(** The clearing of the market index at the end of [cancelAll] and of
    [cancelLocal]. *)
Definition clear_market_index (market' : string) (e : Engine) : Engine :=
  if bool_decide (market' = "all")
  then set_market_info (clear_index <$> market_info e) e
  else update_info market' clear_index e.

(** spruce.h:2490-2531.  Every build ends with the request for the open
    orders of the account; the boolean of the result tells whether that
    request was made. *)
Definition cancelAll (market' : string) (e : Engine) : Engine * bool :=
  let market' := market_or_all market' in
  if (hasActivePositions e || hasQueuedPositions e)
     && bool_decide (market' = "all")
  then (e, false)
  else
    let e := clear_market_index market' e in
    let e := set_is_running_cancelall true e in
    let e := set_cancel_market_filter market' e in
    (e, true).

(** The positions of a [QSet<Position*>], in the order the embedding goes
    over a set (the source leaves the order to the hash of the addresses). *)
Definition positions_in (e : Engine) (s : gset ptr) : list (ptr * Position) :=
  omap (fun pos => (fun p => (pos, p)) <$> heap e !! pos) (elements s).

(** spruce.h:2533-2591.  [cancelOrder( pos )] is called with its default
    arguments, which engine.h declares and which are given here as [quiet]
    and [cancel_reason]. *)
Definition cancelLocal (market' : string) (quiet : bool)
    (cancel_reason' : CancelReason) (now : Z) (e : Engine) : Engine :=
  let market' := market_or_all market' in
  let matched :=
    filter (fun pp => (bool_decide (market' = "all")
                       || bool_decide (market pp.2 = market')) = true)
           (positions_in e (positions_all e)) in
  let deleted_positions :=
    filter (fun pp => isQueuedPosition e pp.1 = true) matched in
  let landmark_positions :=
    filter (fun pp => (negb (isQueuedPosition e pp.1) && is_landmark pp.2) = true)
           matched in
  let normal_positions :=
    filter (fun pp => (negb (isQueuedPosition e pp.1) && negb (is_landmark pp.2))
                      = true)
           matched in
  let e := foldl (fun e pp => deletePosition pp.1 e) e deleted_positions in
  let e := foldl (fun e pp => cancelOrder pp.1 quiet cancel_reason' now e)
                 e normal_positions in
  let e := foldl (fun e pp => cancelOrder pp.1 quiet cancel_reason' now e)
                 e landmark_positions in
  clear_market_index market' e.

(** *** The lowest and the highest ping-pong order *)

Definition INT32_MAX : Z := 2147483647.

(** Modelled from the spec: [Position::getHighestMarketIndex] (position.h),
    the greatest of the spanned slot indices. *)
Definition getHighestMarketIndex (p : Position) : Z :=
  match market_indices p with
  | [] => 0
  | i :: l => foldr Z.max i l
  end.

(** One round of the loop of [getLowestActivePingPong]. *)
Definition lower_pingpong (market' : string) (acc : option ptr * Z)
    (pp : ptr * Position) : option ptr * Z :=
  if is_onetime pp.2 then acc
  else
    let pos_lo_idx := getLowestMarketIndex pp.2 in
    if (pos_lo_idx <? acc.2) && negb (is_cancelling pp.2)
       && bool_decide (market pp.2 = market')
    then (Some pp.1, pos_lo_idx)
    else acc.

(** spruce.h:3487-3516. *)
Definition getLowestActivePingPong (e : Engine) (market' : string) : option ptr :=
  (foldl (lower_pingpong market') (None, INT32_MAX)
         (positions_in e (positions_all e))).1.

(** One round of the loop of [getHighestActivePingPong]. *)
Definition higher_pingpong (market' : string) (acc : option ptr * Z)
    (pp : ptr * Position) : option ptr * Z :=
  if is_onetime pp.2 then acc
  else
    let pos_hi_idx := getHighestMarketIndex pp.2 in
    if (acc.2 <? pos_hi_idx) && negb (is_cancelling pp.2)
       && bool_decide (market pp.2 = market')
    then (Some pp.1, pos_hi_idx)
    else acc.

(** spruce.h:3518-3547. *)
Definition getHighestActivePingPong (e : Engine) (market' : string) : option ptr :=
  (foldl (higher_pingpong market') (None, -1)
         (positions_in e (positions_all e))).1.

(** spruce.h:2646-2664. *)
Definition cancelHighest (market' : string) (now : Z) (e : Engine) : Engine :=
  match getHighestActivePingPong e market' with
  | Some hi_pos => cancelOrder hi_pos false CANCELLING_HIGHEST now e
  | None => e
  end.

Definition cancelLowest (market' : string) (now : Z) (e : Engine) : Engine :=
  match getLowestActivePingPong e market' with
  | Some lo_pos => cancelOrder lo_pos false CANCELLING_LOWEST now e
  | None => e
  end.

(** spruce.h:3275-3289. *)
Definition getPositionByIndex (e : Engine) (market' : string) (idx : Z)
  : option ptr :=
  (fun r => r.2.1) <$>
    list_find (fun pp => (bool_decide (market pp.2 = market')
                          && contains (market_indices pp.2) idx) = true)
              (positions_in e (positions_all e)).

(** *** The grace times *)

(** spruce.h:3612-3634: the ids seen longer ago than twice the grace time
    are collected, then removed. *)
Definition cleanGraceTimes (now : Z) (e : Engine) : Engine :=
  if bool_decide (order_grace_times e = ∅) then e
  else
    let removed :=
      (filter (fun kv =>
                 (kv.2 <? now - stray_grace_time_limit (m_settings e) * 2) = true)
              (map_to_list (order_grace_times e))).*1 in
    set_order_grace_times
      (foldl (fun m order => delete order m) (order_grace_times e) removed) e.

(** *** The search of [converge] *)

(** What one pass of the [for] loop of [converge] ends in: the run it was
    building is full, the indices are used up, or an index that does not
    continue the run sends the loop back to its start
    ([indices.removeFirst(); new_order.clear(); j = -1]). *)
Inductive PassResult : Type :=
  | Found (new_order : list Z)
  | Ended
  | Restart.

(** spruce.h:4277-4333, from some [j] on with [new_order] as it stands:
    [rest] is what is left of [indices] from [j]. *)
Fixpoint converge_pass (index_offset dc_value : Z) (new_order rest : list Z)
  : PassResult :=
  match rest with
  | [] => Ended
  | index :: rest' =>
      if bool_decide (new_order = [])
         || (index =? value new_order (qsize new_order - 1) 0 + index_offset)
      then
        let new_order := new_order ++ [index] in
        if qsize new_order =? dc_value then Found new_order
        else converge_pass index_offset dc_value new_order rest'
      else Restart
  end.

(** The loop as a whole: after a restart it runs again on the indices
    without their first, unless none is left. *)
Fixpoint converge_loop (index_offset dc_value : Z) (indices : list Z)
  : option (list Z) :=
  match indices with
  | [] => None
  | _ :: indices' =>
      match converge_pass index_offset dc_value [] indices with
      | Found new_order => Some new_order
      | Ended => None
      | Restart =>
          if 0 <? qsize indices' then converge_loop index_offset dc_value indices'
          else None
      end
  end.

(** [std::sort] of the indices, ascending for buys and descending for
    sells. *)
Definition sort_indices (side' : Side) (indices : list Z) : list Z :=
  match side' with
  | SIDE_BUY => merge_sort Z.le indices
  | SIDE_SELL => merge_sort Z.ge indices
  end.

(** spruce.h:4254-4305: the slots [converge] chooses for one market, if
    any. *)
Definition converge_search (side' : Side) (dc_value : Z) (indices : list Z)
  : option (list Z) :=
  if (qsize indices <? dc_value) || (dc_value <? 2) then None
  else
    converge_loop (match side' with SIDE_BUY => 1 | SIDE_SELL => -1 end)
      dc_value (sort_indices side' indices).

(** *** The next order under and over the orders of a market *)

(** The test the loops of [setNextLowest] and [setNextHighest] make of a
    slot: [getPositionByIndex( market, idx ) ||
    isIndexDivergingConverging( market, idx )]. *)
Definition slot_taken (e : Engine) (market' : string) (idx : Z) : bool :=
  bool_decide (is_Some (getPositionByIndex e market' idx))
  || isIndexDivergingConverging e market' idx.

(** [while ( taken ) new_index--] of [setNextLowest] ([step] -1) and
    [while ( taken ) new_index++] of [setNextHighest] ([step] 1); [None]
    when the fuel runs out. *)
Fixpoint free_from (fuel : nat) (step : Z) (e : Engine) (market' : string)
    (new_index : Z) : option Z :=
  match fuel with
  | O => None
  | S fuel =>
      if slot_taken e market' new_index
      then free_from fuel step e market' (new_index + step)
      else Some new_index
  end.

(** The loop that widens a landmark, [while ( landmark && indices.size() <
    dc_val )], once [landmark] is known to hold.  The two functions differ in
    the step to the next index and in the bound it must stay within:
    [new_index < 0] in [setNextLowest], [new_index >=
    info.position_index.size()] in [setNextHighest].  Every round that goes
    on appends an index, so that [n] rounds are all there can be once [n]
    is [dc_val]. *)
Fixpoint widen_landmark (n : nat) (step : Z) (out_of_bounds : Z -> bool)
    (e : Engine) (market' : string) (dc_val : Z) (indices : list Z) : list Z :=
  match n with
  | O => indices
  | S n =>
      if qsize indices <? dc_val
      then
        let new_index := value indices (qsize indices - 1) 0 + step in
        if out_of_bounds new_index then indices
        else if slot_taken e market' new_index then take 1 indices
        else widen_landmark n step out_of_bounds e market' dc_val
               (indices ++ [new_index])
      else indices
  end.

(** One round of the first loop of [setNextLowest]. *)
Definition lowest_index (market' : string) (new_index : Z)
    (pp : ptr * Position) : Z :=
  if is_onetime pp.2 then new_index
  else
    let pos_lowest_idx := getLowestMarketIndex pp.2 in
    if (pos_lowest_idx <? new_index) && bool_decide (market pp.2 = market')
    then pos_lowest_idx
    else new_index.

(** spruce.h:2931-3009: the indices [setNextLowest] passes to
    [addPosition]; [Some None] when it returns before. *)
Definition setNextLowest_indices (fuel : nat) (e : Engine) (market' : string)
    (landmark : bool) : option (option (list Z)) :=
  let new_index :=
    foldl (lowest_index market') INT32_MAX (positions_in e (positions_all e)) - 1 in
  if (new_index <? 0) || (INT32_MAX - 2 <? new_index) then Some None
  else
    let info := info_of e market' in
    let dc_val := order_dc info in
    new_index ← free_from fuel (-1) e market' new_index;
    let indices := [new_index] in
    if value indices 0 0 <? 0 then Some None
    else
      let indices :=
        if landmark
        then widen_landmark (Z.to_nat dc_val) (-1) (fun i => i <? 0) e market'
               dc_val indices
        else indices in
      if (landmark && negb (qsize indices =? dc_val))
         && negb (contains indices 0)
      then Some None
      else if negb landmark && (1 <? qsize indices) then Some None
      else if bool_decide (indices = [])
              || (qsize (position_index info) <=? value indices 0 0)
      then Some None
      else Some (Some indices).

(** The end of both functions: the order is built from the slot of the
    first index and flagged. *)
Definition set_next (market' : string) (side' : Side) (landmark : bool)
    (now : Z) (indices : list Z) (e : Engine) : Engine :=
  let data :=
    value (position_index (info_of e market')) (value indices 0 0)
          PositionData_default in
  let r := addPosition market' side' (pd_buy_price data) (pd_sell_price data)
             (pd_order_size data, None) "active" "" indices landmark true now e in
  match r.2 with
  | None => r.1
  | Some pos => update_pos pos (set_is_new_hilo_order true) r.1
  end.

(** spruce.h:2931-3038. *)
Definition setNextLowest (fuel : nat) (market' : string) (side' : Side)
    (landmark : bool) (now : Z) (e : Engine) : option Engine :=
  r ← setNextLowest_indices fuel e market' landmark;
  match r with
  | None => Some e
  | Some indices => Some (set_next market' side' landmark now indices e)
  end.

(** One round of the first loop of [setNextHighest]. *)
Definition highest_index (market' : string) (new_index : Z)
    (pp : ptr * Position) : Z :=
  if is_onetime pp.2 then new_index
  else
    let pos_highest_idx := getHighestMarketIndex pp.2 in
    if (new_index <? pos_highest_idx) && bool_decide (market pp.2 = market')
    then pos_highest_idx
    else new_index.

(** spruce.h:3040-3118: the indices [setNextHighest] passes to
    [addPosition]. *)
Definition setNextHighest_indices (fuel : nat) (e : Engine) (market' : string)
    (landmark : bool) : option (option (list Z)) :=
  let new_index :=
    foldl (highest_index market') (-1) (positions_in e (positions_all e)) + 1 in
  if (new_index <? 1) || (INT32_MAX - 1 <? new_index) then Some None
  else
    let info := info_of e market' in
    let dc_val := order_dc info in
    new_index ← free_from fuel 1 e market' new_index;
    let indices := [new_index] in
    if qsize (position_index info) <=? value indices 0 0 then Some None
    else
      let indices :=
        if landmark
        then widen_landmark (Z.to_nat dc_val) 1
               (fun i => qsize (position_index info) <=? i) e market'
               dc_val indices
        else indices in
      if (landmark && negb (qsize indices =? dc_val))
         && negb (contains indices (qsize (position_index info) - 1))
      then Some None
      else if negb landmark && (1 <? qsize indices) then Some None
      else if bool_decide (indices = [])
              || (qsize (position_index info) <=? value indices 0 0)
      then Some None
      else Some (Some indices).

(** spruce.h:3040-3145. *)
Definition setNextHighest (fuel : nat) (market' : string) (side' : Side)
    (landmark : bool) (now : Z) (e : Engine) : option Engine :=
  r ← setNextHighest_indices fuel e market' landmark;
  match r with
  | None => Some e
  | Some indices => Some (set_next market' side' landmark now indices e)
  end.

(** *** The candidates of the diverge/converge check *)

(** Modelled from the spec: what [onCheckDivergeConverge] reads that the
    records above do not carry, the setting [should_dc_slippage_orders] and,
    of the [MarketInfo] of a market, "order_dc_nice (hysteresis)" and
    "order_landmark_start" (market.h and enginesettings.h are not part of
    the sources). *)
Record DCTuning : Type := mkDCTuning {
  should_dc_slippage_orders : bool;
  order_landmark_start : string -> Z;
  order_dc_nice : string -> Z
}.

(** The four maps of candidates, [QMap<QString, QVector<qint32>>].  Reading
    a market with [operator[]] leaves an entry with no index behind, which
    [converge] and [diverge] pass over as they pass over no entry; the maps
    are kept without such entries. *)
Record DCLists : Type := mkDCLists {
  converge_buys : gmap string (list Z);
  converge_sells : gmap string (list Z);
  diverge_buys : gmap string (list Z);
  diverge_sells : gmap string (list Z)
}.

Definition indices_of (m : gmap string (list Z)) (market' : string) : list Z :=
  default [] (m !! market').

Definition append_index (market' : string) (idx : Z) (m : gmap string (list Z))
  : gmap string (list Z) :=
  <[market' := indices_of m market' ++ [idx]]> m.

(** spruce.h:4139-4173, one round: the highest slot index of the buy orders
    of each market.  The two other maps the loop fills are not read
    again. *)
Definition hi_buy_idx_step (market_hi_buy_idx : gmap string Z)
    (pp : ptr * Position) : gmap string Z :=
  if is_onetime pp.2 then market_hi_buy_idx
  else
    match side pp.2 with
    | SIDE_BUY =>
        let highest_idx := getHighestMarketIndex pp.2 in
        if default (-1) (market_hi_buy_idx !! market pp.2) <? highest_idx
        then <[market pp.2 := highest_idx]> market_hi_buy_idx
        else market_hi_buy_idx
    | SIDE_SELL => market_hi_buy_idx
    end.

(** spruce.h:4177-4245, one round.  [market_hi_buy_idx[ market ]] reads 0
    for a market without an entry. *)
Definition dc_step (t : DCTuning) (e : Engine) (market_hi_buy_idx : gmap string Z)
    (acc : DCLists) (pp : ptr * Position) : DCLists :=
  let pos := pp.2 in
  let market' := market pos in
  let info := info_of e market' in
  if is_onetime pos then acc
  else if order_dc info <? 2 then acc
  else
    let first_idx := getLowestMarketIndex pos in
    let acc :=
      if bool_decide (side pos = SIDE_BUY)
         && negb (is_cancelling pos)
         && negb (negb (should_dc_slippage_orders t) && is_slippage pos)
         && negb (bool_decide (order_number pos = ""))
         && negb (isIndexDivergingConverging e market' first_idx)
         && negb (contains (indices_of (converge_buys acc) market') first_idx)
         && negb (contains (indices_of (diverge_buys acc) market') first_idx)
      then
        let buy_landmark_boundary :=
          default 0 (market_hi_buy_idx !! market') - order_landmark_start t market' in
        let hi_idx := getHighestMarketIndex pos in
        if negb (is_landmark pos)
           && (hi_idx <? buy_landmark_boundary - order_dc_nice t market')
        then mkDCLists (append_index market' first_idx (converge_buys acc))
               (converge_sells acc) (diverge_buys acc) (diverge_sells acc)
        else if is_landmark pos && (buy_landmark_boundary <? hi_idx)
        then mkDCLists (converge_buys acc) (converge_sells acc)
               (append_index market' first_idx (diverge_buys acc))
               (diverge_sells acc)
        else acc
      else acc in
    if bool_decide (side pos = SIDE_SELL)
       && negb (is_cancelling pos)
       && negb (negb (should_dc_slippage_orders t) && is_slippage pos)
       && negb (bool_decide (order_number pos = ""))
       && negb (isIndexDivergingConverging e market' first_idx)
       && negb (contains (indices_of (converge_sells acc) market') first_idx)
       && negb (contains (indices_of (diverge_sells acc) market') first_idx)
    then
      let sell_landmark_boundary :=
        default 0 (market_hi_buy_idx !! market') + 1
        + order_landmark_start t market' in
      let lo_idx := getLowestMarketIndex pos in
      if negb (is_landmark pos)
         && (sell_landmark_boundary + order_dc_nice t market' <? lo_idx)
      then mkDCLists (converge_buys acc)
             (append_index market' first_idx (converge_sells acc))
             (diverge_buys acc) (diverge_sells acc)
      else if is_landmark pos && (lo_idx <? sell_landmark_boundary)
      then mkDCLists (converge_buys acc) (converge_sells acc) (diverge_buys acc)
             (append_index market' first_idx (diverge_sells acc))
      else acc
    else acc.

(** spruce.h:4139-4245: the candidates [onCheckDivergeConverge] hands to
    [converge] and to [diverge]. *)
Definition dc_candidates (t : DCTuning) (e : Engine) : DCLists :=
  let market_hi_buy_idx :=
    foldl hi_buy_idx_step ∅ (positions_in e (positions_all e)) in
  foldl (dc_step t e market_hi_buy_idx) (mkDCLists ∅ ∅ ∅ ∅)
        (positions_in e (positions_all e)).

End EngineB.

(** ** The first copy of the engine (spruce.h:179-1771) *)

Module EngineA.

(** spruce.h:1300-1403.  The result is the returned boolean and the
    position as the call leaves it. *)
Definition tryMoveOrder (fuel : nat) (pos : Position) (_info : MarketInfo)
  : option (bool * Position) :=
  let hi_buy := highest_buy _info in
  let lo_sell := lowest_sell _info in
  if isZeroOrLess hi_buy || isZeroOrLess lo_sell then Some (false, pos)
  else
    let ticksize := price_ticksize _info in
    match side pos with
    | SIDE_BUY =>
        if (lo_sell <=? buy_price pos) && (ticksize <? lo_sell)
        then Some (true, set_is_slippage true (set_buy_price (lo_sell - ticksize) pos))
        else
          new_buy_price ←
            (if ticksize * 2 <=? lo_sell
             then ratchet_buy fuel ticksize lo_sell (buy_price_original pos)
                    (buy_price pos)
             else Some Coin_default);
          Some (accept_buy pos lo_sell new_buy_price)
    | SIDE_SELL =>
        if sell_price pos <=? hi_buy
        then Some (true, set_is_slippage true (set_sell_price (hi_buy + ticksize) pos))
        else
          new_sell_price ←
            (if ticksize <=? hi_buy
             then ratchet_sell fuel ticksize hi_buy (sell_price_original pos)
                    (sell_price pos)
             else Some Coin_default);
          Some (accept_sell pos ticksize hi_buy new_sell_price)
    end.

(** spruce.h:421-497.  The text is that of the second copy, with the store
    reached through [positions->] ([PositionMan], whose code is not part of
    the sources) and the slot advanced by [iterateFillCount]; the store
    operations are those of the second copy. *)
Definition fillNQ : string -> Z -> Z -> Z -> Engine -> Engine := EngineB.fillNQ.

(** The sort key of spruce.h:504-507: [CoinAmount::COIN], the coin of value
    one, for a one-time order, and [buy_price / sell_price] otherwise. *)
Definition fill_key (p : Position) : Qc :=
  if is_onetime p then 1%Qc else coin_div (buy_price p) (sell_price p).

(** spruce.h:499-511. *)
Definition processFilledOrders (filled_positions : list ptr) (fill_type : Z)
    (now : Z) (e : Engine) : Engine :=
  foldl (fun e kv => fillNQ (EngineB.order_number_of e kv.2) fill_type 0 now e) e
        (EngineB.sorted_fills fill_key e filled_positions).

(** spruce.h:706-824: the text of the second copy. *)
Definition processTicker (ticker_data : gmap string TickerInfo)
    (request_time_sent_ms now : Z) (e : Engine) : Engine :=
  let e := foldl EngineB.store_ticker e (map_to_list ticker_data) in
  if request_time_sent_ms <=? 0 then e
  else if bool_decide (exchange e = EXCHANGE_POLONIEX) && wss_1000_state e then e
  else
    let s := EngineB.ticker_scan ticker_data request_time_sent_ms now e in
    processFilledOrders (EngineB.ts_filled_orders s) FILL_TICKER now
      (EngineB.ts_engine s).

End EngineA.

(** ** The Waves transport (wavesrest.cpp) *)

Module Waves.

(** Modelled from the spec: a market is the "identifier for a trading pair
    (base, quote)" (market.h is not part of the sources); the transport
    builds it as [Market( price_asset, amount_asset )] and reads it through
    [getBase] and [getQuote]. *)
Record Market : Type := mkMarket {
  getBase : string;
  getQuote : string
}.

#[global] Instance Market_eq_dec : EqDecision Market.
Proof. solve_decision. Defined.

(** Modelled from the spec: the default-constructed market
    [QVector<Market>::value] gives out of range, taken to name no asset. *)
Definition Market_default : Market := mkMarket "" "".

(** What the transport asks of the network ([sendRequest], [getOrderStatus])
    and of the engine, in the order it does. *)
Inductive Call : Type :=
  | GetBookData (amount_alias price_alias : string)
  | GetOrderStatus (pos : ptr)
  | ProcessOpenOrders (order_numbers : list string)
      (order_map : list (string * OrderInfo)) (request_time_sent_ms : Z)
  | ProcessFilledOrders (filled_positions : list ptr) (fill_type : Z)
  | UpdateStatsAndPrintFill (pos : ptr) (filled_quantity : Coin)
  | ProcessCancelledOrder (pos : ptr).

(** What the engine answers when the transport asks it (engine.h and
    positionman.h are not part of the sources): the tests of its position
    manager, the position behind an order id or a pointer, and the quantity
    tick of the market of a position. *)
Record EngineView : Type := mkEngineView {
  isValid : ptr -> bool;
  isActive : ptr -> bool;
  isValidOrderID : string -> bool;
  getByOrderID : string -> Position;
  deref : ptr -> Position;
  quantity_ticksize : string -> Coin
}.

(** The members of [WavesREST] and of its base the functions below read and
    write, with the calls made so far. *)
Record WavesREST : Type := mkWavesREST {
  next_ticker_index_to_query : Z;
  tracked_markets : list Market;
  last_cancelling_index_checked : Z;
  cancelling_orders_to_query : list ptr;
  orderbook_stale_tolerance : Z;
  orderbook_update_time : Z;
  orderbook_update_request_time : Z;
  orders_stale_trip_count : Z;
  calls : list Call
}.

Definition set_next_ticker_index_to_query (v : Z) (w : WavesREST) : WavesREST :=
  mkWavesREST v (tracked_markets w) (last_cancelling_index_checked w)
    (cancelling_orders_to_query w) (orderbook_stale_tolerance w)
    (orderbook_update_time w) (orderbook_update_request_time w)
    (orders_stale_trip_count w) (calls w).

Definition set_last_cancelling_index_checked (v : Z) (w : WavesREST) : WavesREST :=
  mkWavesREST (next_ticker_index_to_query w) (tracked_markets w) v
    (cancelling_orders_to_query w) (orderbook_stale_tolerance w)
    (orderbook_update_time w) (orderbook_update_request_time w)
    (orders_stale_trip_count w) (calls w).

Definition set_cancelling_orders_to_query (v : list ptr) (w : WavesREST)
  : WavesREST :=
  mkWavesREST (next_ticker_index_to_query w) (tracked_markets w)
    (last_cancelling_index_checked w) v (orderbook_stale_tolerance w)
    (orderbook_update_time w) (orderbook_update_request_time w)
    (orders_stale_trip_count w) (calls w).

Definition set_orderbook_update_time (v : Z) (w : WavesREST) : WavesREST :=
  mkWavesREST (next_ticker_index_to_query w) (tracked_markets w)
    (last_cancelling_index_checked w) (cancelling_orders_to_query w)
    (orderbook_stale_tolerance w) v (orderbook_update_request_time w)
    (orders_stale_trip_count w) (calls w).

Definition set_orderbook_update_request_time (v : Z) (w : WavesREST) : WavesREST :=
  mkWavesREST (next_ticker_index_to_query w) (tracked_markets w)
    (last_cancelling_index_checked w) (cancelling_orders_to_query w)
    (orderbook_stale_tolerance w) (orderbook_update_time w) v
    (orders_stale_trip_count w) (calls w).

Definition set_orders_stale_trip_count (v : Z) (w : WavesREST) : WavesREST :=
  mkWavesREST (next_ticker_index_to_query w) (tracked_markets w)
    (last_cancelling_index_checked w) (cancelling_orders_to_query w)
    (orderbook_stale_tolerance w) (orderbook_update_time w)
    (orderbook_update_request_time w) v (calls w).

Definition call (c : Call) (w : WavesREST) : WavesREST :=
  mkWavesREST (next_ticker_index_to_query w) (tracked_markets w)
    (last_cancelling_index_checked w) (cancelling_orders_to_query w)
    (orderbook_stale_tolerance w) (orderbook_update_time w)
    (orderbook_update_request_time w) (orders_stale_trip_count w)
    (calls w ++ [c]).

(** The request for the book of a market: the url names the alias of the
    quote (amount) asset, then that of the base (price) asset. *)
Definition book_request (getAliasByAsset : string -> string) (market' : Market)
  : Call :=
  GetBookData (getAliasByAsset (getQuote market'))
              (getAliasByAsset (getBase market')).

(** wavesrest.cpp:347-378.  [yieldToFlowControl] is what the base class
    answers at the call; [getAliasByAsset] is the alias table of the
    account. *)
Definition checkTicker (getAliasByAsset : string -> string)
    (ignore_flow_control yieldToFlowControl : bool) (w : WavesREST)
  : WavesREST :=
  if negb ignore_flow_control && yieldToFlowControl then w
  else
    let w :=
      if qsize (tracked_markets w) <=? next_ticker_index_to_query w
      then set_next_ticker_index_to_query 0 w else w in
    if bool_decide (tracked_markets w = []) then w
    else
      let market' :=
        value (tracked_markets w) (next_ticker_index_to_query w) Market_default in
      let w := call (book_request getAliasByAsset market') w in
      set_next_ticker_index_to_query (next_ticker_index_to_query w + 1) w.

(** [QList::removeAt]: nothing happens out of range. *)
Definition removeAt {A : Type} (i : Z) (l : list A) : list A :=
  if (0 <=? i) && (i <? qsize l) then delete (Z.to_nat i) l else l.

(** wavesrest.cpp:405-425.  The index is in range when it is looked up
    unless it was below -1 before the call; the query list then gives a
    null pointer, which is taken to be no valid position and to leave the
    list as it is. *)
Definition onCheckCancellingOrders (engine : EngineView)
    (yieldToFlowControl : bool) (w : WavesREST) : WavesREST :=
  if yieldToFlowControl then w
  else if qsize (cancelling_orders_to_query w) =? 0 then w
  else
    let w :=
      if qsize (cancelling_orders_to_query w)
         <=? last_cancelling_index_checked w + 1
      then set_last_cancelling_index_checked 0 w
      else set_last_cancelling_index_checked
             (last_cancelling_index_checked w + 1) w in
    if last_cancelling_index_checked w <? 0 then w
    else
      match cancelling_orders_to_query w
              !! Z.to_nat (last_cancelling_index_checked w) with
      | Some order_to_check =>
          if isValid engine order_to_check
          then call (GetOrderStatus order_to_check) w
          else set_cancelling_orders_to_query
                 (removeAt (last_cancelling_index_checked w)
                    (cancelling_orders_to_query w)) w
      | None => w
      end.

(** The reply to an order status request as [parseOrderStatus] reads it:
    the text under "status", if the key is there, and the number under
    "filledAmount". *)
Record OrderStatusInfo : Type := mkOrderStatusInfo {
  status : option string;
  filledAmount : Z
}.

(** wavesrest.cpp:534-586.  [request_pos] is [request->pos], absent when
    null. *)
Definition parseOrderStatus (engine : EngineView) (info : OrderStatusInfo)
    (request_pos : option ptr) (w : WavesREST) : WavesREST :=
  match status info with
  | None => w
  | Some order_status =>
      match request_pos with
      | None => w
      | Some pos =>
          if negb (isActive engine pos)
          then set_cancelling_orders_to_query
                 (removeOne pos (cancelling_orders_to_query w)) w
          else
            let filled_quantity :=
              quantity_ticksize engine (market (deref engine pos))
              * filledAmount info in
            let w :=
              if is_cancelling (deref engine pos)
              then set_cancelling_orders_to_query
                     (removeOne pos (cancelling_orders_to_query w)) w
              else w in
            if bool_decide (order_status = "Filled")
            then call (ProcessFilledOrders [pos] FILL_GETORDER) w
            else if bool_decide (order_status = "Cancelled")
            then
              let w := if isGreaterThanZero filled_quantity
                       then call (UpdateStatsAndPrintFill pos filled_quantity) w
                       else w in
              call (ProcessCancelledOrder pos) w
            else w
      end
  end.

(** wavesrest.cpp:588-612.  [status'] is the text under "status" (empty
    when there is none). *)
Definition parseCancelOrder (engine : EngineView) (status' : string)
    (request_pos : option ptr) (w : WavesREST) : WavesREST :=
  if negb (bool_decide (status' = "OrderCanceled"))
     && negb (bool_decide (status' = "OrderCancelRejected"))
  then w
  else
    match request_pos with
    | None => w
    | Some pos =>
        if negb (isActive engine pos) then w
        else if contains (cancelling_orders_to_query w) pos then w
        else set_cancelling_orders_to_query
               (cancelling_orders_to_query w ++ [pos]) w
    end.

(** The loop of [parseMyOrders] over the reply: an entry is [None] when it
    is no object, and otherwise the text under its "id" (empty when there is
    none).  The entries of the multi-hash are kept in the order they are
    inserted. *)
Definition parse_order (engine : EngineView)
    (acc : list string * list (string * OrderInfo)) (entry : option string)
  : list string * list (string * OrderInfo) :=
  match entry with
  | None => acc
  | Some id =>
      if bool_decide (id = "") || negb (isValidOrderID engine id) then acc
      else
        let pos := getByOrderID engine id in
        (acc.1 ++ [id],
         acc.2 ++ [(market pos,
                    mkOrderInfo id (side pos) (price pos) (Canon (btc_amount pos)))])
  end.

(** wavesrest.cpp:673-720; [current_time] is the clock at the call. *)
Definition parseMyOrders (engine : EngineView) (orders : list (option string))
    (request_time_sent_ms current_time : Z) (w : WavesREST) : WavesREST :=
  if request_time_sent_ms <? current_time - orderbook_stale_tolerance w
  then set_orders_stale_trip_count (orders_stale_trip_count w + 1) w
  else if request_time_sent_ms <? orderbook_update_request_time w then w
  else
    let w := set_orderbook_update_time current_time w in
    let w := set_orderbook_update_request_time request_time_sent_ms w in
    let parsed := foldl (parse_order engine) ([], []) orders in
    call (ProcessOpenOrders parsed.1 parsed.2 request_time_sent_ms) w.

End Waves.

(** ** Notions used in the statements *)

(** The order number a position carries once [setOrderMeat] has set it. *)
Definition canonical_id (e : Engine) (p : Position) (number : string) : string :=
  if is_testing e then number
  else match exchange e with
       | EXCHANGE_BINANCE => market p +:+ number
       | _ => number
       end.

(** The ids of the transport cancels sent for orders that are not bound to a
    position of ours ([rest->sendCancel( order_number )]), in order. *)
Definition stray_cancel_id (x : Effect) : option string :=
  match x with
  | RestSendCancel id None => Some id
  | _ => None
  end.

Definition stray_cancels (e : Engine) : list string :=
  omap stray_cancel_id (trace e).

(** Two engine states that agree on the build and mode flags, the settings,
    the cancel-all state, the grace times and the stray cancels sent. *)
Definition same_control (e e' : Engine) : Prop :=
  exchange e' = exchange e
  /\ is_testing e' = is_testing e
  /\ wss_1000_state e' = wss_1000_state e
  /\ m_settings e' = m_settings e
  /\ is_running_cancelall e' = is_running_cancelall e
  /\ cancel_market_filter e' = cancel_market_filter e
  /\ order_grace_times e' = order_grace_times e
  /\ stray_cancels e' = stray_cancels e.

(** The queue of stray ids that the first loop of [processOpenOrders] leaves
    for cancellation. *)
Definition stray_queue (orders : list (string * OrderInfo)) (now : Z) (e : Engine)
  : list string :=
  (foldl (EngineB.scan_order now) (e, []) orders).2.

(** What a position is an order for: the fields that stay as they are from
    the registration of the position to its removal, unless a cancel, a
    price walk or a flip rewrites them. *)
Definition order_core (p : Position) :=
  (market p, side p, market_indices p, strategy_tag p,
   (buy_price p, sell_price p, buy_price_original p, sell_price_original p),
   (price p, quantity p, btc_amount p),
   (is_onetime p, is_taker p, is_landmark p, is_slippage p),
   (is_cancelling p, order_cancel_time p, cancel_reason p)).

(** The fields the post-only price walk leaves alone as well. *)
Definition order_identity (p : Position) :=
  (market p, side p, market_indices p, strategy_tag p,
   (buy_price_original p, sell_price_original p, quantity p, btc_amount p),
   (is_onetime p, is_taker p, is_landmark p),
   (is_cancelling p, order_cancel_time p, cancel_reason p)).

(** The slots after one fill of a position that spans [indices]
    (the loop of [fillNQ], on the slots alone). *)
Definition advance_slots (indices : list Z) (slots : list PositionData)
  : list PositionData :=
  foldl (fun l idx =>
           if qsize l <=? idx then l
           else if idx <? 0 then l
           else alter iterateFillCount (Z.to_nat idx) l)
        slots indices.

(** The first group of [diverge_converge] that holds the position. *)
Definition dc_group (e : Engine) (pos : ptr)
  : option (list ptr * (bool * list Z)) :=
  snd <$> list_find (fun kv => pos ∈ kv.1) (diverge_converge e).

(** The groups that are left once [removeFromDC] has taken out the first
    one that holds the position. *)
Definition without_group_of (pos : ptr)
    (groups : list (list ptr * (bool * list Z)))
  : list (list ptr * (bool * list Z)) :=
  match list_find (fun kv => pos ∈ kv.1) groups with
  | Some (_, (positions, _)) => qmap_remove positions groups
  | None => groups
  end.

(** The order [addPosition] is asked for when it is given the type "active"
    and a size without an alternate: the constructed position, and whether
    the checks of [addPosition] let it through. *)
Definition active_order (e : Engine) (market' : string) (side' : Side)
    (buy sell size : QAmount) (tag : string) (indices : list Z)
    (landmark : bool) : Position :=
  EngineB.Position_new market' side' (formatted buy) (formatted sell)
    (formatted size) tag indices landmark (info_of e market').

Definition admits (e : Engine) (market' : string) (side' : Side)
    (buy sell size : QAmount) (tag : string) (indices : list Z)
    (landmark : bool) : bool :=
  negb (EngineB.rejects_arguments market' side' buy sell size Blank "active"
          landmark (info_of e market'))
  && negb (EngineB.rejects_position e
             (active_order e market' side' buy sell size tag indices landmark)).


(** Two engine states with the same positions, markets and build: what the
    bookkeeping of diverge_converge leaves alone. *)
Definition same_store (e e' : Engine) : Prop :=
  heap e' = heap e
  /\ next_ptr e' = next_ptr e
  /\ positions_queued e' = positions_queued e
  /\ positions_active e' = positions_active e
  /\ positions_all e' = positions_all e
  /\ positions_by_number e' = positions_by_number e
  /\ market_info e' = market_info e
  /\ exchange e' = exchange e
  /\ is_testing e' = is_testing e.

(** The engine once the loop of [fillNQ] has gone over the slots of [p]. *)
Definition slots_filled (e : Engine) (p : Position) : Engine :=
  foldl (EngineB.fill_slot (market p)) e (market_indices p).

(** The slot [flipPosition] reads the next order of [p] from. *)
Definition current_slot (e : Engine) (p : Position) : PositionData :=
  value (position_index (info_of e (market p)))
        (value (market_indices p) 0 0) PositionData_default.

(** The prices and the size [flipPosition] hands to [addPosition]: the
    placeholders for a landmark, the texts of the current slot otherwise. *)
Definition flip_args (e : Engine) (p : Position) : QAmount * QAmount * QAmount :=
  if is_landmark p then (Canon 1, Canon 2, Canon 0)
  else
    let d := current_slot e p in
    (pd_buy_price d, pd_sell_price d, pd_order_size d).

(** The order that replaces a filled [p], as constructed, and whether the
    checks of [addPosition] let it through. *)
Definition replacement (e : Engine) (p : Position) : Position :=
  let '(b, s, z) := flip_args e p in
  active_order e (market p) (other_side (side p)) b s z ""
    (market_indices p) (is_landmark p).

Definition admits_replacement (e : Engine) (p : Position) : bool :=
  let '(b, s, z) := flip_args e p in
  admits e (market p) (other_side (side p)) b s z ""
    (market_indices p) (is_landmark p).

(** ** Notions used in the further statements *)

(** What a call of [tryMoveOrder] can do to a position, in either copy: a
    call that returns false leaves the position as it was; a call that
    returns true has marked the slippage and moved the price of the side the
    position is on, to a price that stays on its side of the spread, and
    nothing else. *)
Definition walk_outcome (pos : Position) (info : MarketInfo)
    (r : bool * Position) : Prop :=
  if r.1
  then
    match side pos with
    | SIDE_BUY =>
        exists v, r.2 = set_is_slippage true (set_buy_price v pos)
                  /\ v < lowest_sell info
    | SIDE_SELL =>
        exists v, r.2 = set_is_slippage true (set_sell_price v pos)
                  /\ highest_buy info < v
    end
  else r.2 = pos.

(** The text the two copies of [tryMoveOrder] share, with the guards of the
    two loops, in which alone they differ, given as [guard_buy] and
    [guard_sell]. *)
Definition walk_with (guard_buy guard_sell : bool) (fuel : nat) (pos : Position)
    (_info : MarketInfo) : option (bool * Position) :=
  let hi_buy := highest_buy _info in
  let lo_sell := lowest_sell _info in
  if isZeroOrLess hi_buy || isZeroOrLess lo_sell then Some (false, pos)
  else
    let ticksize := price_ticksize _info in
    match side pos with
    | SIDE_BUY =>
        if (lo_sell <=? buy_price pos) && (ticksize <? lo_sell)
        then Some (true, set_is_slippage true (set_buy_price (lo_sell - ticksize) pos))
        else
          new_buy_price ←
            (if guard_buy
             then ratchet_buy fuel ticksize lo_sell (buy_price_original pos)
                    (buy_price pos)
             else Some Coin_default);
          Some (accept_buy pos lo_sell new_buy_price)
    | SIDE_SELL =>
        if sell_price pos <=? hi_buy
        then Some (true, set_is_slippage true (set_sell_price (hi_buy + ticksize) pos))
        else
          new_sell_price ←
            (if guard_sell
             then ratchet_sell fuel ticksize hi_buy (sell_price_original pos)
                    (sell_price pos)
             else Some Coin_default);
          Some (accept_sell pos ticksize hi_buy new_sell_price)
    end.

(** A position a set holds, with what the pointer leads to. *)
Definition holds (e : Engine) (s : gset ptr) (pos : ptr) (p : Position) : Prop :=
  pos ∈ s /\ heap e !! pos = Some p.

(** A ping-pong order of [market'] that is not being cancelled: what
    [getLowestActivePingPong] and [getHighestActivePingPong] choose among. *)
Definition open_pingpong (market' : string) (p : Position) : bool :=
  negb (is_onetime p) && negb (is_cancelling p)
  && bool_decide (market p = market').

(** Whether the market filter of a cancel-all lets a market through. *)
Definition passes_filter (filter' market' : string) : bool :=
  bool_decide (filter' = "all") || bool_decide (filter' = market').

(** The reported orders a cancel-all sends a one-shot cancel for: those of
    a market the filter lets through whose id is not an id of ours. *)
Definition cancel_all_targets (e : Engine) (filter' : string)
    (orders : list (string * OrderInfo)) : list string :=
  (fun kv => oi_order_number kv.2) <$>
    filter (fun kv => (passes_filter filter' kv.1
                       && negb (isPositionOrderID e (oi_order_number kv.2)))
                      = true) orders.

(** What a market's record says about the market itself (the top of the
    book, the tick and the bounds of the exchange), as opposed to the orders
    and slots the engine keeps in it. *)
Definition book (i : MarketInfo) :=
  (highest_buy i, lowest_sell i, price_ticksize i, price_min_mul i,
   price_max_mul i, order_dc i).

Definition same_book (e e' : Engine) : Prop :=
  forall m, book (info_of e' m) = book (info_of e m).

(** What a ticker leaves in the books: a top of book with a bid and an ask
    above zero replaces the one of its market, any other entry and any
    market the ticker does not name leave the book as it was. *)
Definition ticker_stored (ticker_data : gmap string TickerInfo)
    (e e' : Engine) : Prop :=
  forall m,
    book (info_of e' m)
    = match ticker_data !! m with
      | Some t =>
          if isZeroOrLess (ask_price t) || isZeroOrLess (bid_price t)
          then book (info_of e m)
          else book (set_lowest_sell (ask_price t)
                       (set_highest_buy (bid_price t) (info_of e m)))
      | None => book (info_of e m)
      end.

(** What makes an active position a fill candidate of a ticker: the ticker
    names its market with a bid above zero and under the ask, the price
    collides, the order was set at least the ticker safety delay before the
    request was sent and before now, and it is not being cancelled. *)
Definition ticker_fill_due (ticker_data : gmap string TickerInfo)
    (request_time_sent_ms now : Z) (e : Engine) (p : Position) : Prop :=
  exists t,
    ticker_data !! market p = Some t
    /\ 0 < bid_price t < ask_price t
    /\ 0 < EngineB.fill_details p (bid_price t) (ask_price t)
    /\ order_set_time p
       <= request_time_sent_ms - ticker_safety_delay_time (m_settings e)
    /\ order_set_time p <= now - ticker_safety_delay_time (m_settings e)
    /\ order_cancel_time p <= 0
    /\ is_cancelling p = false.

(** A market name in the spelling of the exchange the engine is built for:
    [addPosition] begins by turning the underscores of a Bittrex market into
    dashes and the dashes of a Poloniex market into underscores
    ([spell_market]), which leaves such a name as it is. *)
Definition market_spelled (e : Engine) (market' : string) : Prop :=
  match exchange e with
  | EXCHANGE_BITTREX => EngineB.str_contains market' "_" = false
  | EXCHANGE_POLONIEX => EngineB.str_contains market' "-" = false
  | EXCHANGE_BINANCE => True
  end.

(** The slot [addPosition] appends for an order that names no slot. *)
Definition new_slot (buy sell size : QAmount) (alternate : option QAmount)
  : PositionData :=
  mkPositionData (formatted buy) (formatted sell) (formatted size)
    (match alternate with Some a => formatted a | None => Blank end) 0.

(** The [n] slot numbers from [first] on, each the one before it plus
    [offset]. *)
Fixpoint slot_run (offset first : Z) (n : nat) : list Z :=
  match n with
  | O => []
  | S n => first :: slot_run offset (first + offset) n
  end.

(** The step [converge] takes from one slot to the next on a side. *)
Definition index_offset (side' : Side) : Z :=
  match side' with SIDE_BUY => 1 | SIDE_SELL => -1 end.

(** All the slots of a run are among the candidates. *)
Definition run_available (side' : Side) (dc_value first : Z) (indices : list Z)
  : Prop :=
  forall i, i ∈ slot_run (index_offset side') first (Z.to_nat dc_value) ->
            i ∈ indices.

(** The order [std::sort] leaves distinct indices in: each one strictly
    further along the side's direction than the one before. *)
Definition along (offset a b : Z) : Prop := 0 < offset * (b - a).

(** The markets of one round of the ticker, from the market at index [i]
    on: the list turned so that it begins there. *)
Definition ticker_round (l : list Waves.Market) (i : nat) : list Waves.Market :=
  drop i l ++ take i l.

(** The index [checkTicker] asks at: the one stored, or the first once
    the stored index has run past the list. *)
Definition ticker_start (w : Waves.WavesREST) : nat :=
  Z.to_nat (if qsize (Waves.tracked_markets w)
               <=? Waves.next_ticker_index_to_query w
            then 0 else Waves.next_ticker_index_to_query w).

(** The request times of the replies [parseMyOrders] handed to the engine,
    in the order it did. *)
Definition accepted_times (w : Waves.WavesREST) : list Z :=
  omap (fun c => match c with
                 | Waves.ProcessOpenOrders _ _ t => Some t
                 | _ => None
                 end) (Waves.calls w).

(** A reply to the request for the open orders as it comes in: what the
    engine answers then, the entries, the time the request was sent and the
    clock. *)
Record MyOrdersReply : Type := mkMyOrdersReply {
  reply_engine : Waves.EngineView;
  reply_orders : list (option string);
  reply_time_sent_ms : Z;
  reply_current_time : Z
}.

(** Replies parsed one after the other. *)
Definition parse_replies (replies : list MyOrdersReply) (w : Waves.WavesREST)
  : Waves.WavesREST :=
  foldl (fun w r => Waves.parseMyOrders (reply_engine r) (reply_orders r)
                      (reply_time_sent_ms r) (reply_current_time r) w)
        w replies.

(** The slots of a market that are taken: those the positions of the market
    span and those that are being diverged or converged. *)
Definition taken_slots (e : Engine) (market' : string) : list Z :=
  mjoin ((fun pp : ptr * Position => market_indices pp.2)
            <$> filter (fun pp : ptr * Position => market pp.2 = market')
                  (EngineB.positions_in e (positions_all e)))
  ++ dc_indices e market'.

(** A ping-pong order of a market. *)
Definition pingpong_of (market' : string) (p : Position) : bool :=
  negb (is_onetime p) && bool_decide (market p = market').

(** A position the diverge/converge check may take as a candidate: a
    ping-pong order of the market and side that is set, is not being
    cancelled and whose lowest slot is not being diverged or converged, in a
    market whose [order_dc] is at least two. *)
Definition dc_candidate (e : Engine) (market' : string) (side' : Side)
    (landmark : bool) (idx : Z) : Prop :=
  exists pos p,
    holds e (positions_all e) pos p
    /\ market p = market' /\ side p = side'
    /\ is_onetime p = false /\ is_cancelling p = false
    /\ order_number p <> "" /\ is_landmark p = landmark
    /\ EngineB.getLowestMarketIndex p = idx
    /\ (idx ∉ dc_indices e market')
    /\ 2 <= order_dc (info_of e market').

(** Lists of candidates as the check keeps them: no index twice, none both
    to converge and to diverge on a side, each the lowest slot of a
    candidate position. *)
Definition dc_lists_sound (e : Engine) (r : EngineB.DCLists) : Prop :=
  forall market',
    let cb := EngineB.indices_of (EngineB.converge_buys r) market' in
    let cs := EngineB.indices_of (EngineB.converge_sells r) market' in
    let db := EngineB.indices_of (EngineB.diverge_buys r) market' in
    let ds := EngineB.indices_of (EngineB.diverge_sells r) market' in
    NoDup (cb ++ db) /\ NoDup (cs ++ ds)
    /\ (forall idx, idx ∈ cb -> dc_candidate e market' SIDE_BUY false idx)
    /\ (forall idx, idx ∈ db -> dc_candidate e market' SIDE_BUY true idx)
    /\ (forall idx, idx ∈ cs -> dc_candidate e market' SIDE_SELL false idx)
    /\ (forall idx, idx ∈ ds -> dc_candidate e market' SIDE_SELL true idx).

(** ** Scenario data *)

Module Scenario.

(** The literal scenarios of section 8 of the specification, with prices
    given in whole coins. *)
Definition coins (n : Z) : Coin := n * COIN.

(** A fresh, queued buy/sell position of market [X_Y] at one slot. *)
Definition plain (sd : Side) (idx : Z) (buy sell size : Coin) : Position :=
  mkPosition "X_Y" sd [idx] "" "" buy sell buy sell
    (Canon (match sd with SIDE_BUY => buy | SIDE_SELL => sell end))
    size size false false false false false false 0 0 0 0 0 NO_REASON 0.

Definition with_buy_price_original (v : Coin) (p : Position) : Position :=
  mkPosition (market p) (side p) (market_indices p) (strategy_tag p)
    (order_number p) (buy_price p) (sell_price p) v
    (sell_price_original p) (price p) (quantity p) (btc_amount p)
    (is_onetime p) (is_taker p) (is_landmark p) (is_slippage p)
    (is_cancelling p) (is_new_hilo_order p) (order_request_time p)
    (order_set_time p) (order_cancel_time p) (order_getorder_time p)
    (max_age_minutes p) (cancel_reason p) (price_reset_count p).

Definition with_sell_price_original (v : Coin) (p : Position) : Position :=
  mkPosition (market p) (side p) (market_indices p) (strategy_tag p)
    (order_number p) (buy_price p) (sell_price p) (buy_price_original p)
    v (price p) (quantity p) (btc_amount p)
    (is_onetime p) (is_taker p) (is_landmark p) (is_slippage p)
    (is_cancelling p) (is_new_hilo_order p) (order_request_time p)
    (order_set_time p) (order_cancel_time p) (order_getorder_time p)
    (max_age_minutes p) (cancel_reason p) (price_reset_count p).

(** S5: buy at 100, tick 1, lowest sell 105 (highest buy 95). *)
Definition S5_info : MarketInfo :=
  mkMarketInfo [] [] (coins 95) (coins 105) (coins 1) 0 0 0.
Definition S5_pos : Position := plain SIDE_BUY 5 (coins 100) (coins 110) (coins 1).
Definition S5_pos' : Position := with_buy_price_original (coins 105) S5_pos.

(** A sell at 100 that slipped from an original price of 50, in a market
    whose highest buy (5) lies under one tick (10). *)
Definition low_bid_info : MarketInfo :=
  mkMarketInfo [] [] 5 200 10 0 0 0.
Definition low_bid_sell : Position :=
  with_sell_price_original 50 (plain SIDE_SELL 0 40 100 1).

End Scenario.

Module Scenes.

Import Scenario.

(** Settings as a deployment has them: ten minutes of grace for stray
    orders, eight seconds of safety delay, five for the ticker, a cancel
    timeout of five minutes. *)
Definition settings : EngineSettings :=
  mkEngineSettings true false true 600000 8000 5000 300000.

(** An engine that holds nothing. *)
Definition blank (ex : Exchange) (testing : bool) : Engine :=
  mkEngine ex testing false settings ∅ 1%positive ∅ ∅ ∅ ∅ ∅ [] ∅ ∅ false "" [] [].

(** The clock of the scenarios, in milliseconds since the epoch. *)
Definition T0 : Z := 1600000000000.

(** [n] ghost slots of market [X_Y], slot [i] buying at [100 + i] and
    selling at [110 + i], size 1. *)
Fixpoint with_ghosts (n : nat) (from : Z) (e : Engine) : Engine :=
  match n with
  | O => e
  | S n' =>
      with_ghosts n' (from + 1)
        (EngineB.addPosition "X_Y" SIDE_BUY (Canon (coins (100 + from)))
           (Canon (coins (110 + from))) (Canon (coins 1), None) "ghost" "" []
           false true T0 e).1
  end.

(** Six slots and one buy order at slot 5, submitted and not yet
    acknowledged (scenario S3); the order is the position at address 1. *)
Definition one_queued (ex : Exchange) : Engine :=
  (EngineB.addPosition "X_Y" SIDE_BUY (Canon (coins 105)) (Canon (coins 115))
     (Canon (coins 1), None) "active" "" [5] false true T0
     (with_ghosts 6 0 (blank ex false))).1.

(** The position a pointer leads to (a blank position if there is none). *)
Definition at_ptr (e : Engine) (pos : ptr) : Position :=
  default (plain SIDE_BUY 0 0 0 0) (heap e !! pos).

(** The order ids that went through [fillNQ], in the order they did. *)
Definition dispatched (e : Engine) : list string :=
  omap (fun x => match x with Dispatch id _ => Some id | _ => None end) (trace e).

(** The transport cancels sent, in order. *)
Definition cancels_sent (e : Engine) : list string :=
  omap (fun x => match x with RestSendCancel id _ => Some id | _ => None end)
       (trace e).

(** Two one-time sell orders of market [X_Y], at 120 and at 130, both
    acknowledged (under the ids "a1" and "a2"). *)
Definition two_onetime : Engine :=
  let e := blank EXCHANGE_POLONIEX false in
  let e := (EngineB.addPosition "X_Y" SIDE_SELL (Canon 0) (Canon (coins 120))
              (Canon (coins 1), None) "onetime" "" [] false true T0 e).1 in
  let e := (EngineB.addPosition "X_Y" SIDE_SELL (Canon 0) (Canon (coins 130))
              (Canon (coins 1), None) "onetime" "" [] false true T0 e).1 in
  EngineB.setOrderMeat 2 "a2" (T0 + 100) (EngineB.setOrderMeat 1 "a1" (T0 + 100) e).

(** Two ping-pong buy orders with the same prices (100 / 110), one in market
    [X_Y] and one in market [A_B], both acknowledged. *)
Definition two_alike : Engine :=
  let e := blank EXCHANGE_POLONIEX false in
  let e := (EngineB.addPosition "X_Y" SIDE_BUY (Canon (coins 100))
              (Canon (coins 110)) (Canon (coins 1), None) "active" "" []
              false true T0 e).1 in
  let e := (EngineB.addPosition "A_B" SIDE_BUY (Canon (coins 100))
              (Canon (coins 110)) (Canon (coins 1), None) "active" "" []
              false true T0 e).1 in
  EngineB.setOrderMeat 2 "b2" (T0 + 100) (EngineB.setOrderMeat 1 "b1" (T0 + 100) e).

(** A ticker with bid 95 and ask 108 on both markets. *)
Definition ticker_95_108 : gmap string TickerInfo :=
  {[ "X_Y" := mkTickerInfo (coins 95) (coins 108);
     "A_B" := mkTickerInfo (coins 95) (coins 108) ]}.

(** Scenario S4: a buy order of market [X_Y] at 100 for 0.5, submitted at
    [T0] and not acknowledged, and the open order the exchange reports for
    the same market, side and price with the amount 0.5004 (or any other). *)
Definition half_queued : Engine :=
  (EngineB.addPosition "X_Y" SIDE_BUY (Canon (coins 100)) (Canon (coins 110))
     (Canon 50000000, None) "active" "" [] false true T0
     (blank EXCHANGE_POLONIEX false)).1.

Definition reported (btc_amount' : Coin) : list (string * OrderInfo) :=
  [("X_Y", mkOrderInfo "xyz" SIDE_BUY (Canon (coins 100)) (Canon btc_amount'))].

(** A user-initiated cancel-all over every market is in progress and the
    engine holds nothing. *)
Definition cancelling_all : Engine :=
  mkEngine EXCHANGE_POLONIEX false false settings ∅ 1%positive ∅ ∅ ∅ ∅ ∅ [] ∅ ∅
    true "all" [] [].

(** Scenario S4 again, where the reported id "xyz" was first seen 700 s
    before [T0 + 15000]. *)
Definition seen_long_ago : Engine :=
  set_order_grace_times {[ "xyz" := T0 + 15000 - 700000 ]} half_queued.

(** A ping-pong buy order of market [X_Y] at slot 0 (100 / 110) whose size
    alternates between 1 and 2, acknowledged under the id "abc". *)
Definition alternating : Engine :=
  EngineB.setOrderMeat 1 "abc" (T0 + 100)
    (EngineB.addPosition "X_Y" SIDE_BUY (Canon (coins 100)) (Canon (coins 110))
       (Canon (coins 1), Some (Canon (coins 2))) "active" "" [] false true T0
       (blank EXCHANGE_POLONIEX false)).1.

(** Three ping-pong buy orders of market [X_Y] at the slots 2, 3 and 4,
    acknowledged under the ids "c2", "c3" and "c4" (addresses 1, 2, 3). *)
Definition three_buys : Engine :=
  let add i e :=
    (EngineB.addPosition "X_Y" SIDE_BUY (Canon (coins (100 + i)))
       (Canon (coins (110 + i))) (Canon (coins 1), None) "active" "" [i]
       false true T0 e).1 in
  let e := add 4 (add 3 (add 2 (with_ghosts 6 0 (blank EXCHANGE_POLONIEX false)))) in
  EngineB.setOrderMeat 3 "c4" (T0 + 100)
    (EngineB.setOrderMeat 2 "c3" (T0 + 100)
       (EngineB.setOrderMeat 1 "c2" (T0 + 100) e)).

(** What [converge] does with a run of slots it has found (spruce.h:
    4313-4328), given the position of every slot: each position is cancelled
    for CANCELLING_FOR_DC, its slot is kept in [diverging_converging], and
    the group is recorded with the slots the landmark will span. *)
Definition record_group (m : string) (members : list (ptr * Z)) (now : Z)
    (e : Engine) : Engine :=
  let e :=
    foldl (fun e k =>
             update_dc_indices m (fun l => l ++ [k.2])
               (EngineB.cancelOrder k.1 true CANCELLING_FOR_DC now e))
          e members in
  set_diverge_converge
    (qmap_insert ptrs_ltb (members.*1) (true, members.*2) (diverge_converge e)) e.

(** The three buy orders while they converge, and the same once the cancels
    of the first two have been acknowledged. *)
Definition converging : Engine :=
  record_group "X_Y" [(1%positive, 2); (2%positive, 3); (3%positive, 4)]
    (T0 + 1000) three_buys.

Definition last_of_three : Engine :=
  EngineB.processCancelledOrder 2 (T0 + 3000)
    (EngineB.processCancelledOrder 1 (T0 + 2000) converging).

End Scenes.

(** ** Further scenario data *)

Module Scenes2.

Import Scenario Scenes.

(** The alternating order "abc" after the price walk has marked it as
    slipped and [onCheckTimeouts] has cancelled it to reset the price. *)
Definition resetting : Engine :=
  EngineB.cancelOrder 1 false CANCELLING_FOR_SLIPPAGE_RESET (T0 + 60000)
    (update_pos 1 (set_is_slippage true) alternating).

(** A transport that tracks three markets and is to ask for the book of
    the second next; it accepts replies up to a minute old and has handed
    none to the engine. *)
Definition polling : Waves.WavesREST :=
  Waves.mkWavesREST 1
    [Waves.mkMarket "BTC" "WAVES"; Waves.mkMarket "BTC" "ETH";
     Waves.mkMarket "USD" "BTC"]
    0 [] 60000 0 0 0 [].

(** An engine that holds the position at address 1 as an active order that
    is being cancelled, under the id "abc", and nothing else. *)
Definition one_cancelling : Waves.EngineView :=
  Waves.mkEngineView
    (fun pos => bool_decide (pos = 1%positive))
    (fun pos => bool_decide (pos = 1%positive))
    (fun id => bool_decide (id = "abc"))
    (fun _ => set_is_cancelling true (at_ptr alternating 1))
    (fun _ => set_is_cancelling true (at_ptr alternating 1))
    (fun _ => 1).

(** Three replies to the request for the open orders: the first two come in
    the order their requests were sent, the third answers a request sent
    before that of the second. *)
Definition three_replies : list MyOrdersReply :=
  [mkMyOrdersReply one_cancelling [Some "abc"] (T0 + 1000) (T0 + 1200);
   mkMyOrdersReply one_cancelling [Some "abc"; None] (T0 + 3000) (T0 + 3100);
   mkMyOrdersReply one_cancelling [Some "zzz"] (T0 + 2000) (T0 + 3500)].

(** Six slots of market [X_Y] and one buy order at slot 2, submitted and
    not yet acknowledged. *)
Definition one_in_the_middle : Engine :=
  (EngineB.addPosition "X_Y" SIDE_BUY (Canon (coins 102)) (Canon (coins 112))
     (Canon (coins 1), None) "active" "" [2] false true T0
     (with_ghosts 6 0 (blank EXCHANGE_POLONIEX false))).1.

End Scenes2.

(** * Properties *)

(** ** The price walk *)

Section PriceWalk.

Local Open Scope Z_scope.

Lemma ratchet_buy_unfold fuel ticksize lo_sell original v :
  ratchet_buy fuel ticksize lo_sell original v =
  if (ticksize <=? v) && (v <? lo_sell - ticksize) && (v <? original)
  then match fuel with
       | O => None
       | S fuel' => ratchet_buy fuel' ticksize lo_sell original (v + ticksize)
       end
  else Some v.
Proof. destruct fuel; reflexivity. Qed.

Lemma ratchet_sell_unfold fuel ticksize hi_buy original v :
  ratchet_sell fuel ticksize hi_buy original v =
  if (ticksize * 2 <? v) && (hi_buy + ticksize <? v) && (original <? v)
  then match fuel with
       | O => None
       | S fuel' => ratchet_sell fuel' ticksize hi_buy original (v - ticksize)
       end
  else Some v.
Proof. destruct fuel; reflexivity. Qed.

(** With a positive tick the buy loop stops within
    [(lo_sell - ticksize - v) / ticksize] iterations. *)
Lemma ratchet_buy_terminates ticksize lo_sell original :
  0 < ticksize ->
  forall fuel v, lo_sell - ticksize - v <= Z.of_nat fuel * ticksize ->
  is_Some (ratchet_buy fuel ticksize lo_sell original v).
Proof.
  intros Ht. induction fuel as [|fuel IH]; intros v Hf;
    rewrite ratchet_buy_unfold;
    destruct ((ticksize <=? v) && (v <? lo_sell - ticksize) && (v <? original))
      eqn:Hc; eauto.
  - apply andb_prop in Hc as [Hc _]. apply andb_prop in Hc as [_ Hc].
    apply Z.ltb_lt in Hc. lia.
  - apply IH. lia.
Qed.

Lemma ratchet_sell_terminates ticksize hi_buy original :
  0 < ticksize ->
  forall fuel v, v - ticksize * 2 <= Z.of_nat fuel * ticksize ->
  is_Some (ratchet_sell fuel ticksize hi_buy original v).
Proof.
  intros Ht. induction fuel as [|fuel IH]; intros v Hf;
    rewrite ratchet_sell_unfold;
    destruct ((ticksize * 2 <? v) && (hi_buy + ticksize <? v) && (original <? v))
      eqn:Hc; eauto.
  - apply andb_prop in Hc as [Hc _]. apply andb_prop in Hc as [Hc _].
    apply Z.ltb_lt in Hc. lia.
  - apply IH. lia.
Qed.

Lemma ticks_cover (ticksize x : Z) (fuel : nat) :
  0 < ticksize -> (Z.to_nat (x / ticksize) <= fuel)%nat ->
  x - ticksize < Z.of_nat fuel * ticksize.
Proof.
  intros Ht Hf.
  pose proof (Z.div_mod x ticksize ltac:(lia)) as Hdm.
  pose proof (Z.mod_pos_bound x ticksize Ht) as Hm.
  assert (x / ticksize <= Z.of_nat fuel) as Hq by lia.
  nia.
Qed.

(** Fuel for as many ticks as fit under the lowest sell is enough. *)
Lemma ratchet_buy_total ticksize lo_sell original :
  0 < ticksize ->
  forall fuel v, (Z.to_nat (lo_sell / ticksize) <= fuel)%nat ->
  is_Some (ratchet_buy fuel ticksize lo_sell original v).
Proof.
  intros Ht fuel v Hf. rewrite ratchet_buy_unfold.
  destruct ((ticksize <=? v) && (v <? lo_sell - ticksize) && (v <? original))
    eqn:Hc; [|eauto].
  apply andb_prop in Hc as [Hc _]. apply andb_prop in Hc as [H1 H2].
  apply Z.leb_le in H1. apply Z.ltb_lt in H2.
  pose proof (ticks_cover ticksize lo_sell fuel Ht Hf) as Hcov.
  destruct fuel as [|fuel]; [lia|].
  apply ratchet_buy_terminates; lia.
Qed.

Lemma ratchet_sell_total ticksize hi_buy original :
  0 < ticksize ->
  forall fuel v, (Z.to_nat (v / ticksize) <= fuel)%nat ->
  is_Some (ratchet_sell fuel ticksize hi_buy original v).
Proof.
  intros Ht fuel v Hf.
  pose proof (ticks_cover ticksize v fuel Ht Hf) as Hcov.
  apply ratchet_sell_terminates; lia.
Qed.

(** What the buy loop computes: it adds [k] ticks; every value it leaves
    behind satisfied the loop condition, the value it stops at does not. *)
Lemma ratchet_buy_steps ticksize lo_sell original :
  forall fuel v r,
  ratchet_buy fuel ticksize lo_sell original v = Some r ->
  exists k : nat,
    r = v + Z.of_nat k * ticksize
    /\ (forall j : nat, (j < k)%nat ->
          ticksize <= v + Z.of_nat j * ticksize
          /\ v + Z.of_nat j * ticksize < lo_sell - ticksize
          /\ v + Z.of_nat j * ticksize < original)
    /\ ~ (ticksize <= r /\ r < lo_sell - ticksize /\ r < original).
Proof.
  induction fuel as [|fuel IH]; intros v r; rewrite ratchet_buy_unfold;
    destruct ((ticksize <=? v) && (v <? lo_sell - ticksize) && (v <? original))
      eqn:Hc; try discriminate.
  1, 3: intros [= <-]; exists 0%nat; split; [lia|]; split; [lia|];
      intros (H1 & H2 & H3);
      apply Z.leb_le in H1; apply Z.ltb_lt in H2; apply Z.ltb_lt in H3;
      rewrite H1, H2, H3 in Hc; discriminate.
  intros Hr. destruct (IH _ _ Hr) as (k & -> & Hbelow & Hstop).
  apply andb_prop in Hc as [Hc H3]. apply andb_prop in Hc as [H1 H2].
  apply Z.leb_le in H1. apply Z.ltb_lt in H2. apply Z.ltb_lt in H3.
  exists (S k). split; [lia|]. split; [|exact Hstop].
  intros [|j] Hj; [lia|].
  specialize (Hbelow j ltac:(lia)). lia.
Qed.

End PriceWalk.

Lemma accept_buy_cases pos lo_sell v :
  accept_buy pos lo_sell v = (false, pos)
  \/ (accept_buy pos lo_sell v = (true, set_is_slippage true (set_buy_price v pos))
      /\ v <> buy_price pos /\ 0 < v /\ v <= buy_price_original pos /\ v < lo_sell
      /\ v <> toCoin (price pos)).
Proof.
  unfold accept_buy, coin_neq_text, isGreaterThanZero.
  destruct (negb (v =? toCoin (price pos))) eqn:H1; [|by left].
  destruct (0 <? v) eqn:H2; [|by left].
  destruct (v <=? buy_price_original pos) eqn:H3; [|by left].
  destruct (negb (v =? buy_price pos)) eqn:H4; [|by left].
  destruct (v <? lo_sell) eqn:H5; [|by left].
  right. simpl. split; [done|].
  apply negb_true_iff, Z.eqb_neq in H1, H4.
  apply Z.ltb_lt in H2, H5. apply Z.leb_le in H3. done.
Qed.

Lemma accept_buy_default pos lo_sell :
  accept_buy pos lo_sell Coin_default = (false, pos).
Proof.
  unfold accept_buy, Coin_default, isGreaterThanZero.
  by rewrite (andb_comm (coin_neq_text 0 (price pos))).
Qed.

Lemma accept_buy_same pos lo_sell :
  accept_buy pos lo_sell (buy_price pos) = (false, pos).
Proof.
  unfold accept_buy. rewrite Z.eqb_refl. simpl.
  by rewrite !andb_false_r.
Qed.

Lemma accept_sell_default pos ticksize hi_buy :
  0 < ticksize -> accept_sell pos ticksize hi_buy Coin_default = (false, pos).
Proof.
  intros Ht. unfold accept_sell, Coin_default.
  assert ((ticksize <? 0) = false) as -> by (apply Z.ltb_ge; lia).
  by rewrite !andb_false_r.
Qed.

(** The general law of the buy branch of the first copy: with the ticker
    set and a positive tick the call returns; it snaps to
    [lowest_sell - ticksize] when the buy price has reached the lowest sell,
    and otherwise either changes nothing or accepts the value its loop
    stopped at, which is a strict improvement bounded by the original buy
    price and by the lowest sell. *)
Lemma tryMoveOrder_buy_law (fuel : nat) (pos : Position) (info : MarketInfo) :
  side pos = SIDE_BUY ->
  0 < highest_buy info -> 0 < lowest_sell info -> 0 < price_ticksize info ->
  (Z.to_nat (lowest_sell info / price_ticksize info) <= fuel)%nat ->
  (lowest_sell info <= buy_price pos /\ price_ticksize info < lowest_sell info ->
     EngineA.tryMoveOrder fuel pos info =
       Some (true, set_is_slippage true
                     (set_buy_price (lowest_sell info - price_ticksize info) pos)))
  /\ (~ (lowest_sell info <= buy_price pos /\ price_ticksize info < lowest_sell info) ->
      EngineA.tryMoveOrder fuel pos info = Some (false, pos)
      \/ exists (k : nat) (v : Coin),
           EngineA.tryMoveOrder fuel pos info =
             Some (true, set_is_slippage true (set_buy_price v pos))
           /\ (0 < k)%nat
           /\ v = buy_price pos + Z.of_nat k * price_ticksize info
           /\ (forall j : nat, (j < k)%nat ->
                 buy_price pos + Z.of_nat j * price_ticksize info
                   < lowest_sell info - price_ticksize info
                 /\ buy_price pos + Z.of_nat j * price_ticksize info
                   < buy_price_original pos)
           /\ ~ (v < lowest_sell info - price_ticksize info
                 /\ v < buy_price_original pos)
           /\ buy_price pos < v
           /\ v <= buy_price_original pos
           /\ v < lowest_sell info).
Proof.
  intros Hside Hhi Hlo Ht Hfuel. unfold EngineA.tryMoveOrder.
  assert (isZeroOrLess (highest_buy info) = false) as ->
    by (apply Z.leb_gt; lia).
  assert (isZeroOrLess (lowest_sell info) = false) as ->
    by (apply Z.leb_gt; lia).
  rewrite Hside. simpl. split.
  - intros [H1 H2]. apply Z.leb_le in H1. apply Z.ltb_lt in H2.
    by rewrite H1, H2.
  - intros Hnsnap.
    destruct ((lowest_sell info <=? buy_price pos)
              && (price_ticksize info <? lowest_sell info)) eqn:Hs.
    { apply andb_prop in Hs as [H1 H2]. apply Z.leb_le in H1.
      apply Z.ltb_lt in H2. tauto. }
    destruct (price_ticksize info * 2 <=? lowest_sell info) eqn:Hg; simpl;
      [|left; by rewrite accept_buy_default].
    destruct (ratchet_buy_total (price_ticksize info) (lowest_sell info)
                (buy_price_original pos) Ht fuel (buy_price pos)) as [v Hv];
      [done|].
    rewrite Hv. simpl.
    destruct (ratchet_buy_steps _ _ _ _ _ _ Hv) as (k & Hk & Hbelow & Hstop).
    destruct (accept_buy_cases pos (lowest_sell info) v)
      as [Hrej|(Hacc & Hne & Hpos & Hle & Hlt & _)]; [left; by rewrite Hrej|].
    right. exists k, v. rewrite Hacc. split; [done|].
    assert (0 < k)%nat as Hk0.
    { destruct k; [|lia]. simpl in Hk. lia. }
    split; [done|]. split; [done|].
    split; [intros j Hj; specialize (Hbelow j Hj); lia|].
    specialize (Hbelow 0%nat Hk0).
    split; [|nia]. intros [Ha Hb]. apply Hstop. nia.
Qed.

(** C6 (as amended).  For a buy position, with the ticker set and a positive
    tick, [tryMoveOrder] snaps [buy_price] to [lowest_sell - ticksize] and
    marks [is_slippage] when [buy_price >= lowest_sell] and
    [lowest_sell > ticksize]; otherwise it either changes nothing and
    returns false, or returns true with [is_slippage] set and [buy_price]
    raised by [k >= 1] ticks, where every value passed on the way was below
    [lowest_sell - ticksize] and below [buy_price_original] and the value
    reached is not, and the new price is a strict improvement that is
    [<= buy_price_original] and [< lowest_sell].  With buy_price 100, tick 1
    and lowest sell 105 the position is unchanged when the original buy price
    is 100 and becomes 104 with [is_slippage] when it is 105. *)
Theorem tryMoveOrder_buy_walk :
  (forall (fuel : nat) (pos : Position) (info : MarketInfo),
     side pos = SIDE_BUY ->
     0 < highest_buy info -> 0 < lowest_sell info -> 0 < price_ticksize info ->
     (Z.to_nat (lowest_sell info / price_ticksize info) <= fuel)%nat ->
     (lowest_sell info <= buy_price pos /\ price_ticksize info < lowest_sell info ->
        EngineA.tryMoveOrder fuel pos info =
          Some (true, set_is_slippage true
                        (set_buy_price (lowest_sell info - price_ticksize info) pos)))
     /\ (~ (lowest_sell info <= buy_price pos
            /\ price_ticksize info < lowest_sell info) ->
         EngineA.tryMoveOrder fuel pos info = Some (false, pos)
         \/ exists (k : nat) (v : Coin),
              EngineA.tryMoveOrder fuel pos info =
                Some (true, set_is_slippage true (set_buy_price v pos))
              /\ (0 < k)%nat
              /\ v = buy_price pos + Z.of_nat k * price_ticksize info
              /\ (forall j : nat, (j < k)%nat ->
                    buy_price pos + Z.of_nat j * price_ticksize info
                      < lowest_sell info - price_ticksize info
                    /\ buy_price pos + Z.of_nat j * price_ticksize info
                      < buy_price_original pos)
              /\ ~ (v < lowest_sell info - price_ticksize info
                    /\ v < buy_price_original pos)
              /\ buy_price pos < v
              /\ v <= buy_price_original pos
              /\ v < lowest_sell info))
  /\ (forall fuel : nat,
        EngineA.tryMoveOrder fuel Scenario.S5_pos Scenario.S5_info
          = Some (false, Scenario.S5_pos))
  /\ (forall fuel : nat, (4 <= fuel)%nat ->
        EngineA.tryMoveOrder fuel Scenario.S5_pos' Scenario.S5_info
          = Some (true, set_is_slippage true
                          (set_buy_price (Scenario.coins 104) Scenario.S5_pos'))).
Proof.
  split; [exact tryMoveOrder_buy_law|]. split.
  - intros [|fuel]; reflexivity.
  - intros fuel Hf. do 4 (destruct fuel as [|fuel]; [lia|]).
    unfold EngineA.tryMoveOrder. cbn -[ratchet_buy].
    do 5 (rewrite ratchet_buy_unfold; cbn -[ratchet_buy]).
    reflexivity.
Qed.

(** The general part of [tryMoveOrder_buy_walk] at scenario S5 with the
    original buy price 105. *)
Lemma tryMoveOrder_buy_walk_witness :
  EngineA.tryMoveOrder 105 Scenario.S5_pos' Scenario.S5_info
    = Some (false, Scenario.S5_pos')
  \/ exists (k : nat) (v : Coin),
       EngineA.tryMoveOrder 105 Scenario.S5_pos' Scenario.S5_info =
         Some (true, set_is_slippage true (set_buy_price v Scenario.S5_pos'))
       /\ (0 < k)%nat
       /\ v = buy_price Scenario.S5_pos'
              + Z.of_nat k * price_ticksize Scenario.S5_info
       /\ (forall j : nat, (j < k)%nat ->
             buy_price Scenario.S5_pos'
               + Z.of_nat j * price_ticksize Scenario.S5_info
               < lowest_sell Scenario.S5_info - price_ticksize Scenario.S5_info
             /\ buy_price Scenario.S5_pos'
                  + Z.of_nat j * price_ticksize Scenario.S5_info
               < buy_price_original Scenario.S5_pos')
       /\ ~ (v < lowest_sell Scenario.S5_info - price_ticksize Scenario.S5_info
             /\ v < buy_price_original Scenario.S5_pos')
       /\ buy_price Scenario.S5_pos' < v
       /\ v <= buy_price_original Scenario.S5_pos'
       /\ v < lowest_sell Scenario.S5_info.
Proof.
  refine (proj2 (proj1 tryMoveOrder_buy_walk 105%nat Scenario.S5_pos'
                   Scenario.S5_info eq_refl eq_refl eq_refl eq_refl _) _).
  - vm_compute. lia.
  - vm_compute. intros [H _]. apply H. reflexivity.
Defined.

(** The sentence of C6 "ratchets buy_price up to the highest value below
    lowest_sell - ticksize and below buy_price_original" read literally
    fails on the claim's own example: the walk from 100 with tick 1 under a
    lowest sell of 105 and an original price of 105 is accepted at 104, which
    is not below 105 - 1. *)
Lemma tryMoveOrder_buy_walk_counterexample :
  ~ (forall (fuel : nat) (pos : Position) (info : MarketInfo) (r : Position),
       side pos = SIDE_BUY ->
       ~ (lowest_sell info <= buy_price pos
          /\ price_ticksize info < lowest_sell info) ->
       EngineA.tryMoveOrder fuel pos info = Some (true, r) ->
       buy_price r < lowest_sell info - price_ticksize info
       /\ buy_price r < buy_price_original pos).
Proof.
  intros H.
  destruct (H 4%nat Scenario.S5_pos' Scenario.S5_info
              (set_is_slippage true
                 (set_buy_price (Scenario.coins 104) Scenario.S5_pos'))
              eq_refl) as [Hlt _].
  - vm_compute. intros [Hle _]. apply Hle. reflexivity.
  - reflexivity.
  - vm_compute in Hlt. discriminate.
Qed.

(** C10 (as amended).  The two copies of [tryMoveOrder] return the same
    boolean and leave the position in the same state for every buy position
    and every market state, and for every sell position whenever the highest
    buy is at least one tick. *)
Theorem tryMoveOrder_copies_agree (fuel : nat) (pos : Position) (info : MarketInfo) :
  side pos = SIDE_BUY \/ price_ticksize info <= highest_buy info ->
  EngineA.tryMoveOrder fuel pos info = EngineB.tryMoveOrder fuel pos info.
Proof.
  intros Hcase. unfold EngineA.tryMoveOrder, EngineB.tryMoveOrder.
  destruct (isZeroOrLess (highest_buy info)) eqn:Hhi; [done|].
  destruct (isZeroOrLess (lowest_sell info)) eqn:Hlo; [done|]. simpl.
  apply Z.leb_gt in Hhi, Hlo.
  assert (isGreaterThanZero (highest_buy info) = true) as ->
    by (apply Z.ltb_lt; lia).
  assert (isGreaterThanZero (lowest_sell info) = true) as ->
    by (apply Z.ltb_lt; lia).
  destruct (side pos) eqn:Hside.
  - destruct ((lowest_sell info <=? buy_price pos)
              && (price_ticksize info <? lowest_sell info)); [done|].
    destruct (price_ticksize info * 2 <=? lowest_sell info) eqn:Hg; [done|].
    apply Z.leb_gt in Hg. rewrite ratchet_buy_unfold.
    destruct ((price_ticksize info <=? buy_price pos)
              && (buy_price pos <? lowest_sell info - price_ticksize info)
              && (buy_price pos <? buy_price_original pos)) eqn:Hc.
    + apply andb_prop in Hc as [Hc _]. apply andb_prop in Hc as [H1 H2].
      apply Z.leb_le in H1. apply Z.ltb_lt in H2. lia.
    + simpl. by rewrite accept_buy_default, accept_buy_same.
  - destruct Hcase as [|Hge]; [done|].
    destruct (sell_price pos <=? highest_buy info); [done|].
    apply Z.leb_le in Hge. by rewrite Hge.
Qed.

(** [tryMoveOrder_copies_agree] at the buy position of scenario S5. *)
Lemma tryMoveOrder_copies_agree_witness :
  EngineA.tryMoveOrder 8 Scenario.S5_pos' Scenario.S5_info
  = EngineB.tryMoveOrder 8 Scenario.S5_pos' Scenario.S5_info.
Proof.
  apply tryMoveOrder_copies_agree. left. reflexivity.
Defined.

(** The two copies differ on a sell position when the highest buy lies
    under one tick: the first copy leaves the position alone, the second
    walks the sell price from 100 down to its original 50. *)
Lemma tryMoveOrder_copies_differ :
  EngineA.tryMoveOrder 8 Scenario.low_bid_sell Scenario.low_bid_info
    = Some (false, Scenario.low_bid_sell)
  /\ EngineB.tryMoveOrder 8 Scenario.low_bid_sell Scenario.low_bid_info
    = Some (true, set_is_slippage true (set_sell_price 50 Scenario.low_bid_sell))
  /\ ~ (forall (fuel : nat) (pos : Position) (info : MarketInfo),
          EngineA.tryMoveOrder fuel pos info = EngineB.tryMoveOrder fuel pos info).
Proof.
  split; [reflexivity|]. split; [reflexivity|].
  intros H. specialize (H 8%nat Scenario.low_bid_sell Scenario.low_bid_info).
  discriminate H.
Qed.

(** ** The position store *)

Section Store.

Local Open Scope Z_scope.

Lemma heap_update_pos pos f e :
  heap (update_pos pos f e) !! pos = f <$> heap e !! pos.
Proof. unfold update_pos. simpl. by rewrite lookup_alter_eq. Qed.

Lemma heap_update_pos_ne pos pos' f e :
  pos <> pos' -> heap (update_pos pos f e) !! pos' = heap e !! pos'.
Proof. intros. unfold update_pos. simpl. by rewrite lookup_alter_ne. Qed.

Lemma isQueuedPosition_true e pos :
  isQueuedPosition e pos = true <-> pos ∈ positions_queued e.
Proof. unfold isQueuedPosition. by rewrite bool_decide_eq_true. Qed.

Lemma isActivePosition_true e pos :
  isActivePosition e pos = true <-> pos ∈ positions_active e.
Proof. unfold isActivePosition. by rewrite bool_decide_eq_true. Qed.

Lemma isPosition_true e pos :
  isPosition e pos = true <-> pos ∈ positions_all e.
Proof. unfold isPosition. by rewrite bool_decide_eq_true. Qed.

(** A cancel of a queued position only marks it. *)
Lemma cancelOrder_queued e pos p quiet reason now :
  is_testing e = false ->
  heap e !! pos = Some p ->
  pos ∈ positions_all e ->
  pos ∈ positions_queued e ->
  EngineB.cancelOrder pos quiet reason now e =
    update_pos pos (fun x => set_order_cancel_time 1 (set_is_cancelling true x))
      (update_pos pos (set_cancel_reason reason) e).
Proof.
  intros Ht Hp Hall Hq. unfold EngineB.cancelOrder.
  rewrite (proj2 (isPosition_true e pos) Hall), Ht. cbn [negb].
  assert (isQueuedPosition (update_pos pos (set_cancel_reason reason) e) pos
          = true) as -> by (by apply isQueuedPosition_true).
  done.
Qed.

(** A cancel of a position that is no longer queued goes to the transport. *)
Lemma cancelOrder_active e pos p quiet reason now :
  is_testing e = false ->
  heap e !! pos = Some p ->
  pos ∈ positions_all e ->
  pos ∉ positions_queued e ->
  EngineB.cancelOrder pos quiet reason now e =
    EngineB.sendCancel (order_number p) (Some pos) now
      (update_pos pos (set_cancel_reason reason) e).
Proof.
  intros Ht Hp Hall Hq. unfold EngineB.cancelOrder.
  rewrite (proj2 (isPosition_true e pos) Hall), Ht. cbn [negb].
  assert (isQueuedPosition (update_pos pos (set_cancel_reason reason) e) pos
          = false) as ->.
  { apply not_true_is_false. by rewrite isQueuedPosition_true. }
  by rewrite heap_update_pos, Hp.
Qed.

Lemma heap_sendCancel id pos now e :
  heap (EngineB.sendCancel id (Some pos) now e) !! pos =
    (fun x => set_order_cancel_time now (set_is_cancelling true x))
      <$> heap e !! pos.
Proof. unfold EngineB.sendCancel. by rewrite heap_update_pos. Qed.

Lemma trace_sendCancel id pos now e :
  trace (EngineB.sendCancel id pos now e) = trace e ++ [RestSendCancel id pos].
Proof. unfold EngineB.sendCancel. by destruct pos. Qed.

Lemma sets_sendCancel id pos now e :
  positions_queued (EngineB.sendCancel id pos now e) = positions_queued e
  /\ positions_active (EngineB.sendCancel id pos now e) = positions_active e
  /\ positions_all (EngineB.sendCancel id pos now e) = positions_all e
  /\ positions_by_number (EngineB.sendCancel id pos now e)
     = positions_by_number e.
Proof. unfold EngineB.sendCancel. by destruct pos. Qed.

End Store.

(** ** The queued cancel *)

(** C5.  A cancel of a queued position (outside test mode, where nothing is
    ever queued) sets [is_cancelling] and [order_cancel_time = 1], records
    the reason and sends nothing; when the acknowledgment then sets the
    order, at a time further than [cancel_timeout] from the epoch, the
    position is active and a transport cancel for its order id has been
    sent, with the reason that was asked for. *)
Theorem queued_cancel_is_sent_on_activation
    (e : Engine) (pos : ptr) (p : Position) (quiet : bool)
    (reason : CancelReason) (number : string) (now1 now2 : Z) :
  is_testing e = false ->
  heap e !! pos = Some p ->
  pos ∈ positions_all e ->
  pos ∈ positions_queued e ->
  number <> "" ->
  1 < now2 - cancel_timeout (m_settings e) ->
  let e1 := EngineB.cancelOrder pos quiet reason now1 e in
  let e2 := EngineB.setOrderMeat pos number now2 e1 in
  (exists p1, heap e1 !! pos = Some p1
      /\ is_cancelling p1 = true /\ order_cancel_time p1 = 1
      /\ cancel_reason p1 = reason /\ order_number p1 = order_number p)
  /\ trace e1 = trace e
  /\ (pos ∈ positions_queued e1)
  /\ positions_active e1 = positions_active e
  /\ (pos ∈ positions_active e2)
  /\ (pos ∉ positions_queued e2)
  /\ (exists p2, heap e2 !! pos = Some p2
        /\ order_number p2 = canonical_id e p number
        /\ is_cancelling p2 = true /\ cancel_reason p2 = reason
        /\ order_set_time p2 = now2)
  /\ trace e2 = trace e ++ [RestSendCancel (canonical_id e p number) (Some pos)].
Proof.
  intros Ht Hp Hall Hq Hnum Hclock e1 e2.
  assert (e1 = update_pos pos
                 (fun x => set_order_cancel_time 1 (set_is_cancelling true x))
                 (update_pos pos (set_cancel_reason reason) e)) as He1
    by (by eapply cancelOrder_queued).
  assert (heap e1 !! pos =
          Some (set_order_cancel_time 1
                  (set_is_cancelling true (set_cancel_reason reason p)))) as Hp1.
  { rewrite He1, !heap_update_pos, Hp. done. }
  split; [eexists; split; [exact Hp1|done]|].
  split; [by rewrite He1|]. split; [by rewrite He1|]. split; [by rewrite He1|].
  subst e2. unfold EngineB.setOrderMeat.
  rewrite bool_decide_eq_false_2 by done.
  set (pa := set_order_cancel_time 1
               (set_is_cancelling true (set_cancel_reason reason p))) in *.
  set (pb := set_is_new_hilo_order false (set_order_set_time now2 pa)).
  set (pc := set_order_number (canonical_id e p number) pb).
  match goal with
  | |- context [match heap ?em !! pos with _ => _ end] => set (emid := em)
  end.
  assert (heap emid !! pos = Some pc) as Hpc.
  { subst emid. rewrite heap_update_pos. simpl.
    rewrite lookup_alter_eq, Hp1. simpl. subst pc pb pa.
    unfold canonical_id. rewrite He1. simpl. rewrite Ht.
    by destruct (exchange e). }
  rewrite Hpc.
  assert ((is_cancelling pc
           && (order_cancel_time pc <? now2 - cancel_timeout (m_settings emid)))
          = true) as ->.
  { subst pc pb pa emid. rewrite He1. simpl. apply Z.ltb_lt. lia. }
  assert (is_testing emid = false) as Htm by (subst emid; by rewrite He1).
  assert (pos ∈ positions_all emid) as Hallm by (subst emid; by rewrite He1).
  assert (positions_queued emid = positions_queued e ∖ {[pos]}) as Hqm
    by (subst emid; by rewrite He1).
  assert (positions_active emid = positions_active e ∪ {[pos]}) as Ham
    by (subst emid; by rewrite He1).
  assert (trace emid = trace e) as Htr by (subst emid; by rewrite He1).
  assert (pos ∉ positions_queued emid) as Hnq.
  { rewrite Hqm. apply not_elem_of_difference. right. by apply elem_of_singleton. }
  assert (order_number pc = canonical_id e p number) as Hnum' by done.
  assert (is_cancelling pc = true /\ order_set_time pc = now2
          /\ cancel_reason pc = reason) as (Hc & Hs & Hr) by done.
  clearbody emid pc.
  rewrite (cancelOrder_active emid pos pc _ _ _ Htm Hpc Hallm Hnq), Hnum'.
  destruct (sets_sendCancel (canonical_id e p number) (Some pos) now2
              (update_pos pos (set_cancel_reason (cancel_reason pc)) emid))
    as (-> & -> & _ & _).
  rewrite trace_sendCancel, heap_sendCancel, heap_update_pos, Hpc.
  change (positions_active (update_pos pos (set_cancel_reason (cancel_reason pc)) emid))
    with (positions_active emid).
  change (positions_queued (update_pos pos (set_cancel_reason (cancel_reason pc)) emid))
    with (positions_queued emid).
  change (trace (update_pos pos (set_cancel_reason (cancel_reason pc)) emid))
    with (trace emid).
  rewrite Ham, Htr.
  split; [by apply elem_of_union_r, elem_of_singleton|].
  split; [done|]. split; [|done].
  eexists. split; [reflexivity|]. simpl. by rewrite Hnum', Hs, Hr.
Qed.

(** Scenario S3: the cancel of the queued order is sent, for "abc", once the
    acknowledgment has set the order. *)
Lemma queued_cancel_is_sent_on_activation_witness :
  trace (EngineB.setOrderMeat 1 "abc" (Scenes.T0 + 2000)
           (EngineB.cancelOrder 1 false CANCELLING_FOR_USER (Scenes.T0 + 1000)
              (Scenes.one_queued EXCHANGE_POLONIEX)))
  = trace (Scenes.one_queued EXCHANGE_POLONIEX)
      ++ [RestSendCancel "abc" (Some 1%positive)].
Proof.
  refine (proj2 (proj2 (proj2 (proj2 (proj2 (proj2 (proj2
    (queued_cancel_is_sent_on_activation
       (Scenes.one_queued EXCHANGE_POLONIEX) 1%positive
       (Scenes.at_ptr (Scenes.one_queued EXCHANGE_POLONIEX) 1) false
       CANCELLING_FOR_USER "abc" (Scenes.T0 + 1000) (Scenes.T0 + 2000)
       _ _ _ _ _ _)))))))).
  - reflexivity.
  - vm_compute. reflexivity.
  - apply (bool_decide_unpack _). vm_compute. exact I.
  - apply (bool_decide_unpack _). vm_compute. exact I.
  - discriminate.
  - vm_compute. reflexivity.
Defined.

(** ** Fills of one batch *)

(** C4, at a batch of two one-time orders.  [processFilledOrders] keys both
    by the coin of value one, the second [QMap::insert] replaces the first,
    and only the order "a2" goes through [fillNQ]: the order "a1" is not
    dispatched and stays active. *)
Theorem processFilledOrders_drops_equal_keys :
  let e := EngineA.processFilledOrders [1%positive; 2%positive] FILL_GETORDER
             (Scenes.T0 + 20000) Scenes.two_onetime in
  elements (positions_active Scenes.two_onetime) = [2%positive; 1%positive]
  /\ Scenes.dispatched Scenes.two_onetime = []
  /\ Scenes.dispatched e = ["a2"]
  /\ elements (positions_active e) = [1%positive].
Proof. vm_compute. done. Qed.

(** C7, at two active buy orders with equal prices and a ticker that has
    passed both.  Both are out of the safety window and both are collected,
    the first application dispatches only "b1", and the second application
    of the same payload with the same request time dispatches "b2". *)
Theorem processTicker_twice_dispatches_again :
  let once := EngineA.processTicker Scenes.ticker_95_108 (Scenes.T0 + 9000)
                (Scenes.T0 + 10000) Scenes.two_alike in
  let twice := EngineA.processTicker Scenes.ticker_95_108 (Scenes.T0 + 9000)
                 (Scenes.T0 + 10000) once in
  EngineB.ts_filled_orders
    (EngineB.ticker_scan Scenes.ticker_95_108 (Scenes.T0 + 9000)
       (Scenes.T0 + 10000) Scenes.two_alike) = [2%positive; 1%positive]
  /\ Scenes.dispatched Scenes.two_alike = []
  /\ Scenes.dispatched once = ["b1"]
  /\ Scenes.dispatched twice = ["b1"; "b2"].
Proof. vm_compute. done. Qed.

(** ** Stray orders *)

(** C3, at scenario S4.  The queued order for 0.5 and the reported order for
    0.5004 agree on market, side and price and the request is 15 s old, yet
    the order is not activated: it stays queued without an order number and
    the reported id gets a grace time.  A reported amount of exactly 0.5 does
    activate it. *)
Theorem processOpenOrders_needs_equal_amount :
  let now := Scenes.T0 + 15000 in
  let e := EngineB.processOpenOrders ["xyz"] (Scenes.reported 50040000)
             (now - 1000) now Scenes.half_queued in
  let e' := EngineB.processOpenOrders ["xyz"] (Scenes.reported 50000000)
              (now - 1000) now Scenes.half_queued in
  btc_amount (Scenes.at_ptr Scenes.half_queued 1) = 50000000
  /\ order_request_time (Scenes.at_ptr Scenes.half_queued 1) = now - 15000
  /\ (ratio 50000000 999 1000 <= 50040000 <= ratio 50000000 1001 1000)
  /\ elements (positions_queued e) = [1%positive]
  /\ elements (positions_active e) = []
  /\ order_number (Scenes.at_ptr e 1) = ""
  /\ order_grace_times e !! "xyz" = Some now
  /\ elements (positions_active e') = [1%positive]
  /\ order_number (Scenes.at_ptr e' 1) = "xyz"
  /\ order_grace_times e' !! "xyz" = None.
Proof. vm_compute. repeat split; discriminate. Qed.

(** ** The by-order-id map *)

(** C9, on a Binance build.  The acknowledgment "123" of the queued order of
    market [X_Y] makes it active under the order number "X_Y123", while the
    by-order-id map has its entry under "123" and none under "X_Y123". *)
Theorem setOrderMeat_binance_key_mismatch :
  let e := EngineB.setOrderMeat 1 "123" (Scenes.T0 + 100)
             (Scenes.one_queued EXCHANGE_BINANCE) in
  elements (positions_queued (Scenes.one_queued EXCHANGE_BINANCE)) = [1%positive]
  /\ elements (positions_active e) = [1%positive]
  /\ elements (positions_queued e) = []
  /\ order_number (Scenes.at_ptr e 1) = "X_Y123"
  /\ positions_by_number e !! "X_Y123" = None
  /\ positions_by_number e !! "123" = Some 1%positive.
Proof. vm_compute. done. Qed.

(** ** What the store operations leave alone *)

Section Control.

Local Open Scope Z_scope.

Lemma same_control_refl e : same_control e e.
Proof. by repeat split. Qed.

Lemma same_control_trans e1 e2 e3 :
  same_control e1 e2 -> same_control e2 e3 -> same_control e1 e3.
Proof.
  unfold same_control.
  intros (?&?&?&?&?&?&?&?) (?&?&?&?&?&?&?&?). repeat split; congruence.
Qed.

Lemma foldl_same_control {A : Type} (f : Engine -> A -> Engine) (l : list A) :
  (forall e x, same_control e (f e x)) ->
  forall e, same_control e (foldl f e l).
Proof.
  intros Hf. induction l as [|x l IH]; intros e; simpl.
  - apply same_control_refl.
  - eapply same_control_trans; [apply Hf|apply IH].
Qed.

Lemma stray_cancels_emit x e :
  stray_cancels (emit x e) = stray_cancels e ++ option_list (stray_cancel_id x).
Proof.
  unfold stray_cancels, emit. simpl. rewrite omap_app. simpl.
  by destruct (stray_cancel_id x).
Qed.

Lemma same_control_emit x e :
  stray_cancel_id x = None -> same_control e (emit x e).
Proof.
  intros Hx. repeat split; try reflexivity.
  rewrite stray_cancels_emit, Hx. simpl. by rewrite app_nil_r.
Qed.

Lemma same_control_update_pos pos f e : same_control e (update_pos pos f e).
Proof. by repeat split. Qed.

Lemma same_control_update_info m f e : same_control e (update_info m f e).
Proof. by repeat split. Qed.

Lemma same_control_update_dc_indices m f e :
  same_control e (update_dc_indices m f e).
Proof. by repeat split. Qed.

Lemma same_control_sendCancel id pos now e :
  same_control e (EngineB.sendCancel id (Some pos) now e).
Proof.
  unfold EngineB.sendCancel.
  apply (same_control_trans _ (emit (RestSendCancel id (Some pos)) e));
    [by apply same_control_emit|apply same_control_update_pos].
Qed.

Lemma same_control_sendBuySell pos now e :
  same_control e (EngineB.sendBuySell pos now e).
Proof.
  unfold EngineB.sendBuySell.
  apply (same_control_trans _ (emit (RestSendBuySell pos) e));
    [by apply same_control_emit|apply same_control_update_pos].
Qed.

Lemma same_control_removeFromDC pos p e :
  same_control e (EngineB.removeFromDC pos p e).
Proof.
  unfold EngineB.removeFromDC.
  eapply same_control_trans; [|apply foldl_same_control].
  - destruct (list_find _ _) as [[? [? ?]]|]; by repeat split.
  - intros. apply same_control_update_dc_indices.
Qed.

Lemma same_control_deletePosition pos e :
  same_control e (EngineB.deletePosition pos e).
Proof.
  unfold EngineB.deletePosition.
  destruct (negb _ && negb _); [apply same_control_refl|].
  destruct (heap e !! pos) as [p|]; [|apply same_control_refl].
  eapply same_control_trans; [apply (same_control_removeFromDC pos p)|].
  by repeat split.
Qed.

Lemma same_control_cancelOrder pos quiet reason now e :
  same_control e (EngineB.cancelOrder pos quiet reason now e).
Proof.
  unfold EngineB.cancelOrder.
  destruct (negb (isPosition e pos)); [apply same_control_refl|].
  destruct (is_testing e); [apply same_control_deletePosition|].
  destruct (isQueuedPosition _ pos); [by repeat split|].
  destruct (heap _ !! pos) as [p|]; [|by repeat split].
  eapply same_control_trans; [|apply same_control_sendCancel].
  apply same_control_update_pos.
Qed.

Lemma same_control_setOrderMeat pos number now e :
  same_control e (EngineB.setOrderMeat pos number now e).
Proof.
  unfold EngineB.setOrderMeat.
  destruct (bool_decide (number = "")); [apply same_control_refl|].
  match goal with
  | |- context [match heap ?em !! pos with _ => _ end] =>
      set (emid := em); assert (same_control e emid) as Hmid by (by repeat split)
  end.
  clearbody emid.
  destruct (heap emid !! pos) as [p|]; [|done].
  destruct (_ && _); [|done].
  eapply same_control_trans; [exact Hmid|apply same_control_cancelOrder].
Qed.

Lemma same_control_register_position p now e :
  same_control e (EngineB.register_position p now e).1.
Proof.
  unfold EngineB.register_position.
  match goal with
  | |- context [if is_testing ?em then _ else _] =>
      set (emid := em); assert (same_control e emid) as Hmid by (by repeat split)
  end.
  clearbody emid.
  destruct (is_testing emid); simpl.
  - eapply same_control_trans; [exact Hmid|].
    eapply same_control_trans; [|apply same_control_setOrderMeat].
    apply same_control_update_pos.
  - eapply same_control_trans; [exact Hmid|apply same_control_sendBuySell].
Qed.

Lemma same_control_addPosition m sd b s sz type tag indices landmark quiet now e :
  same_control e
    (EngineB.addPosition m sd b s sz type tag indices landmark quiet now e).1.
Proof.
  unfold EngineB.addPosition.
  destruct (EngineB.rejects_arguments _ _ _ _ _ _ _ _ _);
    [apply same_control_refl|].
  destruct (if _ && bool_decide (indices = []) then _ else _)
    as [e1 i1] eqn:Hx.
  assert (same_control e e1) as H1.
  { destruct (_ && _); injection Hx as <- <-; by repeat split. }
  clear Hx.
  destruct (negb (EngineB.startsWith type "onetime")
            && negb (bool_decide (type = "active"))); [exact H1|].
  destruct (EngineB.rejects_position _ _); [exact H1|].
  eapply same_control_trans; [exact H1|apply same_control_register_position].
Qed.

Lemma same_control_addLandmarkPositionFor p now e :
  same_control e (EngineB.addLandmarkPositionFor p now e).1.
Proof. apply same_control_addPosition. Qed.

Lemma same_control_flipPosition pos now e :
  same_control e (EngineB.flipPosition pos now e).
Proof.
  unfold EngineB.flipPosition.
  destruct (heap e !! pos) as [p|]; [|apply same_control_refl].
  destruct (is_onetime p); [apply same_control_refl|].
  match goal with
  | |- context [if is_landmark _ then (_ _ _ ?em).1 else _] =>
      set (emid := em); assert (same_control e emid) as Hmid
  end.
  { subst emid. destruct (bool_decide _); [|by repeat split].
    apply (same_control_trans _ (update_pos pos Position_flip e));
      [by repeat split|by apply same_control_emit]. }
  clearbody emid.
  destruct (is_landmark _);
    (eapply same_control_trans; [exact Hmid|]).
  - apply same_control_addLandmarkPositionFor.
  - apply same_control_addPosition.
Qed.

Lemma same_control_fill_slot m e idx : same_control e (EngineB.fill_slot m e idx).
Proof.
  unfold EngineB.fill_slot.
  destruct (_ <=? idx); [apply same_control_refl|].
  destruct (idx <? 0); [apply same_control_refl|].
  apply same_control_update_info.
Qed.

Lemma same_control_fillNQ id fill_type extra now e :
  same_control e (EngineB.fillNQ id fill_type extra now e).
Proof.
  unfold EngineB.fillNQ.
  set (e0 := emit (Dispatch id fill_type) e).
  assert (same_control e e0) as H0 by (by apply same_control_emit).
  clearbody e0.
  destruct (_ || _); [done|]. destruct (_ || _); [done|].
  destruct (getPositionForOrderID e0 id) as [pos|]; [|done].
  destruct (heap e0 !! pos) as [p|]; [|done].
  match goal with
  | |- context [if is_testing ?em then _ else _] =>
      set (emid := em); assert (same_control e emid) as Hmid
  end.
  { subst emid. eapply same_control_trans; [exact H0|].
    eapply same_control_trans; [|apply same_control_flipPosition].
    eapply same_control_trans; [|apply foldl_same_control, same_control_fill_slot].
    by apply same_control_emit. }
  clearbody emid.
  destruct (is_testing emid).
  - eapply same_control_trans; [exact Hmid|apply same_control_deletePosition].
  - eapply same_control_trans; [|apply same_control_deletePosition].
    destruct (bool_decide _); [|done].
    eapply same_control_trans; [exact Hmid|by apply same_control_emit].
Qed.

Lemma same_control_dispatch_fills fill_type now sorted e :
  same_control e (EngineB.dispatch_fills fill_type now sorted e).
Proof.
  unfold EngineB.dispatch_fills. apply foldl_same_control.
  intros. apply same_control_fillNQ.
Qed.

Lemma same_control_processFilledOrders batch fill_type now e :
  same_control e (EngineB.processFilledOrders batch fill_type now e).
Proof. apply same_control_dispatch_fills. Qed.

End Control.

(** ** The grace of stray orders *)

Section Strays.

Local Open Scope Z_scope.

(** One reported order, outside cancel-all mode: nothing that matters here
    changes, or the id gets its first grace stamp, or the id, whose stamp is
    older than the limit, joins the queue. *)
Lemma scan_order_cases now e q kv :
  is_running_cancelall e = false ->
  let r := EngineB.scan_order now (e, q) kv in
  let id := oi_order_number kv.2 in
  (same_control e r.1 /\ r.2 = q)
  \/ (order_grace_times e !! id = None
      /\ same_control (set_order_grace_times (<[id := now]> (order_grace_times e)) e)
           r.1
      /\ order_grace_times r.1 = <[id := now]> (order_grace_times e)
      /\ r.2 = q)
  \/ (exists seen, order_grace_times e !! id = Some seen
        /\ stray_grace_time_limit (m_settings e) < now - seen
        /\ r.1 = e /\ r.2 = q ++ [id]).
Proof.
  intros Hrun. unfold EngineB.scan_order. rewrite Hrun. cbv zeta.
  destruct (_ && negb (isPositionOrderID e _)) eqn:Hs;
    [|left; split; [apply same_control_refl|done]].
  destruct (negb _ && negb (contains _ _));
    [left; split; [apply same_control_refl|done]|].
  destruct (order_grace_times e !! oi_order_number kv.2) as [seen|] eqn:Hg.
  - destruct (_ <? now - seen) eqn:Hlt.
    + right. right. exists seen. apply Z.ltb_lt in Hlt. done.
    + left. split; [apply same_control_refl|done].
  - destruct (EngineB.find_matching_pos e kv.1 kv.2) as [mp|].
    + destruct (negb (isPositionOrderID e _) && (_ <? now - 10000)).
      * left. split; [apply same_control_setOrderMeat|done].
      * right. left. split; [done|]. split; [by repeat split|done].
    + right. left. split; [done|]. split; [by repeat split|done].
Qed.

(** The first loop as a whole. *)
Lemma scan_orders_spec now orders :
  forall e0 e q,
  is_running_cancelall e0 = false ->
  0 <= stray_grace_time_limit (m_settings e0) ->
  same_control (set_order_grace_times (order_grace_times e) e0) e ->
  (forall id, order_grace_times e !! id = order_grace_times e0 !! id
              \/ order_grace_times e !! id = Some now) ->
  (forall id, id ∈ q -> exists seen,
      order_grace_times e0 !! id = Some seen
      /\ stray_grace_time_limit (m_settings e0) < now - seen) ->
  let r := foldl (EngineB.scan_order now) (e, q) orders in
  same_control (set_order_grace_times (order_grace_times r.1) e0) r.1
  /\ (forall id, order_grace_times r.1 !! id = order_grace_times e0 !! id
                 \/ order_grace_times r.1 !! id = Some now)
  /\ (forall id, id ∈ r.2 -> exists seen,
        order_grace_times e0 !! id = Some seen
        /\ stray_grace_time_limit (m_settings e0) < now - seen).
Proof.
  induction orders as [|kv orders IH]; intros e0 e q Hrun Hlim Hsame Hgrace Hq;
    [done|].
  assert (is_running_cancelall e = false) as Hrun'.
  { destruct Hsame as (_&_&_&_&->&_). exact Hrun. }
  assert (m_settings e = m_settings e0) as Hset.
  { by destruct Hsame as (_&_&_&->&_). }
  cbn [foldl].
  destruct (EngineB.scan_order now (e, q) kv) as [e1 q1] eqn:Hstep.
  pose proof (scan_order_cases now e q kv Hrun') as Hc.
  rewrite Hstep in Hc. simpl in Hc.
  apply IH; try done.
  - destruct Hc as [[Hs _]|[(_ & Hs & _ & _)|(seen & _ & _ & -> & _)]];
      [| |done].
    + unfold same_control, stray_cancels in *. simpl in *.
      destruct Hsame as (?&?&?&?&?&?&?&?), Hs as (?&?&?&?&?&?&?&?).
      repeat split; congruence.
    + unfold same_control, stray_cancels in *. simpl in *.
      destruct Hsame as (?&?&?&?&?&?&?&?), Hs as (?&?&?&?&?&?&?&?).
      repeat split; congruence.
  - intros id.
    destruct Hc as [[Hs _]|[(_ & _ & Hg & _)|(seen & _ & _ & -> & _)]];
      [| |done].
    + destruct Hs as (_&_&_&_&_&_&->&_). apply Hgrace.
    + rewrite Hg.
      destruct (decide (oi_order_number kv.2 = id)) as [->|Hne].
      * right. apply lookup_insert_eq.
      * rewrite lookup_insert_ne by done. apply Hgrace.
  - intros id Hid.
    destruct Hc as [[_ ->]|[(_ & _ & _ & ->)|(seen & Hseen & Hlt & _ & ->)]];
      [by apply Hq|by apply Hq|].
    apply elem_of_app in Hid as [Hid|Hid]; [by apply Hq|].
    apply list_elem_of_singleton in Hid as ->.
    rewrite Hset in Hlt. exists seen. split; [|done].
    destruct (Hgrace (oi_order_number kv.2)) as [<-|Hnow]; [done|].
    rewrite Hnow in Hseen. injection Hseen as <-. lia.
Qed.

(** The loop that empties the queue. *)
Lemma cancel_strays_spec now q :
  forall e,
  let e' := foldl (EngineB.cancel_stray now) e q in
  same_control (set_trace (trace e')
                  (set_order_grace_times (order_grace_times e') e)) e'
  /\ stray_cancels e' = stray_cancels e ++ q
  /\ (forall id, id ∈ q ->
        order_grace_times e' !! id
          = Some (now + stray_grace_time_limit (m_settings e)))
  /\ (forall id, id ∉ q -> order_grace_times e' !! id = order_grace_times e !! id).
Proof.
  induction q as [|x q IH]; intros e; cbn [foldl].
  - split; [by repeat split|]. split; [by rewrite app_nil_r|].
    split; [intros id Hid; by apply elem_of_nil in Hid|done].
  - specialize (IH (EngineB.cancel_stray now e x)).
    destruct IH as (Hsame & Hstray & Hin & Hout).
    set (e1 := EngineB.cancel_stray now e x) in *.
    assert (m_settings e1 = m_settings e) as Hset by done.
    assert (stray_cancels e1 = stray_cancels e ++ [x]) as Hs1.
    { subst e1. unfold EngineB.cancel_stray, EngineB.sendCancel.
      unfold stray_cancels. simpl. by rewrite omap_app. }
    assert (order_grace_times e1
            = <[x := now + stray_grace_time_limit (m_settings e)]>
                (order_grace_times e)) as Hg1 by done.
    split.
    { unfold same_control, stray_cancels in *. simpl in *.
      destruct Hsame as (?&?&?&?&?&?&?&?). repeat split; congruence. }
    split; [by rewrite Hstray, Hs1, <- app_assoc|].
    split.
    + intros id Hid. destruct (decide (id ∈ q)) as [Hq|Hq].
      * rewrite Hin by done. by rewrite Hset.
      * rewrite Hout by done. apply elem_of_cons in Hid as [->|Hid]; [|done].
        rewrite Hg1. apply lookup_insert_eq.
    + intros id Hid. apply not_elem_of_cons in Hid as [Hne Hid].
      rewrite Hout by done. rewrite Hg1. by apply lookup_insert_ne.
Qed.

Lemma same_control_probe_position order_numbers rt now acc pos :
  same_control acc.1.1
    (EngineB.probe_position order_numbers rt now acc pos).1.1.
Proof.
  unfold EngineB.probe_position. destruct acc as [[e c] stop]. simpl.
  destruct stop; [apply same_control_refl|].
  destruct (heap e !! pos) as [p|]; [|apply same_control_refl].
  destruct (negb _); [apply same_control_refl|].
  destruct (_ <? order_getorder_time p); [apply same_control_refl|]. simpl.
  apply (same_control_trans _ (emit (RestGetOrder (order_number p) pos) e));
    [by apply same_control_emit|apply same_control_update_pos].
Qed.

Lemma same_control_probe_positions order_numbers rt now l :
  forall acc,
  same_control acc.1.1
    (foldl (EngineB.probe_position order_numbers rt now) acc l).1.1.
Proof.
  induction l as [|pos l IH]; intros acc; cbn [foldl];
    [apply same_control_refl|].
  eapply same_control_trans; [apply same_control_probe_position|apply IH].
Qed.

(** C8 (as amended).  Outside cancel-all mode, and with a grace limit that
    is not negative, every id [processOpenOrders] leaves for cancellation was
    recorded in the grace times more than [stray_grace_time_limit] before
    the invocation; when more than 50 ids are due no stray cancel is sent;
    otherwise exactly the due ids are cancelled, in order, and each gets the
    grace stamp [now + stray_grace_time_limit]. *)
Theorem stray_cancels_wait_for_grace
    (e : Engine) (order_numbers : list string)
    (orders : list (string * OrderInfo)) (request_time_sent_ms now : Z) :
  is_running_cancelall e = false ->
  0 <= stray_grace_time_limit (m_settings e) ->
  let e' := EngineB.processOpenOrders order_numbers orders
              request_time_sent_ms now e in
  let due := stray_queue orders now e in
  (forall id, id ∈ due -> exists seen,
      order_grace_times e !! id = Some seen
      /\ stray_grace_time_limit (m_settings e) < now - seen)
  /\ (50 < qsize due -> stray_cancels e' = stray_cancels e)
  /\ (qsize due <= 50 ->
      stray_cancels e' = stray_cancels e ++ due
      /\ forall id, id ∈ due ->
           order_grace_times e' !! id
             = Some (now + stray_grace_time_limit (m_settings e))).
Proof.
  intros Hrun Hlim e' due. subst e' due.
  unfold stray_queue, EngineB.processOpenOrders.
  pose proof (scan_orders_spec now orders e e [] Hrun Hlim) as Hscan.
  destruct (foldl (EngineB.scan_order now) (e, []) orders) as [e1 q1].
  simpl in Hscan.
  destruct Hscan as (Hsame1 & _ & Hdue);
    [by repeat split|by left|intros id Hid; by apply elem_of_nil in Hid|].
  cbn [snd].
  assert (is_running_cancelall e1 = false) as ->.
  { destruct Hsame1 as (_&_&_&_&->&_). exact Hrun. }
  assert (m_settings e1 = m_settings e) as Hset1
    by (by destruct Hsame1 as (_&_&_&->&_)).
  assert (stray_cancels e1 = stray_cancels e) as Hstray1
    by (by destruct Hsame1 as (_&_&_&_&_&_&_&->)).
  split; [exact Hdue|].
  set (e2 := if 50 <? qsize q1 then e1
             else foldl (EngineB.cancel_stray now) e1 q1).
  match goal with
  | |- context [if ?c then e2 else ?r] => set (e3 := if c then e2 else r)
  end.
  assert (same_control e2 e3) as H23.
  { subst e3. destruct (_ && _); [apply same_control_refl|].
    destruct (exchange e2).
    - apply (same_control_probe_positions _ _ _ _ (e2, 0, false)).
    - apply same_control_processFilledOrders.
    - apply same_control_processFilledOrders. }
  clearbody e3.
  destruct H23 as (_&_&_&_&_&_&Hg23&Hs23). rewrite Hs23, Hg23.
  subst e2. split.
  - intros Hmany. apply Z.ltb_lt in Hmany. by rewrite Hmany.
  - intros Hfew. apply Z.ltb_ge in Hfew. rewrite Hfew.
    destruct (cancel_strays_spec now q1 e1) as (_ & Hs & Hin & _).
    rewrite Hs, Hstray1. split; [done|].
    intros id Hid. rewrite Hin by done. by rewrite Hset1.
Qed.

(** [stray_cancels_wait_for_grace] at the open order "xyz" of scenario S4
    that was first seen 700 s ago: it is due, and it is cancelled. *)
Lemma stray_cancels_wait_for_grace_witness :
  stray_queue (Scenes.reported 50040000) (Scenes.T0 + 15000)
    Scenes.seen_long_ago = ["xyz"]
  /\ stray_cancels
       (EngineB.processOpenOrders ["xyz"] (Scenes.reported 50040000)
          (Scenes.T0 + 14000) (Scenes.T0 + 15000) Scenes.seen_long_ago)
     = stray_cancels Scenes.seen_long_ago
         ++ stray_queue (Scenes.reported 50040000) (Scenes.T0 + 15000)
              Scenes.seen_long_ago.
Proof.
  split; [reflexivity|].
  refine (proj1 (proj2 (proj2
    (stray_cancels_wait_for_grace Scenes.seen_long_ago ["xyz"]
       (Scenes.reported 50040000) (Scenes.T0 + 14000) (Scenes.T0 + 15000)
       _ _)) _)).
  - reflexivity.
  - vm_compute. discriminate.
  - vm_compute. discriminate.
Defined.

(** C8 as stated fails in cancel-all mode: the reported order "xyz" is not
    ours and has no grace stamp, and its cancel is sent at once. *)
Lemma cancel_all_cancels_without_grace :
  let e' := EngineB.processOpenOrders ["xyz"] (Scenes.reported 50040000)
              (Scenes.T0 + 14000) (Scenes.T0 + 15000) Scenes.cancelling_all in
  positions_by_number Scenes.cancelling_all !! "xyz" = None
  /\ order_grace_times Scenes.cancelling_all !! "xyz" = None
  /\ stray_cancels Scenes.cancelling_all = []
  /\ stray_cancels e' = ["xyz"].
Proof. vm_compute. done. Qed.

End Strays.

(** ** Creating and deleting positions *)

Section Create.

Local Open Scope Z_scope.

Lemma tryMoveOrder_identity fuel pos info r :
  EngineB.tryMoveOrder fuel pos info = Some r ->
  order_identity r.2 = order_identity pos.
Proof.
  unfold EngineB.tryMoveOrder.
  destruct (_ || _); [by intros [= <-]|].
  destruct (side pos).
  - destruct (_ && _); [by intros [= <-]|].
    destruct (if isGreaterThanZero _ then _ else _) as [v|]; [|done].
    simpl. intros [= <-].
    by destruct (accept_buy_cases pos (lowest_sell info) v) as [->|[-> _]].
  - destruct (_ <=? _); [by intros [= <-]|].
    destruct (if isGreaterThanZero _ then _ else _) as [v|]; [|done].
    simpl. intros [= <-]. unfold accept_sell.
    by destruct (_ && _).
Qed.

Lemma tryMoveOrder_call_identity pos info :
  order_identity (EngineB.tryMoveOrder_call pos info).2 = order_identity pos.
Proof.
  unfold EngineB.tryMoveOrder_call.
  destruct (EngineB.tryMoveOrder _ pos info) as [r|] eqn:Hr; [|done].
  by apply tryMoveOrder_identity in Hr.
Qed.

(** With a positive tick the fuel of [tryMoveOrder_call] is enough: the
    call returns what the source returns. *)
Lemma tryMoveOrder_returns pos info :
  0 < price_ticksize info ->
  is_Some (EngineB.tryMoveOrder (EngineB.walk_fuel pos info) pos info).
Proof.
  intros Ht. unfold EngineB.tryMoveOrder, EngineB.walk_fuel.
  destruct (_ || _); [eauto|].
  destruct (side pos).
  - destruct (_ && _); [eauto|].
    destruct (isGreaterThanZero (lowest_sell info)); cbn; [|eauto].
    destruct (ratchet_buy_total (price_ticksize info) (lowest_sell info)
                (buy_price_original pos) Ht
                (Z.to_nat (Z.max (lowest_sell info / price_ticksize info)
                                 (sell_price pos / price_ticksize info)))
                (buy_price pos)) as [v ->]; [lia|]. cbn. eauto.
  - destruct (_ <=? _); [eauto|].
    destruct (isGreaterThanZero (highest_buy info)); cbn; [|eauto].
    destruct (ratchet_sell_total (price_ticksize info) (highest_buy info)
                (sell_price_original pos) Ht
                (Z.to_nat (Z.max (lowest_sell info / price_ticksize info)
                                 (sell_price pos / price_ticksize info)))
                (sell_price pos)) as [v ->]; [lia|]. cbn. eauto.
Qed.

(** The order type "active" is no one-time, taker or override type. *)
Lemma finish_position_active pos info :
  EngineB.finish_position "active" pos info =
    let r := EngineB.tryMoveOrder_call
               (set_is_taker false (set_is_onetime false pos)) info in
    if r.1 then EngineB.applyOffset r.2 else r.2.
Proof.
  unfold EngineB.finish_position.
  change (EngineB.startsWith "active" "onetime") with false.
  change (EngineB.str_contains "active" "-taker") with false.
  cbn [andb negb]. by destruct (EngineB.tryMoveOrder_call _ info).
Qed.

Lemma finish_position_identity pos info :
  is_onetime pos = false -> is_taker pos = false ->
  order_identity (EngineB.finish_position "active" pos info) = order_identity pos.
Proof.
  intros Ho Ht. rewrite finish_position_active. cbv zeta.
  pose proof (tryMoveOrder_call_identity
                (set_is_taker false (set_is_onetime false pos)) info) as Hid.
  destruct (EngineB.tryMoveOrder_call _ info) as [moved r]. simpl in *.
  assert (order_identity (if moved then EngineB.applyOffset r else r) = order_identity r)
    as -> by (by destruct moved).
  rewrite Hid. unfold order_identity. simpl. by rewrite Ho, Ht.
Qed.

Lemma append_nonempty (s t : string) : s <> "" -> s +:+ t <> "".
Proof. destruct s; [done|]. intros _. discriminate. Qed.

Lemma info_of_update_info_ne m m' f e :
  m <> m' -> info_of (update_info m f e) m' = info_of e m'.
Proof.
  intros Hne. unfold info_of, update_info. simpl.
  by rewrite lookup_insert_ne.
Qed.

Lemma info_of_update_info_eq m f e :
  info_of (update_info m f e) m = f (info_of e m).
Proof.
  unfold info_of at 1. unfold update_info. simpl. by rewrite lookup_insert_eq.
Qed.

Lemma position_index_order_prices m m' g e :
  position_index
    (info_of (update_info m (fun i => set_order_prices (g i) i) e) m')
  = position_index (info_of e m').
Proof.
  destruct (decide (m = m')) as [->|Hne].
  - by rewrite info_of_update_info_eq.
  - by rewrite info_of_update_info_ne.
Qed.

(** What [setOrderMeat] does to the store, for a position that is not being
    cancelled. *)
Lemma setOrderMeat_obs pos p number now e :
  number <> "" ->
  heap e !! pos = Some p ->
  is_cancelling p = false ->
  let e' := EngineB.setOrderMeat pos number now e in
  heap e' = <[pos := set_order_number (canonical_id e p number)
                       (set_is_new_hilo_order false (set_order_set_time now p))]>
              (heap e)
  /\ positions_queued e' = positions_queued e ∖ {[pos]}
  /\ positions_active e' = positions_active e ∪ {[pos]}
  /\ positions_all e' = positions_all e
  /\ positions_by_number e' = <[number := pos]> (positions_by_number e)
  /\ market_info e' = market_info e
  /\ diverge_converge e' = diverge_converge e
  /\ diverging_converging e' = diverging_converging e
  /\ next_ptr e' = next_ptr e
  /\ trace e' = trace e.
Proof.
  intros Hn Hp Hc e'. subst e'. unfold EngineB.setOrderMeat.
  rewrite bool_decide_eq_false_2 by done.
  match goal with
  | |- context [match heap ?em !! pos with _ => _ end] => set (emid := em)
  end.
  assert (heap emid
          = <[pos := set_order_number (canonical_id e p number)
                       (set_is_new_hilo_order false (set_order_set_time now p))]>
              (heap e)) as Hh.
  { subst emid. unfold update_pos. simpl.
    rewrite (alter_alt_Some _ (heap e) pos p Hp), alter_insert_eq.
    unfold canonical_id. by destruct (is_testing e), (exchange e). }
  assert (positions_queued emid = positions_queued e ∖ {[pos]}
          /\ positions_active emid = positions_active e ∪ {[pos]}
          /\ positions_all emid = positions_all e
          /\ positions_by_number emid = <[number := pos]> (positions_by_number e)
          /\ market_info emid = market_info e
          /\ diverge_converge emid = diverge_converge e
          /\ diverging_converging emid = diverging_converging e
          /\ next_ptr emid = next_ptr e
          /\ trace emid = trace e) as Hrest by done.
  clearbody emid.
  rewrite Hh, lookup_insert_eq.
  assert (is_cancelling
            (set_order_number (canonical_id e p number)
               (set_is_new_hilo_order false (set_order_set_time now p)))
          = false) as -> by exact Hc.
  cbn [andb]. by rewrite <- Hh.
Qed.

(** What [register_position] does to the store, for a position that is not
    being cancelled. *)
Lemma register_position_obs pos now e :
  is_cancelling pos = false ->
  market pos <> "" ->
  let e' := (EngineB.register_position pos now e).1 in
  let a := next_ptr e in
  (EngineB.register_position pos now e).2 = Some a
  /\ (exists p', heap e' !! a = Some p' /\ order_core p' = order_core pos)
  /\ (forall q, q <> a -> heap e' !! q = heap e !! q)
  /\ positions_all e' = positions_all e ∪ {[a]}
  /\ (forall q, q <> a ->
        (q ∈ positions_active e' <-> q ∈ positions_active e)
        /\ (q ∈ positions_queued e' <-> q ∈ positions_queued e))
  /\ (a ∈ positions_active e' \/ a ∈ positions_queued e')
  /\ diverge_converge e' = diverge_converge e
  /\ diverging_converging e' = diverging_converging e
  /\ (forall m, position_index (info_of e' m) = position_index (info_of e m))
  /\ next_ptr e' = Pos.succ a.
Proof.
  intros Hc Hm e' a. subst e'. unfold EngineB.register_position. fold a.
  match goal with
  | |- context [if is_testing ?x then _ else _] =>
      change (is_testing x) with (is_testing e); set (e1 := x)
  end.
  assert (heap e1 = <[a := pos]> (heap e)) as Hh1 by done.
  assert (positions_all e1 = positions_all e ∪ {[a]}) as Hall1 by done.
  assert (positions_queued e1 = positions_queued e ∪ {[a]}) as Hq1 by done.
  assert (positions_active e1 = positions_active e) as Ha1 by done.
  assert (diverge_converge e1 = diverge_converge e) as Hdc1 by done.
  assert (diverging_converging e1 = diverging_converging e) as Hdg1 by done.
  assert (next_ptr e1 = Pos.succ a) as Hnp1 by done.
  assert (forall m, position_index (info_of e1 m) = position_index (info_of e m))
    as Hidx.
  { intros m. subst e1. by rewrite position_index_order_prices. }
  clearbody e1.
  destruct (is_testing e) eqn:Ht; cbn [fst snd].
  - set (number := market pos +:+ pretty (EngineB.getLowestMarketIndex pos)).
    assert (number <> "") as Hn by (by apply append_nonempty).
    set (e2 := update_pos a (set_order_number number) e1).
    assert (heap e2 !! a = Some (set_order_number number pos)) as Hp2.
    { subst e2. by rewrite heap_update_pos, Hh1, lookup_insert_eq. }
    destruct (setOrderMeat_obs a _ number now e2 Hn Hp2 Hc)
      as (Hh & Hq & Ha & Hall & _ & Hmi & Hdc & Hdg & Hnp & _).
    split; [done|].
    split.
    { rewrite Hh, lookup_insert_eq. eexists. split; [reflexivity|done]. }
    split.
    { intros q Hq'. rewrite Hh, lookup_insert_ne by done.
      subst e2. rewrite heap_update_pos_ne by done.
      by rewrite Hh1, lookup_insert_ne. }
    split; [by rewrite Hall|].
    split.
    { intros q Hq'. rewrite Ha, Hq. subst e2. simpl. rewrite Ha1, Hq1.
      rewrite elem_of_difference, !elem_of_union, !elem_of_singleton. tauto. }
    split; [left; rewrite Ha; by apply elem_of_union_r, elem_of_singleton|].
    split; [by rewrite Hdc|]. split; [by rewrite Hdg|].
    split; [|by rewrite Hnp].
    intros m. unfold info_of. rewrite Hmi. apply Hidx.
  - unfold EngineB.sendBuySell.
    split; [done|].
    split.
    { rewrite heap_update_pos. simpl. rewrite Hh1, lookup_insert_eq. simpl.
      eexists. split; [reflexivity|done]. }
    split.
    { intros q Hq'. rewrite heap_update_pos_ne by done. simpl.
      by rewrite Hh1, lookup_insert_ne. }
    split; [done|].
    split.
    { intros q Hq'. simpl. rewrite Ha1, Hq1. split; [done|].
      rewrite elem_of_union, elem_of_singleton. tauto. }
    split; [right; simpl; rewrite Hq1; by apply elem_of_union_r, elem_of_singleton|].
    split; [done|]. split; [done|]. split; [exact Hidx|done].
Qed.

(** The timeout of a one-time order is read as a 32-bit [int]: a number
    that does not fit, or a text that is no number, sets no timeout. *)
Lemma parse_timeout_reads_an_int :
  EngineB.parse_timeout "onetime-timeout90" = Some 90
  /\ EngineB.parse_timeout "onetime-timeout2147483647" = Some 2147483647
  /\ EngineB.parse_timeout "onetime-timeout2147483648" = None
  /\ EngineB.parse_timeout "onetime-timeout99999999999" = None
  /\ EngineB.parse_timeout "onetime-timeout5-taker" = None
  /\ EngineB.parse_timeout "onetime-timeout" = None.
Proof. vm_compute. done. Qed.

(** A text without the character is left as it is. *)
Lemma replace_char_absent a b s :
  String.index 0 (String a EmptyString) s = None ->
  EngineB.replace_char a b s = s.
Proof.
  induction s as [|c s IH]; [done|].
  cbn [String.index String.prefix EngineB.replace_char].
  destruct (Ascii.ascii_dec a c) as [->|Hne].
  - by destruct s.
  - destruct (String.index 0 (String a EmptyString) s); [done|].
    intros _. rewrite bool_decide_eq_false_2 by congruence. by rewrite IH.
Qed.

(** What [replace_char] returns does not hold the character it replaces. *)
Lemma replace_char_gone a b s :
  a <> b ->
  String.index 0 (String a EmptyString) (EngineB.replace_char a b s) = None.
Proof.
  intros Hab. induction s as [|c s IH]; [done|].
  cbn [String.index String.prefix EngineB.replace_char].
  rewrite IH.
  destruct (decide (c = a)) as [->|Hne].
  - rewrite bool_decide_eq_true_2 by done.
    by destruct (Ascii.ascii_dec a b).
  - rewrite bool_decide_eq_false_2 by done.
    by destruct (Ascii.ascii_dec a c) as [->|].
Qed.

(** A market name in the spelling of the exchange goes through
    [addPosition] as it is; and [addPosition] brings every name to that
    spelling, so that the market of every position it makes is spelled the
    way of the exchange. *)
Lemma spell_market_spelled e m :
  market_spelled e m -> EngineB.spell_market (exchange e) m = m.
Proof.
  unfold market_spelled, EngineB.spell_market, EngineB.str_contains.
  destruct (exchange e); try done; intros H; apply bool_decide_eq_false in H;
    apply replace_char_absent;
    (destruct (String.index _ _ _); [destruct H; by eexists|done]).
Qed.

Lemma spell_market_is_spelled e m :
  market_spelled e (EngineB.spell_market (exchange e) m).
Proof.
  unfold market_spelled, EngineB.spell_market, EngineB.str_contains.
  destruct (exchange e); try done; apply bool_decide_eq_false;
    rewrite replace_char_gone by done; by intros [? ?].
Qed.

(** [addPosition] with the type "active", a size without an alternate and a
    slot given, for a market in the spelling of the exchange: the call
    registers the constructed position when the checks let it through, and
    changes nothing otherwise. *)
Lemma addPosition_active m sd b s z tag indices landmark quiet now e :
  market_spelled e m ->
  indices <> [] ->
  EngineB.addPosition m sd b s (z, None) "active" tag indices landmark quiet now e
  = if admits e m sd b s z tag indices landmark
    then EngineB.register_position
           (EngineB.finish_position "active"
              (active_order e m sd b s z tag indices landmark) (info_of e m))
           now e
    else (e, None).
Proof.
  intros Hm Hi. unfold EngineB.addPosition, admits, active_order.
  rewrite (spell_market_spelled e m Hm). cbn [fst snd].
  destruct (EngineB.rejects_arguments _ _ _ _ _ _ _ _ _); [done|].
  change (EngineB.startsWith "active" "onetime") with false.
  rewrite (bool_decide_eq_false_2 (indices = [])) by done.
  rewrite (bool_decide_eq_true_2 ("active" = "active")) by done.
  cbn [andb negb].
  by destruct (EngineB.rejects_position _ _).
Qed.

Lemma active_order_fields e m sd b s z tag indices landmark :
  let c := active_order e m sd b s z tag indices landmark in
  market c = m /\ side c = sd /\ market_indices c = indices
  /\ is_landmark c = landmark /\ is_onetime c = false /\ is_taker c = false
  /\ is_cancelling c = false /\ strategy_tag c = tag
  /\ (landmark = false ->
      buy_price_original c = toCoin b /\ sell_price_original c = toCoin s
      /\ btc_amount c = toCoin z).
Proof.
  unfold active_order, EngineB.Position_new. simpl.
  repeat split; try done; by subst landmark.
Qed.

(** The observations of an accepted [addPosition]. *)
Lemma addPosition_active_obs m sd b s z tag indices landmark quiet now e :
  market_spelled e m ->
  indices <> [] ->
  admits e m sd b s z tag indices landmark = true ->
  let r := EngineB.addPosition m sd b s (z, None) "active" tag indices landmark
             quiet now e in
  let c := active_order e m sd b s z tag indices landmark in
  let a := next_ptr e in
  r.2 = Some a
  /\ (exists p', heap r.1 !! a = Some p'
        /\ order_core p' = order_core (EngineB.finish_position "active" c (info_of e m))
        /\ order_identity p' = order_identity c)
  /\ (forall q, q <> a -> heap r.1 !! q = heap e !! q)
  /\ positions_all r.1 = positions_all e ∪ {[a]}
  /\ (forall q, q <> a ->
        (q ∈ positions_active r.1 <-> q ∈ positions_active e)
        /\ (q ∈ positions_queued r.1 <-> q ∈ positions_queued e))
  /\ (a ∈ positions_active r.1 \/ a ∈ positions_queued r.1)
  /\ diverge_converge r.1 = diverge_converge e
  /\ diverging_converging r.1 = diverging_converging e
  /\ (forall m', position_index (info_of r.1 m') = position_index (info_of e m'))
  /\ next_ptr r.1 = Pos.succ a.
Proof.
  intros Hsp Hi Hadm r c a. subst r. rewrite addPosition_active by done.
  rewrite Hadm. fold c.
  destruct (active_order_fields e m sd b s z tag indices landmark)
    as (Hm & _ & _ & _ & Ho & Ht & Hc & _). fold c in Hm, Ho, Ht, Hc.
  pose proof (finish_position_identity c (info_of e m) Ho Ht) as Hid.
  assert (market c <> "") as Hmne.
  { unfold admits in Hadm. apply andb_prop in Hadm as [_ Hrp].
    apply negb_true_iff in Hrp. fold c in Hrp.
    unfold EngineB.rejects_position, EngineB.fails_to_initialize in Hrp.
    apply orb_false_elim in Hrp as [Hrp _].
    apply orb_false_elim in Hrp as [Hrp _].
    apply orb_false_elim in Hrp as [Hrp _].
    apply orb_false_elim in Hrp as [Hrp _].
    by apply bool_decide_eq_false in Hrp. }
  set (f := EngineB.finish_position "active" c (info_of e m)) in *.
  assert (is_cancelling f = false /\ market f = market c) as [Hcf Hmf].
  { unfold order_identity in Hid. split; congruence. }
  destruct (register_position_obs f now e Hcf) as
    (H1 & (p' & Hp' & Hcore) & H3 & H4 & H5 & H6 & H7 & H8 & H9 & H10);
    [by rewrite Hmf|].
  split; [done|]. split; [|done].
  exists p'. split; [done|]. split; [done|].
  rewrite <- Hid. unfold order_core, order_identity in *. congruence.
Qed.

Lemma addPosition_active_rejected m sd b s z tag indices landmark quiet now e :
  market_spelled e m ->
  indices <> [] ->
  admits e m sd b s z tag indices landmark = false ->
  EngineB.addPosition m sd b s (z, None) "active" tag indices landmark quiet now e
  = (e, None).
Proof. intros Hm Hi Hadm. rewrite addPosition_active by done. by rewrite Hadm. Qed.

End Create.

(** ** Fills and the bookkeeping of converging orders *)

Section Fills.

Local Open Scope Z_scope.

Lemma same_store_refl e : same_store e e.
Proof. by repeat split. Qed.

Lemma same_store_trans e1 e2 e3 :
  same_store e1 e2 -> same_store e2 e3 -> same_store e1 e3.
Proof.
  unfold same_store. intros H1 H2.
  destruct H1 as (?&?&?&?&?&?&?&?&?), H2 as (?&?&?&?&?&?&?&?&?).
  repeat split; congruence.
Qed.

Lemma same_store_update_dc_indices m f e :
  same_store e (update_dc_indices m f e).
Proof. by repeat split. Qed.

Lemma same_store_emit x e : same_store e (emit x e).
Proof. by repeat split. Qed.

Lemma same_store_set_diverge_converge v e :
  same_store e (set_diverge_converge v e).
Proof. by repeat split. Qed.

(** A loop that only rewrites [diverging_converging[ m ]]. *)
Lemma dc_loop_obs m (f : Z -> list Z -> list Z) idxs e :
  let e' := foldl (fun e idx => update_dc_indices m (f idx) e) e idxs in
  same_store e e'
  /\ diverge_converge e' = diverge_converge e
  /\ trace e' = trace e
  /\ dc_indices e' m = foldl (fun l idx => f idx l) (dc_indices e m) idxs.
Proof.
  revert e. induction idxs as [|idx idxs IH]; intros e; cbn [foldl].
  - split; [apply same_store_refl|done].
  - destruct (IH (update_dc_indices m (f idx) e)) as (Hs & Hd & Ht & Hi).
    split; [|split; [|split]].
    + eapply same_store_trans; [apply same_store_update_dc_indices|exact Hs].
    + by rewrite Hd.
    + by rewrite Ht.
    + rewrite Hi. f_equal. unfold dc_indices, update_dc_indices. simpl.
      by rewrite lookup_insert_eq.
Qed.

Lemma removeFromDC_store pos p e : same_store e (EngineB.removeFromDC pos p e).
Proof.
  unfold EngineB.removeFromDC.
  match goal with
  | |- context [foldl _ ?x _] => set (e1 := x)
  end.
  assert (same_store e e1) as H1.
  { subst e1. destruct (list_find _ _) as [[? [? [? ?]]]|];
      [apply same_store_set_diverge_converge|apply same_store_refl]. }
  clearbody e1.
  eapply same_store_trans; [exact H1|].
  apply (dc_loop_obs (market p) (fun idx => removeOne idx)).
Qed.

(** What [deletePosition] does to the store. *)
Lemma deletePosition_obs pos p e :
  heap e !! pos = Some p ->
  (pos ∈ positions_active e) \/ (pos ∈ positions_queued e) ->
  let e' := EngineB.deletePosition pos e in
  heap e' = delete pos (heap e)
  /\ next_ptr e' = next_ptr e
  /\ positions_queued e' = positions_queued e ∖ {[pos]}
  /\ positions_active e' = positions_active e ∖ {[pos]}
  /\ positions_all e' = positions_all e ∖ {[pos]}
  /\ positions_by_number e' = delete (order_number p) (positions_by_number e)
  /\ (forall m, position_index (info_of e' m) = position_index (info_of e m)).
Proof.
  intros Hp Hin e'. subst e'. unfold EngineB.deletePosition.
  assert (negb (isActivePosition e pos) && negb (isQueuedPosition e pos) = false)
    as ->.
  { unfold isActivePosition, isQueuedPosition.
    destruct Hin as [Hin|Hin]; rewrite (bool_decide_eq_true_2 _ Hin); cbn;
      [done|by rewrite andb_false_r]. }
  rewrite Hp.
  destruct (removeFromDC_store pos p e) as (Hh & Hn & Hq & Ha & Hall & Hb & Hmi & _).
  set (e1 := EngineB.removeFromDC pos p e) in *. clearbody e1.
  split; [by cbn; rewrite Hh|]. split; [by cbn; rewrite Hn|].
  split; [by cbn; rewrite Hq|]. split; [by cbn; rewrite Ha|].
  split; [by cbn; rewrite Hall|]. split; [by cbn; rewrite Hb|].
  intros m.
  match goal with
  | |- context [info_of (set_heap _ ?x) m] =>
      change (info_of (set_heap _ x) m) with (info_of x m)
  end.
  rewrite position_index_order_prices.
  unfold info_of. simpl. by rewrite Hmi.
Qed.

Lemma set_position_index_same i :
  set_position_index (position_index i) i = i.
Proof. by destruct i. Qed.

(** The loop of [fillNQ] rewrites the slots of its market and nothing else. *)
Lemma fill_slots_obs m idxs e :
  let e' := foldl (EngineB.fill_slot m) e idxs in
  heap e' = heap e
  /\ next_ptr e' = next_ptr e
  /\ positions_queued e' = positions_queued e
  /\ positions_active e' = positions_active e
  /\ positions_all e' = positions_all e
  /\ positions_by_number e' = positions_by_number e
  /\ exchange e' = exchange e
  /\ is_testing e' = is_testing e
  /\ info_of e' m
     = set_position_index (advance_slots idxs (position_index (info_of e m)))
         (info_of e m).
Proof.
  revert e. induction idxs as [|idx idxs IH]; intros e; cbn [foldl].
  - repeat split; try done. unfold advance_slots. cbn [foldl].
    by rewrite set_position_index_same.
  - destruct (IH (EngineB.fill_slot m e idx))
      as (Hh & Hn & Hq & Ha & Hall & Hb & Hx & Ht & Hi).
    rewrite Hh, Hn, Hq, Ha, Hall, Hb, Hx, Ht, Hi. clear IH Hh Hn Hq Ha Hall Hb Hx Ht Hi.
    unfold advance_slots. cbn [foldl]. unfold EngineB.fill_slot.
    destruct (qsize (position_index (info_of e m)) <=? idx);
      [by repeat split|].
    destruct (idx <? 0); [by repeat split|].
    rewrite info_of_update_info_eq. by repeat split.
Qed.

(** The checks of [addPosition] read the build and the market, nothing else
    of the engine. *)
Lemma active_order_ext e1 e2 m sd b s z tag indices landmark :
  info_of e1 m = info_of e2 m ->
  active_order e1 m sd b s z tag indices landmark
  = active_order e2 m sd b s z tag indices landmark.
Proof. unfold active_order. by intros ->. Qed.

Lemma admits_ext e1 e2 m sd b s z tag indices landmark :
  exchange e1 = exchange e2 ->
  info_of e1 m = info_of e2 m ->
  admits e1 m sd b s z tag indices landmark
  = admits e2 m sd b s z tag indices landmark.
Proof.
  intros Hx Hi. unfold admits.
  rewrite (active_order_ext e1 e2) by done. rewrite Hi.
  unfold EngineB.rejects_position. rewrite Hx.
  destruct (active_order_fields e2 m sd b s z tag indices landmark) as (-> & _).
  by rewrite Hi.
Qed.

Lemma market_spelled_ext e1 e2 m :
  exchange e1 = exchange e2 -> market_spelled e1 m -> market_spelled e2 m.
Proof. unfold market_spelled. by intros ->. Qed.

(** What [flipPosition] does for a ping-pong position: the position is
    flipped in place; its next order is registered at the next address when
    the checks of [addPosition] let it through, and nothing else changes
    when they do not. *)
Lemma flipPosition_obs pos p now e :
  heap e !! pos = Some p ->
  is_onetime p = false ->
  market_indices p <> [] ->
  pos <> next_ptr e ->
  market_spelled e (market p) ->
  let e' := EngineB.flipPosition pos now e in
  let a := next_ptr e in
  let c := replacement e p in
  heap e' !! pos = Some (Position_flip p)
  /\ ((pos ∈ positions_active e') <-> (pos ∈ positions_active e))
  /\ ((pos ∈ positions_queued e') <-> (pos ∈ positions_queued e))
  /\ (forall m, position_index (info_of e' m) = position_index (info_of e m))
  /\ if admits_replacement e p
     then (exists p', heap e' !! a = Some p'
             /\ order_core p'
                = order_core (EngineB.finish_position "active" c
                                (info_of e (market p)))
             /\ order_identity p' = order_identity c)
          /\ (forall q, q <> a -> q <> pos -> heap e' !! q = heap e !! q)
          /\ positions_all e' = positions_all e ∪ {[a]}
          /\ next_ptr e' = Pos.succ a
     else (forall q, q <> pos -> heap e' !! q = heap e !! q)
          /\ positions_all e' = positions_all e
          /\ next_ptr e' = a.
Proof.
  intros Hp Ho Hi Hne Hsp e' a c. subst e' c.
  unfold EngineB.flipPosition. rewrite Hp, Ho.
  match goal with
  | |- context [EngineB.addPosition _ _ _ _ _ _ _ _ _ _ _ ?x] => set (e2 := x)
  end.
  assert (heap e2 !! pos = Some (Position_flip p)) as Hh2.
  { subst e2. destruct (bool_decide _); cbn; by rewrite lookup_alter_eq, Hp. }
  assert (forall q, q <> pos -> heap e2 !! q = heap e !! q) as Hh2'.
  { intros q Hq. subst e2. destruct (bool_decide _); cbn;
      by rewrite lookup_alter_ne. }
  assert (next_ptr e2 = next_ptr e /\ positions_all e2 = positions_all e
          /\ positions_active e2 = positions_active e
          /\ positions_queued e2 = positions_queued e
          /\ positions_by_number e2 = positions_by_number e
          /\ market_info e2 = market_info e /\ exchange e2 = exchange e)
    as (Hn2 & Hall2 & Ha2 & Hq2 & Hb2 & Hmi2 & Hx2).
  { subst e2. by destruct (bool_decide _). }
  assert (forall m, info_of e2 m = info_of e m) as Hinfo.
  { intros m. unfold info_of. by rewrite Hmi2. }
  assert (market_spelled e2 (market p)) as Hsp2
    by (by apply (market_spelled_ext e)).
  clearbody e2.
  unfold admits_replacement, replacement, flip_args, current_slot in *.
  unfold EngineB.addLandmarkPositionFor.
  cbn [market side market_indices is_landmark Position_flip set_side].
  rewrite Hinfo.
  assert (forall b s z lm,
            let r := EngineB.addPosition (market p) (other_side (side p)) b s
                       (z, None) "active" "" (market_indices p) lm true now e2 in
            let c := active_order e (market p) (other_side (side p)) b s z ""
                       (market_indices p) lm in
            heap r.1 !! pos = Some (Position_flip p)
            /\ ((pos ∈ positions_active r.1) <-> (pos ∈ positions_active e))
            /\ ((pos ∈ positions_queued r.1) <-> (pos ∈ positions_queued e))
            /\ (forall m, position_index (info_of r.1 m)
                          = position_index (info_of e m))
            /\ if admits e (market p) (other_side (side p)) b s z ""
                    (market_indices p) lm
               then (exists p', heap r.1 !! a = Some p'
                       /\ order_core p'
                          = order_core (EngineB.finish_position "active" c
                                          (info_of e (market p)))
                       /\ order_identity p' = order_identity c)
                    /\ (forall q, q <> a -> q <> pos ->
                          heap r.1 !! q = heap e !! q)
                    /\ positions_all r.1 = positions_all e ∪ {[a]}
                    /\ next_ptr r.1 = Pos.succ a
               else (forall q, q <> pos -> heap r.1 !! q = heap e !! q)
                    /\ positions_all r.1 = positions_all e
                    /\ next_ptr r.1 = a) as Hgen.
  { intros b s z lm r c.
    assert (admits e2 (market p) (other_side (side p)) b s z ""
              (market_indices p) lm
            = admits e (market p) (other_side (side p)) b s z ""
                (market_indices p) lm) as Hadm2.
    { by rewrite (admits_ext e2 e). }
    destruct (admits e (market p) (other_side (side p)) b s z ""
                (market_indices p) lm) eqn:Hok.
    - destruct (addPosition_active_obs (market p) (other_side (side p)) b s z ""
                  (market_indices p) lm true now e2 Hsp2 Hi Hadm2)
        as (_ & (p' & Hp' & Hcore & Hid) & Hoth & Hall & Hsets & _ & _ & _
            & Hidx & Hnp).
      rewrite Hn2 in *. fold a in Hp', Hoth, Hall, Hsets, Hnp.
      rewrite (active_order_ext e2 e) in Hcore, Hid by done.
      rewrite Hinfo in Hcore.
      destruct (Hsets pos Hne) as [Hsa Hsq]. rewrite Ha2 in Hsa.
      rewrite Hq2 in Hsq.
      split; [by subst r; rewrite Hoth|].
      split; [done|]. split; [done|].
      split; [intros m; subst r; by rewrite Hidx, Hinfo|].
      split; [by exists p'|].
      split; [intros q Hqa Hqp; subst r; by rewrite Hoth, Hh2'|].
      split; [by subst r; rewrite Hall, Hall2|done].
    - assert (r = (e2, None)) as ->
        by (by apply addPosition_active_rejected).
      cbn [fst]. rewrite Ha2, Hq2, Hall2, Hn2.
      split; [done|]. split; [done|]. split; [done|].
      split; [intros m; by rewrite Hinfo|].
      by repeat split. }
  destruct (is_landmark p) eqn:Hl; apply Hgen.
Qed.

(** One fill moves the fill count of a slot on by the number of times the
    position spans it. *)
Lemma iterateFillCount_count d :
  pd_fill_count (iterateFillCount d) = pd_fill_count d + 1.
Proof. unfold iterateFillCount. by destruct (isEmpty _). Qed.

Lemma advance_slots_fill_count indices :
  forall slots idx,
  0 <= idx < qsize slots ->
  pd_fill_count (value (advance_slots indices slots) idx PositionData_default)
  = pd_fill_count (value slots idx PositionData_default)
    + Z.of_nat (count_occ Z.eq_dec indices idx).
Proof.
  unfold advance_slots.
  induction indices as [|j indices IH]; intros slots idx Hidx; cbn [foldl count_occ].
  - lia.
  - set (slots' := if qsize slots <=? j then slots
                   else if j <? 0 then slots
                   else alter iterateFillCount (Z.to_nat j) slots).
    assert (qsize slots' = qsize slots) as Hlen.
    { subst slots'. destruct (_ <=? _); [done|]. destruct (_ <? _); [done|].
      unfold qsize. by rewrite length_alter. }
    rewrite IH by lia. clear IH.
    assert (pd_fill_count (value slots' idx PositionData_default)
            = pd_fill_count (value slots idx PositionData_default)
              + (if Z.eq_dec j idx then 1 else 0)) as ->.
    { subst slots'. unfold value, qsize in *.
      assert ((0 <=? idx) = true) as -> by (apply Z.leb_le; lia).
      destruct (lookup_lt_is_Some_2 slots (Z.to_nat idx)) as [d Hd]; [lia|].
      destruct (Z.eq_dec j idx) as [->|Hne].
      - assert ((Z.of_nat (length slots) <=? idx) = false) as ->
          by (apply Z.leb_gt; lia).
        assert ((idx <? 0) = false) as -> by (apply Z.ltb_ge; lia).
        rewrite !nth_lookup, list_lookup_alter_eq, Hd. cbn.
        apply iterateFillCount_count.
      - destruct (_ <=? j); [lia|]. destruct (j <? 0) eqn:Hj; [lia|].
        apply Z.ltb_ge in Hj.
        rewrite !nth_lookup, list_lookup_alter_ne by lia. lia. }
    destruct (Z.eq_dec j idx); lia.
Qed.

(** The end of [fillNQ]: whatever the build, the position is deleted. *)
Lemma fillNQ_tail_obs order_id pos p e :
  heap e !! pos = Some p ->
  pos ∈ positions_active e ->
  let e' :=
    if is_testing e then EngineB.deletePosition pos e
    else EngineB.deletePosition pos
           (if bool_decide (exchange e = EXCHANGE_BITTREX)
            then emit (RestRemoveGetOrder order_id) e else e) in
  heap e' = delete pos (heap e)
  /\ next_ptr e' = next_ptr e
  /\ positions_queued e' = positions_queued e ∖ {[pos]}
  /\ positions_active e' = positions_active e ∖ {[pos]}
  /\ positions_all e' = positions_all e ∖ {[pos]}
  /\ (forall m, position_index (info_of e' m) = position_index (info_of e m)).
Proof.
  intros Hp Hin e'. subst e'.
  assert (forall x, let e' := EngineB.deletePosition pos x in
            heap x = heap e -> next_ptr x = next_ptr e ->
            positions_queued x = positions_queued e ->
            positions_active x = positions_active e ->
            positions_all x = positions_all e ->
            market_info x = market_info e ->
            heap e' = delete pos (heap e)
            /\ next_ptr e' = next_ptr e
            /\ positions_queued e' = positions_queued e ∖ {[pos]}
            /\ positions_active e' = positions_active e ∖ {[pos]}
            /\ positions_all e' = positions_all e ∖ {[pos]}
            /\ (forall m, position_index (info_of e' m)
                          = position_index (info_of e m))) as Hgen.
  { intros x e' Hh Hn Hq Ha Hall Hmi.
    destruct (deletePosition_obs pos p x) as (H1 & H2 & H3 & H4 & H5 & _ & H7).
    - by rewrite Hh.
    - left. by rewrite Ha.
    - subst e'. rewrite H1, H2, H3, H4, H5, Hh, Hn, Hq, Ha, Hall.
      repeat split; try done. intros m. rewrite H7. unfold info_of.
      by rewrite Hmi. }
  destruct (is_testing e); [by apply Hgen|].
  destruct (bool_decide _); by apply Hgen.
Qed.

(** C2.  A fill that [fillNQ] dispatches on the active position [pos],
    whose market is spelled the way of the exchange, advances the slot of
    every index the position spans (its fill count goes up by one for each
    time the position spans it) and removes the position.  For a ping-pong
    (not one-time) position, which spans at least one slot, [flipPosition]
    asks [addPosition] for the opposite order over the same slots, with the
    prices and the size of the current slot, that is of the data the loop
    over the slots has left, any toggle of the alternate size included.
    When the checks of [addPosition] let that order through, exactly one
    replacement is created, at the next address: it is on the opposite side,
    spans the same slots, and for a position that is no landmark its
    original prices and its amount are the prices and the size of that slot
    (its working price is the one the post-only walk of [addPosition]
    leaves).  When the checks refuse the order, the position is removed all
    the same and nothing is created.  When the position is a one-time one,
    the fill removes it and creates nothing. *)
Theorem fill_replaces_position e order_id fill_type extra_data now pos p :
  1 <= fill_type <= 5 ->
  order_id <> "" ->
  getPositionForOrderID e order_id = Some pos ->
  heap e !! pos = Some p ->
  pos ∈ positions_active e ->
  pos <> next_ptr e ->
  market_spelled e (market p) ->
  (is_onetime p = false -> market_indices p <> []) ->
  let e' := EngineB.fillNQ order_id fill_type extra_data now e in
  let e1 := slots_filled e p in
  let a := next_ptr e in
  position_index (info_of e' (market p))
  = advance_slots (market_indices p) (position_index (info_of e (market p)))
  /\ (forall idx,
      0 <= idx < qsize (position_index (info_of e (market p))) ->
      pd_fill_count (value (position_index (info_of e' (market p))) idx
                       PositionData_default)
      = pd_fill_count (value (position_index (info_of e (market p))) idx
                         PositionData_default)
        + Z.of_nat (count_occ Z.eq_dec (market_indices p) idx))
  /\ heap e' !! pos = None
  /\ (pos ∉ positions_all e') /\ (pos ∉ positions_active e')
  /\ (pos ∉ positions_queued e')
  /\ if is_onetime p || negb (admits_replacement e1 p)
     then positions_all e' = positions_all e ∖ {[pos]}
          /\ heap e' = delete pos (heap e)
          /\ next_ptr e' = next_ptr e
     else positions_all e' = (positions_all e ∪ {[a]}) ∖ {[pos]}
          /\ next_ptr e' = Pos.succ a
          /\ (forall q, q <> a -> q <> pos -> heap e' !! q = heap e !! q)
          /\ exists p',
               heap e' !! a = Some p'
               /\ side p' = other_side (side p)
               /\ market p' = market p
               /\ market_indices p' = market_indices p
               /\ is_onetime p' = false
               /\ is_landmark p' = is_landmark p
               /\ order_core p'
                  = order_core (EngineB.finish_position "active"
                                  (replacement e1 p) (info_of e1 (market p)))
               /\ (is_landmark p = false ->
                   buy_price_original p' = toCoin (pd_buy_price (current_slot e1 p))
                   /\ sell_price_original p'
                      = toCoin (pd_sell_price (current_slot e1 p))
                   /\ btc_amount p' = toCoin (pd_order_size (current_slot e1 p))).
Proof.
  intros Hft Hid Hget Hp Hact Hne Hsp Hpp e' e1 a. subst e'.
  unfold EngineB.fillNQ.
  assert ((fill_type <? 1) || (5 <? fill_type) = false) as ->.
  { apply orb_false_intro; apply Z.ltb_ge; lia. }
  rewrite (bool_decide_eq_false_2 (order_id = "")) by done.
  set (e0 := emit (Dispatch order_id fill_type) e).
  assert (getPositionForOrderID e0 order_id = Some pos) as Hget0 by exact Hget.
  assert (isPositionOrderID e0 order_id = true) as ->.
  { unfold isPositionOrderID. apply bool_decide_eq_true_2.
    unfold getPositionForOrderID in Hget0. by rewrite Hget0. }
  cbn [orb negb]. rewrite Hget0.
  assert (heap e0 !! pos = Some p) as -> by exact Hp.
  set (e2 := foldl (EngineB.fill_slot (market p)) (emit (StatsUpdate pos) e0)
               (market_indices p)).
  destruct (fill_slots_obs (market p) (market_indices p)
              (emit (StatsUpdate pos) e0))
    as (Hh2 & Hn2 & Hq2 & Ha2 & Hall2 & _ & Hx2 & _ & Hi2).
  fold e2 in Hh2, Hn2, Hq2, Ha2, Hall2, Hx2, Hi2.
  change (heap e2 = heap e) in Hh2. change (next_ptr e2 = next_ptr e) in Hn2.
  change (positions_queued e2 = positions_queued e) in Hq2.
  change (positions_active e2 = positions_active e) in Ha2.
  change (positions_all e2 = positions_all e) in Hall2.
  change (exchange e2 = exchange e) in Hx2.
  change (info_of e2 (market p)
          = set_position_index
              (advance_slots (market_indices p)
                 (position_index (info_of e (market p))))
              (info_of e (market p))) in Hi2.
  destruct (fill_slots_obs (market p) (market_indices p) e)
    as (_ & _ & _ & _ & _ & _ & Hx1 & _ & Hi1).
  fold (slots_filled e p) in Hx1, Hi1. fold e1 in Hx1, Hi1.
  assert (info_of e2 (market p) = info_of e1 (market p)) as Hinfo
    by (by rewrite Hi2, Hi1).
  assert (exchange e2 = exchange e1) as Hx by (by rewrite Hx2, Hx1).
  assert (position_index (info_of e2 (market p))
          = advance_slots (market_indices p)
              (position_index (info_of e (market p)))) as Hslots
    by (by rewrite Hi2).
  assert (heap e2 !! pos = Some p) as Hp2 by (by rewrite Hh2).
  assert (market_spelled e2 (market p)) as Hsp2
    by (by apply (market_spelled_ext e)).
  clearbody e2. clear e0 Hget0.
  set (e3 := EngineB.flipPosition pos now e2).
  destruct (is_onetime p) eqn:Ho.
  - assert (e3 = e2) as He3.
    { subst e3. unfold EngineB.flipPosition. by rewrite Hp2, Ho. }
    clearbody e3. subst e3.
    destruct (fillNQ_tail_obs order_id pos p e2 Hp2) as (H1 & H2 & H3 & H4 & H5 & H6);
      [by rewrite Ha2|].
    rewrite H1, H2, H3, H4, H5, H6, Hslots, Hh2, Hn2, Hq2, Ha2, Hall2.
    split; [done|]. split; [by intros; apply advance_slots_fill_count|].
    split; [by rewrite lookup_delete_eq|].
    repeat split; try done;
      rewrite elem_of_difference, elem_of_singleton; tauto.
  - pose proof (Hpp eq_refl) as Hidx.
    assert (admits_replacement e2 p = admits_replacement e1 p) as Hadm2.
    { unfold admits_replacement, flip_args, current_slot.
      rewrite Hinfo. destruct (is_landmark p); by apply admits_ext. }
    assert (replacement e2 p = replacement e1 p) as Hrep.
    { unfold replacement, flip_args, current_slot.
      rewrite Hinfo. destruct (is_landmark p); by apply active_order_ext. }
    assert (current_slot e2 p = current_slot e1 p) as Hcur.
    { unfold current_slot. by rewrite Hinfo. }
    destruct (flipPosition_obs pos p now e2 Hp2 Ho Hidx) as
      (Hpos3 & Ha3 & Hq3 & Hi3 & Hflip); [by rewrite Hn2|done|].
    fold e3 in Hpos3, Ha3, Hq3, Hi3, Hflip.
    rewrite Hadm2, Hn2 in Hflip. fold a in Hflip.
    cbn [orb]. clearbody e3.
    destruct (fillNQ_tail_obs order_id pos _ e3 Hpos3) as (H1 & H2 & H3 & H4 & H5 & H6);
      [by rewrite Ha3, Ha2|].
    rewrite H1, H2, H3, H4, H5, H6, Hi3, Hslots.
    split; [done|]. split; [by intros; apply advance_slots_fill_count|].
    split; [by rewrite lookup_delete_eq|].
    split; [rewrite elem_of_difference, elem_of_singleton; tauto|].
    split; [rewrite elem_of_difference, elem_of_singleton; tauto|].
    split; [rewrite elem_of_difference, elem_of_singleton; tauto|].
    destruct (admits_replacement e1 p) eqn:Hadm; cbn [negb].
    + destruct Hflip as ((p' & Hp' & Hcore & Hident) & Hoth3 & Hall3 & Hn3).
      rewrite Hrep, Hinfo in Hcore. rewrite Hrep in Hident.
      rewrite Hall3, Hall2, Hn3.
      split; [done|]. split; [done|].
      split.
      { intros q Hqa Hqp. by rewrite lookup_delete_ne, Hoth3, Hh2. }
      exists p'. split; [by rewrite lookup_delete_ne|].
      unfold replacement in Hident.
      destruct (flip_args e1 p) as [[b s] z] eqn:Hfa.
      destruct (active_order_fields e1 (market p) (other_side (side p)) b s z ""
                  (market_indices p) (is_landmark p))
        as (Fm & Fs & Fi & Fl & Fo & _ & _ & _ & Fslot).
      unfold order_identity in Hident.
      split; [congruence|]. split; [congruence|]. split; [congruence|].
      split; [congruence|]. split; [congruence|]. split; [done|].
      intros Hl. destruct (Fslot Hl) as (Fb & Fsell & Fz).
      unfold flip_args in Hfa. rewrite Hl in Hfa. injection Hfa as <- <- <-.
      repeat split; congruence.
    + destruct Hflip as (Hoth3 & Hall3 & Hn3).
      rewrite Hall3, Hall2, Hn3.
      split; [done|]. split; [|done].
      apply map_eq. intros q. destruct (decide (q = pos)) as [->|Hq].
      * by rewrite !lookup_delete_eq.
      * by rewrite !lookup_delete_ne, Hoth3, Hh2.
Qed.

(** The order "abc" of size 1 is filled: its slot moves on to the alternate
    size, and the sell order that replaces it has the size 2.  The one-time
    order "a1" is filled: it goes and nothing comes for it. *)
Lemma fill_replaces_position_witness :
  (let e' := EngineB.fillNQ "abc" FILL_WSS 0 (Scenes.T0 + 200)
               Scenes.alternating in
   exists p', heap e' !! 2%positive = Some p'
     /\ side p' = SIDE_SELL /\ market_indices p' = [0]
     /\ sell_price_original p' = Scenario.coins 110
     /\ btc_amount p' = Scenario.coins 2)
  /\ (let e' := EngineB.fillNQ "a1" FILL_WSS 0 (Scenes.T0 + 200)
                  Scenes.two_onetime in
      positions_all e' = positions_all Scenes.two_onetime ∖ {[1%positive]}
      /\ next_ptr e' = next_ptr Scenes.two_onetime).
Proof.
  split.
  - pose proof (fill_replaces_position Scenes.alternating "abc" FILL_WSS 0
                  (Scenes.T0 + 200) 1%positive
                  (Scenes.at_ptr Scenes.alternating 1)) as H.
    cbv zeta in H.
    destruct H as (_ & _ & _ & _ & _ & _ & H).
    + unfold FILL_WSS. lia.
    + discriminate.
    + vm_compute. reflexivity.
    + vm_compute. reflexivity.
    + apply (bool_decide_unpack _). vm_compute. exact I.
    + vm_compute. discriminate.
    + vm_compute. reflexivity.
    + intros _. vm_compute. discriminate.
    + assert (is_onetime (Scenes.at_ptr Scenes.alternating 1)
              || negb (admits_replacement
                         (slots_filled Scenes.alternating
                            (Scenes.at_ptr Scenes.alternating 1))
                         (Scenes.at_ptr Scenes.alternating 1)) = false) as Hc
        by (vm_compute; reflexivity).
      rewrite Hc in H.
      destruct H as (_ & _ & _ & p' & Hp' & Hs & _ & Hi & _ & _ & _ & Hslot).
      exists p'. split; [exact Hp'|]. split; [exact Hs|]. split; [exact Hi|].
      destruct (Hslot eq_refl) as (_ & Hsell & Hz). split; [exact Hsell|exact Hz].
  - pose proof (fill_replaces_position Scenes.two_onetime "a1" FILL_WSS 0
                  (Scenes.T0 + 200) 1%positive
                  (Scenes.at_ptr Scenes.two_onetime 1)) as H.
    cbv zeta in H.
    destruct H as (_ & _ & _ & _ & _ & _ & H).
    + unfold FILL_WSS. lia.
    + discriminate.
    + vm_compute. reflexivity.
    + vm_compute. reflexivity.
    + apply (bool_decide_unpack _). vm_compute. exact I.
    + vm_compute. discriminate.
    + vm_compute. reflexivity.
    + intros Ho. vm_compute in Ho. discriminate.
    + change (is_onetime (Scenes.at_ptr Scenes.two_onetime 1)) with true in H.
      destruct H as (Hall & _ & Hn). split; [exact Hall|exact Hn].
Defined.

(** C2 as stated fails when the checks of [addPosition] refuse the next
    order: [cancelAll] of the market clears its slots while the order "abc"
    stays active; its fill then removes the ping-pong position, which is
    not a one-time one, and no replacement is created. *)
Lemma fill_without_replacement :
  let e := (EngineB.cancelAll "X_Y" Scenes.alternating).1 in
  let e' := EngineB.fillNQ "abc" FILL_WSS 0 (Scenes.T0 + 200) e in
  getPositionForOrderID e "abc" = Some 1%positive
  /\ is_onetime (Scenes.at_ptr e 1) = false
  /\ market_indices (Scenes.at_ptr e 1) = [0]
  /\ elements (positions_active e) = [1%positive]
  /\ elements (positions_all e') = []
  /\ next_ptr e' = next_ptr e.
Proof. vm_compute. done. Qed.

End Fills.

(** ** The end of a converge *)

Section Converge.

Local Open Scope Z_scope.

Lemma removeOne_elem_of {A : Type} `{EqDecision A} (x y : A) l :
  y ∈ removeOne x l -> y ∈ l.
Proof.
  induction l as [|z l IH]; cbn; [done|].
  destruct (decide (x = z)) as [->|Hne].
  - intros Hy. apply elem_of_cons. by right.
  - rewrite !elem_of_cons. intros [->|Hy]; [by left|right; by apply IH].
Qed.

Lemma removeOne_NoDup {A : Type} `{EqDecision A} (x : A) l :
  NoDup l -> NoDup (removeOne x l).
Proof.
  induction 1 as [|z l Hz Hl IH]; cbn; [constructor|].
  destruct (decide (x = z)); [done|].
  constructor; [|done]. intros Hin. by apply Hz, (removeOne_elem_of x).
Qed.

Lemma removeOne_gone {A : Type} `{EqDecision A} (x : A) l :
  NoDup l -> x ∉ removeOne x l.
Proof.
  induction 1 as [|z l Hz Hl IH]; cbn; [apply not_elem_of_nil|].
  destruct (decide (x = z)) as [->|Hne]; [done|].
  rewrite elem_of_cons. intros [->|Hin]; [done|by apply IH].
Qed.

Lemma removeOne_all_elem_of {A : Type} `{EqDecision A} (y : A) idxs l :
  y ∈ foldl (fun l i => removeOne i l) l idxs -> y ∈ l.
Proof.
  revert l. induction idxs as [|i idxs IH]; intros l; cbn [foldl]; [done|].
  intros Hin. by apply (removeOne_elem_of i), IH.
Qed.

(** Taking every index of [idxs] out of a list without duplicates leaves
    none of them. *)
Lemma removeOne_all_gone {A : Type} `{EqDecision A} (idxs l : list A) :
  NoDup l -> forall i, i ∈ idxs -> i ∉ foldl (fun l i => removeOne i l) l idxs.
Proof.
  revert l. induction idxs as [|j idxs IH]; intros l Hl i Hi; cbn [foldl].
  - by apply elem_of_nil in Hi.
  - destruct (decide (i ∈ idxs)) as [Hin|Hnin].
    + by apply IH; [apply removeOne_NoDup|].
    + apply elem_of_cons in Hi as [->|Hi]; [|done].
      intros Hin. apply removeOne_all_elem_of in Hin.
      by apply (removeOne_gone j l).
Qed.

Lemma without_group_of_none pos groups :
  Forall (fun kv => pos ∉ kv.1) groups -> without_group_of pos groups = groups.
Proof.
  intros Hall. unfold without_group_of.
  destruct (list_find _ groups) as [[k [ps v]]|] eqn:Hf; [|done].
  apply list_find_Some in Hf as (Hk & Hin & _).
  apply list_elem_of_lookup_2 in Hk.
  by destruct (proj1 (Forall_forall _ _) Hall _ Hk).
Qed.

Lemma without_group_of_elem_of pos groups kv :
  kv ∈ without_group_of pos groups -> kv ∈ groups.
Proof.
  unfold without_group_of.
  destruct (list_find _ groups) as [[k [ps v]]|]; [|done].
  unfold qmap_remove. rewrite list_elem_of_filter. tauto.
Qed.

(** What [deletePosition] does to the bookkeeping of diverge/converge: the
    first group that holds the position goes, and the slots of the position
    are taken out of [diverging_converging] of its market, once each. *)
Lemma deletePosition_dc pos p e :
  heap e !! pos = Some p ->
  (pos ∈ positions_active e) \/ (pos ∈ positions_queued e) ->
  let e' := EngineB.deletePosition pos e in
  diverge_converge e' = without_group_of pos (diverge_converge e)
  /\ dc_indices e' (market p)
     = foldl (fun l i => removeOne i l) (dc_indices e (market p))
         (market_indices p).
Proof.
  intros Hp Hin e'. subst e'. unfold EngineB.deletePosition.
  assert (negb (isActivePosition e pos) && negb (isQueuedPosition e pos) = false)
    as ->.
  { unfold isActivePosition, isQueuedPosition.
    destruct Hin as [Hin|Hin]; rewrite (bool_decide_eq_true_2 _ Hin); cbn;
      [done|by rewrite andb_false_r]. }
  rewrite Hp.
  change (diverge_converge (EngineB.removeFromDC pos p e)
          = without_group_of pos (diverge_converge e)
          /\ dc_indices (EngineB.removeFromDC pos p e) (market p)
             = foldl (fun l i => removeOne i l) (dc_indices e (market p))
                 (market_indices p)).
  unfold EngineB.removeFromDC.
  match goal with
  | |- context [foldl _ ?x _] => set (e1 := x)
  end.
  destruct (dc_loop_obs (market p) (fun idx => removeOne idx) (market_indices p) e1)
    as (_ & Hdc & _ & Hdi).
  rewrite Hdc, Hdi. subst e1. unfold without_group_of.
  by destruct (list_find _ _) as [[? [? [? ?]]]|].
Qed.

(** C1.  [processCancelledOrder] for a position, active or queued, that was
    cancelled with the reason CANCELLING_FOR_DC and whose market is spelled
    the way of the exchange: [cancelOrderMeatDCOrder] takes the position out
    of the group that [diverge_converge] records for it, and the position is
    deleted.  While positions remain in the group, no position is added and
    the shortened group is recorded in place of the old one (it stays
    recorded through the delete when no recorded group lists the position
    any more); the slots of the deleted position leave
    [diverging_converging[ market ]].  When the group is emptied and was
    recorded to become a landmark over at least one index, every recorded
    index is taken out of [diverging_converging[ market ]], once by
    [cancelOrderMeatDCOrder] and once more by the delete, so that none is
    left when the list held no index twice, and the group is gone.  Then, if
    the checks of [addPosition] let the landmark over the recorded indices
    through, exactly one position is added: a landmark of the same market
    and side whose [market_indices] are the recorded indices; if they refuse
    it, nothing is added. *)
Theorem converge_ends_in_one_landmark e pos p positions landmark new_indices now :
  heap e !! pos = Some p ->
  cancel_reason p = CANCELLING_FOR_DC ->
  (pos ∈ positions_active e) \/ (pos ∈ positions_queued e) ->
  pos <> next_ptr e ->
  market_spelled e (market p) ->
  dc_group e pos = Some (positions, (landmark, new_indices)) ->
  let e' := EngineB.processCancelledOrder pos now e in
  let m := market p in
  let a := next_ptr e in
  let shortened :=
    qmap_insert ptrs_ltb (removeOne pos positions) (landmark, new_indices)
      (qmap_remove positions (diverge_converge e)) in
  (removeOne pos positions <> [] ->
      positions_all e' = positions_all e ∖ {[pos]}
      /\ heap e' = delete pos (heap e)
      /\ next_ptr e' = a
      /\ dc_indices e' m
         = foldl (fun l i => removeOne i l) (dc_indices e m) (market_indices p)
      /\ diverge_converge e' = without_group_of pos shortened
      /\ (Forall (fun kv => pos ∉ kv.1) shortened ->
          diverge_converge e' = shortened))
  /\ (removeOne pos positions = [] ->
      landmark = true ->
      new_indices <> [] ->
      heap e' !! pos = None
      /\ dc_indices e' m
         = foldl (fun l i => removeOne i l)
             (foldl (fun l i => removeOne i l) (dc_indices e m) new_indices)
             new_indices
      /\ (NoDup (dc_indices e m) ->
          forall i, i ∈ new_indices -> i ∉ dc_indices e' m)
      /\ diverge_converge e'
         = without_group_of pos (qmap_remove positions (diverge_converge e))
      /\ (forall kv, kv ∈ diverge_converge e' -> kv.1 <> positions)
      /\ if admits e m (side p) (Canon 1) (Canon 2) (Canon 0) "" new_indices true
         then positions_all e' = (positions_all e ∪ {[a]}) ∖ {[pos]}
              /\ next_ptr e' = Pos.succ a
              /\ (forall q, q <> a -> q <> pos -> heap e' !! q = heap e !! q)
              /\ (exists p', heap e' !! a = Some p'
                    /\ is_landmark p' = true
                    /\ market_indices p' = new_indices
                    /\ market p' = m /\ side p' = side p)
         else positions_all e' = positions_all e ∖ {[pos]}
              /\ heap e' = delete pos (heap e)
              /\ next_ptr e' = a).
Proof.
  intros Hp Hr Hin Hne Hsp Hg e' m a shortened. subst e'.
  unfold EngineB.processCancelledOrder. rewrite Hp.
  rewrite (bool_decide_eq_false_2
             (cancel_reason p = CANCELLING_FOR_SLIPPAGE_RESET))
    by (rewrite Hr; discriminate).
  rewrite andb_false_r.
  rewrite (bool_decide_eq_true_2 (cancel_reason p = CANCELLING_FOR_DC)) by done.
  unfold EngineB.cancelOrderMeatDCOrder.
  rewrite Hp. unfold dc_group in Hg.
  destruct (list_find _ (diverge_converge e)) as [[k [ps [lm idxs]]]|];
    [|done]. cbn in Hg. injection Hg as -> -> ->.
  destruct (decide (removeOne pos positions = [])) as [Hrest|Hrest].
  - rewrite (bool_decide_eq_true_2 _ Hrest).
    split; [by intros Hx|intros _ Hlm Hidx]. subst landmark.
    set (e0 := set_diverge_converge (qmap_remove positions (diverge_converge e)) e).
    destruct (dc_loop_obs (market p) (fun idx => removeOne idx) new_indices e0)
      as ((Hh & Hn & Hq & Ha & Hall & _ & Hmi & Hx & _) & Hdc & _ & Hdi).
    set (e1 := foldl _ e0 new_indices) in *.
    change (heap e1 = heap e) in Hh. change (next_ptr e1 = next_ptr e) in Hn.
    change (positions_queued e1 = positions_queued e) in Hq.
    change (positions_active e1 = positions_active e) in Ha.
    change (positions_all e1 = positions_all e) in Hall.
    change (market_info e1 = market_info e) in Hmi.
    change (exchange e1 = exchange e) in Hx.
    change (diverge_converge e1 = qmap_remove positions (diverge_converge e)) in Hdc.
    change (dc_indices e1 (market p)
            = foldl (fun l i => removeOne i l) (dc_indices e (market p))
                new_indices) in Hdi.
    clearbody e1. clear e0.
    unfold EngineB.addLandmarkPositionFor.
    cbn [market side market_indices set_market_indices].
    set (e2 := update_pos pos (set_market_indices new_indices) e1).
    set (p2 := set_market_indices new_indices p).
    assert (heap e2 !! pos = Some p2) as Hp2.
    { subst e2. unfold update_pos. cbn. by rewrite lookup_alter_eq, Hh, Hp. }
    assert (forall q, q <> pos -> heap e2 !! q = heap e !! q) as Hoth2.
    { intros q Hq'. subst e2. unfold update_pos. cbn.
      by rewrite lookup_alter_ne, Hh. }
    assert (market_spelled e2 (market p)) as Hsp2.
    { apply (market_spelled_ext e); [|done]. by rewrite <- Hx. }
    assert (admits e2 (market p) (side p) (Canon 1) (Canon 2) (Canon 0) ""
              new_indices true
            = admits e m (side p) (Canon 1) (Canon 2) (Canon 0) ""
                new_indices true) as Hadm2.
    { apply admits_ext; [exact Hx|]. unfold info_of. cbn. by rewrite Hmi. }
    assert (forall ec,
              heap ec !! pos = Some p2 ->
              ((pos ∈ positions_active ec) <-> (pos ∈ positions_active e)) ->
              ((pos ∈ positions_queued ec) <-> (pos ∈ positions_queued e)) ->
              diverge_converge ec = diverge_converge e1 ->
              diverging_converging ec = diverging_converging e1 ->
              let e' := EngineB.deletePosition pos ec in
              heap e' = delete pos (heap ec)
              /\ next_ptr e' = next_ptr ec
              /\ positions_all e' = positions_all ec ∖ {[pos]}
              /\ dc_indices e' m
                 = foldl (fun l i => removeOne i l)
                     (foldl (fun l i => removeOne i l) (dc_indices e m)
                        new_indices) new_indices
              /\ (NoDup (dc_indices e m) ->
                  forall i, i ∈ new_indices -> i ∉ dc_indices e' m)
              /\ diverge_converge e'
                 = without_group_of pos
                     (qmap_remove positions (diverge_converge e))
              /\ (forall kv, kv ∈ diverge_converge e' -> kv.1 <> positions))
      as Hdel.
    { intros ec Hpc Hac Hqc Hdcc Hdgc e'.
      assert ((pos ∈ positions_active ec) \/ (pos ∈ positions_queued ec))
        as Hinc by (rewrite Hac, Hqc; exact Hin).
      destruct (deletePosition_obs pos p2 ec Hpc Hinc)
        as (H1 & H2 & _ & _ & H5 & _).
      destruct (deletePosition_dc pos p2 ec Hpc Hinc) as (Hd1 & Hd2).
      fold e' in H1, H2, H5, Hd1, Hd2.
      change (market p2) with m in Hd2.
      change (market_indices p2) with new_indices in Hd2.
      assert (dc_indices ec m = dc_indices e1 m) as Hdi'.
      { unfold dc_indices. by rewrite Hdgc. }
      rewrite Hdi' in Hd2. unfold m in Hd2. rewrite Hdi in Hd2.
      rewrite Hdcc, Hdc in Hd1.
      split; [done|]. split; [done|]. split; [done|]. split; [done|].
      split.
      { intros Hnd i Hi. unfold m. rewrite Hd2. intros Hin'.
        apply removeOne_all_elem_of in Hin'.
        by apply (removeOne_all_gone new_indices (dc_indices e m) Hnd i Hi). }
      split; [done|].
      intros kv Hkv. rewrite Hd1 in Hkv.
      apply without_group_of_elem_of in Hkv.
      unfold qmap_remove in Hkv. apply list_elem_of_filter in Hkv. tauto. }
    destruct (admits e m (side p) (Canon 1) (Canon 2) (Canon 0) ""
               new_indices true) eqn:Hadm.
    + destruct (addPosition_active_obs (market p) (side p) (Canon 1)
                  (Canon 2) (Canon 0) "" new_indices true true now e2
                  Hsp2 Hidx Hadm2)
        as (_ & (p' & Hp' & _ & Hid) & Hoth & Hall' & Hsets & _ & Hdc'
            & Hdg' & _ & Hn').
      change (next_ptr e2) with (next_ptr e1) in Hp', Hoth, Hall', Hsets, Hn'.
      rewrite Hn in Hp', Hoth, Hall', Hsets, Hn'.
      fold a in Hp', Hoth, Hall', Hsets, Hn'.
      change (positions_all e2) with (positions_all e1) in Hall'.
      rewrite Hall in Hall'.
      destruct (Hsets pos Hne) as [Hsa Hsq].
      change (positions_active e2) with (positions_active e1) in Hsa.
      change (positions_queued e2) with (positions_queued e1) in Hsq.
      rewrite Ha in Hsa. rewrite Hq in Hsq.
      destruct (Hdel _ (eq_trans (Hoth pos Hne) Hp2) Hsa Hsq Hdc' Hdg')
        as (H1 & H2 & H3 & H4 & H5 & H6 & H7).
      split; [by rewrite H1, lookup_delete_eq|].
      split; [exact H4|]. split; [exact H5|]. split; [exact H6|].
      split; [exact H7|].
      split; [by rewrite H3, Hall'|]. split; [by rewrite H2|].
      split.
      { intros q Hqa Hqp. by rewrite H1, lookup_delete_ne, Hoth, Hoth2. }
      exists p'. split; [by rewrite H1, lookup_delete_ne|].
      destruct (active_order_fields e2 (market p) (side p) (Canon 1)
                  (Canon 2) (Canon 0) "" new_indices true)
        as (Fm & Fs & Fi & Fl & _).
      unfold order_identity in Hid. subst m. repeat split; congruence.
    + rewrite addPosition_active_rejected by done. cbn [fst].
      destruct (Hdel e2 Hp2) as (H1 & H2 & H3 & H4 & H5 & H6 & H7);
        [by change (positions_active e2) with (positions_active e1);
           rewrite Ha
        |by change (positions_queued e2) with (positions_queued e1);
           rewrite Hq
        |done|done|].
      split; [by rewrite H1, lookup_delete_eq|].
      split; [exact H4|]. split; [exact H5|]. split; [exact H6|].
      split; [exact H7|].
      change (positions_all e2) with (positions_all e1) in H3.
      change (next_ptr e2) with (next_ptr e1) in H2.
      rewrite Hall in H3. rewrite Hn in H2.
      split; [done|]. split; [|done].
      rewrite H1. apply map_eq. intros q.
      destruct (decide (q = pos)) as [->|Hq'].
      * by rewrite !lookup_delete_eq.
      * by rewrite !lookup_delete_ne, Hoth2.
  - rewrite (bool_decide_eq_false_2 _ Hrest).
    match goal with
    | |- context [EngineB.deletePosition pos ?x] => set (ec := x)
    end.
    assert (heap ec !! pos = Some p) as Hpc by exact Hp.
    assert ((pos ∈ positions_active ec) \/ (pos ∈ positions_queued ec))
      as Hinc by exact Hin.
    destruct (deletePosition_obs pos p ec Hpc Hinc) as (H1 & H2 & _ & _ & H5 & _).
    destruct (deletePosition_dc pos p ec Hpc Hinc) as (Hd1 & Hd2).
    split; [intros _|by intros Hx].
    split; [exact H5|]. split; [exact H1|]. split; [exact H2|].
    split; [exact Hd2|]. split; [exact Hd1|].
    intros Hall. rewrite Hd1. by apply without_group_of_none.
Qed.

(** The three converging buy orders.  The cancel of the first is
    acknowledged: the order is deleted, the group goes on with the other
    two and nothing is added.  The cancel of the last is acknowledged: the
    order is deleted, one landmark over the slots 2, 3 and 4 is added, and
    no index is left in [diverging_converging]. *)
Lemma converge_ends_in_one_landmark_witness :
  (let e' := EngineB.processCancelledOrder 1 (Scenes.T0 + 2000)
               Scenes.converging in
   positions_all e' = positions_all Scenes.converging ∖ {[1%positive]}
   /\ diverge_converge e' = [([2%positive; 3%positive], (true, [2; 3; 4]))])
  /\ (let e' := EngineB.processCancelledOrder 3 (Scenes.T0 + 4000)
                  Scenes.last_of_three in
      positions_all e'
      = (positions_all Scenes.last_of_three ∪ {[4%positive]}) ∖ {[3%positive]}
      /\ (exists p', heap e' !! 4%positive = Some p'
            /\ is_landmark p' = true /\ market_indices p' = [2; 3; 4])
      /\ dc_indices e' "X_Y" = []).
Proof.
  split.
  - destruct (converge_ends_in_one_landmark Scenes.converging 1%positive
                (Scenes.at_ptr Scenes.converging 1)
                [1%positive; 2%positive; 3%positive] true [2; 3; 4]
                (Scenes.T0 + 2000)) as [H _].
    + vm_compute. reflexivity.
    + vm_compute. reflexivity.
    + left. apply (bool_decide_unpack _). vm_compute. exact I.
    + vm_compute. discriminate.
    + vm_compute. reflexivity.
    + vm_compute. reflexivity.
    + destruct H as (Hall & _ & _ & _ & _ & Hdc); [discriminate|].
      split; [exact Hall|]. etrans; [apply Hdc|vm_compute; reflexivity].
      apply (bool_decide_unpack _). vm_compute. exact I.
  - pose proof (converge_ends_in_one_landmark Scenes.last_of_three 3%positive
                  (Scenes.at_ptr Scenes.last_of_three 3)
                  [3%positive] true [2; 3; 4] (Scenes.T0 + 4000)) as H.
    cbv zeta in H.
    destruct H as [_ H].
    + vm_compute. reflexivity.
    + vm_compute. reflexivity.
    + left. apply (bool_decide_unpack _). vm_compute. exact I.
    + vm_compute. discriminate.
    + vm_compute. reflexivity.
    + vm_compute. reflexivity.
    + destruct H as (_ & Hdi & _ & _ & _ & H).
      * reflexivity.
      * reflexivity.
      * discriminate.
      * assert (admits Scenes.last_of_three
                  (market (Scenes.at_ptr Scenes.last_of_three 3))
                  (side (Scenes.at_ptr Scenes.last_of_three 3))
                  (Canon 1) (Canon 2) (Canon 0) "" [2; 3; 4] true = true) as Hc
          by (vm_compute; reflexivity).
        rewrite Hc in H.
        destruct H as (Hall & _ & _ & (p' & Hp' & Hl & Hi & _)).
        split; [exact Hall|].
        split; [exists p'; exact (conj Hp' (conj Hl Hi))|].
        etrans; [exact Hdi|]. vm_compute. reflexivity.
Defined.

(** C1 as stated fails when the checks of [addPosition] refuse the
    landmark: [cancelAll] of the market clears its slots while the last
    order of the group waits for its cancel; once that cancel is
    acknowledged the group, recorded to become a landmark over the slots 2, 3
    and 4, is emptied and gone, and no position is added. *)
Lemma converge_without_landmark :
  let e := (EngineB.cancelAll "X_Y" Scenes.last_of_three).1 in
  let e' := EngineB.processCancelledOrder 3 (Scenes.T0 + 4000) e in
  dc_group e 3 = Some ([3%positive], (true, [2; 3; 4]))
  /\ cancel_reason (Scenes.at_ptr e 3) = CANCELLING_FOR_DC
  /\ elements (positions_all e) = [3%positive]
  /\ elements (positions_all e') = []
  /\ next_ptr e' = next_ptr e
  /\ diverge_converge e' = [].
Proof. vm_compute. done. Qed.

End Converge.

(** ** More on the post-only price walk *)

Section WalkSafety.

Local Open Scope Z_scope.

Lemma accept_sell_cases pos ticksize hi_buy v :
  accept_sell pos ticksize hi_buy v = (false, pos)
  \/ (accept_sell pos ticksize hi_buy v
      = (true, set_is_slippage true (set_sell_price v pos))
      /\ v <> sell_price pos /\ ticksize < v /\ sell_price_original pos <= v
      /\ hi_buy < v).
Proof.
  unfold accept_sell.
  destruct (coin_neq_text v (price pos)); [|by left].
  destruct (ticksize <? v) eqn:H2; [|by left].
  destruct (sell_price_original pos <=? v) eqn:H3; [|by left].
  destruct (v =? sell_price pos) eqn:H4; [by left|].
  destruct (hi_buy <? v) eqn:H5; [|by left].
  right. cbn. repeat split; lia.
Qed.

Lemma tryMoveOrder_A_walk_with fuel pos info :
  EngineA.tryMoveOrder fuel pos info
  = walk_with (price_ticksize info * 2 <=? lowest_sell info)
      (price_ticksize info <=? highest_buy info) fuel pos info.
Proof. reflexivity. Qed.

Lemma tryMoveOrder_B_walk_with fuel pos info :
  EngineB.tryMoveOrder fuel pos info
  = walk_with (isGreaterThanZero (lowest_sell info))
      (isGreaterThanZero (highest_buy info)) fuel pos info.
Proof. reflexivity. Qed.

Lemma walk_with_outcome gb gs fuel pos info r :
  0 < price_ticksize info ->
  walk_with gb gs fuel pos info = Some r ->
  walk_outcome pos info r.
Proof.
  intros Ht. unfold walk_with, walk_outcome.
  destruct (_ || _); [by intros [= <-]|].
  destruct (side pos) eqn:Hs.
  - destruct (_ && _).
    + intros [= <-]. cbn. eexists. split; [done|lia].
    + destruct (if gb then _ else _) as [v|]; [|done]. cbn. intros [= <-].
      destruct (accept_buy_cases pos (lowest_sell info) v)
        as [->|(-> & _ & _ & _ & Hlt & _)]; cbn; [done|].
      by exists v.
  - destruct (_ <=? _).
    + intros [= <-]. cbn. eexists. split; [done|lia].
    + destruct (if gs then _ else _) as [v|]; [|done]. cbn. intros [= <-].
      destruct (accept_sell_cases pos (price_ticksize info) (highest_buy info) v)
        as [->|(-> & _ & _ & _ & Hlt)]; cbn; [done|].
      by exists v.
Qed.

(** X1.  With a positive tick, a call of [tryMoveOrder] that returns false leaves
    the position as it was, and a call that returns true has only marked the
    slippage and moved the price of the position's own side, to a price that
    does not cross the spread: a buy stays under the lowest sell, a sell
    stays over the highest buy.  This holds for both copies. *)
Theorem tryMoveOrder_stays_on_its_side fuel pos info r :
  0 < price_ticksize info ->
  EngineA.tryMoveOrder fuel pos info = Some r
  \/ EngineB.tryMoveOrder fuel pos info = Some r ->
  walk_outcome pos info r.
Proof.
  intros Ht [Hr|Hr].
  - rewrite tryMoveOrder_A_walk_with in Hr. by eapply walk_with_outcome.
  - rewrite tryMoveOrder_B_walk_with in Hr. by eapply walk_with_outcome.
Qed.

(** S5 with the original buy price 105: the buy moves to 104, under the
    lowest sell of 105. *)
Lemma tryMoveOrder_stays_on_its_side_witness :
  walk_outcome Scenario.S5_pos' Scenario.S5_info
    (true, set_is_slippage true
             (set_buy_price (Scenario.coins 104) Scenario.S5_pos')).
Proof.
  apply (tryMoveOrder_stays_on_its_side 105).
  - vm_compute. reflexivity.
  - left. vm_compute. reflexivity.
Defined.

Lemma ratchet_buy_fixed ticksize lo_sell original :
  forall fuel v r,
  ratchet_buy fuel ticksize lo_sell original v = Some r ->
  forall fuel', ratchet_buy fuel' ticksize lo_sell original r = Some r.
Proof.
  induction fuel as [|fuel IH]; intros v r; rewrite ratchet_buy_unfold;
    destruct ((ticksize <=? v) && (v <? lo_sell - ticksize) && (v <? original))
      eqn:Hc; try done.
  - intros [= <-] fuel'. rewrite ratchet_buy_unfold. by rewrite Hc.
  - apply IH.
  - intros [= <-] fuel'. rewrite ratchet_buy_unfold. by rewrite Hc.
Qed.

Lemma ratchet_sell_fixed ticksize hi_buy original :
  forall fuel v r,
  ratchet_sell fuel ticksize hi_buy original v = Some r ->
  forall fuel', ratchet_sell fuel' ticksize hi_buy original r = Some r.
Proof.
  induction fuel as [|fuel IH]; intros v r; rewrite ratchet_sell_unfold;
    destruct ((ticksize * 2 <? v) && (hi_buy + ticksize <? v) && (original <? v))
      eqn:Hc; try done.
  - intros [= <-] fuel'. rewrite ratchet_sell_unfold. by rewrite Hc.
  - apply IH.
  - intros [= <-] fuel'. rewrite ratchet_sell_unfold. by rewrite Hc.
Qed.

Lemma accept_sell_same pos ticksize hi_buy :
  accept_sell pos ticksize hi_buy (sell_price pos) = (false, pos).
Proof.
  unfold accept_sell. rewrite Z.eqb_refl. simpl.
  by rewrite !andb_false_r.
Qed.

Local Ltac walk_cbn :=
  cbn -[isZeroOrLess isGreaterThanZero ratchet_buy ratchet_sell accept_buy
        accept_sell Z.leb Z.ltb Z.add Z.sub Z.mul].

Lemma walk_with_settles gb gs fuel pos info r :
  0 < price_ticksize info ->
  walk_with gb gs fuel pos info = Some r ->
  walk_with gb gs fuel r.2 info = Some (false, r.2).
Proof.
  intros Ht. unfold walk_with.
  destruct (_ || _) eqn:Hz; [by intros [= <-]|].
  destruct (side pos) eqn:Hs.
  - destruct (_ && _) eqn:Hsnap.
    + intros [= <-]. walk_cbn. rewrite Hs.
      assert ((lowest_sell info
               <=? lowest_sell info - price_ticksize info) = false) as ->
        by (apply Z.leb_gt; lia).
      cbn [andb].
      set (p1 := set_is_slippage true
                   (set_buy_price (lowest_sell info - price_ticksize info) pos)).
      destruct gb; walk_cbn; [|by rewrite accept_buy_default].
      rewrite ratchet_buy_unfold.
      assert ((lowest_sell info - price_ticksize info
               <? lowest_sell info - price_ticksize info) = false) as ->
        by (apply Z.ltb_irrefl).
      rewrite andb_false_r. walk_cbn.
      by rewrite (accept_buy_same p1).
    + destruct gb; walk_cbn.
      * destruct (ratchet_buy fuel _ _ _ _) as [v|] eqn:Hv; [|done]. walk_cbn.
        intros [= <-].
        destruct (accept_buy_cases pos (lowest_sell info) v)
          as [Hrej|(-> & _ & _ & _ & Hlt & _)]; [rewrite Hrej|]; walk_cbn.
        { rewrite Hs, Hsnap, Hv. walk_cbn. by rewrite Hrej. }
        rewrite Hs.
        assert ((lowest_sell info <=? v) = false) as ->
          by (apply Z.leb_gt; lia).
        cbn [andb].
        rewrite (ratchet_buy_fixed _ _ _ _ _ _ Hv fuel). walk_cbn.
        by rewrite (accept_buy_same
                      (set_is_slippage true (set_buy_price v pos))).
      * intros [= <-]. rewrite accept_buy_default. walk_cbn.
        rewrite Hs, Hsnap. walk_cbn. by rewrite accept_buy_default.
  - destruct (_ <=? _) eqn:Hsnap.
    + intros [= <-]. walk_cbn. rewrite Hs.
      assert ((highest_buy info + price_ticksize info
               <=? highest_buy info) = false) as ->
        by (apply Z.leb_gt; lia).
      set (p1 := set_is_slippage true
                   (set_sell_price (highest_buy info + price_ticksize info) pos)).
      destruct gs; walk_cbn; [|by rewrite accept_sell_default].
      rewrite ratchet_sell_unfold.
      assert ((highest_buy info + price_ticksize info
               <? highest_buy info + price_ticksize info) = false) as ->
        by (apply Z.ltb_irrefl).
      rewrite andb_false_r. walk_cbn.
      by rewrite (accept_sell_same p1).
    + destruct gs; walk_cbn.
      * destruct (ratchet_sell fuel _ _ _ _) as [v|] eqn:Hv; [|done]. walk_cbn.
        intros [= <-].
        destruct (accept_sell_cases pos (price_ticksize info) (highest_buy info) v)
          as [Hrej|(-> & _ & _ & _ & Hlt)]; [rewrite Hrej|]; walk_cbn.
        { rewrite Hs, Hsnap, Hv. walk_cbn. by rewrite Hrej. }
        rewrite Hs.
        assert ((v <=? highest_buy info) = false) as ->
          by (apply Z.leb_gt; lia).
        rewrite (ratchet_sell_fixed _ _ _ _ _ _ Hv fuel). walk_cbn.
        by rewrite (accept_sell_same
                      (set_is_slippage true (set_sell_price v pos))).
      * intros [= <-]. rewrite accept_sell_default by done. walk_cbn.
        rewrite Hs, Hsnap. walk_cbn. by rewrite accept_sell_default.
Qed.

(** X2.  A call of [tryMoveOrder] settles the position: with a positive tick and
    the same market data, a second call right after the first returns false
    and changes nothing.  This holds for both copies. *)
Theorem tryMoveOrder_settles fuel pos info r :
  0 < price_ticksize info ->
  (EngineA.tryMoveOrder fuel pos info = Some r ->
   EngineA.tryMoveOrder fuel r.2 info = Some (false, r.2))
  /\ (EngineB.tryMoveOrder fuel pos info = Some r ->
      EngineB.tryMoveOrder fuel r.2 info = Some (false, r.2)).
Proof.
  intros Ht. rewrite !tryMoveOrder_A_walk_with, !tryMoveOrder_B_walk_with.
  split; by apply walk_with_settles.
Qed.

(** S5 with the original buy price 105: the first call moves the buy to
    104, a second call leaves it there. *)
Lemma tryMoveOrder_settles_witness :
  let moved := set_is_slippage true
                 (set_buy_price (Scenario.coins 104) Scenario.S5_pos') in
  EngineB.tryMoveOrder 105 moved Scenario.S5_info = Some (false, moved).
Proof.
  refine (proj2 (tryMoveOrder_settles 105 Scenario.S5_pos' Scenario.S5_info
                   (true, _) _) _).
  - vm_compute. reflexivity.
  - vm_compute. reflexivity.
Defined.

Lemma walk_with_total gb gs fuel pos info :
  0 < price_ticksize info ->
  (EngineB.walk_fuel pos info <= fuel)%nat ->
  is_Some (walk_with gb gs fuel pos info).
Proof.
  intros Ht Hf. unfold walk_with. unfold EngineB.walk_fuel in Hf.
  destruct (_ || _); [eauto|].
  destruct (side pos).
  - destruct (_ && _); [eauto|].
    destruct gb; cbn; [|eauto].
    destruct (ratchet_buy_total (price_ticksize info) (lowest_sell info)
                (buy_price_original pos) Ht fuel (buy_price pos)) as [v ->];
      [lia|]. cbn. eauto.
  - destruct (_ <=? _); [eauto|].
    destruct gs; cbn; [|eauto].
    destruct (ratchet_sell_total (price_ticksize info) (highest_buy info)
                (sell_price_original pos) Ht fuel (sell_price pos)) as [v ->];
      [lia|]. cbn. eauto.
Qed.

Lemma ratchet_buy_zero_tick lo_sell original :
  forall fuel v,
  0 <= v -> v < lo_sell -> v < original ->
  ratchet_buy fuel 0 lo_sell original v = None.
Proof.
  induction fuel as [|fuel IH]; intros v H0 Hl Ho; rewrite ratchet_buy_unfold;
    assert ((0 <=? v) && (v <? lo_sell - 0) && (v <? original) = true) as ->
      by (rewrite !andb_true_iff, Z.leb_le, !Z.ltb_lt; lia); [done|].
  rewrite Z.add_0_r. by apply IH.
Qed.

(** X3.  The loops of [tryMoveOrder] end when the tick is positive: in both
    copies the call returns within [max (lowest_sell / ticksize)
    (sell_price / ticksize)] rounds of its loop.  With a tick of zero the
    loop of a buy order that lies under the lowest sell and under its
    original price never ends, whatever the number of rounds (second
    copy). *)
Theorem tryMoveOrder_loops_end fuel pos info :
  (0 < price_ticksize info ->
   (EngineB.walk_fuel pos info <= fuel)%nat ->
   is_Some (EngineA.tryMoveOrder fuel pos info)
   /\ is_Some (EngineB.tryMoveOrder fuel pos info))
  /\ (price_ticksize info = 0 ->
      side pos = SIDE_BUY ->
      0 < highest_buy info ->
      0 <= buy_price pos < lowest_sell info ->
      buy_price pos < buy_price_original pos ->
      EngineB.tryMoveOrder fuel pos info = None).
Proof.
  split.
  - intros Ht Hf.
    rewrite tryMoveOrder_A_walk_with, tryMoveOrder_B_walk_with.
    split; by apply walk_with_total.
  - intros Ht Hs Hhi Hb Ho. unfold EngineB.tryMoveOrder.
    assert (isZeroOrLess (highest_buy info) = false) as ->
      by (apply Z.leb_gt; lia).
    assert (isZeroOrLess (lowest_sell info) = false) as ->
      by (apply Z.leb_gt; lia).
    rewrite Hs, Ht. cbn [orb].
    assert ((lowest_sell info <=? buy_price pos) = false) as ->
      by (apply Z.leb_gt; lia).
    cbn [andb].
    assert (isGreaterThanZero (lowest_sell info) = true) as ->
      by (apply Z.ltb_lt; lia).
    by rewrite ratchet_buy_zero_tick by lia.
Qed.

(** S5 (tick 1, lowest sell 105, sell price 110): 110 rounds are enough.
    The same market with a tick of zero and the original buy price 105: no
    number of rounds is. *)
Lemma tryMoveOrder_loops_end_witness :
  (is_Some (EngineA.tryMoveOrder 110 Scenario.S5_pos Scenario.S5_info)
   /\ is_Some (EngineB.tryMoveOrder 110 Scenario.S5_pos Scenario.S5_info))
  /\ EngineB.tryMoveOrder 1000 Scenario.S5_pos'
       (mkMarketInfo [] [] (Scenario.coins 95) (Scenario.coins 105) 0 0 0 0)
     = None.
Proof.
  split.
  - apply (proj1 (tryMoveOrder_loops_end 110 Scenario.S5_pos Scenario.S5_info)).
    + vm_compute. reflexivity.
    + vm_compute. lia.
  - apply (proj2 (tryMoveOrder_loops_end 1000 Scenario.S5_pos'
                    (mkMarketInfo [] [] (Scenario.coins 95) (Scenario.coins 105)
                       0 0 0 0))).
    + reflexivity.
    + reflexivity.
    + vm_compute. reflexivity.
    + vm_compute. split; [discriminate|reflexivity].
    + vm_compute. reflexivity.
Defined.

End WalkSafety.

(** ** Queries over the positions and cancels in bulk *)

Section Bulk.

Local Open Scope Z_scope.

Lemma elem_of_positions_in e s pos p :
  (pos, p) ∈ EngineB.positions_in e s <-> holds e s pos p.
Proof.
  unfold EngineB.positions_in, holds. rewrite list_elem_of_omap. split.
  - intros (x & Hx & Hp). apply elem_of_elements in Hx.
    destruct (heap e !! x) as [p'|] eqn:Hh; [|done].
    cbn in Hp. by injection Hp as -> ->.
  - intros [Hs Hh]. exists pos. split; [by apply elem_of_elements|].
    by rewrite Hh.
Qed.

Lemma lower_pingpong_fold market' l :
  forall acc,
  let r := foldl (EngineB.lower_pingpong market') acc l in
  r.2 <= acc.2
  /\ (forall pp, pp ∈ l -> open_pingpong market' pp.2 = true ->
        r.2 <= EngineB.getLowestMarketIndex pp.2)
  /\ (r = acc
      \/ exists pp, pp ∈ l /\ r = (Some pp.1, EngineB.getLowestMarketIndex pp.2)
                    /\ open_pingpong market' pp.2 = true /\ r.2 < acc.2).
Proof.
  induction l as [|pp l IH]; intros acc; cbn [foldl].
  - split; [done|]. split; [|by left]. intros pp Hpp. by apply elem_of_nil in Hpp.
  - destruct (IH (EngineB.lower_pingpong market' acc pp)) as (Hle & Hall & Hr).
    set (r := foldl _ _ l) in *. clearbody r.
    assert (let a := EngineB.lower_pingpong market' acc pp in
            a.2 <= acc.2
            /\ (open_pingpong market' pp.2 = true ->
                a.2 <= EngineB.getLowestMarketIndex pp.2)
            /\ (a = acc
                \/ (a = (Some pp.1, EngineB.getLowestMarketIndex pp.2)
                    /\ open_pingpong market' pp.2 = true /\ a.2 < acc.2)))
      as (Ha1 & Ha2 & Ha3).
    { unfold EngineB.lower_pingpong, open_pingpong.
      destruct (is_onetime pp.2); cbn; [by repeat split; try left|].
      destruct (EngineB.getLowestMarketIndex pp.2 <? acc.2) eqn:Hlt; cbn.
      - apply Z.ltb_lt in Hlt.
        destruct (is_cancelling pp.2); cbn; [by repeat split; try left|].
        destruct (bool_decide (market pp.2 = market')); cbn.
        + split; [lia|]. split; [done|]. by right.
        + by repeat split; try left.
      - apply Z.ltb_ge in Hlt. split; [done|]. split; [done|by left]. }
    split; [lia|]. split.
    + intros pp' Hpp' Hopen. apply elem_of_cons in Hpp' as [->|Hin].
      * specialize (Ha2 Hopen). lia.
      * by apply Hall.
    + destruct Hr as [->|(pp' & Hin & -> & Hopen & Hlt)].
      * destruct Ha3 as [->|(-> & Hopen & Hlt)]; [by left|].
        right. exists pp. split; [by left|done].
      * right. exists pp'. split; [by right|]. split; [done|].
        split; [done|]. cbn in *. lia.
Qed.

Lemma higher_pingpong_fold market' l :
  forall acc,
  let r := foldl (EngineB.higher_pingpong market') acc l in
  acc.2 <= r.2
  /\ (forall pp, pp ∈ l -> open_pingpong market' pp.2 = true ->
        EngineB.getHighestMarketIndex pp.2 <= r.2)
  /\ (r = acc
      \/ exists pp, pp ∈ l /\ r = (Some pp.1, EngineB.getHighestMarketIndex pp.2)
                    /\ open_pingpong market' pp.2 = true /\ acc.2 < r.2).
Proof.
  induction l as [|pp l IH]; intros acc; cbn [foldl].
  - split; [done|]. split; [|by left]. intros pp Hpp. by apply elem_of_nil in Hpp.
  - destruct (IH (EngineB.higher_pingpong market' acc pp)) as (Hle & Hall & Hr).
    set (r := foldl _ _ l) in *. clearbody r.
    assert (let a := EngineB.higher_pingpong market' acc pp in
            acc.2 <= a.2
            /\ (open_pingpong market' pp.2 = true ->
                EngineB.getHighestMarketIndex pp.2 <= a.2)
            /\ (a = acc
                \/ (a = (Some pp.1, EngineB.getHighestMarketIndex pp.2)
                    /\ open_pingpong market' pp.2 = true /\ acc.2 < a.2)))
      as (Ha1 & Ha2 & Ha3).
    { unfold EngineB.higher_pingpong, open_pingpong.
      destruct (is_onetime pp.2); cbn; [by repeat split; try left|].
      destruct (acc.2 <? EngineB.getHighestMarketIndex pp.2) eqn:Hlt; cbn.
      - apply Z.ltb_lt in Hlt.
        destruct (is_cancelling pp.2); cbn; [by repeat split; try left|].
        destruct (bool_decide (market pp.2 = market')); cbn.
        + split; [lia|]. split; [done|]. by right.
        + by repeat split; try left.
      - apply Z.ltb_ge in Hlt. split; [done|]. split; [done|by left]. }
    split; [lia|]. split.
    + intros pp' Hpp' Hopen. apply elem_of_cons in Hpp' as [->|Hin].
      * specialize (Ha2 Hopen). lia.
      * by apply Hall.
    + destruct Hr as [->|(pp' & Hin & -> & Hopen & Hlt)].
      * destruct Ha3 as [->|(-> & Hopen & Hlt)]; [by left|].
        right. exists pp. split; [by left|done].
      * right. exists pp'. split; [by right|]. split; [done|].
        split; [done|]. cbn in *. lia.
Qed.

(** X4.  [cancelLowest] cancels, with the reason CANCELLING_LOWEST, a ping-pong
    order of the market that is not being cancelled and whose lowest slot
    index is the least among all such orders; when there is none with an
    index under the greatest 32-bit integer it does nothing.  Which order
    the loop meets first does not matter for that. *)
Theorem cancelLowest_takes_the_lowest market' now e :
  (exists pos p,
     holds e (positions_all e) pos p
     /\ open_pingpong market' p = true
     /\ (forall q pq, holds e (positions_all e) q pq ->
           open_pingpong market' pq = true ->
           EngineB.getLowestMarketIndex p <= EngineB.getLowestMarketIndex pq)
     /\ EngineB.cancelLowest market' now e
        = EngineB.cancelOrder pos false CANCELLING_LOWEST now e)
  \/ ((forall q pq, holds e (positions_all e) q pq ->
         open_pingpong market' pq = true ->
         EngineB.INT32_MAX <= EngineB.getLowestMarketIndex pq)
      /\ EngineB.cancelLowest market' now e = e).
Proof.
  unfold EngineB.cancelLowest, EngineB.getLowestActivePingPong.
  destruct (lower_pingpong_fold market'
              (EngineB.positions_in e (positions_all e)) (None, EngineB.INT32_MAX))
    as (_ & Hall & Hr).
  set (r := foldl _ _ _) in *. clearbody r.
  destruct Hr as [->|([pos p] & Hin & -> & Hopen & _)]; cbn [fst snd] in *.
  - right. split; [|done]. intros q pq Hq Hopen.
    by apply (Hall (q, pq)); [apply elem_of_positions_in|].
  - left. exists pos, p. split; [by apply elem_of_positions_in|].
    split; [done|]. split; [|done]. intros q pq Hq Hopen'.
    by apply (Hall (q, pq)); [apply elem_of_positions_in|].
Qed.

(** X5.  [cancelHighest] cancels, with the reason CANCELLING_HIGHEST, a
    ping-pong order of the market that is not being cancelled and whose
    highest slot index is the greatest among all such orders; when there is
    none with an index of zero or more it does nothing. *)
Theorem cancelHighest_takes_the_highest market' now e :
  (exists pos p,
     holds e (positions_all e) pos p
     /\ open_pingpong market' p = true
     /\ (forall q pq, holds e (positions_all e) q pq ->
           open_pingpong market' pq = true ->
           EngineB.getHighestMarketIndex pq <= EngineB.getHighestMarketIndex p)
     /\ EngineB.cancelHighest market' now e
        = EngineB.cancelOrder pos false CANCELLING_HIGHEST now e)
  \/ ((forall q pq, holds e (positions_all e) q pq ->
         open_pingpong market' pq = true ->
         EngineB.getHighestMarketIndex pq <= -1)
      /\ EngineB.cancelHighest market' now e = e).
Proof.
  unfold EngineB.cancelHighest, EngineB.getHighestActivePingPong.
  destruct (higher_pingpong_fold market'
              (EngineB.positions_in e (positions_all e)) (None, -1))
    as (_ & Hall & Hr).
  set (r := foldl _ _ _) in *. clearbody r.
  destruct Hr as [->|([pos p] & Hin & -> & Hopen & _)]; cbn [fst snd] in *.
  - right. split; [|done]. intros q pq Hq Hopen.
    by apply (Hall (q, pq)); [apply elem_of_positions_in|].
  - left. exists pos, p. split; [by apply elem_of_positions_in|].
    split; [done|]. split; [|done]. intros q pq Hq Hopen'.
    by apply (Hall (q, pq)); [apply elem_of_positions_in|].
Qed.

(** Outside test mode a cancel removes nothing. *)
Lemma cancelOrder_keeps_sets pos quiet reason now e :
  is_testing e = false ->
  let e' := EngineB.cancelOrder pos quiet reason now e in
  positions_by_number e' = positions_by_number e
  /\ positions_all e' = positions_all e
  /\ positions_active e' = positions_active e
  /\ positions_queued e' = positions_queued e
  /\ market_info e' = market_info e
  /\ dom (heap e') = dom (heap e).
Proof.
  intros Ht. unfold EngineB.cancelOrder.
  destruct (negb (isPosition e pos)); [done|]. rewrite Ht.
  destruct (isQueuedPosition _ pos).
  - repeat split; try done. unfold update_pos. cbn. by rewrite !dom_alter_L.
  - rewrite heap_update_pos.
    destruct (heap e !! pos) as [p|]; cbn.
    + unfold EngineB.sendCancel. repeat split; try done.
      unfold update_pos. cbn. by rewrite !dom_alter_L.
    + repeat split; try done. unfold update_pos. cbn. by rewrite dom_alter_L.
Qed.

Lemma scan_order_cancelall now e q kv :
  is_testing e = false ->
  is_running_cancelall e = true ->
  let r := EngineB.scan_order now (e, q) kv in
  r.2 = q
  /\ is_testing r.1 = false
  /\ is_running_cancelall r.1 = true
  /\ cancel_market_filter r.1 = cancel_market_filter e
  /\ m_settings r.1 = m_settings e
  /\ exchange r.1 = exchange e
  /\ positions_by_number r.1 = positions_by_number e
  /\ positions_all r.1 = positions_all e
  /\ positions_active r.1 = positions_active e
  /\ positions_queued r.1 = positions_queued e
  /\ market_info r.1 = market_info e
  /\ order_grace_times r.1 = order_grace_times e
  /\ stray_cancels r.1
     = stray_cancels e ++ cancel_all_targets e (cancel_market_filter e) [kv].
Proof.
  intros Ht Hrun. unfold EngineB.scan_order. rewrite Hrun.
  unfold cancel_all_targets, passes_filter. cbn [filter list_filter].
  destruct (bool_decide (cancel_market_filter e = "all")) eqn:Hall;
    destruct (bool_decide (cancel_market_filter e = kv.1)) eqn:Hm;
    cbn [negb andb orb].
  all: try (destruct (isPositionOrderID e (oi_order_number kv.2)) eqn:Hid;
            cbn [negb andb]).
  all: try (rewrite decide_True by done); try (rewrite decide_False by done);
    cbn [fmap list_fmap].
  all: try (by rewrite app_nil_r).
  all: try (unfold EngineB.sendCancel, stray_cancels; cbn;
            by rewrite omap_app).
  all: unfold isPositionOrderID in Hid; apply bool_decide_eq_true in Hid;
    destruct Hid as [pos Hpos]; unfold getPositionForOrderID; rewrite Hpos.
  all: destruct (cancelOrder_keeps_sets pos false CANCELLING_FOR_USER now e Ht)
         as (Hb & Hal & Hac & Hqu & Hmi & _);
    destruct (same_control_cancelOrder pos false CANCELLING_FOR_USER now e)
      as (Hx & Ht' & _ & Hset & Hrun' & Hfil & Hgr & Hst);
    set (e1 := EngineB.cancelOrder pos false CANCELLING_FOR_USER now e) in *;
    clearbody e1.
  all: assert (isPositionOrderID e1 (oi_order_number kv.2) = true) as ->
         by (unfold isPositionOrderID; apply bool_decide_eq_true;
             rewrite Hb, Hpos; eauto).
  all: rewrite andb_false_r; cbn [fst snd].
  all: rewrite app_nil_r; repeat split; congruence.
Qed.

Lemma cancel_all_targets_cons e f kv orders :
  cancel_all_targets e f (kv :: orders)
  = cancel_all_targets e f [kv] ++ cancel_all_targets e f orders.
Proof.
  unfold cancel_all_targets. cbn [filter list_filter].
  by destruct (decide _).
Qed.

Lemma cancel_all_targets_ext e1 e2 f orders :
  positions_by_number e1 = positions_by_number e2 ->
  cancel_all_targets e1 f orders = cancel_all_targets e2 f orders.
Proof.
  intros Hb. unfold cancel_all_targets, isPositionOrderID. by rewrite Hb.
Qed.

Lemma scan_orders_cancelall now orders :
  forall e q,
  is_testing e = false ->
  is_running_cancelall e = true ->
  let r := foldl (EngineB.scan_order now) (e, q) orders in
  r.2 = q
  /\ is_running_cancelall r.1 = true
  /\ positions_by_number r.1 = positions_by_number e
  /\ positions_all r.1 = positions_all e
  /\ positions_active r.1 = positions_active e
  /\ positions_queued r.1 = positions_queued e
  /\ market_info r.1 = market_info e
  /\ order_grace_times r.1 = order_grace_times e
  /\ stray_cancels r.1
     = stray_cancels e ++ cancel_all_targets e (cancel_market_filter e) orders.
Proof.
  induction orders as [|kv orders IH]; intros e q Ht Hrun; cbn [foldl].
  - unfold cancel_all_targets. cbn. by rewrite app_nil_r.
  - destruct (scan_order_cancelall now e q kv Ht Hrun)
      as (Hq & Ht1 & Hrun1 & Hf1 & _ & _ & Hb1 & Hal1 & Hac1 & Hqu1 & Hmi1
          & Hg1 & Hs1).
    destruct (EngineB.scan_order now (e, q) kv) as [e1 q1]. cbn [fst snd] in *.
    subst q1.
    destruct (IH e1 q Ht1 Hrun1) as (Hq2 & Hrun2 & Hb2 & Hal2 & Hac2 & Hqu2 & Hmi2
                                     & Hg2 & Hs2).
    rewrite Hs2, Hs1, Hf1, (cancel_all_targets_ext e1 e) by done.
    rewrite (cancel_all_targets_cons e _ kv orders), app_assoc.
    repeat split; congruence.
Qed.

(** X6.  A cancel-all round (outside test mode).  [cancelAll] refuses, and
    changes nothing, exactly when it is asked for every market while the
    engine holds positions.  When it goes ahead, the next [processOpenOrders]
    sends a one-shot cancel for each reported order of a market the filter
    lets through that is not an order of ours, in the order they are
    reported and for no other id, removes no position, records no grace
    time, and takes the engine out of cancel-all mode. *)
Theorem cancel_all_round market' order_numbers orders request_time now e :
  is_testing e = false ->
  let r := EngineB.cancelAll market' e in
  let e' := EngineB.processOpenOrders order_numbers orders request_time now r.1 in
  (r.2 = false <->
     (positions_active e <> ∅ \/ positions_queued e <> ∅)
     /\ EngineB.market_or_all market' = "all")
  /\ (r.2 = false -> r.1 = e)
  /\ (r.2 = true ->
      is_running_cancelall r.1 = true
      /\ is_running_cancelall e' = false
      /\ stray_cancels e'
         = stray_cancels e
             ++ cancel_all_targets e (EngineB.market_or_all market') orders
      /\ positions_all e' = positions_all e
      /\ positions_active e' = positions_active e
      /\ positions_queued e' = positions_queued e
      /\ order_grace_times e' = order_grace_times e).
Proof.
  intros Ht r e'. subst e' r. unfold EngineB.cancelAll.
  assert (forall s : gset positive,
            negb (Z.of_nat (size s) =? 0) = true <-> s <> ∅) as Hsz.
  { intros s. rewrite negb_true_iff, Z.eqb_neq.
    rewrite <- (leibniz_equiv_iff s ∅), <- size_empty_iff. lia. }
  destruct ((EngineB.hasActivePositions e || EngineB.hasQueuedPositions e)
            && bool_decide (EngineB.market_or_all market' = "all")) eqn:Hg;
    cbn [fst snd].
  - apply andb_prop in Hg as [Hpos Hm]. apply bool_decide_eq_true in Hm.
    apply orb_prop in Hpos.
    unfold EngineB.hasActivePositions, EngineB.hasQueuedPositions in Hpos.
    rewrite !Hsz in Hpos. by repeat split.
  - split.
    { split; [done|]. intros [Hpos Hm].
      unfold EngineB.hasActivePositions, EngineB.hasQueuedPositions in Hg.
      rewrite <- !Hsz in Hpos. apply orb_true_iff in Hpos. rewrite Hpos in Hg.
      by rewrite (bool_decide_eq_true_2 _ Hm) in Hg. }
    split; [done|]. intros _. split; [done|].
    set (e1 := EngineB.set_cancel_market_filter _ _).
    assert (is_running_cancelall e1 = true) as Hrun1 by done.
    assert (cancel_market_filter e1 = EngineB.market_or_all market') as Hf1
      by done.
    assert (is_testing e1 = false
            /\ positions_by_number e1 = positions_by_number e
            /\ positions_all e1 = positions_all e
            /\ positions_active e1 = positions_active e
            /\ positions_queued e1 = positions_queued e
            /\ order_grace_times e1 = order_grace_times e
            /\ stray_cancels e1 = stray_cancels e)
      as (Ht1 & Hb & Hal & Hac & Hqu & Hgr & Hst).
    { subst e1. unfold EngineB.clear_market_index.
      by destruct (bool_decide (EngineB.market_or_all market' = "all")). }
    clearbody e1. unfold EngineB.processOpenOrders.
    destruct (scan_orders_cancelall now orders e1 [] Ht1 Hrun1)
      as (_ & Hrun2 & _ & Hal2 & Hac2 & Hqu2 & _ & Hg2 & Hs2).
    destruct (foldl (EngineB.scan_order now) (e1, []) orders) as [e2 q2].
    cbn [fst snd] in *. rewrite Hrun2. cbn.
    rewrite Hal2, Hac2, Hqu2, Hg2, Hal, Hac, Hqu, Hgr.
    repeat split; try done.
    fold (stray_cancels e2).
    by rewrite Hs2, Hst, Hf1, (cancel_all_targets_ext e1 e).
Qed.

(** An engine that holds nothing runs a cancel-all over every market: the
    one reported order, "xyz", is cancelled, and the mode is left. *)
Lemma cancel_all_round_witness :
  let e' := EngineB.processOpenOrders ["xyz"] (Scenes.reported 50040000)
              (Scenes.T0 + 14000) (Scenes.T0 + 15000)
              (EngineB.cancelAll "" (Scenes.blank EXCHANGE_POLONIEX false)).1 in
  stray_cancels e' = ["xyz"] /\ is_running_cancelall e' = false.
Proof.
  destruct (cancel_all_round "" ["xyz"] (Scenes.reported 50040000)
              (Scenes.T0 + 14000) (Scenes.T0 + 15000)
              (Scenes.blank EXCHANGE_POLONIEX false) eq_refl)
    as (_ & _ & H).
  destruct H as (_ & Hoff & Hs & _); [vm_compute; reflexivity|].
  split; [|exact Hoff]. etrans; [exact Hs|]. vm_compute. reflexivity.
Defined.

Lemma lookup_foldl_delete {V : Type} (ks : list string) :
  forall (m : gmap string V) id,
  foldl (fun m k => delete k m) m ks !! id
  = if decide (id ∈ ks) then None else m !! id.
Proof.
  induction ks as [|k ks IH]; intros m id; cbn [foldl].
  - rewrite decide_False; [done|]. apply not_elem_of_nil.
  - rewrite IH. destruct (decide (id ∈ ks)) as [Hin|Hnin].
    + rewrite decide_True; [done|]. by right.
    + destruct (decide (id = k)) as [->|Hne].
      * rewrite decide_True by (by left). apply lookup_delete_eq.
      * rewrite decide_False, lookup_delete_ne; [done|done|].
        rewrite elem_of_cons. tauto.
Qed.

(** X7.  [cleanGraceTimes] forgets exactly the order ids whose stamp is older
    than twice the grace time: every other stamp is kept as it is, no stamp
    is added, and nothing else of the engine changes. *)
Theorem cleanGraceTimes_forgets_the_old now e :
  let e' := EngineB.cleanGraceTimes now e in
  e' = set_order_grace_times (order_grace_times e') e
  /\ forall id,
       order_grace_times e' !! id
       = match order_grace_times e !! id with
         | Some seen =>
             if seen <? now - stray_grace_time_limit (m_settings e) * 2
             then None else Some seen
         | None => None
         end.
Proof.
  unfold EngineB.cleanGraceTimes.
  destruct (bool_decide (order_grace_times e = ∅)) eqn:He.
  - apply bool_decide_eq_true in He. split; [by destruct e|].
    intros id. rewrite He. by rewrite lookup_empty.
  - split; [done|]. intros id. cbn [order_grace_times set_order_grace_times].
    rewrite lookup_foldl_delete.
    set (old := fun kv : string * Z =>
                  (kv.2 <? now - stray_grace_time_limit (m_settings e) * 2)
                  = true).
    destruct (decide (id ∈ (filter old (map_to_list (order_grace_times e))).*1))
      as [Hin|Hnin].
    + apply list_elem_of_fmap in Hin as ([k seen] & -> & Hin).
      apply list_elem_of_filter in Hin as [Hold Hin].
      apply elem_of_map_to_list in Hin. cbn. rewrite Hin.
      unfold old in Hold. cbn in Hold. by rewrite Hold.
    + destruct (order_grace_times e !! id) as [seen|] eqn:Hid; [|done].
      destruct (seen <? now - stray_grace_time_limit (m_settings e) * 2)
        eqn:Hold; [|done].
      exfalso. apply Hnin. apply list_elem_of_fmap. exists (id, seen).
      split; [done|]. apply list_elem_of_filter. split; [exact Hold|].
      by apply elem_of_map_to_list.
Qed.

End Bulk.

(** ** The ticker *)

Section Book.

Local Open Scope Z_scope.

Lemma same_book_refl e : same_book e e.
Proof. done. Qed.

Lemma same_book_trans e1 e2 e3 :
  same_book e1 e2 -> same_book e2 e3 -> same_book e1 e3.
Proof. intros H1 H2 m. by rewrite H2, H1. Qed.

Lemma same_book_market_info e e' :
  market_info e' = market_info e -> same_book e e'.
Proof. intros H m. unfold info_of. by rewrite H. Qed.

Lemma same_book_update_info m f e :
  (forall i, book (f i) = book i) -> same_book e (update_info m f e).
Proof.
  intros Hf m'. destruct (decide (m = m')) as [->|Hne].
  - by rewrite info_of_update_info_eq.
  - by rewrite info_of_update_info_ne.
Qed.

Lemma foldl_same_book {A : Type} (f : Engine -> A -> Engine) (l : list A) :
  (forall e x, same_book e (f e x)) ->
  forall e, same_book e (foldl f e l).
Proof.
  intros Hf. induction l as [|x l IH]; intros e; simpl.
  - apply same_book_refl.
  - eapply same_book_trans; [apply Hf|apply IH].
Qed.

Lemma same_book_sendCancel id pos now e :
  same_book e (EngineB.sendCancel id pos now e).
Proof. apply same_book_market_info. unfold EngineB.sendCancel. by destruct pos. Qed.

Lemma same_book_removeFromDC pos p e :
  same_book e (EngineB.removeFromDC pos p e).
Proof.
  apply same_book_market_info.
  by destruct (removeFromDC_store pos p e) as (_&_&_&_&_&_&->&_).
Qed.

Lemma same_book_deletePosition pos e :
  same_book e (EngineB.deletePosition pos e).
Proof.
  unfold EngineB.deletePosition.
  destruct (negb _ && negb _); [apply same_book_refl|].
  destruct (heap e !! pos) as [p|]; [|apply same_book_refl].
  eapply same_book_trans; [apply (same_book_removeFromDC pos p)|].
  match goal with
  | |- same_book ?a (set_heap _ (update_info ?m ?f ?x)) =>
      apply (same_book_trans _ x); [by apply same_book_market_info|];
      apply (same_book_trans _ (update_info m f x));
        [by apply same_book_update_info|by apply same_book_market_info]
  end.
Qed.

Lemma same_book_cancelOrder pos quiet reason now e :
  same_book e (EngineB.cancelOrder pos quiet reason now e).
Proof.
  unfold EngineB.cancelOrder.
  destruct (negb (isPosition e pos)); [apply same_book_refl|].
  destruct (is_testing e); [apply same_book_deletePosition|].
  destruct (isQueuedPosition _ pos); [by apply same_book_market_info|].
  destruct (heap _ !! pos) as [p|]; [|by apply same_book_market_info].
  eapply same_book_trans; [|apply same_book_sendCancel].
  by apply same_book_market_info.
Qed.

Lemma same_book_setOrderMeat pos number now e :
  same_book e (EngineB.setOrderMeat pos number now e).
Proof.
  unfold EngineB.setOrderMeat.
  destruct (bool_decide (number = "")); [apply same_book_refl|].
  match goal with
  | |- context [match heap ?em !! pos with _ => _ end] =>
      set (emid := em);
      assert (same_book e emid) as Hmid by (by apply same_book_market_info)
  end.
  clearbody emid.
  destruct (heap emid !! pos) as [p|]; [|done].
  destruct (_ && _); [|done].
  eapply same_book_trans; [exact Hmid|apply same_book_cancelOrder].
Qed.

Lemma same_book_register_position p now e :
  same_book e (EngineB.register_position p now e).1.
Proof.
  unfold EngineB.register_position.
  match goal with
  | |- context [if is_testing ?em then _ else _] =>
      set (emid := em); assert (same_book e emid) as Hmid
  end.
  { subst emid.
    match goal with
    | |- same_book _ (update_info ?m ?f ?x) =>
        apply (same_book_trans _ x); [by apply same_book_market_info|];
        by apply same_book_update_info
    end. }
  clearbody emid.
  destruct (is_testing emid); simpl.
  - eapply same_book_trans; [exact Hmid|].
    eapply same_book_trans; [|apply same_book_setOrderMeat].
    by apply same_book_market_info.
  - eapply same_book_trans; [exact Hmid|]. by apply same_book_market_info.
Qed.

Lemma same_book_addPosition m sd b s sz type tag indices landmark quiet now e :
  same_book e
    (EngineB.addPosition m sd b s sz type tag indices landmark quiet now e).1.
Proof.
  unfold EngineB.addPosition.
  destruct (EngineB.rejects_arguments _ _ _ _ _ _ _ _ _);
    [apply same_book_refl|].
  destruct (if _ && bool_decide (indices = []) then _ else _)
    as [e1 i1] eqn:Hx.
  assert (same_book e e1) as H1.
  { destruct (_ && _); injection Hx as <- <-; [|apply same_book_refl].
    by apply same_book_update_info. }
  clear Hx.
  destruct (negb (EngineB.startsWith type "onetime")
            && negb (bool_decide (type = "active"))); [exact H1|].
  destruct (EngineB.rejects_position _ _); [exact H1|].
  eapply same_book_trans; [exact H1|apply same_book_register_position].
Qed.

Lemma same_book_flipPosition pos now e :
  same_book e (EngineB.flipPosition pos now e).
Proof.
  unfold EngineB.flipPosition.
  destruct (heap e !! pos) as [p|]; [|apply same_book_refl].
  destruct (is_onetime p); [apply same_book_refl|].
  match goal with
  | |- context [if is_landmark _ then (_ _ _ ?em).1 else _] =>
      set (emid := em); assert (same_book e emid) as Hmid
  end.
  { subst emid. apply same_book_market_info. by destruct (bool_decide _). }
  clearbody emid.
  destruct (is_landmark _);
    (eapply same_book_trans; [exact Hmid|]); apply same_book_addPosition.
Qed.

Lemma same_book_fill_slot m e idx : same_book e (EngineB.fill_slot m e idx).
Proof.
  unfold EngineB.fill_slot.
  destruct (_ <=? idx); [apply same_book_refl|].
  destruct (idx <? 0); [apply same_book_refl|].
  by apply same_book_update_info.
Qed.

Lemma same_book_fillNQ id fill_type extra now e :
  same_book e (EngineB.fillNQ id fill_type extra now e).
Proof.
  unfold EngineB.fillNQ.
  set (e0 := emit (Dispatch id fill_type) e).
  assert (same_book e e0) as H0 by (by apply same_book_market_info).
  clearbody e0.
  destruct (_ || _); [done|]. destruct (_ || _); [done|].
  destruct (getPositionForOrderID e0 id) as [pos|]; [|done].
  destruct (heap e0 !! pos) as [p|]; [|done].
  match goal with
  | |- context [if is_testing ?em then _ else _] =>
      set (emid := em); assert (same_book e emid) as Hmid
  end.
  { subst emid. eapply same_book_trans; [exact H0|].
    eapply same_book_trans; [|apply same_book_flipPosition].
    eapply same_book_trans; [|apply foldl_same_book, same_book_fill_slot].
    by apply same_book_market_info. }
  clearbody emid.
  destruct (is_testing emid).
  - eapply same_book_trans; [exact Hmid|apply same_book_deletePosition].
  - eapply same_book_trans; [|apply same_book_deletePosition].
    destruct (bool_decide _); [|done].
    eapply same_book_trans; [exact Hmid|by apply same_book_market_info].
Qed.

Lemma same_book_processFilledOrders key sorted fill_type now e :
  same_book e
    (foldl (fun e (kv : Qc * positive) =>
              EngineB.fillNQ (EngineB.order_number_of e kv.2) fill_type 0 now e)
           e (EngineB.sorted_fills key e sorted)).
Proof. apply foldl_same_book. intros. apply same_book_fillNQ. Qed.

(** The first loop of [processTicker], over any list of entries with
    distinct markets. *)
Lemma store_ticker_fold (l : list (string * TickerInfo)) :
  NoDup l.*1 ->
  forall e m,
  book (info_of (foldl EngineB.store_ticker e l) m)
  = match list_find (fun kv => kv.1 = m) l with
    | Some (_, (_, t)) =>
        if isZeroOrLess (ask_price t) || isZeroOrLess (bid_price t)
        then book (info_of e m)
        else book (set_lowest_sell (ask_price t)
                     (set_highest_buy (bid_price t) (info_of e m)))
    | None => book (info_of e m)
    end.
Proof.
  induction l as [|[k t] l IH]; intros Hnd e m; cbn [foldl]; [done|].
  apply NoDup_cons in Hnd as [Hk Hnd]. rewrite IH by done. clear IH.
  cbn [list_find]. cbn [fst].
  destruct (decide (k = m)) as [->|Hne]; cbn.
  - assert (list_find (fun kv : string * TickerInfo => kv.1 = m) l = None) as ->.
    { apply list_find_None. apply Forall_forall. intros [k' t'] Hin Heq.
      cbn in Heq. subst k'. apply Hk. apply list_elem_of_fmap.
      by exists (m, t'). }
    unfold EngineB.store_ticker. cbn [fst snd].
    destruct (_ || _); [done|]. by rewrite info_of_update_info_eq.
  - assert (info_of (EngineB.store_ticker e (k, t)) m = info_of e m) as Hsame.
    { unfold EngineB.store_ticker. cbn [fst snd].
      destruct (_ || _); [done|]. by rewrite info_of_update_info_ne. }
    destruct (list_find _ l) as [[i [k' t']]|]; cbn; by rewrite Hsame.
Qed.

Lemma store_ticker_stored ticker_data e :
  ticker_stored ticker_data e
    (foldl EngineB.store_ticker e (map_to_list ticker_data)).
Proof.
  intros m. rewrite store_ticker_fold by apply NoDup_fst_map_to_list.
  destruct (ticker_data !! m) as [t|] eqn:Hm.
  - apply elem_of_map_to_list in Hm.
    destruct (list_find (fun kv : string * TickerInfo => kv.1 = m)
                (map_to_list ticker_data)) as [[i [k t']]|] eqn:Hf.
    + apply list_find_Some in Hf as (Hi & Hk & _). cbn in Hk. subst k.
      apply list_elem_of_lookup_2, elem_of_map_to_list in Hi.
      apply elem_of_map_to_list in Hm. by rewrite Hm in Hi; injection Hi as ->.
    + apply list_find_None in Hf. rewrite Forall_forall in Hf.
      by specialize (Hf _ Hm).
  - destruct (list_find _ _) as [[i [k t']]|] eqn:Hf; [|done].
    apply list_find_Some in Hf as (Hi & Hk & _). cbn in Hk. subst k.
    apply list_elem_of_lookup_2, elem_of_map_to_list in Hi.
    by rewrite Hm in Hi.
Qed.

Lemma same_book_ticker_scan ticker_data request_time now e :
  same_book e
    (EngineB.ts_engine (EngineB.ticker_scan ticker_data request_time now e)).
Proof.
  unfold EngineB.ticker_scan.
  assert (forall l s, same_book e (EngineB.ts_engine s) ->
            same_book e
              (EngineB.ts_engine
                 (foldl (EngineB.scan_position ticker_data request_time now) s l)))
    as Hgen.
  { induction l as [|pos l IH]; intros s Hs; cbn [foldl]; [done|].
    apply IH. unfold EngineB.scan_position.
    destruct (heap _ !! pos) as [p|]; [|done].
    destruct (ticker_data !! market p) as [t|]; [|done].
    destruct (bool_decide _); [done|].
    destruct (_ <=? _); [done|]. destruct (_ || _); [done|].
    destruct (0 <? _); [|done].
    destruct (_ || _); [|by destruct (_ || _)].
    destruct (exchange _); try done.
    destruct (_ <? _); [done|]. destruct (_ <? 5); [|done].
    cbn. eapply same_book_trans; [exact Hs|]. by apply same_book_market_info. }
  apply Hgen. apply same_book_refl.
Qed.

(** X8.  Whatever fills it goes on to dispatch, [processTicker] leaves in the
    books what the ticker says and nothing else: for a market whose entry
    has a bid and an ask above zero, the highest buy and the lowest sell
    become that bid and that ask; an entry with a bid or an ask of zero or
    less is ignored; the book of a market the ticker does not name, the
    ticks and the bounds of the exchange stay as they were.  This holds for
    both copies. *)
Theorem processTicker_stores_the_ticker ticker_data request_time now e :
  ticker_stored ticker_data e
    (EngineA.processTicker ticker_data request_time now e)
  /\ ticker_stored ticker_data e
       (EngineB.processTicker ticker_data request_time now e).
Proof.
  pose proof (store_ticker_stored ticker_data e) as Hst.
  assert (forall e', same_book
                       (foldl EngineB.store_ticker e (map_to_list ticker_data)) e'
                     -> ticker_stored ticker_data e e') as Hgen.
  { intros e' He' m. rewrite He'. apply Hst. }
  unfold EngineA.processTicker, EngineB.processTicker.
  set (e1 := foldl EngineB.store_ticker e (map_to_list ticker_data)) in *.
  clearbody e1.
  split; apply Hgen.
  - destruct (_ <=? 0); [apply same_book_refl|].
    destruct (_ && _); [apply same_book_refl|].
    eapply same_book_trans; [apply same_book_ticker_scan|].
    apply same_book_processFilledOrders.
  - destruct (_ <=? 0); [apply same_book_refl|].
    destruct (_ && _); [apply same_book_refl|].
    eapply same_book_trans; [apply same_book_ticker_scan|].
    apply same_book_processFilledOrders.
Qed.

Lemma scan_position_candidates ticker_data request_time now e l :
  forall s,
  (forall pos, pos ∈ l -> pos ∈ positions_active e) ->
  m_settings (EngineB.ts_engine s) = m_settings e ->
  (forall q, set_order_getorder_time 0 <$> heap (EngineB.ts_engine s) !! q
             = set_order_getorder_time 0 <$> heap e !! q) ->
  (forall pos, pos ∈ EngineB.ts_filled_orders s ->
     exists p, holds e (positions_active e) pos p
               /\ ticker_fill_due ticker_data request_time now e p) ->
  forall pos,
  pos ∈ EngineB.ts_filled_orders
          (foldl (EngineB.scan_position ticker_data request_time now) s l) ->
  exists p, holds e (positions_active e) pos p
            /\ ticker_fill_due ticker_data request_time now e p.
Proof.
  induction l as [|x l IH]; intros s Hl Hset Hheap Hs; cbn [foldl]; [done|].
  assert (x ∈ positions_active e) as Hx by (apply Hl; by left).
  apply IH; [intros pos Hpos; apply Hl; by right| | |];
    unfold EngineB.scan_position;
    destruct (heap (EngineB.ts_engine s) !! x) as [p1|] eqn:Hp1; try done;
    destruct (ticker_data !! market p1) as [t|] eqn:Ht; try done;
    destruct (bool_decide (market p1 = "")); try done;
    destruct (ask_price t <=? bid_price t) eqn:Hcross; try done;
    destruct (isZeroOrLess (ask_price t) || isZeroOrLess (bid_price t))
      eqn:Hzero; try done;
    destruct (0 <? EngineB.fill_details p1 (bid_price t) (ask_price t))
      eqn:Hfd; try done;
    destruct ((request_time
                 - ticker_safety_delay_time (m_settings (EngineB.ts_engine s))
               <? order_set_time p1)
              || (now - ticker_safety_delay_time (m_settings (EngineB.ts_engine s))
                  <? order_set_time p1)) eqn:Hsafe.
  1,3,5: destruct (exchange (EngineB.ts_engine s)); try done;
    destruct (now - 30000 <? order_getorder_time p1); try done;
    destruct (EngineB.ts_filled_count s <? 5); try done.
  - intros q. cbn. destruct (decide (x = q)) as [->|Hne].
    + rewrite lookup_alter_eq, <- Hheap, Hp1. done.
    + by rewrite lookup_alter_ne.
  - destruct ((0 <? order_cancel_time p1) || is_cancelling p1); done.
  - destruct ((0 <? order_cancel_time p1) || is_cancelling p1); done.
  - destruct ((0 <? order_cancel_time p1) || is_cancelling p1) eqn:Hc;
      [done|]. cbn. intros pos Hpos.
    apply elem_of_app in Hpos as [Hpos|Hpos]; [by apply Hs|].
    apply list_elem_of_singleton in Hpos as ->.
    pose proof (Hheap x) as Hxx. rewrite Hp1 in Hxx.
    destruct (heap e !! x) as [p|] eqn:Hp; [|done].
    cbn in Hxx. apply (inj Some) in Hxx. symmetry in Hxx.
    assert (market p = market p1) as Hm
      by (by apply (f_equal market) in Hxx).
    assert (side p = side p1) as Hsd by (by apply (f_equal side) in Hxx).
    assert (buy_price p = buy_price p1) as Hb
      by (by apply (f_equal buy_price) in Hxx).
    assert (sell_price p = sell_price p1) as Hsl
      by (by apply (f_equal sell_price) in Hxx).
    assert (order_set_time p = order_set_time p1) as Hst
      by (by apply (f_equal order_set_time) in Hxx).
    assert (order_cancel_time p = order_cancel_time p1) as Hct
      by (by apply (f_equal order_cancel_time) in Hxx).
    assert (is_cancelling p = is_cancelling p1) as Hic
      by (by apply (f_equal is_cancelling) in Hxx).
    exists p. split; [done|]. exists t.
    apply orb_false_elim in Hsafe as [Hs1 Hs2].
    apply orb_false_elim in Hzero as [Hz1 Hz2].
    apply orb_false_elim in Hc as [Hc1 Hc2].
    unfold isZeroOrLess in *. rewrite Hset in Hs1, Hs2.
    assert (EngineB.fill_details p (bid_price t) (ask_price t)
            = EngineB.fill_details p1 (bid_price t) (ask_price t)) as ->.
    { unfold EngineB.fill_details. by rewrite Hsd, Hb, Hsl. }
    rewrite Hm, Hst, Hct, Hic.
    repeat split; try done; lia.
Qed.

(** X9.  The ticker never takes an order for filled inside the safety window:
    every position the second loop of [processTicker] collects as filled is
    an active position of a market the ticker names with a bid above zero
    and under the ask, its price collides with that book, it was set at
    least [ticker_safety_delay_time] before the request was sent and before
    now, and it is not being cancelled. *)
Theorem ticker_scan_respects_the_safety_window ticker_data request_time now e pos :
  pos ∈ EngineB.ts_filled_orders
          (EngineB.ticker_scan ticker_data request_time now e) ->
  exists p, holds e (positions_active e) pos p
            /\ ticker_fill_due ticker_data request_time now e p.
Proof.
  unfold EngineB.ticker_scan. apply scan_position_candidates; try done.
  - intros q Hq. by apply elem_of_elements in Hq.
  - intros q Hq. by apply elem_of_nil in Hq.
Qed.

(** The two buy orders at 100 with the top of book at 95 / 108, ten seconds
    after they were set: the order at address 1 is collected, and it is due. *)
Lemma ticker_scan_respects_the_safety_window_witness :
  exists p,
    holds Scenes.two_alike (positions_active Scenes.two_alike) 1%positive p
    /\ ticker_fill_due Scenes.ticker_95_108 (Scenes.T0 + 9000)
         (Scenes.T0 + 10000) Scenes.two_alike p.
Proof.
  apply (ticker_scan_respects_the_safety_window Scenes.ticker_95_108
           (Scenes.T0 + 9000) (Scenes.T0 + 10000) Scenes.two_alike 1%positive).
  vm_compute. right. left.
Defined.

End Book.

(** ** The batch of fills *)

Section Batch.

Local Open Scope Z_scope.

Lemma Qc_ltb_true x y : Qc_ltb x y = true <-> (x < y)%Qc.
Proof. unfold Qc_ltb. apply bool_decide_eq_true. Qed.

Lemma Qc_ltb_false x y : Qc_ltb x y = false <-> ~ (x < y)%Qc.
Proof. unfold Qc_ltb. apply bool_decide_eq_false. Qed.

Lemma Qc_neither_lt x y : ~ (x < y)%Qc -> ~ (y < x)%Qc -> x = y.
Proof.
  intros H1 H2. apply Qcle_antisym; by apply Qcnot_lt_le.
Qed.

(** [QMap::insert] on a map in ascending key order: the entry is there, the
    entries of the other keys stay, and the order is kept. *)
Lemma qmap_insert_spec {V : Type} (k : Qc) (v : V) (m : list (Qc * V)) :
  StronglySorted (fun a b => (a.1 < b.1)%Qc) m ->
  StronglySorted (fun a b => (a.1 < b.1)%Qc) (qmap_insert Qc_ltb k v m)
  /\ (forall kv, kv ∈ qmap_insert Qc_ltb k v m
                 <-> kv = (k, v) \/ (kv ∈ m /\ kv.1 <> k)).
Proof.
  induction 1 as [|[k' v'] m Hm IH Hall]; cbn [qmap_insert].
  - split; [repeat constructor|]. intros kv.
    rewrite list_elem_of_singleton. split; [by left|].
    intros [->|[Hin _]]; [done|]. by apply elem_of_nil in Hin.
  - destruct IH as [IHs IHm]. rewrite Forall_forall in Hall.
    destruct (Qc_ltb k k') eqn:H1.
    + apply Qc_ltb_true in H1. split.
      * constructor; [by constructor; [|apply Forall_forall]|].
        constructor; [done|]. apply Forall_forall.
        intros [k2 v2] H2. apply Hall in H2. cbn in *.
        by eapply Qclt_trans.
      * intros [k2 v2]. rewrite elem_of_cons. cbn. split.
        { intros [[= -> ->]|Hin]; [by left|]. right. split; [done|].
          intros Heq. subst.
          apply elem_of_cons in Hin as [[= -> ->]|Hin].
          - by apply Qclt_not_eq in H1.
          - apply Hall in Hin. cbn in Hin.
            by apply (Qclt_not_eq k k); [eapply Qclt_trans|]. }
        { intros [[= -> ->]|[Hin _]]; [by left|by right]. }
    + apply Qc_ltb_false in H1. destruct (Qc_ltb k' k) eqn:H2.
      * apply Qc_ltb_true in H2. split.
        { constructor; [done|]. apply Forall_forall. intros kv Hkv.
          apply IHm in Hkv as [->|[Hin _]]; [done|]. by apply Hall. }
        { intros [k2 v2]. rewrite !elem_of_cons, IHm. cbn. split.
          - intros [[= -> ->]|[[= -> ->]|[Hin Hne]]];
              [|by left|by right; split; [right|]].
            right. split; [by left|]. intros Heq. subst.
            by apply Qclt_not_eq in H2.
          - intros [[= -> ->]|[[[= -> ->]|Hin] Hne]];
              [by right; left|by left|].
            right. right. done. }
      * apply Qc_ltb_false in H2.
        assert (k = k') as <- by (by apply Qc_neither_lt).
        split.
        { constructor; [done|]. by apply Forall_forall. }
        { intros [k2 v2]. rewrite !elem_of_cons. cbn. split.
          - intros [[= -> ->]|Hin]; [by left|]. right. split; [by right|].
            apply Hall in Hin. cbn in Hin.
            intros Heq. subst. by apply Qclt_not_eq in Hin.
          - intros [[= -> ->]|[[[= -> ->]|Hin] Hne]];
              [by left|done|by right]. }
Qed.

Lemma qmap_insert_fresh {V : Type} (k : Qc) (v : V) (m : list (Qc * V)) :
  (forall kv, kv ∈ m -> kv.1 <> k) ->
  qmap_insert Qc_ltb k v m ≡ₚ (k, v) :: m.
Proof.
  induction m as [|[k' v'] m IH]; intros Hfresh; cbn [qmap_insert]; [done|].
  destruct (Qc_ltb k k') eqn:H1; [done|].
  destruct (Qc_ltb k' k) eqn:H2.
  - rewrite IH; [apply Permutation_swap|].
    intros kv Hkv. apply Hfresh. by right.
  - apply Qc_ltb_false in H1, H2.
    exfalso. apply (Hfresh (k', v')); [by left|]. cbn. symmetry.
    by apply Qc_neither_lt.
Qed.

Lemma sorted_fills_snoc key e batch x :
  EngineB.sorted_fills key e (batch ++ [x])
  = match heap e !! x with
    | Some p => qmap_insert Qc_ltb (key p) x (EngineB.sorted_fills key e batch)
    | None => EngineB.sorted_fills key e batch
    end.
Proof. unfold EngineB.sorted_fills. by rewrite foldl_app. Qed.

(** X10.  The map [processFilledOrders] sorts a batch into, for either sort key.
    Its keys ascend strictly; each of its entries is a position of the batch
    under that position's key; every key of the batch has an entry; and when
    the keys of the batch are all different, its entries are the positions of
    the batch, each exactly once. *)
Theorem sorted_fills_of_distinct_keys key e batch :
  let sorted := EngineB.sorted_fills key e batch in
  StronglySorted (fun a b => (a.1 < b.1)%Qc) sorted
  /\ (forall k pos, (k, pos) ∈ sorted ->
        pos ∈ batch /\ exists p, heap e !! pos = Some p /\ key p = k)
  /\ (forall pos p, pos ∈ batch -> heap e !! pos = Some p ->
        exists pos', (key p, pos') ∈ sorted)
  /\ (NoDup (omap (fun pos => key <$> heap e !! pos) batch) ->
      sorted.*2 ≡ₚ filter (fun pos => is_Some (heap e !! pos)) batch).
Proof.
  induction batch as [|x batch IH] using rev_ind; cbv zeta.
  - split; [constructor|]. split; [intros k pos H; by apply elem_of_nil in H|].
    split; [intros pos p H; by apply elem_of_nil in H|done].
  - destruct IH as (IHs & IHo & IHk & IHp).
    rewrite sorted_fills_snoc.
    set (sorted := EngineB.sorted_fills key e batch) in *. clearbody sorted.
    destruct (heap e !! x) as [px|] eqn:Hx.
    + destruct (qmap_insert_spec (key px) x sorted IHs) as [Hs Hm].
      split; [done|]. split; [|split].
      * intros k pos Hin. apply Hm in Hin as [[= -> ->]|[Hin _]].
        { split; [apply elem_of_app; right; by left|eauto]. }
        destruct (IHo k pos Hin) as [Hb Hp].
        split; [apply elem_of_app; by left|done].
      * intros pos p Hin Hp. apply elem_of_app in Hin as [Hin|Hin].
        { destruct (IHk pos p Hin Hp) as [pos' Hpos'].
          destruct (decide (key p = key px)) as [Heq|Hne].
          - exists x. apply Hm. left. by rewrite Heq.
          - exists pos'. apply Hm. right. done. }
        apply list_elem_of_singleton in Hin as ->.
        rewrite Hx in Hp. injection Hp as <-. exists x. apply Hm. by left.
      * rewrite omap_app. cbn. rewrite Hx. cbn. intros Hnd.
        apply NoDup_app in Hnd as (Hnd & Hfresh & _).
        rewrite filter_app. cbn [filter list_filter].
        rewrite decide_True by (rewrite Hx; eauto).
        rewrite qmap_insert_fresh.
        { cbn. rewrite IHp by done.
          by rewrite (Permutation_app_comm _ [x]). }
        intros [k pos] Hin Heq. cbn in Heq. subst k.
        destruct (IHo _ _ Hin) as [Hb (p & Hp & Hk)].
        apply (Hfresh (key px)); [|by left].
        apply list_elem_of_omap. exists pos. split; [done|].
        by rewrite Hp; cbn; rewrite Hk.
    + split; [done|]. split; [|split].
      * intros k pos Hin. destruct (IHo k pos Hin) as [Hb Hp].
        split; [apply elem_of_app; by left|done].
      * intros pos p Hin Hp. apply elem_of_app in Hin as [Hin|Hin];
          [by eapply IHk|].
        apply list_elem_of_singleton in Hin as ->. by rewrite Hx in Hp.
      * rewrite omap_app. cbn. rewrite Hx. cbn. rewrite app_nil_r.
        intros Hnd. rewrite filter_app. cbn [filter list_filter].
        rewrite decide_False by (rewrite Hx; by intros [? ?]).
        rewrite app_nil_r. by apply IHp.
Qed.

End Batch.

(** ** Setting, cancelling and deleting one position *)

Section OnePosition.

Local Open Scope Z_scope.

(** The fields a cancel leaves alone. *)
Lemma cancelOrder_keeps_fields pos quiet reason now e q pq :
  is_testing e = false ->
  heap e !! q = Some pq ->
  exists pq',
    heap (EngineB.cancelOrder pos quiet reason now e) !! q = Some pq'
    /\ order_number pq' = order_number pq
    /\ order_set_time pq' = order_set_time pq
    /\ is_new_hilo_order pq' = is_new_hilo_order pq
    /\ market pq' = market pq /\ side pq' = side pq
    /\ market_indices pq' = market_indices pq
    /\ (q <> pos -> pq' = pq).
Proof.
  intros Ht Hq. unfold EngineB.cancelOrder.
  destruct (negb (isPosition e pos)); [by exists pq|]. rewrite Ht.
  destruct (isQueuedPosition _ pos).
  - destruct (decide (pos = q)) as [->|Hne].
    + rewrite !heap_update_pos, Hq. cbn. eexists. by repeat split.
    + rewrite !heap_update_pos_ne by done. by exists pq.
  - rewrite heap_update_pos.
    destruct (heap e !! pos) as [p|] eqn:Hp; cbn.
    + unfold EngineB.sendCancel.
      destruct (decide (pos = q)) as [->|Hne].
      * cbn. rewrite !lookup_alter_eq, Hq. cbn.
        eexists. by repeat split.
      * cbn. rewrite !lookup_alter_ne by done. by exists pq.
    + destruct (decide (pos = q)) as [->|Hne]; [by rewrite Hq in Hp|].
      cbn. rewrite lookup_alter_ne by done. by exists pq.
Qed.

(** X11.  The acknowledgment of an order and the lookup of its id.  Given an
    order number that is not empty, [setOrderMeat] moves the position from
    the queued to the active set, stamps it with the time of the
    acknowledgment, and files it under the acknowledged number, so that
    [getPositionForOrderID] of that number leads back to the position while
    every other number leads where it led before.  (In a test the position
    must not be one that is being cancelled: there the cancel deletes it.)
    An empty order number changes nothing. *)
Theorem setOrderMeat_round_trip pos p number now e :
  number <> "" ->
  heap e !! pos = Some p ->
  is_testing e = false \/ is_cancelling p = false ->
  let e' := EngineB.setOrderMeat pos number now e in
  getPositionForOrderID e' number = Some pos
  /\ (forall id, id <> number ->
        getPositionForOrderID e' id = getPositionForOrderID e id)
  /\ isActivePosition e' pos = true
  /\ isQueuedPosition e' pos = false
  /\ (exists p', heap e' !! pos = Some p'
        /\ order_set_time p' = now
        /\ order_number p' = canonical_id e p number
        /\ is_new_hilo_order p' = false)
  /\ EngineB.setOrderMeat pos "" now e = e.
Proof.
  intros Hn Hp Hmode e'. subst e'.
  assert (EngineB.setOrderMeat pos "" now e = e) as Hblank by done.
  unfold EngineB.setOrderMeat at 1 2 3 4 5.
  rewrite bool_decide_eq_false_2 by done.
  match goal with
  | |- context [match heap ?em !! pos with _ => _ end] => set (emid := em)
  end.
  assert (heap emid !! pos
          = Some (set_order_number (canonical_id e p number)
                    (set_is_new_hilo_order false (set_order_set_time now p))))
    as Hh.
  { subst emid. unfold update_pos. cbn.
    rewrite (alter_alt_Some _ (heap e) pos p Hp), alter_insert_eq,
      lookup_insert_eq.
    unfold canonical_id. by destruct (is_testing e), (exchange e). }
  assert (positions_by_number emid = <[number := pos]> (positions_by_number e)
          /\ positions_active emid = positions_active e ∪ {[pos]}
          /\ positions_queued emid = positions_queued e ∖ {[pos]}
          /\ is_testing emid = is_testing e)
    as (Hb & Hac & Hqu & Htm) by done.
  clearbody emid. rewrite Hh.
  cbn [is_cancelling set_order_number set_is_new_hilo_order set_order_set_time
       cancel_reason order_cancel_time].
  assert (forall x,
            positions_by_number x = <[number := pos]> (positions_by_number e) ->
            positions_active x = positions_active e ∪ {[pos]} ->
            positions_queued x = positions_queued e ∖ {[pos]} ->
            (exists p', heap x !! pos = Some p'
               /\ order_set_time p' = now
               /\ order_number p' = canonical_id e p number
               /\ is_new_hilo_order p' = false) ->
            getPositionForOrderID x number = Some pos
            /\ (forall id, id <> number ->
                  getPositionForOrderID x id = getPositionForOrderID e id)
            /\ isActivePosition x pos = true
            /\ isQueuedPosition x pos = false
            /\ (exists p', heap x !! pos = Some p'
                  /\ order_set_time p' = now
                  /\ order_number p' = canonical_id e p number
                  /\ is_new_hilo_order p' = false)
            /\ EngineB.setOrderMeat pos "" now e = e) as Hgen.
  { intros x Hxb Hxa Hxq Hxp.
    unfold getPositionForOrderID, isActivePosition, isQueuedPosition.
    rewrite Hxb, Hxa, Hxq.
    split; [by rewrite lookup_insert_eq|].
    split; [by intros id Hid; rewrite lookup_insert_ne|].
    split; [apply bool_decide_eq_true_2, elem_of_union_r;
            by apply elem_of_singleton|].
    split; [|done].
    apply bool_decide_eq_false_2.
    rewrite elem_of_difference, elem_of_singleton. tauto. }
  destruct (is_cancelling p && _) eqn:Hc.
  - apply andb_prop in Hc as [Hc _].
    destruct Hmode as [Ht|Hnc]; [|by rewrite Hnc in Hc].
    rewrite <- Htm in Ht.
    destruct (cancelOrder_keeps_sets pos true (cancel_reason p) now emid Ht)
      as (Hb' & _ & Hac' & Hqu' & _).
    destruct (cancelOrder_keeps_fields pos true (cancel_reason p) now emid
                pos _ Ht Hh) as (p' & Hp' & Hon & Hst & Hnh & _).
    apply Hgen; [congruence|congruence|congruence|].
    exists p'. by repeat split.
  - apply Hgen; try done. eexists. by repeat split.
Qed.

(** Scenario S3 without the cancel: the queued order is acknowledged as
    "abc" and is found under that id. *)
Lemma setOrderMeat_round_trip_witness :
  let e' := EngineB.setOrderMeat 1 "abc" (Scenes.T0 + 100)
              (Scenes.one_queued EXCHANGE_POLONIEX) in
  getPositionForOrderID e' "abc" = Some 1%positive
  /\ isActivePosition e' 1 = true.
Proof.
  destruct (setOrderMeat_round_trip 1%positive
              (Scenes.at_ptr (Scenes.one_queued EXCHANGE_POLONIEX) 1) "abc"
              (Scenes.T0 + 100) (Scenes.one_queued EXCHANGE_POLONIEX))
    as (Hget & _ & Hact & _).
  - discriminate.
  - vm_compute. reflexivity.
  - left. reflexivity.
  - exact (conj Hget Hact).
Defined.


(** X13.  A cancel outside test mode deletes nothing.  [cancelOrder] leaves the
    sets of positions, the by-order-id map and every other position as they
    are; a pointer that is no position of ours changes nothing at all; the
    position itself gets the reason and the cancelling mark, with the cancel
    time 1 and no transport request while it is queued, and with the cancel
    time [now] and exactly one transport cancel, for its order number,
    otherwise. *)
Theorem cancelOrder_marks_and_sends pos quiet reason now e :
  is_testing e = false ->
  let e' := EngineB.cancelOrder pos quiet reason now e in
  positions_all e' = positions_all e
  /\ positions_active e' = positions_active e
  /\ positions_queued e' = positions_queued e
  /\ positions_by_number e' = positions_by_number e
  /\ (forall q, q <> pos -> heap e' !! q = heap e !! q)
  /\ (pos ∉ positions_all e -> e' = e)
  /\ (forall p, heap e !! pos = Some p -> pos ∈ positions_all e ->
      exists p',
        heap e' !! pos = Some p'
        /\ cancel_reason p' = reason
        /\ is_cancelling p' = true
        /\ order_core (set_order_cancel_time 0
                         (set_is_cancelling false (set_cancel_reason NO_REASON p')))
           = order_core (set_order_cancel_time 0
                           (set_is_cancelling false (set_cancel_reason NO_REASON p)))
        /\ if isQueuedPosition e pos
           then order_cancel_time p' = 1 /\ trace e' = trace e
           else order_cancel_time p' = now
                /\ trace e' = trace e ++ [RestSendCancel (order_number p) (Some pos)]).
Proof.
  intros Ht e'. subst e'.
  destruct (cancelOrder_keeps_sets pos quiet reason now e Ht)
    as (Hb & Hal & Hac & Hqu & _).
  split; [done|]. split; [done|]. split; [done|]. split; [done|].
  split; [|split].
  - intros q Hq. destruct (heap e !! q) as [pq|] eqn:Hpq.
    + destruct (cancelOrder_keeps_fields pos quiet reason now e q pq Ht Hpq)
        as (pq' & Hpq' & _ & _ & _ & _ & _ & _ & Hsame).
      by rewrite Hpq', (Hsame Hq).
    + apply not_elem_of_dom.
      destruct (cancelOrder_keeps_sets pos quiet reason now e Ht)
        as (_ & _ & _ & _ & _ & ->).
      by apply not_elem_of_dom.
  - intros Hout. unfold EngineB.cancelOrder, isPosition.
    by rewrite bool_decide_eq_false_2.
  - intros p Hp Hin. destruct (isQueuedPosition e pos) eqn:Hq.
    + apply isQueuedPosition_true in Hq.
      rewrite (cancelOrder_queued e pos p quiet reason now Ht Hp Hin Hq).
      rewrite !heap_update_pos, Hp. cbn. eexists. by repeat split.
    + assert (pos ∉ positions_queued e) as Hnq.
      { intros Hx. apply isQueuedPosition_true in Hx. by rewrite Hx in Hq. }
      rewrite (cancelOrder_active e pos p quiet reason now Ht Hp Hin Hnq).
      rewrite heap_sendCancel, heap_update_pos, Hp, trace_sendCancel. cbn.
      eexists. by repeat split.
Qed.

(** Scenario S3: the cancel of the queued order marks it and sends
    nothing. *)
Lemma cancelOrder_marks_and_sends_witness :
  trace (EngineB.cancelOrder 1 false CANCELLING_FOR_USER (Scenes.T0 + 1000)
           (Scenes.one_queued EXCHANGE_POLONIEX))
  = trace (Scenes.one_queued EXCHANGE_POLONIEX).
Proof.
  destruct (cancelOrder_marks_and_sends 1%positive false CANCELLING_FOR_USER
              (Scenes.T0 + 1000) (Scenes.one_queued EXCHANGE_POLONIEX) eq_refl)
    as (_ & _ & _ & _ & _ & _ & H).
  destruct (H (Scenes.at_ptr (Scenes.one_queued EXCHANGE_POLONIEX) 1))
    as (p' & _ & _ & _ & _ & Hq).
  - vm_compute. reflexivity.
  - apply (bool_decide_unpack _). vm_compute. exact I.
  - change (isQueuedPosition (Scenes.one_queued EXCHANGE_POLONIEX) 1)
      with true in Hq.
    exact (proj2 Hq).
Defined.

(** X14.  An order that names no slot gets one.  [addPosition] of a ghost or of an
    active ping-pong order with no indices, once its arguments pass the
    checks, appends one slot to the index of the market, holding the prices
    and the sizes of the order.  A ghost adds nothing else and returns no
    position.  An active order that is accepted is registered at the next
    address as a position of that market and side that spans exactly the
    new slot, with the slot's prices as its original prices and the slot's
    size as its amount; one that the checks of the constructed position
    refuse returns no position and leaves the slot behind. *)
Theorem addPosition_makes_the_slot m sd b s z alt type tag quiet now e :
  market_spelled e m ->
  type = "active" \/ type = "ghost" ->
  EngineB.rejects_arguments m sd b s z
    (match alt with Some a => formatted a | None => Blank end)
    type false (info_of e m) = false ->
  let r := EngineB.addPosition m sd b s (z, alt) type tag [] false quiet now e in
  let n := qsize (position_index (info_of e m)) in
  position_index (info_of r.1 m)
  = position_index (info_of e m) ++ [new_slot b s z alt]
  /\ (forall m', m' <> m ->
        position_index (info_of r.1 m') = position_index (info_of e m'))
  /\ (r.2 = None -> heap r.1 = heap e /\ positions_all r.1 = positions_all e)
  /\ (type = "ghost" -> r.2 = None)
  /\ (forall a, r.2 = Some a ->
      a = next_ptr e
      /\ positions_all r.1 = positions_all e ∪ {[a]}
      /\ exists p,
           heap r.1 !! a = Some p
           /\ market p = m /\ side p = sd /\ market_indices p = [n]
           /\ is_onetime p = false /\ is_landmark p = false
           /\ buy_price_original p = toCoin b
           /\ sell_price_original p = toCoin s
           /\ btc_amount p = toCoin z).
Proof.
  intros Hsp Htype Hargs r n. subst r. unfold EngineB.addPosition.
  rewrite (spell_market_spelled e m Hsp).
  cbn [fst snd]. rewrite Hargs.
  assert (EngineB.startsWith type "onetime" = false) as ->
    by (by destruct Htype as [-> | ->]).
  rewrite (bool_decide_eq_true_2 ([] = [])) by done. cbn [negb andb].
  set (e1 := update_info m _ e).
  assert (position_index (info_of e1 m)
          = position_index (info_of e m) ++ [new_slot b s z alt]) as Hslot
    by (subst e1; by rewrite info_of_update_info_eq).
  assert (forall m', m' <> m ->
            position_index (info_of e1 m') = position_index (info_of e m'))
    as Hother
    by (intros m' Hm'; subst e1; by rewrite info_of_update_info_ne).
  assert (heap e1 = heap e /\ positions_all e1 = positions_all e
          /\ next_ptr e1 = next_ptr e) as (Hh1 & Hal1 & Hn1) by done.
  clearbody e1.
  destruct Htype as [-> | ->].
  - rewrite (bool_decide_eq_true_2 ("active" = "active")) by done.
    cbn [negb]. fold n.
    set (c := EngineB.Position_new m sd (formatted b) (formatted s) (formatted z)
                tag [n] false (info_of e1 m)).
    destruct (EngineB.rejects_position e1 c) eqn:Hrej; cbn [fst snd].
    + repeat split; try done.
    + assert (market c <> "") as Hm.
      { unfold EngineB.rejects_position, EngineB.fails_to_initialize in Hrej.
        apply orb_false_elim in Hrej as [Hrej _].
        apply orb_false_elim in Hrej as [Hrej _].
        apply orb_false_elim in Hrej as [Hrej _].
        apply orb_false_elim in Hrej as [Hrej _].
        by apply bool_decide_eq_false in Hrej. }
      pose proof (finish_position_identity c (info_of e1 m) eq_refl eq_refl)
        as Hid.
      set (f := EngineB.finish_position "active" c (info_of e1 m)) in *.
      assert (is_cancelling c = false) as Hcc by done.
      assert (is_cancelling f = false /\ market f = market c) as [Hcf Hmf].
      { unfold order_identity in Hid. split; congruence. }
      destruct (register_position_obs f now e1 Hcf) as
        (H1 & (p' & Hp' & Hcore) & H3 & H4 & _ & _ & _ & _ & H9 & _);
        [by rewrite Hmf|].
      rewrite Hn1 in *.
      split; [by rewrite H9|]. split; [intros m' Hm'; by rewrite H9, Hother|].
      split; [by rewrite H1|]. split; [done|].
      intros a Ha. rewrite H1 in Ha. injection Ha as <-.
      split; [done|]. split; [by rewrite H4, Hal1|].
      exists p'. split; [done|].
      unfold order_core in Hcore. unfold order_identity in Hid.
      assert (market p' = market c /\ side p' = side c
              /\ market_indices p' = market_indices c
              /\ is_onetime p' = is_onetime c /\ is_landmark p' = is_landmark c
              /\ buy_price_original p' = buy_price_original c
              /\ sell_price_original p' = sell_price_original c
              /\ btc_amount p' = btc_amount c) as (-> & -> & -> & -> & -> & -> & -> & ->)
        by (repeat split; congruence).
      by repeat split.
  - rewrite (bool_decide_eq_false_2 ("ghost" = "active")) by done.
    cbn [negb fst snd]. by repeat split.
Qed.

(** The first order of an empty engine: the market gets its slot 0 and the
    order spans it. *)
Lemma addPosition_makes_the_slot_witness :
  position_index (info_of Scenes.half_queued "X_Y")
  = [new_slot (Canon (Scenario.coins 100)) (Canon (Scenario.coins 110))
       (Canon 50000000) None]
  /\ exists p, heap Scenes.half_queued !! 1%positive = Some p
               /\ market_indices p = [0].
Proof.
  destruct (addPosition_makes_the_slot "X_Y" SIDE_BUY
              (Canon (Scenario.coins 100)) (Canon (Scenario.coins 110))
              (Canon 50000000) None "active" "" true Scenes.T0
              (Scenes.blank EXCHANGE_POLONIEX false))
    as (Hslot & _ & _ & _ & Hpos).
  - vm_compute. reflexivity.
  - by left.
  - vm_compute. reflexivity.
  - split; [exact Hslot|].
    destruct (Hpos 1%positive) as (_ & _ & p & Hp & _ & _ & Hi & _).
    + vm_compute. reflexivity.
    + exists p. exact (conj Hp Hi).
Defined.

End OnePosition.

(** ** The acknowledgment of a cancel *)

Section Cancelled.

Local Open Scope Z_scope.

(** X15.  The cancel of a slipped order that was cancelled to reset its price,
    for an active or queued position whose market is spelled the way of the
    exchange.  When [processCancelledOrder] is given a position marked
    [is_slippage] with the reason CANCELLING_FOR_SLIPPAGE_RESET that spans
    at least one slot, and the checks of [addPosition] let the order
    through, the position is replaced by one order on the same side that
    spans the same slots and has the slot's prices as its original prices
    and the slot's size as its amount (for a position that is no landmark),
    free of any cancel mark; the old position is deleted and the slots are
    not touched.  (A position that spans no slot, as a one-time order does,
    is outside this statement: [addPosition] would append a slot for it.)
    With any reason but that one, CANCELLING_FOR_DC and
    CANCELLING_FOR_SHORTLONG, the position is deleted and nothing else is
    done. *)
Theorem processCancelledOrder_resets_the_price pos p now e :
  market_spelled e (market p) ->
  heap e !! pos = Some p ->
  (pos ∈ positions_active e) \/ (pos ∈ positions_queued e) ->
  pos <> next_ptr e ->
  let e' := EngineB.processCancelledOrder pos now e in
  let a := next_ptr e in
  (cancel_reason p <> CANCELLING_FOR_SLIPPAGE_RESET ->
   cancel_reason p <> CANCELLING_FOR_DC ->
   cancel_reason p <> CANCELLING_FOR_SHORTLONG ->
   e' = EngineB.deletePosition pos e)
  /\ (is_slippage p = true ->
      cancel_reason p = CANCELLING_FOR_SLIPPAGE_RESET ->
      market_indices p <> [] ->
      admits e (market p) (side p) (flip_args e p).1.1 (flip_args e p).1.2
        (flip_args e p).2 "" (market_indices p) (is_landmark p) = true ->
      heap e' !! pos = None
      /\ positions_all e' = (positions_all e ∪ {[a]}) ∖ {[pos]}
      /\ (forall m, position_index (info_of e' m) = position_index (info_of e m))
      /\ exists p',
           heap e' !! a = Some p'
           /\ side p' = side p /\ market p' = market p
           /\ market_indices p' = market_indices p
           /\ is_landmark p' = is_landmark p
           /\ is_cancelling p' = false /\ cancel_reason p' = NO_REASON
           /\ (is_landmark p = false ->
               buy_price_original p' = toCoin (pd_buy_price (current_slot e p))
               /\ sell_price_original p'
                  = toCoin (pd_sell_price (current_slot e p))
               /\ btc_amount p' = toCoin (pd_order_size (current_slot e p)))).
Proof.
  intros Hsp Hp Hin Hne e' a. subst e'. unfold EngineB.processCancelledOrder.
  rewrite Hp. split.
  - intros H1 H2 H3.
    rewrite (bool_decide_eq_false_2 (cancel_reason p = CANCELLING_FOR_SLIPPAGE_RESET))
      by done.
    rewrite andb_false_r.
    rewrite (bool_decide_eq_false_2 (cancel_reason p = CANCELLING_FOR_DC)) by done.
    by rewrite (bool_decide_eq_false_2 (cancel_reason p = CANCELLING_FOR_SHORTLONG))
      by done.
  - intros Hsl Hr Hidx Hadm. rewrite Hsl, (bool_decide_eq_true_2 _ Hr).
    cbn [andb].
    assert (forall b s z,
              admits e (market p) (side p) b s z "" (market_indices p)
                (is_landmark p) = true ->
              let r := EngineB.addPosition (market p) (side p) b s (z, None)
                         "active" "" (market_indices p) (is_landmark p) true now e in
              let c := active_order e (market p) (side p) b s z ""
                         (market_indices p) (is_landmark p) in
              let e' := EngineB.deletePosition pos r.1 in
              heap e' !! pos = None
              /\ positions_all e' = (positions_all e ∪ {[a]}) ∖ {[pos]}
              /\ (forall m, position_index (info_of e' m)
                            = position_index (info_of e m))
              /\ exists p', heap e' !! a = Some p'
                            /\ order_identity p' = order_identity c) as Hgen.
    { intros b s z Hok r c e'.
      destruct (addPosition_active_obs (market p) (side p) b s z ""
                  (market_indices p) (is_landmark p) true now e Hsp Hidx Hok)
        as (_ & (p' & Hp' & _ & Hid) & Hoth & Hall & Hsets & _ & _ & _ & Hpi & _).
      fold r in Hp', Hoth, Hall, Hsets, Hpi. fold a in Hp', Hoth, Hall, Hsets.
      fold c in Hid.
      assert (heap r.1 !! pos = Some p) as Hp1 by (by rewrite Hoth).
      assert ((pos ∈ positions_active r.1) \/ (pos ∈ positions_queued r.1)) as Hin1.
      { destruct (Hsets pos Hne) as [Ha Hq]. rewrite Ha, Hq. exact Hin. }
      destruct (deletePosition_obs pos p r.1 Hp1 Hin1)
        as (H1 & _ & _ & _ & H5 & _ & H7).
      subst e'. rewrite H1, H5, Hall.
      split; [by rewrite lookup_delete_eq|]. split; [done|].
      split; [intros m; by rewrite H7, Hpi|].
      exists p'. split; [|done]. by rewrite lookup_delete_ne. }
    unfold flip_args in Hadm. unfold EngineB.addLandmarkPositionFor.
    destruct (is_landmark p) eqn:Hl; cbn [fst snd] in Hadm.
    + destruct (Hgen _ _ _ Hadm) as (H1 & H2 & H3 & p' & Hp' & Hid).
      split; [done|]. split; [done|]. split; [done|].
      exists p'. split; [done|].
      destruct (active_order_fields e (market p) (side p) (Canon 1) (Canon 2)
                  (Canon 0) "" (market_indices p) true)
        as (Fm & Fs & Fi & Fl & _ & _ & Fc & _).
      assert (cancel_reason
                (active_order e (market p) (side p) (Canon 1) (Canon 2) (Canon 0)
                   "" (market_indices p) true) = NO_REASON) as Fr by done.
      unfold order_identity in Hid.
      repeat split; congruence.
    + destruct (Hgen _ _ _ Hadm) as (H1 & H2 & H3 & p' & Hp' & Hid).
      split; [done|]. split; [done|]. split; [done|].
      exists p'. split; [done|].
      destruct (active_order_fields e (market p) (side p)
                  (pd_buy_price (current_slot e p))
                  (pd_sell_price (current_slot e p))
                  (pd_order_size (current_slot e p)) "" (market_indices p) false)
        as (Fm & Fs & Fi & Fl & _ & _ & Fc & _ & Fslot).
      destruct (Fslot eq_refl) as (Fb & Fsell & Fz).
      assert (cancel_reason
                (active_order e (market p) (side p)
                   (pd_buy_price (current_slot e p))
                   (pd_sell_price (current_slot e p))
                   (pd_order_size (current_slot e p)) "" (market_indices p) false)
              = NO_REASON) as Fr by done.
      unfold order_identity in Hid.
      repeat split; congruence.
Qed.

(** The slipped buy order "abc": once its cancel is acknowledged it is
    back, at address 2, as a buy with the slot's price of 100. *)
Lemma processCancelledOrder_resets_the_price_witness :
  let e' := EngineB.processCancelledOrder 1 (Scenes.T0 + 61000)
              Scenes2.resetting in
  heap e' !! 1%positive = None
  /\ exists p', heap e' !! 2%positive = Some p'
                /\ side p' = SIDE_BUY
                /\ buy_price_original p' = Scenario.coins 100.
Proof.
  destruct (processCancelledOrder_resets_the_price 1%positive
              (Scenes.at_ptr Scenes2.resetting 1) (Scenes.T0 + 61000)
              Scenes2.resetting) as [_ H].
  - vm_compute. reflexivity.
  - vm_compute. reflexivity.
  - left. apply (bool_decide_unpack _). vm_compute. exact I.
  - vm_compute. discriminate.
  - destruct H as (Hgone & _ & _ & p' & Hp' & Hs & _ & _ & _ & _ & _ & Hslot).
    + vm_compute. reflexivity.
    + vm_compute. reflexivity.
    + vm_compute. discriminate.
    + vm_compute. reflexivity.
    + split; [exact Hgone|]. exists p'. split; [exact Hp'|].
      split; [exact Hs|]. exact (proj1 (Hslot eq_refl)).
Defined.

End Cancelled.

(** ** The search of [converge] *)

Section ConvergeSearch.

Import EngineB.

Lemma slot_run_length offset first n : length (slot_run offset first n) = n.
Proof. revert first. induction n as [|n IH]; intros first; simpl; [done|]. by rewrite IH. Qed.

Lemma slot_run_snoc offset first n :
  slot_run offset first (S n)
  = slot_run offset first n ++ [first + offset * Z.of_nat n].
Proof.
  revert first. induction n as [|n IH]; intros first.
  - simpl. f_equal. lia.
  - change (slot_run offset first (S (S n)))
      with (first :: slot_run offset (first + offset) (S n)).
    rewrite IH. simpl. do 2 f_equal. f_equal. lia.
Qed.

Lemma slot_run_last offset first n :
  value (slot_run offset first (S n)) (qsize (slot_run offset first (S n)) - 1) 0
  = first + offset * Z.of_nat n.
Proof.
  unfold value, qsize. rewrite slot_run_length.
  replace (Z.of_nat (S n) - 1) with (Z.of_nat n) by lia.
  replace (0 <=? Z.of_nat n) with true by (symmetry; apply Z.leb_le; lia).
  rewrite Nat2Z.id, slot_run_snoc.
  rewrite app_nth2; rewrite slot_run_length; [|lia].
  by rewrite Nat.sub_diag.
Qed.

Lemma slot_run_elem offset first n i :
  i ∈ slot_run offset first n <->
  exists k : nat, (k < n)%nat /\ i = first + offset * Z.of_nat k.
Proof.
  revert first. induction n as [|n IH]; intros first; simpl.
  - split; [by intros ?%elem_of_nil|intros (k & ? & _); lia].
  - rewrite elem_of_cons, IH. split.
    + intros [->|(k & Hk & ->)].
      * exists 0%nat. split; lia.
      * exists (S k). split; lia.
    + intros ([|k] & Hk & ->).
      * left. lia.
      * right. exists k. split; lia.
Qed.

(** One pass from a run of [n] slots on: it is full exactly when the
    indices go on with the rest of the run, and it ends only when the
    indices are too few. *)
Lemma converge_pass_run offset dc rest :
  forall first n,
    (S n < dc)%nat ->
    match converge_pass offset (Z.of_nat dc) (slot_run offset first (S n)) rest with
    | Found r =>
        r = slot_run offset first dc /\
        exists suf,
          rest = slot_run offset (first + offset * Z.of_nat (S n)) (dc - S n) ++ suf
    | Ended =>
        (S n + length rest < dc)%nat
    | Restart =>
        forall suf,
          rest <> slot_run offset (first + offset * Z.of_nat (S n)) (dc - S n) ++ suf
    end.
Proof.
  induction rest as [|index rest IH]; intros first n Hn.
  - simpl. simpl in Hn. lia.
  - cbn [converge_pass].
    rewrite bool_decide_eq_false_2 by done.
    rewrite slot_run_last. cbn [orb].
    destruct (Z.eqb_spec index (first + offset * Z.of_nat n + offset)) as [->|Hne].
    + replace (first + offset * Z.of_nat n + offset)
        with (first + offset * Z.of_nat (S n)) by lia.
      rewrite <- slot_run_snoc.
      unfold qsize at 1. rewrite slot_run_length.
      destruct (Z.eqb_spec (Z.of_nat (S (S n))) (Z.of_nat dc)) as [Heq|Hlt].
      * apply Nat2Z.inj in Heq. subst dc. split; [done|].
        exists rest. replace (S (S n) - S n)%nat with 1%nat by lia. done.
      * assert (S (S n) < dc)%nat as Hn' by lia.
        specialize (IH first (S n) Hn').
        destruct (converge_pass offset (Z.of_nat dc)
                    (slot_run offset first (S (S n))) rest) as [r| |].
        -- destruct IH as [-> [suf ->]]. split; [done|]. exists suf.
           replace (dc - S n)%nat with (S (dc - S (S n))) by lia.
           cbn [slot_run app].
           by replace (first + offset * Z.of_nat (S n) + offset)
             with (first + offset * Z.of_nat (S (S n))) by lia.
        -- simpl. lia.
        -- intros suf Hsuf.
           replace (dc - S n)%nat with (S (dc - S (S n))) in Hsuf by lia.
           cbn [slot_run app] in Hsuf. injection Hsuf as Hsuf.
           apply (IH suf). rewrite Hsuf.
           by replace (first + offset * Z.of_nat (S n) + offset)
             with (first + offset * Z.of_nat (S (S n))) by lia.
    + intros suf Hsuf.
      replace (dc - S n)%nat with (S (dc - S (S n))) in Hsuf by lia.
      cbn [slot_run app] in Hsuf. injection Hsuf as Hsuf _. lia.
Qed.

(** A pass from the start of the indices. *)
Lemma converge_pass_start offset dc indices :
  (2 <= dc)%nat ->
  match converge_pass offset (Z.of_nat dc) [] indices with
  | Found r =>
      exists first suf, r = slot_run offset first dc /\ indices = r ++ suf
  | Ended => (length indices < dc)%nat
  | Restart => forall first suf, indices <> slot_run offset first dc ++ suf
  end.
Proof.
  intros Hdc. destruct indices as [|x rest]; [simpl; lia|].
  cbn [converge_pass]. rewrite bool_decide_eq_true_2 by done. cbn [orb].
  change ([] ++ [x]) with (slot_run offset x 1).
  unfold qsize at 1. rewrite slot_run_length.
  destruct (Z.eqb_spec (Z.of_nat 1) (Z.of_nat dc)) as [Heq|_]; [lia|].
  pose proof (converge_pass_run offset dc rest x 0 ltac:(lia)) as Hp.
  destruct (converge_pass offset (Z.of_nat dc) (slot_run offset x 1) rest) as [r| |].
  - destruct Hp as [-> [suf ->]]. exists x, suf. split; [done|].
    destruct dc as [|dc]; [lia|]. cbn [slot_run app].
    replace (x + offset * Z.of_nat 1) with (x + offset) by lia.
    by replace (S dc - 1)%nat with dc by lia.
  - simpl. simpl in Hp. lia.
  - intros first suf Heq. destruct dc as [|dc]; [lia|].
    cbn [slot_run app] in Heq. injection Heq as -> Hrest.
    apply (Hp suf). rewrite Hrest.
    replace (first + offset * Z.of_nat 1) with (first + offset) by lia.
    by replace (S dc - 1)%nat with dc by lia.
Qed.

(** The loop finds the first run of the indices, and finds none only when
    there is none. *)
Lemma converge_loop_first_run offset dc indices :
  (2 <= dc)%nat ->
  match converge_loop offset (Z.of_nat dc) indices with
  | Some r =>
      exists pre first suf,
        r = slot_run offset first dc /\ indices = pre ++ r ++ suf /\
        forall pre' first' suf',
          indices = pre' ++ slot_run offset first' dc ++ suf' ->
          (length pre <= length pre')%nat
  | None =>
      forall pre first suf, indices <> pre ++ slot_run offset first dc ++ suf
  end.
Proof.
  intros Hdc. induction indices as [|x indices IH].
  - simpl. intros pre first suf Heq.
    apply (f_equal length) in Heq. rewrite !length_app, slot_run_length in Heq.
    simpl in Heq. lia.
  - cbn [converge_loop].
    pose proof (converge_pass_start offset dc (x :: indices) Hdc) as Hp.
    destruct (converge_pass offset (Z.of_nat dc) [] (x :: indices)) as [r| |].
    + destruct Hp as (first & suf & -> & Heq).
      exists [], first, suf. split; [done|]. split; [done|].
      intros. simpl. lia.
    + intros pre first suf Heq.
      apply (f_equal length) in Heq. rewrite !length_app, slot_run_length in Heq.
      lia.
    + assert (forall first suf pre,
                 indices = pre ++ slot_run offset first dc ++ suf ->
                 x :: indices = (x :: pre) ++ slot_run offset first dc ++ suf)
        as Hcons by (by intros ??? ->).
      assert (forall pre first suf,
                 x :: indices = pre ++ slot_run offset first dc ++ suf ->
                 exists pre', pre = x :: pre' /\
                   indices = pre' ++ slot_run offset first dc ++ suf) as Htail.
      { intros [|y pre] first suf Heq.
        - exfalso. by apply (Hp first suf).
        - injection Heq as -> Heq. by exists pre. }
      destruct (Z.ltb_spec 0 (qsize indices)) as [_|Hempty].
      * destruct (converge_loop offset (Z.of_nat dc) indices) as [r|].
        -- destruct IH as (pre & first & suf & -> & Heq & Hmin).
           exists (x :: pre), first, suf. split; [done|]. split; [by rewrite Heq|].
           intros pre' first' suf' Heq'.
           destruct (Htail _ _ _ Heq') as (pre'' & -> & Heq'').
           specialize (Hmin _ _ _ Heq''). simpl. lia.
        -- intros pre first suf Heq.
           destruct (Htail _ _ _ Heq) as (pre'' & -> & Heq'').
           by apply (IH pre'' first suf).
      * intros pre first suf Heq.
        apply (f_equal length) in Heq. rewrite !length_app, slot_run_length in Heq.
        unfold qsize in Hempty. simpl in Heq. lia.
Qed.

Lemma slot_run_NoDup offset first n : offset <> 0 -> NoDup (slot_run offset first n).
Proof.
  intros Ho. revert first. induction n as [|n IH]; intros first; simpl.
  - constructor.
  - constructor; [|apply IH].
    intros (k & _ & Hk)%slot_run_elem. nia.
Qed.

Lemma StronglySorted_strict (R : relation Z) offset l :
  (forall a b, R a b -> a <> b -> along offset a b) ->
  StronglySorted R l -> NoDup l -> StronglySorted (along offset) l.
Proof.
  intros HR Hs Hnd. induction Hs as [|x l Hs IH Hall]; [constructor|].
  apply NoDup_cons in Hnd as [Hx Hnd]. constructor; [by apply IH|].
  apply Forall_forall. intros y Hy. apply HR.
  - by eapply Forall_forall in Hall.
  - by intros ->.
Qed.

Lemma Zge_total : Total Z.ge.
Proof. intros x y. lia. Qed.

Lemma Zge_trans : Transitive Z.ge.
Proof. intros x y z. lia. Qed.

Lemma sort_indices_Permutation side' indices :
  sort_indices side' indices ≡ₚ indices.
Proof. destruct side'; apply merge_sort_Permutation. Qed.

Lemma sort_indices_along side' indices :
  NoDup indices ->
  StronglySorted (along (index_offset side')) (sort_indices side' indices).
Proof.
  intros Hnd.
  assert (NoDup (sort_indices side' indices)) as Hnd'
    by (by rewrite sort_indices_Permutation).
  destruct side'; simpl in *.
  - apply (StronglySorted_strict Z.le); [unfold along; lia| |done].
    apply StronglySorted_merge_sort; apply _.
  - apply (StronglySorted_strict Z.ge); [unfold along; lia| |done].
    apply (@StronglySorted_merge_sort _ Z.ge _ Zge_trans Zge_total).
Qed.

Lemma along_lookup offset l (i j : nat) a b :
  StronglySorted (along offset) l ->
  l !! i = Some a -> l !! j = Some b -> (i < j)%nat -> along offset a b.
Proof.
  intros Hs. revert i j. induction Hs as [|x l Hs IH Hall]; intros i j Hi Hj Hij.
  - by rewrite lookup_nil in Hi.
  - destruct j as [|j]; [lia|]. destruct i as [|i].
    + simpl in Hi. injection Hi as ->. simpl in Hj.
      eapply Forall_forall in Hall; [exact Hall|]. by eapply list_elem_of_lookup_2.
    + simpl in Hi, Hj. apply (IH i j); [done|done|lia].
Qed.

(** After [x], a run that is available goes on at once. *)
Lemma run_follows offset m :
  offset = 1 \/ offset = -1 ->
  forall x l,
    StronglySorted (along offset) (x :: l) ->
    (forall i, i ∈ slot_run offset (x + offset) m -> i ∈ l) ->
    exists suf, l = slot_run offset (x + offset) m ++ suf.
Proof.
  intros Ho. induction m as [|m IH]; intros x l Hs Hav.
  - by exists l.
  - apply StronglySorted_inv in Hs as [Hs Hall].
    assert (x + offset ∈ l) as Hin by (apply Hav; simpl; apply elem_of_cons; by left).
    destruct l as [|y l]; [by apply elem_of_nil in Hin|].
    assert (along offset x y) as Hxy
      by (eapply Forall_forall in Hall; [exact Hall|apply elem_of_cons; by left]).
    assert (y = x + offset) as ->.
    { apply elem_of_cons in Hin as [Hin|Hin]; [done|]. exfalso.
      pose proof Hs as Hs'. apply StronglySorted_inv in Hs' as [_ Hall'].
      eapply Forall_forall in Hall'; [|exact Hin].
      unfold along in *. destruct Ho as [-> | ->]; lia. }
    destruct (IH (x + offset) l Hs) as [suf ->].
    + intros i Hi.
      assert (i ∈ (x + offset) :: l) as Hil
        by (apply Hav; simpl; apply elem_of_cons; by right).
      apply elem_of_cons in Hil as [->|Hil]; [|done]. exfalso.
      apply slot_run_elem in Hi as (k & _ & Hk).
      destruct Ho as [-> | ->]; lia.
    + by exists suf.
Qed.

(** In distinct sorted indices an available run stands in one piece. *)
Lemma run_in_one_piece offset first n l :
  offset = 1 \/ offset = -1 ->
  StronglySorted (along offset) l ->
  (0 < n)%nat ->
  (forall i, i ∈ slot_run offset first n -> i ∈ l) ->
  exists pre suf, l = pre ++ slot_run offset first n ++ suf.
Proof.
  intros Ho Hs Hn. destruct n as [|n]; [lia|]. clear Hn.
  induction Hs as [|x l Hs IH Hall]; intros Hav.
  - exfalso. eapply elem_of_nil, Hav. simpl. apply elem_of_cons. by left.
  - destruct (decide (first = x)) as [->|Hne].
    + destruct (run_follows offset n Ho x l) as [suf ->].
      * by constructor.
      * intros i Hi.
        assert (i ∈ x :: l) as Hil by (apply Hav; simpl; apply elem_of_cons; by right).
        apply elem_of_cons in Hil as [->|Hil]; [|done]. exfalso.
        apply slot_run_elem in Hi as (k & _ & Hk).
        destruct Ho as [-> | ->]; lia.
      * by exists [], suf.
    + destruct IH as (pre & suf & ->).
      * intros i Hi. pose proof (Hav i Hi) as Hil.
        apply elem_of_cons in Hil as [->|Hil]; [|done]. exfalso.
        assert (first ∈ x :: l) as Hf by (apply Hav; simpl; apply elem_of_cons; by left).
        apply elem_of_cons in Hf as [Hf|Hf]; [done|].
        eapply Forall_forall in Hall; [|exact Hf].
        apply slot_run_elem in Hi as (k & _ & Hk).
        unfold along in Hall. destruct Ho as [-> | ->]; lia.
      * by exists (x :: pre), suf.
Qed.

Lemma index_offset_unit side' : index_offset side' = 1 \/ index_offset side' = -1.
Proof. destruct side'; [by left|by right]. Qed.

(** X16.  The slots [converge] picks for a market.  On candidates that are
    distinct, as [onCheckDivergeConverge] collects them, it picks [order_dc]
    consecutive slots that are all candidates, the lowest such slots for buys
    and the highest for sells; it picks nothing only when [order_dc] is below
    two or no [order_dc] consecutive slots are all candidates. *)
Theorem converge_search_finds_consecutive_slots
    (side' : Side) (dc_value : Z) (indices : list Z) :
  NoDup indices ->
  match converge_search side' dc_value indices with
  | Some new_order =>
      2 <= dc_value /\
      exists first,
        new_order = slot_run (index_offset side') first (Z.to_nat dc_value) /\
        run_available side' dc_value first indices /\
        forall first', run_available side' dc_value first' indices ->
                       0 <= index_offset side' * (first' - first)
  | None =>
      dc_value < 2 \/
      forall first, ~ run_available side' dc_value first indices
  end.
Proof.
  intros Hnd. unfold converge_search.
  pose proof (index_offset_unit side') as Ho.
  pose proof (sort_indices_along side' indices Hnd) as Hs.
  pose proof (sort_indices_Permutation side' indices) as Hperm.
  destruct (Z.ltb_spec (qsize indices) dc_value) as [Hshort|Hlong]; cbn [orb].
  { destruct (Z.ltb_spec dc_value 2) as [|Hdc]; [by left|]. right.
    intros first Hav.
    assert (slot_run (index_offset side') first (Z.to_nat dc_value) ⊆+ indices)
      as Hsub.
    { apply NoDup_submseteq; [|exact Hav].
      apply slot_run_NoDup. destruct Ho as [-> | ->]; lia. }
    apply submseteq_length in Hsub. rewrite slot_run_length in Hsub.
    unfold qsize in Hshort. lia. }
  destruct (Z.ltb_spec dc_value 2) as [|Hdc]; [by left|].
  change (match side' with SIDE_BUY => 1 | SIDE_SELL => -1 end)
    with (index_offset side').
  set (dc := Z.to_nat dc_value).
  replace (converge_loop (index_offset side') dc_value (sort_indices side' indices))
    with (converge_loop (index_offset side') (Z.of_nat dc)
            (sort_indices side' indices))
    by (f_equal; unfold dc; lia).
  pose proof (converge_loop_first_run (index_offset side') dc
                (sort_indices side' indices) ltac:(unfold dc; lia)) as Hloop.
  destruct (converge_loop (index_offset side') (Z.of_nat dc)
              (sort_indices side' indices)) as [r|].
  - destruct Hloop as (pre & first & suf & -> & Heq & Hmin).
    split; [done|]. exists first. split; [done|]. split.
    + intros i Hi. rewrite <- Hperm, Heq.
      apply elem_of_app. right. apply elem_of_app. by left.
    + intros first' Hav.
      destruct (run_in_one_piece (index_offset side') first' dc
                  (sort_indices side' indices) Ho Hs ltac:(unfold dc; lia))
        as (pre' & suf' & Heq').
      { intros i Hi. rewrite Hperm. by apply Hav. }
      specialize (Hmin _ _ _ Heq').
      assert (sort_indices side' indices !! length pre = Some first) as Hl.
      { rewrite Heq. rewrite lookup_app_r by lia. rewrite Nat.sub_diag.
        destruct dc as [|dc'] eqn:Edc; [lia|]. done. }
      assert (sort_indices side' indices !! length pre' = Some first') as Hl'.
      { rewrite Heq'. rewrite lookup_app_r by lia. rewrite Nat.sub_diag.
        destruct dc as [|dc'] eqn:Edc; [lia|]. done. }
      destruct (decide (length pre = length pre')) as [Hsame|Hdiff].
      * rewrite Hsame in Hl. assert (first = first') as -> by congruence. lia.
      * pose proof (along_lookup _ _ _ _ _ _ Hs Hl Hl' ltac:(lia)) as Hal.
        unfold along in Hal. lia.
  - right. intros first Hav.
    destruct (run_in_one_piece (index_offset side') first dc
                (sort_indices side' indices) Ho Hs ltac:(unfold dc; lia))
      as (pre & suf & Heq).
    { intros i Hi. rewrite Hperm. by apply Hav. }
    by apply (Hloop pre first suf).
Qed.

Lemma converge_search_finds_consecutive_slots_witness :
  NoDup [6; 2; 4; 3; 5] /\
  match converge_search SIDE_SELL 3 [6; 2; 4; 3; 5] with
  | Some new_order =>
      2 <= 3 /\
      exists first,
        new_order = slot_run (index_offset SIDE_SELL) first (Z.to_nat 3) /\
        run_available SIDE_SELL 3 first [6; 2; 4; 3; 5] /\
        forall first', run_available SIDE_SELL 3 first' [6; 2; 4; 3; 5] ->
                       0 <= index_offset SIDE_SELL * (first' - first)
  | None =>
      3 < 2 \/
      forall first, ~ run_available SIDE_SELL 3 first [6; 2; 4; 3; 5]
  end.
Proof.
  assert (NoDup [6; 2; 4; 3; 5]) as Hnd
    by (apply (bool_decide_unpack _); vm_compute; exact I).
  split; [exact Hnd|].
  exact (converge_search_finds_consecutive_slots SIDE_SELL 3 [6; 2; 4; 3; 5] Hnd).
Defined.

End ConvergeSearch.

(** ** Cancelling a market locally *)

Section Local.

Import EngineB.

Lemma trace_removeFromDC pos p e : trace (removeFromDC pos p e) = trace e.
Proof.
  unfold removeFromDC.
  match goal with
  | |- context [foldl _ ?x _] => set (e1 := x)
  end.
  assert (trace e1 = trace e) as <-
    by (subst e1; by destruct (list_find _ _) as [[? [? [? ?]]]|]).
  apply (dc_loop_obs (market p) (fun idx => removeOne idx)).
Qed.

Lemma trace_deletePosition pos e : trace (deletePosition pos e) = trace e.
Proof.
  unfold deletePosition.
  destruct (negb _ && negb _); [done|].
  destruct (heap e !! pos) as [p|]; [|done].
  cbn. apply trace_removeFromDC.
Qed.

(** One queued position deleted. *)
Lemma deletePosition_queued_step pos p e :
  heap e !! pos = Some p ->
  pos ∈ positions_queued e ->
  let e' := deletePosition pos e in
  heap e' = delete pos (heap e)
  /\ positions_all e' = positions_all e ∖ {[pos]}
  /\ positions_queued e' = positions_queued e ∖ {[pos]}
  /\ positions_active e' = positions_active e ∖ {[pos]}
  /\ trace e' = trace e
  /\ is_testing e' = is_testing e.
Proof.
  intros Hp Hq e'.
  destruct (deletePosition_obs pos p e Hp (or_intror Hq))
    as (Hh & _ & Hqu & Hac & Hal & _).
  destruct (same_control_deletePosition pos e) as (_ & Ht & _).
  repeat split; try done. apply trace_deletePosition.
Qed.

(** One position that is not queued cancelled, outside test mode. *)
Lemma cancelOrder_sent_step pos p quiet reason now e :
  is_testing e = false ->
  heap e !! pos = Some p ->
  pos ∈ positions_all e ->
  pos ∉ positions_queued e ->
  let e' := cancelOrder pos quiet reason now e in
  heap e' !! pos
  = Some (set_order_cancel_time now
            (set_is_cancelling true (set_cancel_reason reason p)))
  /\ (forall q, q <> pos -> heap e' !! q = heap e !! q)
  /\ positions_all e' = positions_all e
  /\ positions_queued e' = positions_queued e
  /\ positions_active e' = positions_active e
  /\ trace e' = trace e ++ [RestSendCancel (order_number p) (Some pos)]
  /\ is_testing e' = false.
Proof.
  intros Ht Hp Hall Hq e'. subst e'.
  rewrite (cancelOrder_active e pos p quiet reason now Ht Hp Hall Hq).
  destruct (sets_sendCancel (order_number p) (Some pos) now
              (update_pos pos (set_cancel_reason reason) e))
    as (Hqu & Hac & Hal & _).
  split; [|split; [|split; [|split; [|split; [|split]]]]].
  - by rewrite heap_sendCancel, heap_update_pos, Hp.
  - intros q Hne. unfold sendCancel.
    rewrite heap_update_pos_ne by done. cbn.
    by rewrite lookup_alter_ne.
  - by rewrite Hal.
  - by rewrite Hqu.
  - by rewrite Hac.
  - by rewrite trace_sendCancel.
  - done.
Qed.

Lemma delete_queued_fold l :
  forall e,
    NoDup l.*1 ->
    (forall pp, pp ∈ l ->
       heap e !! pp.1 = Some pp.2 /\ pp.1 ∈ positions_queued e) ->
    let e' := foldl (fun e (pp : ptr * Position) => deletePosition pp.1 e) e l in
    (forall q, q ∈ l.*1 ->
       heap e' !! q = None /\ (q ∉ positions_all e')
       /\ (q ∉ positions_queued e') /\ (q ∉ positions_active e'))
    /\ (forall q, q ∉ l.*1 ->
          heap e' !! q = heap e !! q
          /\ (q ∈ positions_all e' <-> q ∈ positions_all e)
          /\ (q ∈ positions_queued e' <-> q ∈ positions_queued e)
          /\ (q ∈ positions_active e' <-> q ∈ positions_active e))
    /\ trace e' = trace e
    /\ is_testing e' = is_testing e.
Proof.
  induction l as [|[pos p] l IH]; intros e Hnd Hl; cbn [foldl].
  - split; [by intros q ?%elem_of_nil|]. by repeat split.
  - cbn [fmap list_fmap fst] in Hnd. apply NoDup_cons in Hnd as [Hpos Hnd].
    destruct (Hl (pos, p) ltac:(apply elem_of_cons; by left)) as [Hp Hq].
    cbn [fst snd] in Hp, Hq.
    destruct (deletePosition_queued_step pos p e Hp Hq)
      as (Hh & Hal & Hqu & Hac & Htr & Ht).
    cbn [fst]. set (e1 := deletePosition pos e) in *.
    destruct (IH e1 Hnd) as (Hin & Hout & Htr' & Ht').
    { intros pp Hpp. destruct (Hl pp ltac:(apply elem_of_cons; by right)) as [Hp' Hq'].
      assert (pp.1 <> pos) as Hne.
      { intros Heq. apply Hpos. rewrite <- Heq. apply list_elem_of_fmap.
        by exists pp. }
      split; [by rewrite Hh, lookup_delete_ne|].
      rewrite Hqu. apply elem_of_difference. split; [done|].
      by intros ?%elem_of_singleton. }
    clearbody e1. split; [|split; [|split]].
    + intros q Hqin. cbn [fmap list_fmap fst] in Hqin.
      destruct (decide (q ∈ l.*1)) as [Hql|Hql]; [by apply Hin|].
      apply elem_of_cons in Hqin as [->|?]; [|done].
      destruct (Hout pos Hql) as (-> & Hi1 & Hi2 & Hi3).
      rewrite Hh, lookup_delete_eq, Hi1, Hi2, Hi3, Hal, Hqu, Hac.
      split; [done|].
      repeat split; intros [_ Hn]%elem_of_difference; apply Hn;
        by apply elem_of_singleton.
    + intros q Hqout. cbn [fmap list_fmap fst] in Hqout.
      apply not_elem_of_cons in Hqout as [Hne Hql].
      destruct (Hout q Hql) as (-> & Hi1 & Hi2 & Hi3).
      rewrite Hh, lookup_delete_ne, Hi1, Hi2, Hi3, Hal, Hqu, Hac by done.
      split; [done|].
      assert (q ∉ ({[pos]} : gset ptr)) as Hs
        by (by intros ?%elem_of_singleton).
      repeat split; try (by intros [? _]%elem_of_difference);
        intros ?; by apply elem_of_difference.
    + by rewrite Htr'.
    + by rewrite Ht'.
Qed.

Lemma cancel_sent_fold quiet reason now l :
  forall e,
    is_testing e = false ->
    NoDup l.*1 ->
    (forall pp, pp ∈ l ->
       heap e !! pp.1 = Some pp.2 /\ pp.1 ∈ positions_all e
       /\ pp.1 ∉ positions_queued e) ->
    let e' := foldl (fun e (pp : ptr * Position) =>
                       cancelOrder pp.1 quiet reason now e) e l in
    (forall pp, pp ∈ l ->
       heap e' !! pp.1
       = Some (set_order_cancel_time now
                 (set_is_cancelling true (set_cancel_reason reason pp.2))))
    /\ (forall q, q ∉ l.*1 -> heap e' !! q = heap e !! q)
    /\ positions_all e' = positions_all e
    /\ positions_queued e' = positions_queued e
    /\ positions_active e' = positions_active e
    /\ trace e'
       = trace e ++ ((fun pp : ptr * Position =>
                        RestSendCancel (order_number pp.2) (Some pp.1)) <$> l)
    /\ is_testing e' = false.
Proof.
  induction l as [|[pos p] l IH]; intros e Ht Hnd Hl; cbn [foldl].
  - split; [by intros pp ?%elem_of_nil|]. repeat split; try done.
    by rewrite app_nil_r.
  - cbn [fmap list_fmap fst] in Hnd. apply NoDup_cons in Hnd as [Hpos Hnd].
    destruct (Hl (pos, p) ltac:(apply elem_of_cons; by left)) as (Hp & Hal & Hq).
    cbn [fst snd] in Hp, Hal, Hq.
    destruct (cancelOrder_sent_step pos p quiet reason now e Ht Hp Hal Hq)
      as (Hh & Hothers & Hal1 & Hqu1 & Hac1 & Htr & Ht1).
    cbn [fst]. set (e1 := cancelOrder pos quiet reason now e) in *.
    assert (forall pp, pp ∈ l -> pp.1 <> pos) as Hne.
    { intros pp Hpp Heq. apply Hpos. rewrite <- Heq. apply list_elem_of_fmap.
      by exists pp. }
    destruct (IH e1 Ht1 Hnd) as (Hin & Hout & Hal' & Hqu' & Hac' & Htr' & Ht').
    { intros pp Hpp.
      destruct (Hl pp ltac:(apply elem_of_cons; by right)) as (Hp' & Hal'' & Hq').
      rewrite Hothers by (by apply Hne). by rewrite Hal1, Hqu1. }
    clearbody e1. split; [|split; [|split; [|split; [|split; [|split]]]]].
    + intros pp [->|Hpp]%elem_of_cons; [|by apply Hin].
      cbn [fst snd]. by rewrite Hout.
    + intros q Hqout. cbn [fmap list_fmap fst] in Hqout.
      apply not_elem_of_cons in Hqout as [Hneq Hql].
      rewrite Hout by done. by apply Hothers.
    + by rewrite Hal'.
    + by rewrite Hqu'.
    + by rewrite Hac'.
    + rewrite Htr', Htr. cbn [fmap list_fmap fst snd]. by rewrite <- app_assoc.
    + done.
Qed.

Lemma positions_in_NoDup e s : NoDup (positions_in e s).*1.
Proof.
  unfold positions_in.
  pose proof (NoDup_elements s) as Hnd.
  induction Hnd as [|pos l Hpos Hnd IH]; [constructor|].
  cbn [omap list_omap]. destruct (heap e !! pos) as [p|]; [|exact IH].
  cbn. constructor; [|exact IH].
  intros ([q pq] & Heq & Hin)%list_elem_of_fmap. cbn in Heq. subst q.
  apply list_elem_of_omap in Hin as (x & Hx & Hfx).
  destruct (heap e !! x); [|done]. cbn in Hfx. injection Hfx as <- _. done.
Qed.

Lemma filter_fst_NoDup (P : ptr * Position -> Prop) `{!forall x, Decision (P x)}
    (l : list (ptr * Position)) :
  NoDup l.*1 -> NoDup (filter P l).*1.
Proof.
  intros Hnd.
  assert ((filter P l).*1 `sublist_of` l.*1) as Hsub
    by apply fmap_sublist, sublist_filter.
  by apply sublist_NoDup in Hsub.
Qed.

Lemma clear_market_index_store market' e :
  let e' := clear_market_index market' e in
  heap e' = heap e /\ positions_all e' = positions_all e
  /\ positions_queued e' = positions_queued e
  /\ positions_active e' = positions_active e
  /\ trace e' = trace e.
Proof. unfold clear_market_index. by destruct (bool_decide _). Qed.

Lemma clear_market_index_cleared market' e m :
  passes_filter market' m = true ->
  position_index (info_of (clear_market_index market' e) m) = []
  /\ order_prices (info_of (clear_market_index market' e) m) = [].
Proof.
  unfold passes_filter, clear_market_index. intros Hf.
  destruct (bool_decide (market' = "all")).
  - unfold info_of. cbn. rewrite lookup_fmap.
    by destruct (market_info e !! m).
  - cbn in Hf. apply bool_decide_eq_true in Hf as ->.
    by rewrite info_of_update_info_eq.
Qed.

(** X17.  [cancelLocal] outside test mode.  Of the positions of the market
    (every position, for "all" or an empty name): the queued ones are
    deleted from the heap and from the three sets; each of the others stays a
    position, is marked as cancelling with the reason given and has a cancel
    for its order number sent.  No other request is made, a position of
    another market is left as it is, and the slots and the prices of the
    market's index are cleared. *)
Theorem cancelLocal_cancels_the_market market' quiet reason now e :
  is_testing e = false ->
  let scope := market_or_all market' in
  let e' := cancelLocal market' quiet reason now e in
  (forall pos p,
     holds e (positions_all e) pos p ->
     passes_filter scope (market p) = true ->
     pos ∈ positions_queued e ->
     heap e' !! pos = None /\ (pos ∉ positions_all e')
     /\ (pos ∉ positions_queued e') /\ (pos ∉ positions_active e'))
  /\ (forall pos p,
        holds e (positions_all e) pos p ->
        passes_filter scope (market p) = true ->
        pos ∉ positions_queued e ->
        pos ∈ positions_all e'
        /\ heap e' !! pos
           = Some (set_order_cancel_time now
                     (set_is_cancelling true (set_cancel_reason reason p)))
        /\ RestSendCancel (order_number p) (Some pos) ∈ trace e')
  /\ (forall pos,
        (forall p, holds e (positions_all e) pos p ->
                   passes_filter scope (market p) = false) ->
        heap e' !! pos = heap e !! pos
        /\ (pos ∈ positions_all e' <-> pos ∈ positions_all e)
        /\ (pos ∈ positions_queued e' <-> pos ∈ positions_queued e)
        /\ (pos ∈ positions_active e' <-> pos ∈ positions_active e))
  /\ (forall x,
        x ∈ trace e' ->
        x ∈ trace e
        \/ exists pos p,
             holds e (positions_all e) pos p
             /\ passes_filter scope (market p) = true
             /\ (pos ∉ positions_queued e)
             /\ x = RestSendCancel (order_number p) (Some pos))
  /\ (forall m,
        passes_filter scope m = true ->
        position_index (info_of e' m) = [] /\ order_prices (info_of e' m) = []).
Proof.
  intros Ht scope e'. subst e'. unfold cancelLocal. fold scope.
  set (matched := filter _ (positions_in e (positions_all e))).
  set (deleted := filter (fun pp => isQueuedPosition e pp.1 = true) matched).
  set (landmarks :=
         filter (fun pp => (negb (isQueuedPosition e pp.1) && is_landmark pp.2)
                           = true) matched).
  set (normal :=
         filter (fun pp => (negb (isQueuedPosition e pp.1)
                            && negb (is_landmark pp.2)) = true) matched).
  assert (forall pp, pp ∈ matched <->
            holds e (positions_all e) pp.1 pp.2
            /\ passes_filter scope (market pp.2) = true) as Hmatched.
  { intros [pos p]. subst matched. rewrite list_elem_of_filter, elem_of_positions_in.
    cbn [fst snd]. unfold passes_filter.
    assert (bool_decide (market p = scope) = bool_decide (scope = market p)) as ->
      by (apply bool_decide_ext; split; by intros ->).
    tauto. }
  assert (NoDup matched.*1) as Hnd
    by (apply filter_fst_NoDup, positions_in_NoDup).
  assert (forall pp, pp ∈ deleted <->
            pp ∈ matched /\ pp.1 ∈ positions_queued e) as Hdeleted.
  { intros pp. subst deleted. rewrite list_elem_of_filter, isQueuedPosition_true.
    tauto. }
  assert (forall pp, pp ∈ normal <->
            pp ∈ matched /\ (pp.1 ∉ positions_queued e)
            /\ is_landmark pp.2 = false) as Hnormal.
  { intros pp. subst normal. rewrite list_elem_of_filter.
    rewrite andb_true_iff, !negb_true_iff.
    rewrite <- not_true_iff_false, isQueuedPosition_true. tauto. }
  assert (forall pp, pp ∈ landmarks <->
            pp ∈ matched /\ (pp.1 ∉ positions_queued e)
            /\ is_landmark pp.2 = true) as Hlandmarks.
  { intros pp. subst landmarks. rewrite list_elem_of_filter.
    rewrite andb_true_iff, !negb_true_iff.
    rewrite <- not_true_iff_false, isQueuedPosition_true. tauto. }
  assert (NoDup deleted.*1) as Hnd_d by (by apply filter_fst_NoDup).
  assert (NoDup normal.*1) as Hnd_n by (by apply filter_fst_NoDup).
  assert (NoDup landmarks.*1) as Hnd_l by (by apply filter_fst_NoDup).
  clearbody matched deleted normal landmarks.
  (* the queued positions go *)
  destruct (delete_queued_fold deleted e Hnd_d)
    as (Hd_in & Hd_out & Hd_tr & Hd_t).
  { intros pp [Hm Hq]%Hdeleted. by apply Hmatched in Hm as [[_ ?] _]. }
  set (e1 := foldl _ e deleted) in *. clearbody e1.
  assert (forall pp, pp ∈ matched -> pp.1 ∉ positions_queued e ->
            pp.1 ∉ deleted.*1) as Hnotdel.
  { intros pp Hm Hq ([q' p'] & Heq & Hin)%list_elem_of_fmap.
    apply Hdeleted in Hin as [_ Hq']. cbn in Heq, Hq'. by subst q'. }
  (* the normal positions are cancelled *)
  destruct (cancel_sent_fold quiet reason now normal e1 ltac:(by rewrite Hd_t) Hnd_n)
    as (Hn_in & Hn_out & Hn_al & Hn_qu & Hn_ac & Hn_tr & Hn_t).
  { intros pp (Hm & Hq & _)%Hnormal.
    destruct (Hd_out _ (Hnotdel pp Hm Hq)) as (-> & -> & -> & _).
    by apply Hmatched in Hm as [[? ?] _]. }
  set (e2 := foldl _ e1 normal) in *. clearbody e2.
  assert (forall pp, pp ∈ landmarks -> pp.1 ∉ normal.*1) as Hnotnormal.
  { intros pp (Hm & _ & Hl)%Hlandmarks ([q' p'] & Heq & Hin)%list_elem_of_fmap.
    apply Hnormal in Hin as (Hm' & _ & Hl'). cbn in Heq, Hl'.
    apply Hmatched in Hm as [[_ Hp] _]. apply Hmatched in Hm' as [[_ Hp'] _].
    cbn in Hp'. subst q'. congruence. }
  (* then the landmarks *)
  destruct (cancel_sent_fold quiet reason now landmarks e2 Hn_t Hnd_l)
    as (Hl_in & Hl_out & Hl_al & Hl_qu & Hl_ac & Hl_tr & Hl_t).
  { intros pp Hpp. pose proof (Hnotnormal pp Hpp) as Hnn.
    apply Hlandmarks in Hpp as (Hm & Hq & _).
    rewrite (Hn_out _ Hnn), Hn_al, Hn_qu.
    destruct (Hd_out _ (Hnotdel pp Hm Hq)) as (-> & -> & -> & _).
    by apply Hmatched in Hm as [[? ?] _]. }
  set (e3 := foldl _ e2 landmarks) in *. clearbody e3.
  destruct (clear_market_index_store scope e3) as (-> & -> & -> & -> & ->).
  rewrite Hl_al, Hl_qu, Hl_ac, Hn_al, Hn_qu, Hn_ac.
  assert (forall pos p, holds e (positions_all e) pos p ->
            passes_filter scope (market p) = true ->
            pos ∈ positions_queued e ->
            pos ∈ deleted.*1 /\ (pos ∉ normal.*1) /\ (pos ∉ landmarks.*1))
    as Hqueued.
  { intros pos p Hh Hs Hq. split; [|split].
    - apply list_elem_of_fmap. exists (pos, p). split; [done|].
      apply Hdeleted. split; [by apply Hmatched|done].
    - intros ([q' p'] & Heq & Hin)%list_elem_of_fmap. cbn in Heq. subst q'.
      by apply Hnormal in Hin as (_ & ? & _).
    - intros ([q' p'] & Heq & Hin)%list_elem_of_fmap. cbn in Heq. subst q'.
      by apply Hlandmarks in Hin as (_ & ? & _). }
  split; [|split; [|split; [|split]]].
  - intros pos p Hh Hs Hq.
    destruct (Hqueued pos p Hh Hs Hq) as (Hd & Hn & Hl).
    rewrite (Hl_out _ Hl), (Hn_out _ Hn). by apply Hd_in.
  - intros pos p Hh Hs Hq.
    assert ((pos, p) ∈ matched) as Hm by (by apply Hmatched).
    destruct (Hd_out pos (Hnotdel (pos, p) Hm Hq)) as (_ & Hal & _).
    split; [apply Hal; by destruct Hh|].
    destruct (is_landmark p) eqn:Hlm.
    + assert ((pos, p) ∈ landmarks) as Hin by (by apply Hlandmarks).
      split; [exact (Hl_in _ Hin)|].
      rewrite Hl_tr. apply elem_of_app. right.
      apply list_elem_of_fmap. by exists (pos, p).
    + assert ((pos, p) ∈ normal) as Hin by (by apply Hnormal).
      assert (pos ∉ landmarks.*1) as Hnl.
      { intros ([q' p'] & Heq & Hin')%list_elem_of_fmap. cbn in Heq. subst q'.
        apply (Hnotnormal _ Hin'). apply list_elem_of_fmap. by exists (pos, p). }
      split; [rewrite (Hl_out _ Hnl); exact (Hn_in _ Hin)|].
      rewrite Hl_tr, Hn_tr. apply elem_of_app. left. apply elem_of_app. right.
      apply list_elem_of_fmap. by exists (pos, p).
  - intros pos Hout.
    assert (forall l : list (ptr * Position),
              (forall x, x ∈ l -> x ∈ matched) -> pos ∉ l.*1) as Hnotin.
    { intros l Hsub ([q' p'] & Heq & Hin)%list_elem_of_fmap. cbn in Heq. subst q'.
      apply Hsub, Hmatched in Hin as [Hh Hs]. cbn in Hh, Hs.
      by rewrite (Hout _ Hh) in Hs. }
    rewrite Hl_out by (apply Hnotin; by intros x (? & _)%Hlandmarks).
    rewrite Hn_out by (apply Hnotin; by intros x (? & _)%Hnormal).
    apply Hd_out. apply Hnotin. by intros x (? & _)%Hdeleted.
  - intros x. rewrite Hl_tr, Hn_tr, Hd_tr, !elem_of_app.
    intros [[?|Hx]|Hx]; [by left| |]; right;
      apply list_elem_of_fmap in Hx as ([pos p] & -> & Hin).
    + apply Hnormal in Hin as ([Hh Hs]%Hmatched & Hq & _).
      by exists pos, p.
    + apply Hlandmarks in Hin as ([Hh Hs]%Hmatched & Hq & _).
      by exists pos, p.
  - intros m Hm. by apply clear_market_index_cleared.
Qed.

Lemma cancelLocal_cancels_the_market_witness :
  is_testing Scenes.two_alike = false
  /\ RestSendCancel "b1" (Some 1%positive)
       ∈ trace (cancelLocal "X_Y" true CANCELLING_FOR_USER (Scenes.T0 + 1000)
                  Scenes.two_alike)
  /\ heap (cancelLocal "X_Y" true CANCELLING_FOR_USER (Scenes.T0 + 1000)
             Scenes.two_alike) !! 2%positive
     = heap Scenes.two_alike !! 2%positive.
Proof.
  split; [reflexivity|].
  destruct (cancelLocal_cancels_the_market "X_Y" true CANCELLING_FOR_USER
              (Scenes.T0 + 1000) Scenes.two_alike eq_refl)
    as (_ & Hsent & Hother & _).
  split.
  - destruct (Hsent 1%positive (Scenes.at_ptr Scenes.two_alike 1))
      as (_ & _ & Hin).
    + split; [apply (bool_decide_unpack _); vm_compute; exact I|].
      vm_compute. reflexivity.
    + vm_compute. reflexivity.
    + apply (bool_decide_unpack _). vm_compute. exact I.
    + exact Hin.
  - apply (Hother 2%positive). intros p [_ Hp].
    vm_compute in Hp. injection Hp as <-. vm_compute. reflexivity.
Defined.

End Local.

(** ** The Waves transport *)

Section Transport.

Import Waves.

(** One call that does not yield, on markets that are there. *)
Lemma checkTicker_asks getAliasByAsset ignore yield w :
  negb ignore && yield = false ->
  tracked_markets w <> [] ->
  0 <= next_ticker_index_to_query w ->
  let w' := checkTicker getAliasByAsset ignore yield w in
  exists m,
    tracked_markets w !! ticker_start w = Some m
    /\ calls w' = calls w ++ [book_request getAliasByAsset m]
    /\ next_ticker_index_to_query w' = Z.of_nat (ticker_start w) + 1
    /\ tracked_markets w' = tracked_markets w.
Proof.
  intros Hy Hl Hi. cbv zeta. unfold checkTicker, ticker_start. rewrite Hy.
  assert (0 < qsize (tracked_markets w)) as Hn.
  { unfold qsize. destruct (tracked_markets w); [done|]. simpl. lia. }
  destruct (Z.leb_spec (qsize (tracked_markets w)) (next_ticker_index_to_query w))
    as [Hge|Hlt].
  - cbn. rewrite bool_decide_eq_false_2 by done.
    destruct (tracked_markets w) as [|m l'] eqn:El; [done|]. exists m.
    cbn. by rewrite El.
  - rewrite bool_decide_eq_false_2 by done.
    destruct (lookup_lt_is_Some_2 (tracked_markets w)
                (Z.to_nat (next_ticker_index_to_query w)))
      as [m Hm]; [unfold qsize in Hlt; lia|].
    exists m. split; [done|]. cbn. unfold value.
    replace (0 <=? next_ticker_index_to_query w) with true
      by (symmetry; by apply Z.leb_le).
    rewrite (nth_lookup_Some _ _ _ _ Hm).
    repeat split. lia.
Qed.

Lemma ticker_start_lt w :
  tracked_markets w <> [] ->
  0 <= next_ticker_index_to_query w ->
  (ticker_start w < length (tracked_markets w))%nat.
Proof.
  intros Hl Hi. unfold ticker_start, qsize.
  assert (0 < length (tracked_markets w))%nat
    by (destruct (tracked_markets w); [done|simpl; lia]).
  destruct (Z.leb_spec (Z.of_nat (length (tracked_markets w)))
              (next_ticker_index_to_query w)); lia.
Qed.

Lemma ticker_round_lookup (l : list Market) (i k : nat) :
  (i < length l)%nat -> (k < length l)%nat ->
  ticker_round l i !! k
  = l !! (if decide (i + k < length l)%nat then i + k else i + k - length l)%nat.
Proof.
  intros Hi Hk. unfold ticker_round.
  destruct (decide (i + k < length l)%nat) as [Hlt|Hge].
  - rewrite lookup_app_l by (rewrite length_drop; lia). by rewrite lookup_drop.
  - rewrite lookup_app_r by (rewrite length_drop; lia).
    rewrite length_drop, lookup_take_lt by lia. f_equal. lia.
Qed.

Lemma ticker_round_length (l : list Market) (i : nat) :
  (i <= length l)%nat -> length (ticker_round l i) = length l.
Proof.
  intros Hi. unfold ticker_round. rewrite length_app, length_drop, length_take. lia.
Qed.

(** The calls of a round, one after the other. *)
Lemma checkTicker_rounds getAliasByAsset ignore yield w (k : nat) :
  negb ignore && yield = false ->
  tracked_markets w <> [] ->
  0 <= next_ticker_index_to_query w ->
  (k < length (tracked_markets w))%nat ->
  let i := ticker_start w in
  let w' := Nat.iter (S k) (checkTicker getAliasByAsset ignore yield) w in
  calls w'
  = calls w ++ (book_request getAliasByAsset
                  <$> take (S k) (ticker_round (tracked_markets w) i))
  /\ next_ticker_index_to_query w'
     = (if decide (i + S k <= length (tracked_markets w))%nat
        then Z.of_nat (i + S k)
        else Z.of_nat (i + S k - length (tracked_markets w)))
  /\ tracked_markets w' = tracked_markets w.
Proof.
  intros Hy Hl Hi. cbv zeta.
  set (l := tracked_markets w).
  pose proof (ticker_start_lt w Hl Hi) as Hstart. fold l in Hstart.
  induction k as [|k IH]; intros Hk.
  - destruct (checkTicker_asks getAliasByAsset ignore yield w Hy Hl Hi)
      as (m & Hm & Hc & Hn & Ht).
    change (Nat.iter 1 (checkTicker getAliasByAsset ignore yield) w)
      with (checkTicker getAliasByAsset ignore yield w).
    fold l in Hm, Ht. split; [|split; [|done]].
    + rewrite Hc. do 2 f_equal.
      pose proof (ticker_round_lookup l (ticker_start w) 0 Hstart ltac:(lia)) as Hr.
      rewrite decide_True in Hr by lia. rewrite Nat.add_0_r, Hm in Hr.
      destruct (ticker_round l (ticker_start w)); [done|].
      cbn in Hr. by injection Hr as ->.
    + rewrite Hn. rewrite decide_True by lia. lia.
  - destruct (IH ltac:(lia)) as (Hc & Hn & Ht).
    change (Nat.iter (S (S k)) (checkTicker getAliasByAsset ignore yield) w)
      with (checkTicker getAliasByAsset ignore yield
              (Nat.iter (S k) (checkTicker getAliasByAsset ignore yield) w)).
    set (wk := Nat.iter (S k) (checkTicker getAliasByAsset ignore yield) w) in *.
    clearbody wk.
    destruct (checkTicker_asks getAliasByAsset ignore yield wk Hy)
      as (m & Hm & Hc' & Hn' & Ht').
    { by rewrite Ht. }
    { rewrite Hn. destruct (decide _); lia. }
    set (i := ticker_start w) in *.
    assert (ticker_start wk
            = if decide (i + S k < length l)%nat then (i + S k)%nat
              else (i + S k - length l)%nat) as Hsk.
    { unfold ticker_start. rewrite Ht, Hn. fold l. unfold qsize.
      destruct (decide (i + S k <= length l)%nat);
        destruct (decide (i + S k < length l)%nat);
        destruct (Z.leb_spec (Z.of_nat (length l)) (Z.of_nat (i + S k)));
        destruct (Z.leb_spec (Z.of_nat (length l))
                    (Z.of_nat (i + S k - length l))); lia. }
    split; [|split; [|by rewrite Ht']].
    + rewrite Hc', Hc, <- app_assoc. f_equal.
      assert (ticker_round l i !! S k = Some m) as Hr.
      { rewrite ticker_round_lookup by lia. rewrite <- Hsk, <- Ht. exact Hm. }
      rewrite (take_S_r _ _ _ Hr). by rewrite fmap_app.
    + rewrite Hn', Hsk.
      destruct (decide (i + S k < length l)%nat);
        destruct (decide (i + S (S k) <= length l)%nat); lia.
Qed.

(** X18.  The ticker goes round.  On a list of tracked markets that is not
    empty, as many calls of [checkTicker] as there are markets (calls that
    do not yield to flow control) ask for the book of every tracked market
    once: first of the market at the stored index (the first market, once
    the index has run past the list), then of those after it, then of those
    before it; and the index comes back to where the round began. *)
Theorem checkTicker_goes_round getAliasByAsset ignore yield w :
  negb ignore && yield = false ->
  tracked_markets w <> [] ->
  0 <= next_ticker_index_to_query w ->
  let i := ticker_start w in
  let w' := Nat.iter (length (tracked_markets w))
              (checkTicker getAliasByAsset ignore yield) w in
  calls w'
  = calls w ++ (book_request getAliasByAsset
                  <$> ticker_round (tracked_markets w) i)
  /\ ticker_round (tracked_markets w) i ≡ₚ tracked_markets w
  /\ tracked_markets w' = tracked_markets w
  /\ ticker_start w' = i.
Proof.
  intros Hy Hl Hi. cbv zeta.
  set (l := tracked_markets w).
  pose proof (ticker_start_lt w Hl Hi) as Hstart. fold l in Hstart.
  destruct (length l) as [|k] eqn:Hlen; [lia|].
  destruct (checkTicker_rounds getAliasByAsset ignore yield w k Hy Hl Hi)
    as (Hc & Hn & Ht).
  { fold l. lia. }
  fold l in Hc, Hn, Ht. rewrite Hlen in Hn.
  split; [|split; [|split; [done|]]].
  - rewrite Hc. do 2 f_equal. apply take_ge.
    rewrite ticker_round_length; lia.
  - unfold ticker_round. rewrite Permutation_app_comm. by rewrite take_drop.
  - unfold ticker_start at 1. rewrite Ht, Hn. fold l. unfold qsize. rewrite Hlen.
    destruct (decide (ticker_start w + S k <= S k)%nat);
      destruct (Z.leb_spec (Z.of_nat (S k)) (Z.of_nat (ticker_start w + S k)));
      destruct (Z.leb_spec (Z.of_nat (S k))
                  (Z.of_nat (ticker_start w + S k - S k))); lia.
Qed.

Lemma checkTicker_goes_round_witness :
  calls (Nat.iter 3 (checkTicker (fun s => s) false false) Scenes2.polling)
  = [GetBookData "ETH" "BTC"; GetBookData "BTC" "USD"; GetBookData "WAVES" "BTC"].
Proof.
  destruct (checkTicker_goes_round (fun s => s) false false Scenes2.polling)
    as (Hc & _).
  - reflexivity.
  - discriminate.
  - vm_compute. discriminate.
  - exact Hc.
Defined.

(** What one reply does to the times handed on. *)
Lemma parseMyOrders_times engine orders t now w :
  let w' := parseMyOrders engine orders t now w in
  orderbook_stale_tolerance w' = orderbook_stale_tolerance w
  /\ ((accepted_times w' = accepted_times w
       /\ orderbook_update_request_time w' = orderbook_update_request_time w)
      \/ (accepted_times w' = accepted_times w ++ [t]
          /\ orderbook_update_request_time w' = t
          /\ orderbook_update_request_time w <= t
          /\ now - orderbook_stale_tolerance w <= t)).
Proof.
  cbv zeta. unfold parseMyOrders.
  destruct (Z.ltb_spec t (now - orderbook_stale_tolerance w)) as [|Hfresh];
    [split; [done|by left]|].
  destruct (Z.ltb_spec t (orderbook_update_request_time w)) as [|Hlate];
    [split; [done|by left]|].
  split; [done|]. right. unfold accepted_times. cbn.
  rewrite omap_app. by repeat split.
Qed.

(** X19.  The replies to the request for the open orders reach the engine
    in the order their requests were sent.  Whatever replies come in, and in
    whatever order, the request times [parseMyOrders] hands to
    [processOpenOrders] never go back, none is later than the request time
    the transport records, and each reply handed on was no older than the
    stale tolerance when it came in. *)
Theorem parseMyOrders_never_goes_back replies w :
  StronglySorted Z.le (accepted_times w) ->
  Forall (fun t => t <= orderbook_update_request_time w) (accepted_times w) ->
  let w' := parse_replies replies w in
  StronglySorted Z.le (accepted_times w')
  /\ Forall (fun t => t <= orderbook_update_request_time w') (accepted_times w')
  /\ orderbook_update_request_time w <= orderbook_update_request_time w'
  /\ exists new,
       accepted_times w' = accepted_times w ++ new
       /\ Forall (fun t => exists r,
                    r ∈ replies /\ t = reply_time_sent_ms r
                    /\ reply_current_time r - orderbook_stale_tolerance w <= t)
                 new.
Proof.
  cbv zeta. unfold parse_replies. revert w.
  induction replies as [|r replies IH]; intros w Hs Hb; cbn [foldl].
  - split; [done|]. split; [done|]. split; [lia|]. exists [].
    by rewrite app_nil_r.
  - destruct (parseMyOrders_times (reply_engine r) (reply_orders r)
                (reply_time_sent_ms r) (reply_current_time r) w)
      as (Htol & Hstep).
    set (w1 := parseMyOrders _ _ _ _ w) in *. clearbody w1.
    assert (StronglySorted Z.le (accepted_times w1)
            /\ Forall (fun t => t <= orderbook_update_request_time w1)
                 (accepted_times w1)
            /\ orderbook_update_request_time w <= orderbook_update_request_time w1
            /\ exists new1,
                 accepted_times w1 = accepted_times w ++ new1
                 /\ Forall (fun t => t = reply_time_sent_ms r
                              /\ reply_current_time r - orderbook_stale_tolerance w
                                 <= t) new1)
      as (Hs1 & Hb1 & Hle1 & new1 & Hnew1 & Hall1).
    { destruct Hstep as [[-> ->]|(-> & -> & Hle & Hfresh)].
      - split; [done|]. split; [done|]. split; [lia|]. exists [].
        by rewrite app_nil_r.
      - split; [|split; [|split; [done|]]].
        + apply StronglySorted_app. split; [|split; [done|repeat constructor]].
          intros x1 x2 Hx1 ->%list_elem_of_singleton.
          eapply Forall_forall in Hb; [|exact Hx1]. cbn in Hb. lia.
        + apply Forall_app. split; [|by repeat constructor].
          eapply Forall_impl; [exact Hb|]. cbn. intros. lia.
        + exists [reply_time_sent_ms r]. split; [done|]. by repeat constructor. }
    destruct (IH w1 Hs1 Hb1) as (Hs' & Hb' & Hle' & new & Hnew & Hall).
    split; [done|]. split; [done|]. split; [lia|].
    exists (new1 ++ new). split; [by rewrite Hnew, Hnew1, app_assoc|].
    apply Forall_app. split.
    + eapply Forall_impl; [exact Hall1|]. cbn. intros t [-> Hf].
      exists r. split; [apply elem_of_cons; by left|done].
    + eapply Forall_impl; [exact Hall|]. cbn. intros t (r' & Hr' & -> & Hf).
      exists r'. split; [apply elem_of_cons; by right|]. split; [done|].
      by rewrite <- Htol.
Qed.

Lemma parseMyOrders_never_goes_back_witness :
  accepted_times (parse_replies Scenes2.three_replies Scenes2.polling)
  = [Scenes.T0 + 1000; Scenes.T0 + 3000]
  /\ StronglySorted Z.le
       (accepted_times (parse_replies Scenes2.three_replies Scenes2.polling)).
Proof.
  split; [vm_compute; reflexivity|].
  apply (parseMyOrders_never_goes_back Scenes2.three_replies Scenes2.polling).
  - constructor.
  - constructor.
Defined.

Lemma elem_of_delete_other {A : Type} (l : list A) (i : nat) (x q : A) :
  l !! i = Some x -> q ∈ l -> q <> x -> q ∈ delete i l.
Proof.
  revert i. induction l as [|y l IH]; intros i Hi Hq Hne.
  - by apply elem_of_nil in Hq.
  - destruct i as [|i]; cbn in *.
    + injection Hi as ->. apply elem_of_cons in Hq as [->|?]; done.
    + apply elem_of_cons in Hq as [->|Hq]; apply elem_of_cons; [by left|right].
      by apply (IH i).
Qed.

Lemma removeAt_sublist {A : Type} (i : Z) (l : list A) :
  removeAt i l `sublist_of` l.
Proof. unfold removeAt. destruct (_ && _); [apply sublist_delete|done]. Qed.

(** X20.  The list of cancelled orders whose status is to be asked.  The
    three functions that write [cancelling_orders_to_query] keep it free of
    duplicates.  The acknowledgment of a cancel puts an active position on
    the list; the status reply for a position that is being cancelled, or
    that is no longer active, takes it off.  The periodic check drops only
    entries that are no valid positions and asks for the status of nothing
    but a valid position of the list, of one at most. *)
Theorem cancelling_orders_are_listed_once engine status' info request_pos
    yield w :
  NoDup (cancelling_orders_to_query w) ->
  let w1 := parseCancelOrder engine status' request_pos w in
  let w2 := parseOrderStatus engine info request_pos w in
  let w3 := onCheckCancellingOrders engine yield w in
  NoDup (cancelling_orders_to_query w1)
  /\ NoDup (cancelling_orders_to_query w2)
  /\ NoDup (cancelling_orders_to_query w3)
  /\ (forall pos,
        request_pos = Some pos ->
        status' = "OrderCanceled" \/ status' = "OrderCancelRejected" ->
        isActive engine pos = true ->
        pos ∈ cancelling_orders_to_query w1)
  /\ (forall pos,
        request_pos = Some pos ->
        is_Some (status info) ->
        isActive engine pos = false \/ is_cancelling (deref engine pos) = true ->
        pos ∉ cancelling_orders_to_query w2)
  /\ (forall q, q ∈ cancelling_orders_to_query w3 ->
                q ∈ cancelling_orders_to_query w)
  /\ (forall q, q ∈ cancelling_orders_to_query w -> isValid engine q = true ->
                q ∈ cancelling_orders_to_query w3)
  /\ (calls w3 = calls w
      \/ exists pos,
           pos ∈ cancelling_orders_to_query w /\ isValid engine pos = true
           /\ calls w3 = calls w ++ [GetOrderStatus pos]).
Proof.
  intros Hnd. cbv zeta.
  assert (forall pos,
            cancelling_orders_to_query
              (if is_cancelling (deref engine pos)
               then set_cancelling_orders_to_query
                      (removeOne pos (cancelling_orders_to_query w)) w
               else w)
            = if is_cancelling (deref engine pos)
              then removeOne pos (cancelling_orders_to_query w)
              else cancelling_orders_to_query w) as Hmid
    by (intros pos; by destruct (is_cancelling _)).
  assert (forall pos,
            cancelling_orders_to_query (parseOrderStatus engine info (Some pos) w)
            = match status info with
              | None => cancelling_orders_to_query w
              | Some _ =>
                  if negb (isActive engine pos) || is_cancelling (deref engine pos)
                  then removeOne pos (cancelling_orders_to_query w)
                  else cancelling_orders_to_query w
              end) as Hw2.
  { intros pos. unfold parseOrderStatus.
    destruct (status info) as [s|]; [|done].
    destruct (isActive engine pos); cbn [negb orb]; [|done].
    destruct (bool_decide (s = "Filled")); [cbn; apply Hmid|].
    destruct (bool_decide (s = "Cancelled")); [|apply Hmid].
    destruct (isGreaterThanZero _); cbn; apply Hmid. }
  split; [|split; [|split; [|split; [|split]]]].
  - unfold parseCancelOrder. destruct (_ && _); [done|].
    destruct request_pos as [pos|]; [|done].
    destruct (isActive engine pos); cbn [negb]; [|done].
    unfold contains. destruct (bool_decide_reflect (pos ∈ cancelling_orders_to_query w));
      [done|].
    cbn. apply NoDup_app. split; [done|]. split; [|apply NoDup_singleton].
    by intros x Hx ->%list_elem_of_singleton.
  - destruct request_pos as [pos|].
    + rewrite Hw2. destruct (status info); [|done].
      destruct (_ || _); [by apply removeOne_NoDup|done].
    + unfold parseOrderStatus. by destruct (status info).
  - unfold onCheckCancellingOrders. destruct yield; [done|].
    destruct (_ =? 0); [done|].
    match goal with
    | |- context [if last_cancelling_index_checked ?x <? 0 then _ else _] =>
        set (wi := x)
    end.
    assert (cancelling_orders_to_query wi = cancelling_orders_to_query w) as Hwi
      by (subst wi; by destruct (_ <=? _)).
    clearbody wi. destruct (_ <? 0); [by rewrite Hwi|].
    destruct (_ !! _) as [pos|]; [|by rewrite Hwi].
    destruct (isValid engine pos); cbn; [by rewrite Hwi|].
    rewrite Hwi.
    pose proof (removeAt_sublist (last_cancelling_index_checked wi)
                  (cancelling_orders_to_query w)) as Hsub.
    by apply sublist_NoDup in Hsub.
  - intros pos -> Hst Hact. unfold parseCancelOrder.
    assert (negb (bool_decide (status' = "OrderCanceled"))
            && negb (bool_decide (status' = "OrderCancelRejected")) = false) as ->.
    { destruct Hst as [-> | ->]; by vm_compute. }
    rewrite Hact. cbn [negb]. unfold contains.
    destruct (bool_decide_reflect (pos ∈ cancelling_orders_to_query w)); [done|].
    cbn. apply elem_of_app. right. by apply list_elem_of_singleton.
  - intros pos -> [s Hs] Hoff. rewrite Hw2, Hs.
    assert (negb (isActive engine pos) || is_cancelling (deref engine pos) = true)
      as ->.
    { destruct Hoff as [-> | ->]; [done|by rewrite orb_true_r]. }
    by apply removeOne_gone.
  - unfold onCheckCancellingOrders. destruct yield.
    { split; [done|]. split; [done|by left]. }
    destruct (_ =? 0).
    { split; [done|]. split; [done|by left]. }
    match goal with
    | |- context [if last_cancelling_index_checked ?x <? 0 then _ else _] =>
        set (wi := x)
    end.
    assert (cancelling_orders_to_query wi = cancelling_orders_to_query w
            /\ calls wi = calls w) as [Hwi Hci]
      by (subst wi; by destruct (_ <=? _)).
    clearbody wi.
    destruct (Z.ltb_spec (last_cancelling_index_checked wi) 0) as [|Hpos].
    { rewrite Hwi, Hci. split; [done|]. split; [done|by left]. }
    destruct (_ !! _) as [pos|] eqn:Hlook.
    2:{ rewrite Hwi, Hci. split; [done|]. split; [done|by left]. }
    rewrite Hwi in Hlook.
    destruct (isValid engine pos) eqn:Hvalid; cbn; rewrite ?Hwi, ?Hci.
    + split; [done|]. split; [done|]. right. exists pos.
      split; [by eapply list_elem_of_lookup_2|done].
    + split; [|split; [|by left]].
      * intros q Hq. eapply sublist_subseteq; [apply removeAt_sublist|done].
      * intros q Hq Hv. unfold removeAt.
        destruct (_ && _); [|done].
        eapply elem_of_delete_other; [exact Hlook|done|]. intros ->. congruence.
Qed.

Lemma cancelling_orders_are_listed_once_witness :
  1%positive
    ∈ cancelling_orders_to_query
        (parseCancelOrder Scenes2.one_cancelling "OrderCanceled"
           (Some 1%positive) Scenes2.polling)
  /\ 1%positive
       ∉ cancelling_orders_to_query
           (parseOrderStatus Scenes2.one_cancelling
              (mkOrderStatusInfo (Some "Cancelled") 0) (Some 1%positive)
              (parseCancelOrder Scenes2.one_cancelling "OrderCanceled"
                 (Some 1%positive) Scenes2.polling)).
Proof.
  split.
  - destruct (cancelling_orders_are_listed_once Scenes2.one_cancelling
                "OrderCanceled" (mkOrderStatusInfo (Some "Cancelled") 0)
                (Some 1%positive) false Scenes2.polling)
      as (_ & _ & _ & Hon & _).
    + constructor.
    + apply (Hon 1%positive); [reflexivity|by left|reflexivity].
  - destruct (cancelling_orders_are_listed_once Scenes2.one_cancelling
                "OrderCanceled" (mkOrderStatusInfo (Some "Cancelled") 0)
                (Some 1%positive) false
                (parseCancelOrder Scenes2.one_cancelling "OrderCanceled"
                   (Some 1%positive) Scenes2.polling))
      as (_ & _ & _ & _ & Hoff & _).
    + apply (bool_decide_unpack _). vm_compute. exact I.
    + apply (Hoff 1%positive); [reflexivity|by eexists|right; reflexivity].
Defined.

End Transport.

(** ** The next order under and over the orders of a market *)

Section NextOrder.

Import EngineB.

Lemma slot_taken_elem e market' idx :
  slot_taken e market' idx = true <-> idx ∈ taken_slots e market'.
Proof.
  unfold slot_taken, taken_slots, getPositionByIndex, isIndexDivergingConverging,
    contains.
  rewrite orb_true_iff, !bool_decide_eq_true, elem_of_app, fmap_is_Some.
  apply or_iff_compat_r. rewrite list_elem_of_join. split.
  - intros [[i pp] Hfind]. apply list_find_Some in Hfind as (Hl & HP & _).
    apply andb_true_iff in HP as [Hm Hc].
    apply bool_decide_eq_true in Hm. apply bool_decide_eq_true in Hc.
    exists (market_indices pp.2). split; [done|].
    apply list_elem_of_fmap. exists pp. split; [done|].
    apply list_elem_of_filter. split; [done|by eapply list_elem_of_lookup_2].
  - intros (l & Hidx & (pp & -> & [Hm Hin]%list_elem_of_filter)%list_elem_of_fmap).
    destruct (list_find
                (fun pp => (bool_decide (market pp.2 = market')
                            && contains (market_indices pp.2) idx) = true)
                (positions_in e (positions_all e))) as [r|] eqn:Hfind; [by exists r|].
    exfalso. apply list_find_None in Hfind.
    eapply Forall_forall in Hfind; [|exact Hin]. apply Hfind.
    apply andb_true_iff. split; apply bool_decide_eq_true; done.
Qed.

(** The index the count ends on is free, and lies [step] by [step] from
    where it began. *)
Lemma free_from_spec fuel step e market' :
  forall start i,
    free_from fuel step e market' start = Some i ->
    slot_taken e market' i = false
    /\ exists k : nat, i = start + step * Z.of_nat k.
Proof.
  induction fuel as [|fuel IH]; intros start i; cbn [free_from]; [done|].
  destruct (slot_taken e market' start) eqn:Ht.
  - intros Hi. destruct (IH _ _ Hi) as (Hfree & k & ->).
    split; [done|]. exists (S k). lia.
  - intros [= <-]. split; [done|]. exists 0%nat. lia.
Qed.

(** The count ends once there is more fuel than slots taken. *)
Lemma free_from_total fuel step e market' :
  step = 1 \/ step = -1 ->
  forall start,
    (length (filter (fun t => (0 <= step * (t - start))%Z)
               (taken_slots e market'))
     < fuel)%nat ->
    is_Some (free_from fuel step e market' start).
Proof.
  intros Hstep. induction fuel as [|fuel IH]; intros start Hlen; [lia|].
  cbn [free_from]. destruct (slot_taken e market' start) eqn:Ht; [|by eexists].
  apply IH. apply slot_taken_elem in Ht.
  set (T := taken_slots e market') in *.
  rewrite <- (list_filter_filter_l _ (fun t => 0 <= step * (t - start)))
    by (intros t; destruct Hstep as [-> | ->]; lia).
  assert (start ∈ filter (fun t => 0 <= step * (t - start)) T) as Hin
    by (apply list_elem_of_filter; split; [lia|done]).
  pose proof (length_filter_lt
                (fun t => 0 <= step * (t - (start + step))) _ start Hin) as Hlt.
  assert (¬ 0 <= step * (start - (start + step))) as Hnot
    by (destruct Hstep as [-> | ->]; lia).
  specialize (Hlt Hnot). lia.
Qed.

(** The landmark stays a run from its first slot, and every slot the loop
    adds is free and within the bound. *)
Lemma widen_landmark_spec n step out e market' dc_val :
  forall first k,
    let r := widen_landmark n step out e market' dc_val
               (slot_run step first (S k)) in
    exists k',
      r = slot_run step first (S k')
      /\ forall i, i ∈ r ->
           i ∈ slot_run step first (S k)
           \/ (slot_taken e market' i = false /\ out i = false).
Proof.
  induction n as [|n IH]; intros first k; cbn [widen_landmark].
  - exists k. split; [done|]. intros i Hi. by left.
  - destruct (qsize _ <? dc_val); [|exists k; split; [done|by left]].
    rewrite slot_run_last.
    replace (first + step * Z.of_nat k + step)
      with (first + step * Z.of_nat (S k)) by lia.
    destruct (out _) eqn:Hout; [exists k; split; [done|by left]|].
    destruct (slot_taken _ _ _) eqn:Ht.
    + exists 0%nat. split; [done|]. intros i Hi. left.
      cbn in Hi. apply list_elem_of_singleton in Hi as ->.
      cbn. apply elem_of_cons. by left.
    + rewrite <- slot_run_snoc. destruct (IH first (S k)) as (k' & Hr & Hall).
      exists k'. split; [done|]. intros i Hi.
      destruct (Hall i Hi) as [Hin|Hfree]; [|by right].
      rewrite slot_run_snoc in Hin. apply elem_of_app in Hin as [Hin|Hin]; [by left|].
      apply list_elem_of_singleton in Hin as ->. by right.
Qed.

Lemma lowest_index_fold market' l :
  forall acc,
    let r := foldl (lowest_index market') acc l in
    r <= acc
    /\ forall pp, pp ∈ l -> pingpong_of market' pp.2 = true ->
                  r <= getLowestMarketIndex pp.2.
Proof.
  induction l as [|pp l IH]; intros acc; cbn [foldl].
  - split; [done|]. by intros pp ?%elem_of_nil.
  - destruct (IH (lowest_index market' acc pp)) as (Hle & Hall).
    set (r := foldl _ _ l) in *. clearbody r.
    assert (lowest_index market' acc pp <= acc
            /\ (pingpong_of market' pp.2 = true ->
                lowest_index market' acc pp <= getLowestMarketIndex pp.2))
      as [Ha Hb].
    { unfold lowest_index, pingpong_of.
      destruct (is_onetime pp.2); cbn; [done|].
      destruct (Z.ltb_spec (getLowestMarketIndex pp.2) acc); cbn.
      - destruct (bool_decide (market pp.2 = market')); [lia|done].
      - split; [done|]. intros _. lia. }
    split; [lia|]. intros pp' [->|Hin]%elem_of_cons Hpp.
    + specialize (Hb Hpp). lia.
    + by apply Hall.
Qed.

Lemma highest_index_fold market' l :
  forall acc,
    let r := foldl (highest_index market') acc l in
    acc <= r
    /\ forall pp, pp ∈ l -> pingpong_of market' pp.2 = true ->
                  getHighestMarketIndex pp.2 <= r.
Proof.
  induction l as [|pp l IH]; intros acc; cbn [foldl].
  - split; [done|]. by intros pp ?%elem_of_nil.
  - destruct (IH (highest_index market' acc pp)) as (Hle & Hall).
    set (r := foldl _ _ l) in *. clearbody r.
    assert (acc <= highest_index market' acc pp
            /\ (pingpong_of market' pp.2 = true ->
                getHighestMarketIndex pp.2 <= highest_index market' acc pp))
      as [Ha Hb].
    { unfold highest_index, pingpong_of.
      destruct (is_onetime pp.2); cbn; [done|].
      destruct (Z.ltb_spec acc (getHighestMarketIndex pp.2)); cbn.
      - destruct (bool_decide (market pp.2 = market')); [lia|done].
      - split; [done|]. intros _. lia. }
    split; [lia|]. intros pp' [->|Hin]%elem_of_cons Hpp.
    + specialize (Hb Hpp). lia.
    + by apply Hall.
Qed.

(** X21.  [setNextLowest] sets its order on free slots only (for a market
    name in the spelling of the exchange, which [addPosition] leaves as it
    is).
    With more fuel than the market has slots taken the search ends; it then either
    leaves the engine as it is or passes [addPosition] a run of slots going
    down from a first one, none of them spanned by a position of the market
    or being diverged or converged, all of them slots of the market's index,
    the first under the lowest slot of every ping-pong order of the market;
    an order that is no landmark gets one slot, a landmark [order_dc] slots
    or a run that reaches slot 0. *)
Theorem setNextLowest_takes_free_slots fuel market' side' landmark now e :
  market_spelled e market' ->
  (length (taken_slots e market') < fuel)%nat ->
  exists r,
    setNextLowest_indices fuel e market' landmark = Some r
    /\ match r with
       | None => setNextLowest fuel market' side' landmark now e = Some e
       | Some indices =>
           setNextLowest fuel market' side' landmark now e
           = Some (set_next market' side' landmark now indices e)
           /\ exists first,
                indices = slot_run (-1) first (length indices)
                /\ (0 < length indices)%nat
                /\ (forall idx, idx ∈ indices ->
                      (idx ∉ taken_slots e market')
                      /\ 0 <= idx < qsize (position_index (info_of e market')))
                /\ (forall pos p,
                      holds e (positions_all e) pos p ->
                      pingpong_of market' p = true ->
                      first < getLowestMarketIndex p)
                /\ (if landmark
                    then qsize indices = order_dc (info_of e market')
                         \/ 0 ∈ indices
                    else indices = [first])
       end.
Proof.
  intros _ Hfuel. unfold setNextLowest, setNextLowest_indices.
  destruct (lowest_index_fold market' (positions_in e (positions_all e)) INT32_MAX)
    as (_ & Hlow).
  set (start := foldl _ _ _ - 1) in *.
  destruct (_ || _); [by exists None|].
  destruct (free_from_total fuel (-1) e market' (or_intror eq_refl) start)
    as [first Hfree].
  { eapply Nat.le_lt_trans; [apply length_filter|done]. }
  rewrite Hfree. cbn [mbind option_bind].
  destruct (free_from_spec _ _ _ _ _ _ Hfree) as (Hfirst & k & Hk).
  change (value [first] 0 0) with first.
  destruct (Z.ltb_spec first 0) as [|Hpos]; [by exists None|].
  set (dc_val := order_dc (info_of e market')) in *.
  destruct (widen_landmark_spec (Z.to_nat dc_val) (-1) (fun i => i <? 0) e market'
              dc_val first 0) as (k' & Hrun & Hall).
  change (slot_run (-1) first 1) with [first] in Hrun, Hall.
  set (wide := widen_landmark _ _ _ _ _ _ [first]) in *. clearbody wide.
  set (indices := if landmark then wide else [first]).
  assert (exists n, indices = slot_run (-1) first (S n)
                    /\ forall i, i ∈ indices ->
                         slot_taken e market' i = false /\ 0 <= i)
    as (n & Hind & Hfreeall).
  { subst indices. destruct landmark.
    - exists k'. split; [done|]. intros i Hi.
      destruct (Hall i Hi) as [->%list_elem_of_singleton|[? Hb]]; [done|].
      split; [done|]. by apply Z.ltb_ge in Hb.
    - exists 0%nat. split; [done|]. by intros i ->%list_elem_of_singleton. }
  destruct ((landmark && negb (qsize indices =? dc_val))
            && negb (contains indices 0)) eqn:Hsize; [by exists None|].
  destruct (negb landmark && (1 <? qsize indices)) eqn:Hone; [by exists None|].
  assert (value indices 0 0 = first) as Hv0 by (by rewrite Hind).
  rewrite Hv0.
  destruct (bool_decide (indices = []) || _) eqn:Hbound; [by exists None|].
  apply orb_false_iff in Hbound as [_ Hbound]. apply Z.leb_gt in Hbound.
  exists (Some indices). split; [done|]. split; [done|].
  exists first. split; [by rewrite Hind at 1; rewrite Hind, slot_run_length|].
  split; [rewrite Hind, slot_run_length; lia|]. split; [|split].
  - intros idx Hidx. destruct (Hfreeall idx Hidx) as [Hf Hge].
    split; [by rewrite <- slot_taken_elem, Hf|].
    split; [done|]. rewrite Hind in Hidx.
    apply slot_run_elem in Hidx as (j & _ & ->). lia.
  - intros pos p Hh Hpp.
    specialize (Hlow (pos, p) ltac:(by apply elem_of_positions_in) Hpp).
    cbn in Hlow. subst start. lia.
  - destruct landmark.
    + cbn [andb] in Hsize. apply andb_false_iff in Hsize as [Hs|Hs].
      * left. apply negb_false_iff in Hs. by apply Z.eqb_eq in Hs.
      * right. apply negb_false_iff in Hs. unfold contains in Hs.
        by apply bool_decide_eq_true in Hs.
    + done.
Qed.

Lemma setNextLowest_takes_free_slots_witness :
  setNextLowest_indices 2 Scenes2.one_in_the_middle "X_Y" false = Some (Some [1])
  /\ exists r,
       setNextLowest_indices 2 Scenes2.one_in_the_middle "X_Y" false = Some r
       /\ match r with
          | None =>
              setNextLowest 2 "X_Y" SIDE_BUY false Scenes.T0
                Scenes2.one_in_the_middle
              = Some Scenes2.one_in_the_middle
          | Some indices =>
              setNextLowest 2 "X_Y" SIDE_BUY false Scenes.T0
                Scenes2.one_in_the_middle
              = Some (set_next "X_Y" SIDE_BUY false Scenes.T0 indices
                        Scenes2.one_in_the_middle)
              /\ exists first,
                   indices = slot_run (-1) first (length indices)
                   /\ (0 < length indices)%nat
                   /\ (forall idx, idx ∈ indices ->
                         (idx ∉ taken_slots Scenes2.one_in_the_middle "X_Y")
                         /\ 0 <= idx
                            < qsize (position_index
                                       (info_of Scenes2.one_in_the_middle "X_Y")))
                   /\ (forall pos p,
                         holds Scenes2.one_in_the_middle
                           (positions_all Scenes2.one_in_the_middle) pos p ->
                         pingpong_of "X_Y" p = true ->
                         first < getLowestMarketIndex p)
                   /\ (if false
                       then qsize indices
                            = order_dc (info_of Scenes2.one_in_the_middle "X_Y")
                            \/ 0 ∈ indices
                       else indices = [first])
          end.
Proof.
  split; [vm_compute; reflexivity|].
  apply (setNextLowest_takes_free_slots 2 "X_Y" SIDE_BUY false Scenes.T0
           Scenes2.one_in_the_middle).
  - vm_compute. reflexivity.
  - vm_compute. lia.
Defined.

(** X22.  [setNextHighest] sets its order on free slots only (for a market
    name in the spelling of the exchange, which [addPosition] leaves as it
    is).
    With more fuel than the market has slots taken the search ends; it then either
    leaves the engine as it is or passes [addPosition] a run of slots going
    up from a first one, none of them spanned by a position of the market or
    being diverged or converged, all of them slots of the market's index,
    the first over the highest slot of every ping-pong order of the market;
    an order that is no landmark gets one slot, a landmark [order_dc] slots
    or a run that reaches the last slot of the index. *)
Theorem setNextHighest_takes_free_slots fuel market' side' landmark now e :
  market_spelled e market' ->
  (length (taken_slots e market') < fuel)%nat ->
  exists r,
    setNextHighest_indices fuel e market' landmark = Some r
    /\ match r with
       | None => setNextHighest fuel market' side' landmark now e = Some e
       | Some indices =>
           setNextHighest fuel market' side' landmark now e
           = Some (set_next market' side' landmark now indices e)
           /\ exists first,
                indices = slot_run 1 first (length indices)
                /\ (0 < length indices)%nat
                /\ (forall idx, idx ∈ indices ->
                      (idx ∉ taken_slots e market')
                      /\ 1 <= idx < qsize (position_index (info_of e market')))
                /\ (forall pos p,
                      holds e (positions_all e) pos p ->
                      pingpong_of market' p = true ->
                      getHighestMarketIndex p < first)
                /\ (if landmark
                    then qsize indices = order_dc (info_of e market')
                         \/ qsize (position_index (info_of e market')) - 1
                              ∈ indices
                    else indices = [first])
       end.
Proof.
  intros _ Hfuel. unfold setNextHighest, setNextHighest_indices.
  destruct (highest_index_fold market' (positions_in e (positions_all e)) (-1))
    as (_ & Hhigh).
  set (start := foldl _ _ _ + 1) in *.
  destruct (Z.ltb_spec start 1) as [|Hstart]; [by exists None|]. cbn [orb].
  destruct (_ <? start); [by exists None|].
  destruct (free_from_total fuel 1 e market' (or_introl eq_refl) start)
    as [first Hfree].
  { eapply Nat.le_lt_trans; [apply length_filter|done]. }
  rewrite Hfree. cbn [mbind option_bind].
  destruct (free_from_spec _ _ _ _ _ _ Hfree) as (Hfirst & k & Hk).
  change (value [first] 0 0) with first.
  set (size := qsize (position_index (info_of e market'))) in *.
  destruct (Z.leb_spec size first) as [|Hin]; [by exists None|].
  set (dc_val := order_dc (info_of e market')) in *.
  destruct (widen_landmark_spec (Z.to_nat dc_val) 1 (fun i => size <=? i) e market'
              dc_val first 0) as (k' & Hrun & Hall).
  change (slot_run 1 first 1) with [first] in Hrun, Hall.
  set (wide := widen_landmark _ _ _ _ _ _ [first]) in *. clearbody wide.
  set (indices := if landmark then wide else [first]).
  assert (exists n, indices = slot_run 1 first (S n)
                    /\ forall i, i ∈ indices ->
                         slot_taken e market' i = false /\ i < size)
    as (n & Hind & Hfreeall).
  { subst indices. destruct landmark.
    - exists k'. split; [done|]. intros i Hi.
      destruct (Hall i Hi) as [->%list_elem_of_singleton|[? Hb]]; [done|].
      split; [done|]. by apply Z.leb_gt in Hb.
    - exists 0%nat. split; [done|]. by intros i ->%list_elem_of_singleton. }
  destruct ((landmark && negb (qsize indices =? dc_val))
            && negb (contains indices (size - 1))) eqn:Hsize; [by exists None|].
  destruct (negb landmark && (1 <? qsize indices)) eqn:Hone; [by exists None|].
  assert (value indices 0 0 = first) as Hv0 by (by rewrite Hind).
  rewrite Hv0.
  destruct (bool_decide (indices = []) || _) eqn:Hbound; [by exists None|].
  exists (Some indices). split; [done|]. split; [done|].
  exists first. split; [by rewrite Hind at 1; rewrite Hind, slot_run_length|].
  split; [rewrite Hind, slot_run_length; lia|]. split; [|split].
  - intros idx Hidx. destruct (Hfreeall idx Hidx) as [Hf Hlt].
    split; [by rewrite <- slot_taken_elem, Hf|].
    split; [|done]. rewrite Hind in Hidx.
    apply slot_run_elem in Hidx as (j & _ & ->). lia.
  - intros pos p Hh Hpp.
    specialize (Hhigh (pos, p) ltac:(by apply elem_of_positions_in) Hpp).
    cbn in Hhigh. subst start. lia.
  - destruct landmark.
    + cbn [andb] in Hsize. apply andb_false_iff in Hsize as [Hs|Hs].
      * left. apply negb_false_iff in Hs. by apply Z.eqb_eq in Hs.
      * right. apply negb_false_iff in Hs. unfold contains in Hs.
        by apply bool_decide_eq_true in Hs.
    + done.
Qed.

Lemma setNextHighest_takes_free_slots_witness :
  setNextHighest_indices 2 Scenes2.one_in_the_middle "X_Y" false = Some (Some [3])
  /\ exists r,
       setNextHighest_indices 2 Scenes2.one_in_the_middle "X_Y" false = Some r
       /\ match r with
          | None =>
              setNextHighest 2 "X_Y" SIDE_SELL false Scenes.T0
                Scenes2.one_in_the_middle
              = Some Scenes2.one_in_the_middle
          | Some indices =>
              setNextHighest 2 "X_Y" SIDE_SELL false Scenes.T0
                Scenes2.one_in_the_middle
              = Some (set_next "X_Y" SIDE_SELL false Scenes.T0 indices
                        Scenes2.one_in_the_middle)
              /\ exists first,
                   indices = slot_run 1 first (length indices)
                   /\ (0 < length indices)%nat
                   /\ (forall idx, idx ∈ indices ->
                         (idx ∉ taken_slots Scenes2.one_in_the_middle "X_Y")
                         /\ 1 <= idx
                            < qsize (position_index
                                       (info_of Scenes2.one_in_the_middle "X_Y")))
                   /\ (forall pos p,
                         holds Scenes2.one_in_the_middle
                           (positions_all Scenes2.one_in_the_middle) pos p ->
                         pingpong_of "X_Y" p = true ->
                         getHighestMarketIndex p < first)
                   /\ (if false
                       then qsize indices
                            = order_dc (info_of Scenes2.one_in_the_middle "X_Y")
                            \/ qsize (position_index
                                        (info_of Scenes2.one_in_the_middle "X_Y")) - 1
                                 ∈ indices
                       else indices = [first])
          end.
Proof.
  split; [vm_compute; reflexivity|].
  apply (setNextHighest_takes_free_slots 2 "X_Y" SIDE_SELL false Scenes.T0
           Scenes2.one_in_the_middle).
  - vm_compute. reflexivity.
  - vm_compute. lia.
Defined.

End NextOrder.

(** ** The candidates of the diverge/converge check *)

Section Candidates.

Import EngineB.

Lemma indices_of_append market' idx m market'' :
  indices_of (append_index market' idx m) market''
  = if decide (market' = market'') then indices_of m market' ++ [idx]
    else indices_of m market''.
Proof.
  unfold indices_of, append_index. destruct (decide (market' = market'')) as [->|Hne].
  - by rewrite lookup_insert_eq.
  - by rewrite lookup_insert_ne.
Qed.

Lemma NoDup_snoc_app (a b : list Z) (x : Z) :
  NoDup (a ++ b) -> x ∉ a -> x ∉ b -> NoDup ((a ++ [x]) ++ b) /\ NoDup (a ++ b ++ [x]).
Proof.
  intros Hnd Ha Hb. split.
  - rewrite <- app_assoc. cbn. apply NoDup_app in Hnd as (Hna & Hdis & Hnb).
    apply NoDup_app. split; [done|]. split.
    + intros y Hy [->|Hyb]%elem_of_cons; [done|by apply (Hdis y)].
    + by constructor.
  - rewrite app_assoc. apply NoDup_app. split; [done|]. split; [|apply NoDup_singleton].
    intros y [Hy|Hy]%elem_of_app ->%list_elem_of_singleton; done.
Qed.

(** One more candidate to converge or to diverge, on either side. *)
Lemma dc_lists_sound_append e acc market' side' landmark idx :
  dc_lists_sound e acc ->
  dc_candidate e market' side' landmark idx ->
  (match side' with
   | SIDE_BUY => (idx ∉ indices_of (converge_buys acc) market')
                 /\ (idx ∉ indices_of (diverge_buys acc) market')
   | SIDE_SELL => (idx ∉ indices_of (converge_sells acc) market')
                  /\ (idx ∉ indices_of (diverge_sells acc) market')
   end) ->
  dc_lists_sound e
    (match side', landmark with
     | SIDE_BUY, false =>
         mkDCLists (append_index market' idx (converge_buys acc))
           (converge_sells acc) (diverge_buys acc) (diverge_sells acc)
     | SIDE_BUY, true =>
         mkDCLists (converge_buys acc) (converge_sells acc)
           (append_index market' idx (diverge_buys acc)) (diverge_sells acc)
     | SIDE_SELL, false =>
         mkDCLists (converge_buys acc)
           (append_index market' idx (converge_sells acc))
           (diverge_buys acc) (diverge_sells acc)
     | SIDE_SELL, true =>
         mkDCLists (converge_buys acc) (converge_sells acc) (diverge_buys acc)
           (append_index market' idx (diverge_sells acc))
     end).
Proof.
  intros Hs Hc Hnew m. destruct (Hs m) as (Hb & Hsl & Hcb & Hdb & Hcs & Hds).
  destruct side', landmark; cbn [converge_buys converge_sells diverge_buys
                                   diverge_sells];
    rewrite indices_of_append;
    (destruct (decide (market' = m)) as [->|Hne];
      [|by repeat split]);
    destruct Hnew as [Hn1 Hn2];
    (split; [|split; [|split; [|split; [|split]]]]); try done;
    try (by apply NoDup_snoc_app);
    intros i [Hi| ->%list_elem_of_singleton]%elem_of_app; auto.
Qed.

Lemma dc_step_sound t e hi acc pp :
  holds e (positions_all e) pp.1 pp.2 ->
  dc_lists_sound e acc ->
  dc_lists_sound e (dc_step t e hi acc pp).
Proof.
  intros Hh Hs. unfold dc_step.
  destruct (is_onetime pp.2) eqn:Hone; [done|].
  destruct (Z.ltb_spec (order_dc (info_of e (market pp.2))) 2) as [|Hdc]; [done|].
  assert (forall side' landmark,
            side pp.2 = side' -> is_cancelling pp.2 = false ->
            order_number pp.2 <> "" ->
            isIndexDivergingConverging e (market pp.2) (getLowestMarketIndex pp.2)
            = false ->
            is_landmark pp.2 = landmark ->
            dc_candidate e (market pp.2) side' landmark (getLowestMarketIndex pp.2))
    as Hcand.
  { intros side' landmark Hside Hcanc Hnum Hdcing Hlm.
    exists pp.1, pp.2. repeat split; try done.
    - by destruct Hh.
    - by destruct Hh.
    - unfold isIndexDivergingConverging, contains in Hdcing.
      by apply bool_decide_eq_false in Hdcing. }
  cbv zeta.
  match goal with
  | |- context [contains (indices_of (converge_sells ?a) _) _] =>
      assert (dc_lists_sound e a) as Hs1; [|set (acc1 := a) in *; clearbody acc1]
  end.
  { destruct (_ && _) eqn:Hcond; [|done].
    repeat (apply andb_true_iff in Hcond as [Hcond ?]).
    apply bool_decide_eq_true in Hcond.
    repeat match goal with
           | H : negb _ = true |- _ => apply negb_true_iff in H
           end.
    repeat match goal with
           | H : bool_decide _ = false |- _ => apply bool_decide_eq_false in H
           | H : contains _ _ = false |- _ =>
               unfold contains in H; apply bool_decide_eq_false in H
           end.
    destruct (is_landmark pp.2) eqn:Hlm; cbn [negb andb].
    - destruct (_ <? getHighestMarketIndex pp.2); [|done].
      by apply (dc_lists_sound_append e acc (market pp.2) SIDE_BUY true); auto.
    - destruct (getHighestMarketIndex pp.2 <? _); [|done].
      by apply (dc_lists_sound_append e acc (market pp.2) SIDE_BUY false); auto. }
  destruct (_ && _) eqn:Hcond; [|done].
  repeat (apply andb_true_iff in Hcond as [Hcond ?]).
  apply bool_decide_eq_true in Hcond.
  repeat match goal with
         | H : negb _ = true |- _ => apply negb_true_iff in H
         end.
  repeat match goal with
         | H : bool_decide _ = false |- _ => apply bool_decide_eq_false in H
         | H : contains _ _ = false |- _ =>
             unfold contains in H; apply bool_decide_eq_false in H
         end.
  destruct (is_landmark pp.2) eqn:Hlm; cbn [negb andb].
  - destruct (getLowestMarketIndex pp.2 <? _); [|done].
    by apply (dc_lists_sound_append e acc1 (market pp.2) SIDE_SELL true); auto.
  - destruct (_ <? getLowestMarketIndex pp.2); [|done].
    by apply (dc_lists_sound_append e acc1 (market pp.2) SIDE_SELL false); auto.
Qed.

(** X23.  The candidates [onCheckDivergeConverge] collects.  For every
    market the indices it hands to [converge] and to [diverge] are distinct,
    no index is both to be converged and to be diverged on a side, and each
    is the lowest slot of a ping-pong order of that market and side that is
    set, is not being cancelled and is not already being diverged or
    converged: an order that is no landmark for [converge], a landmark for
    [diverge]. *)
Theorem dc_candidates_are_distinct t e : dc_lists_sound e (dc_candidates t e).
Proof.
  unfold dc_candidates.
  set (hi := foldl hi_buy_idx_step _ _). clearbody hi.
  assert (forall l acc,
            (forall pp, pp ∈ l -> holds e (positions_all e) pp.1 pp.2) ->
            dc_lists_sound e acc ->
            dc_lists_sound e (foldl (dc_step t e hi) acc l)) as Hfold.
  { induction l as [|pp l IH]; intros acc Hl Hacc; cbn [foldl]; [done|].
    apply IH.
    - intros pp' Hpp'. apply Hl. apply elem_of_cons. by right.
    - apply dc_step_sound; [|done]. apply Hl. apply elem_of_cons. by left. }
  apply Hfold.
  - intros [pos p] Hpp. by apply elem_of_positions_in.
  - intros m. cbn. unfold indices_of. rewrite !lookup_empty. cbn.
    repeat split; try constructor; by intros idx ?%elem_of_nil.
Qed.

End Candidates.
